(* ===== verification/_CoqProject ===== *)
-Q . S2P
Prelude.v
CString.v
Binary64.v
Json.v
Kinds.v
Strtod.v
Rounding.v
Calendar.v
JsonInput.v
LedgerInput.v
TokenUtils.v
RateLimiter.v
Db.v
Env.v
Sigv4Signer.v
World.v
ItemService.v
ReceiptService.v
ReferenceData.v
AuthService.v
Http.v
Routes.v
Rows.v
Views.v
ScanWorker.v
Anthropic.v
ScanServices.v
Startup.v
Invariant.v
Statements.v
Safety.v
OwnRows.v
OwnStatements.v
Blind.v
Confidential.v
ScanSafety.v
ScanQueue.v
ScanWrites.v
Constraints.v
Pipeline.v
Examples.v
RowTheorems.v
SystemTheorems.v
ScanTheorems.v
ScanCompletes.v
ServiceTheorems.v
LedgerTheorems.v
AuthTheorems.v
StorageTheorems.v
ItemTheorems.v
ViewTheorems.v
Network.v
NetworkTheorems.v
ReplyTheorems.v
Schema.v
Replies.v
EndToEnd.v
Harness.v
HarnessMain.v
HarnessTheorems.v
DraftScores.v
RouteTheorems.v
Transactions.v
TxServices.v
TxAlone.v
Interleave.v
TxLogic.v
TxAssertions.v
TxLedger.v
TxPhotos.v
TxRemovals.v
TxReference.v
TxWorker.v
TxScans.v
TxTheorems.v
Divergences.v
