(* ===== verification/Prelude.v ===== *)
(** * Receipt scanner: a verification library

    The program (src/src/) is an HTTP service that keeps a ledger of receipts per
    user.  Photographs are uploaded, normalised and stored; a background worker has
    each receipt scanned by a model service and writes the result; the user corrects
    it, enters other transactions by hand and keeps lists of categories, tags and
    payment methods.  This library translates that code into executable definitions
    and proves what it promises: no user can touch another's rows or learn what they hold,
    nothing a scan does overrides what the user has reviewed, nothing counts as spend or
    income but by the user's hand, every call is all or nothing, the tables stay
    consistent however requests and scans are ordered, and what the locks are for holds
    however their single statements interleave.

    ** How the parts fit together

    - [main] (file Startup) initialises the libraries, configures the server and starts
      the scan worker's timer.
    - A request is routed by the tables of the controllers' headers (file Routes) to a
      handler (file Http), behind the session filter for the authenticated routes, and
      the handler calls one method of a service:
      ReceiptService, ItemService, the three services of ReferenceDataService, or
      AuthService (files ReceiptService, ItemService, ReferenceData, AuthService).
    - The services read the body with the parsers of LedgerInput, which use the field
      readers of JsonInput and the kind table of Kinds; they run SQL on the tables of
      db/migrations (file Db) and put images into the object store (Sigv4Signer holds
      the S3 implementation, Env the image normaliser).
    - The scan worker (file ScanWorker) shares those tables with the services: an
      upload queues a receipt by its scan_state; a tick re-queues what hangs and
      claims what is queued; [process] fetches the images, calls the provider,
      validates its answer and writes it, or books the failure.
    - The provider is the interface [ScanProvider].  AnthropicScanProvider (file
      Anthropic) builds a request with a prompt and an output schema, sends it with
      retries, reads the reply and scans a second time when the items do not add up;
      FakeScanProvider answers with a canned result.  ScanServices chooses one of them
      from the environment and checks the time-outs against the worker's.
    - File Pipeline lets all of it run interleaved: requests, account calls, the passing
      of time, ticks of any number of workers, crashes, and the scans in flight.  A scan
      may be suspended between any two queries of the tables, between two photographs, before
      and after the provider's call, and between its comparison and its write; a
      request, a claim, a re-queueing and the write of a result are one step each.  File
      Transactions goes one level down: there the transactions of requests and of the
      worker run statement by statement beside each other, with the locks that keep
      them apart.

    ** The model

    A C++ call is a function to [outcome]: it returns, throws one of the exceptions
    of [exn], or runs into undefined behaviour ([UB]).  Service code is a computation
    in the monad [M] of file World over the tables, the object store, a counter of
    random draws, a clock, the notifications sent and the rate limiters' counters.
    One [execSqlCoro] is one function on [Db] next to the method that issues it;
    a Drogon transaction is [transactionE].  Each table is a finite map from ids with
    its sequence; CHECK, UNIQUE and FOREIGN KEY constraints are guards of the
    statements, ON DELETE actions part of the deletes.  int64 and double are kept at
    their width (Binary64 for doubles, explicit range tests for integers), strings
    are byte strings.

    Code outside the source is a class whose fields are what the program calls, with
    the documented facts it relies on: [Postgres] and [TimestampText] (casts, lower(),
    similarity(), the text of timestamps, clock_timestamp() as it is read for one row
    after another), [RowText] (values as text and Drogon's
    conversions of them), [Drogon] (which registered route a request selects), [Libraries]
    (sodium_init and VIPS_INIT), [Files], [Sodium] (hashes, random bytes, password
    hashing), [Vips], [ImageStore] and [HttpClient], [Environment], [Platform]
    (std::llround outside its range), [JsonText] (parsing and dumping), [Base64],
    [EventLoop] (what happens on the network during a pause).  [ScanProvider],
    [MerchantMatcher] and [Notifier] are the program's own interfaces: the worker's
    theorems hold for any implementation; a provider may answer each call differently.
    File Examples gives one concrete choice for each and a small run the witnesses
    evaluate on.

    ** Files, code and theorems

    - Prelude, CString, Binary64, Strtod, Json, Calendar: outcomes, record update, and
      the parts of the C++ library the code uses.
    - Rounding: the operations on doubles round correctly; hundredths survive being
      written as decimals and read back; arithmetic on whole numbers is exact.
    - Kinds: receipts/Kinds.h, Kinds.cpp, ReceiptStates.h.
    - JsonInput, LedgerInput: the files of the same names in receipts/.  A PATCH is
      shown to implement the relational specification [patch_spec], to be idempotent
      and to keep receipts valid; the parsers throw nothing but client errors and the
      one exception of std::stoi.
    - TokenUtils, RateLimiter, Env, Sigv4Signer: auth/TokenUtils.cpp,
      auth/RateLimiter.h, config/Env.h with storage/ImageNormalizer.cpp,
      storage/Sigv4Signer.cpp with storage/S3ImageStore.cpp.  The limiter lets at most
      twice its maximum through in any window.
    - Db, World: the schema, the monad and its weakest-precondition rules.
    - ItemService, ReceiptService, ReferenceData, AuthService, Http, ScanWorker: the
      services, the handlers and the worker.
    - Anthropic, ScanServices: scan/AnthropicScanProvider.cpp, FakeScanProvider.cpp,
      ScanServices.cpp and ScanWorkerConfig::fromEnv.
    - Routes: the METHOD_LIST tables of the five controllers, filters and [http], the
      server on one request.  Startup: main.cpp, auth/SodiumInit.cpp,
      storage/VipsInit.cpp.
    - Rows: the SELECT lists of the queries, the rows they send as text,
      receipts/RowValues.h and the rowTo... functions.  The services' files start from the
      records these return; RowTheorems shows that they do.
    - Views: the five views of the schema.
    - Harness, HarnessMain: tools/golden_harness.cpp, the scoring of one case and [main].
    - Invariant ([db_ok], [evolves]), Statements (one lemma per SQL statement), Safety
      (every service call) and ScanSafety (every statement of the worker): the
      invariant of the tables and the ownership of rows, proved bottom up.
    - OwnRows ([own_rows], one user's part of the tables), OwnStatements (every statement
      does to that part what it does to the whole), Blind (the judgement [blind], its rules
      and hints) and Confidential (every service call): what a call of one user returns and
      leaves of his rows does not depend on anybody else's.
    - ScanQueue, ScanWrites: the functional facts about the worker's statements.
    - Constraints: the unique indexes, the references to users and the constraints of
      the account tables ([constraints_ok]), kept by every ledger call, account call and
      statement of the worker.
    - Pipeline: [jstep], [step], [full_step], [reachable]; every step keeps [sys_ok].
    - SystemTheorems: the schema's constraints in every run, tenant isolation of
      requests and scans, that writing a result is defined in every reachable state, and that
      [process] refines the step relation.
    - ScanTheorems: what a tick claims, that claims supersede each other and stale
      ones are inert, what the two write modes leave behind, how failures are counted
      and that retrying ends.
    - ServiceTheorems, LedgerTheorems, ItemTheorems: atomicity, the image cap,
      repeated uploads; entries, edits, deletion, paging, access to images; item edits.
    - AuthTheorems: registration, login, sliding sessions, password reset.
    - RouteTheorems: no protected route without a session; noninterference of the whole
      server, from the request to the response.
    - ViewTheorems: what the views list is what the user has reviewed, whatever ticks,
      scans and crashes happen; what a manual entry adds to every sum.
    - StorageTheorems: a signature covers one request, object keys survive encoding.
    - Network runs the adapter over a network with a log of exchanges and pauses;
      NetworkTheorems: how often a request is repeated and whom a failure is blamed on,
      that the second scan is best effort, and that a configuration which passes the
      start-up check keeps a call within its claim.
    - ReplyTheorems: which replies end in which exception.  Schema: a reference
      definition of JSON Schema, and that every reply valid under the schema of the
      request is read.  Replies: a faithful reply is valid and reads back, cent for cent.
    - ScanCompletes: a scan that gets a valid answer is written.  EndToEnd composes worker
      and adapter: a faithful reply about a photograph becomes the entry it describes.
    - Transactions: transactions as programs of statements, row and advisory locks, a
      machine that runs any number of them under any schedule.  TxServices and TxWorker
      give the writing methods of the services and of the worker as such programs; TxAlone
      shows that alone they are those methods.
    - Interleave: the invariant of the machine and its rely-guarantee proof; TxLogic, the
      rules; TxAssertions, what a transaction may have written by its commit; TxLedger,
      TxPhotos, TxRemovals, TxReference, TxScans: every transaction keeps to it.
    - TxTheorems: whatever the schedule, the image cap and the dedup check hold
      (the advisory lock), categories stay on their side (FOR SHARE, FOR UPDATE), and a
      scan replaces the row it was compared with or none ([scan_replaces_last_row]).
    - HarnessTheorems: the greedy pairing counts the overlap of two multisets.
      DraftScores: the draft written for a scan scores full marks against that scan.
    - Divergences: inputs on which the code departs from its messages or comments.

    ** Bounds

    [apply_loop] has the two attempts the code has.  A receipt is scanned at most
    3 + 10 times before it is terminal ([retries_bounded], with the budgets of
    [default_config]).  [send_loop] counts the retries down, of which the configuration
    always allows two; its theorems hold up to four, where the back-off 2 << attempt
    still is below 30 seconds.  [valid] descends into a schema to a given depth; six
    levels cover the schema of the program, and its theorems hold for any depth.  No
    other definition uses fuel.

    ** What is not modelled

    - Drogon itself: matching a path, multipart bodies, the event loop; the normaliser's
      thread pool, which only decides on which thread an image is decoded.
    - The recurring_transactions table and the recurring columns, which no code uses yet;
      the column widths and digits of the harness's table and the time stamp in the name
      of its results file; the tests.
    - The texts of exceptions of the JSON library are abbreviated; logging is left out.
    - Drogon's HTTP client is a function of the request and the state of the network;
      that it ends a request by its time-out is what [startup_budget] relies on when it
      counts each exchange with the time-out.
    - In Pipeline a service method is one step, and so are a claim, a re-queueing and the
      write of a scan.  Their statements interleave in Transactions, whose
      tasks are the writing requests of the ledger and the worker's writes, but not
      the account calls (users, sessions, tokens, and the lists a new user begins with).
      There a transaction does
      not wait for a duplicate in a unique index, and a statement that waits
      is evaluated when it stops waiting (see that file's header).
    - Text parameters are ones Postgres accepts (no NUL byte), the INTEGER counters do
      not overflow, and a SELECT ... LIMIT 1 without an order gives the row the map
      lists first.  Timestamps are integers of microseconds, except in RateLimiter. *)

From stdpp Require Export base tactics option list strings gmap.
From Stdlib Require Export ZArith Lia.
From Stdlib Require Import Ascii.
#[export] Set Default Goal Selector "!".
Open Scope Z_scope.

(** ** Exceptions and outcomes

    A C++ call ends in one of three ways: it returns, it throws, or it runs
    into undefined behaviour.  The classes are those of
    src/src/receipts/Errors.h, src/src/scan/ScanProvider.h,
    src/src/auth/AuthService.h and src/src/storage/ImageNormalizer.h, and the
    standard or library exceptions the code lets through. *)
Inductive exn :=
| NotFoundError (what : string)
| ReceiptNotFoundError
| ValidationError (what : string)
| ConflictError (what : string)
| TooManyImagesError
| ImageDecodeError (what : string)
| ScanError (what : string)
| DuplicateEmailError
| InvalidArgument (what : string)
| OutOfRange (what : string)
| LogicError (what : string)
| JsonException (what : string)
| DbError (what : string)
| RuntimeError (what : string).

#[export] Instance exn_eq_dec : EqDecision exn.
Proof. solve_decision. Defined.

(** [std::exception::what()]. *)
Definition what (e : exn) : string :=
  match e with
  | NotFoundError w | ValidationError w | ConflictError w | ImageDecodeError w
  | ScanError w | InvalidArgument w | OutOfRange w | LogicError w
  | JsonException w | DbError w | RuntimeError w => w
  | ReceiptNotFoundError => "receipt not found"
  | TooManyImagesError => "image cap exceeded"
  | DuplicateEmailError => "email already registered"
  end.

Inductive outcome (A : Type) :=
| Ok (a : A)
| Throw (e : exn)
| UB (why : string).
Arguments Ok {A} a.
Arguments Throw {A} e.
Arguments UB {A} why.

#[export] Instance outcome_eq_dec {A} `{EqDecision A} : EqDecision (outcome A).
Proof. solve_decision. Defined.

Definition obind {A B} (k : A -> outcome B) (m : outcome A) : outcome B :=
  match m with
  | Ok a => k a
  | Throw e => Throw e
  | UB w => UB w
  end.

Declare Scope outcome_scope.
Delimit Scope outcome_scope with outcome.
Notation "'let*' x ':=' c 'in' k" := (obind (fun x => k) c)
  (at level 10, x pattern, c at level 100, k at level 200,
   format "'[v' 'let*'  x  ':='  c  'in' '/' k ']'") : outcome_scope.
Notation "c1 ;;; c2" := (obind (fun _ => c2) c1)
  (at level 100, right associativity) : outcome_scope.

(** [for (x : xs) acc = f(acc, x)] with a body that may throw. *)
Fixpoint ofold {A B} (f : A -> B -> outcome A) (acc : A) (xs : list B) : outcome A :=
  match xs with
  | [] => Ok acc
  | x :: xs => obind (fun acc' => ofold f acc' xs) (f acc x)
  end.

Lemma obind_Ok {A B} (k : A -> outcome B) m b :
  obind k m = Ok b <-> exists a, m = Ok a /\ k a = Ok b.
Proof.
  split; [|by intros (a & -> & H)].
  destruct m as [a| |]; simpl; [by exists a|done..].
Qed.

Lemma obind_assoc {A B C} (f : A -> outcome B) (g : B -> outcome C) m :
  obind g (obind f m) = obind (fun a => obind g (f a)) m.
Proof. by destruct m. Qed.

Definition is_ok {A} (m : outcome A) : bool :=
  match m with Ok _ => true | _ => false end.

(** Whether a computation ends without undefined behaviour and, when it throws,
    only with an exception accepted by [P]. *)
Definition throws_only {A} (P : exn -> Prop) (m : outcome A) : Prop :=
  match m with
  | Ok _ => True
  | Throw e => P e
  | UB _ => False
  end.

Lemma throws_only_Ok {A} P (a : A) : throws_only P (Ok a).
Proof. done. Qed.

Definition is_validation (e : exn) : Prop :=
  exists w, e = ValidationError w.

Lemma throws_only_bind {A B} P (k : A -> outcome B) m :
  throws_only P m -> (forall a, m = Ok a -> throws_only P (k a)) ->
  throws_only P (obind k m).
Proof. destruct m; simpl; auto. Qed.

Lemma throws_only_ofold {A B} P (f : A -> B -> outcome A) xs acc :
  (forall a x, throws_only P (f a x)) -> throws_only P (ofold f acc xs).
Proof.
  intros Hf. revert acc. induction xs as [|x xs IH]; intros acc; simpl; [done|].
  apply throws_only_bind; auto.
Qed.

(** Invert a chain of binds that returned. *)
Ltac ok_inv :=
  repeat match goal with
  | H : obind _ _ = Ok _ |- _ =>
      let a := fresh "a" in let Ha := fresh "Ha" in
      apply obind_Ok in H as (a & Ha & H)
  | H : Ok _ = Ok _ |- _ => injection H as H; try subst
  | H : Throw _ = Ok _ |- _ => discriminate H
  | H : UB _ = Ok _ |- _ => discriminate H
  end.

(** Split on the scrutinee of the first [if] or [match] of [H]. *)
Ltac case_in H :=
  match type of H with
  | context [match ?x with _ => _ end] =>
      let E := fresh "E" in destruct x eqn:E
  end.

(** ** Record update

    [r <| f := v |>] is [r] with field [f] replaced by [v].  A record type says
    how it is rebuilt from its fields once (its [Eta] instance); the setter of a
    field is found from there. *)
Class Eta (R : Type) := eta : R -> R.
Class Setter {R A} (f : R -> A) := set_field : (A -> A) -> R -> R.
Arguments set_field {R A} f {_} _ _ / : simpl nomatch.

Ltac head_of t := lazymatch t with ?f _ => head_of f | _ => t end.
Ltac solve_setter :=
  lazymatch goal with
  | |- @Setter ?R _ ?f =>
      let upd := fresh "upd" in let r := fresh "r" in
      intros upd r;
      let i := constr:(_ : Eta R) in
      let i := eval cbv beta in i in
      let ih := head_of i in
      let e := eval cbv beta delta [ih] in (i r) in
      let g := eval pattern (f r) in e in
      lazymatch g with
      | ?h _ => let t := eval cbv beta in (h (upd (f r))) in exact t
      end
  end.
#[export] Hint Extern 1 (@Setter _ _ _) => solve_setter : typeclass_instances.

Declare Scope record_scope.
Delimit Scope record_scope with record.
Open Scope record_scope.
Notation "r <| f := v |>" := (set_field f (fun _ => v) r)
  (at level 1, left associativity, format "r  <| f  :=  v |>") : record_scope.
Notation "r <| f ::= u |>" := (set_field f u r)
  (at level 1, left associativity, format "r  <| f  ::=  u |>") : record_scope.

(** Writing back the current value changes nothing (by cases on the record). *)
Class SetterSame {R A} (f : R -> A) {S : Setter f} := setter_same r : set_field f (fun _ => f r) r = r.
#[export] Hint Extern 1 (SetterSame _) => (intros r; destruct r; reflexivity) : typeclass_instances.
