(* ===== verification/CString.v ===== *)
(** * Characters, strings and integers of the C++ standard library

    The parts of <cctype>, <string> and <algorithm> the program uses, on bytes
    ([ascii]) and byte strings ([string]).  <cctype> is modelled in the "C"
    locale, the one a program runs in unless it calls setlocale. *)
From Stdlib Require Import Ascii.
From stdpp Require Import pretty.
From S2P Require Import Prelude.

Abbreviation chars := String.list_ascii_of_string.
Abbreviation of_chars := String.string_of_list_ascii.

Definition byte_of (c : ascii) : Z := Z.of_N (N_of_ascii c).
Definition char_in (lo hi : Z) (c : ascii) : bool := (lo <=? byte_of c) && (byte_of c <=? hi).

Definition isspace (c : ascii) : bool := char_in 9 13 c || (byte_of c =? 32).
Definition isdigit (c : ascii) : bool := char_in 48 57 c.
Definition isupper (c : ascii) : bool := char_in 65 90 c.
Definition islower (c : ascii) : bool := char_in 97 122 c.
Definition isalpha (c : ascii) : bool := isupper c || islower c.
Definition isalnum (c : ascii) : bool := isalpha c || isdigit c.
Definition char_of (z : Z) : ascii := ascii_of_N (Z.to_N z).
Definition toupper (c : ascii) : ascii := if islower c then char_of (byte_of c - 32) else c.
Definition tolower (c : ascii) : ascii := if isupper c then char_of (byte_of c + 32) else c.

(** [std::all_of] over a string, and [std::transform] in place. *)
Definition all_chars (p : ascii -> bool) (s : string) : bool := forallb p (chars s).
Definition map_chars (f : ascii -> ascii) (s : string) : string := of_chars (map f (chars s)).
Definition size (s : string) : Z := Z.of_nat (String.length s).

(** [s.substr(pos, n)] for a [pos] within the string. *)
Definition substr (pos n : nat) (s : string) : string := String.substring pos n s.

(** The length of the longest prefix satisfying [p] ([std::find_if_not]). *)
Fixpoint span_len (p : ascii -> bool) (l : list ascii) : nat :=
  match l with
  | c :: l' => if p c then S (span_len p l') else O
  | [] => O
  end.

(** Ranges of the integer types. *)
Definition int32_ok (z : Z) : bool := (- 2 ^ 31 <=? z) && (z <? 2 ^ 31).
Definition int64_max : Z := 2 ^ 63 - 1.
Definition int64_min : Z := - 2 ^ 63.
Definition int64_ok (z : Z) : bool := (int64_min <=? z) && (z <=? int64_max).

(** Signed [a + b] on int64: undefined on overflow. *)
Definition add64 (a b : Z) : outcome Z :=
  if int64_ok (a + b) then Ok (a + b) else UB "signed overflow".
(** [std::llabs]: undefined when the magnitude is not an int64. *)
Definition llabs (a : Z) : outcome Z :=
  if int64_ok (Z.abs a) then Ok (Z.abs a) else UB "llabs overflow".
(** [static_cast<unsigned>(int)] and [unsigned char(unsigned)]. *)
Definition to_unsigned (z : Z) : Z := z mod 2 ^ 32.
Definition to_uchar (z : Z) : Z := z mod 2 ^ 8.

(** [std::stoi] and [std::stoll], base 10: skip white space, an optional sign, then as many
    digits as there are. *)
Fixpoint digits_value (acc : Z) (l : list ascii) : Z :=
  match l with
  | c :: l' => if isdigit c then digits_value (10 * acc + (byte_of c - 48)) l' else acc
  | [] => acc
  end.
Definition strto (fits : Z -> bool) (fn s : string) : outcome Z :=
  let l := drop (span_len isspace (chars s)) (chars s) in
  let '(neg, l) :=
    match l with
    | c :: l' => if byte_of c =? 45 then (true, l') else if byte_of c =? 43 then (false, l') else (false, l)
    | [] => (false, l)
    end in
  match l with
  | c :: _ =>
      if isdigit c
      then let v := if (neg : bool) then - digits_value 0 l else digits_value 0 l in
           if fits v then Ok v else Throw (OutOfRange fn)
      else Throw (InvalidArgument fn)
  | [] => Throw (InvalidArgument fn)
  end.
Definition stoi : string -> outcome Z := strto int32_ok "stoi".
Definition stoll : string -> outcome Z := strto int64_ok "stoll".

(** [std::to_string] of an integer. *)
Definition to_string (z : Z) : string := pretty z.

(** [hay.find(needle) != npos]. *)
Definition contains (needle hay : string) : bool :=
  match String.index 0 needle hay with Some _ => true | None => false end.

(** ** Lemmas *)
Lemma of_chars_chars s : of_chars (chars s) = s.
Proof. apply String.string_of_list_ascii_of_string. Qed.
Lemma chars_of_chars l : chars (of_chars l) = l.
Proof. apply String.list_ascii_of_string_of_list_ascii. Qed.
Lemma chars_inj s1 s2 : chars s1 = chars s2 -> s1 = s2.
Proof. intros H. by rewrite <- (of_chars_chars s1), H, of_chars_chars. Qed.
Lemma chars_app s1 s2 : chars (s1 +:+ s2) = chars s1 ++ chars s2.
Proof.
  induction s1 as [|c s1 IH]; [done|].
  change (c :: chars (s1 +:+ s2) = c :: (chars s1 ++ chars s2)). by f_equal.
Qed.
Lemma length_chars s : length (chars s) = String.length s.
Proof. induction s; cbn; congruence. Qed.
Lemma chars_map_chars f s : chars (map_chars f s) = map f (chars s).
Proof. apply chars_of_chars. Qed.

Create Rewrite HintDb chars.
#[export] Hint Rewrite of_chars_chars chars_of_chars chars_app chars_map_chars : chars.

(** A property of all 256 bytes, by computation. *)
Definition all_bytes (p : ascii -> bool) : bool :=
  forallb (fun n => p (ascii_of_nat n)) (seq 0 256).
Lemma all_bytes_spec p : all_bytes p = true -> forall c, p c = true.
Proof.
  intros H c. unfold all_bytes in H. rewrite forallb_forall in H.
  rewrite <- (ascii_nat_embedding c). apply H, in_seq.
  pose proof (nat_ascii_bounded c). lia.
Qed.
Lemma byte_of_range c : 0 <= byte_of c < 256.
Proof. unfold byte_of. pose proof (N_ascii_bounded c). lia. Qed.
Lemma isalpha_toupper c : isalpha c = true -> isupper (toupper c) = true.
Proof.
  enough (implb (isalpha c) (isupper (toupper c)) = true) as H by by destruct (isalpha c).
  revert c. apply all_bytes_spec. reflexivity.
Qed.
Lemma toupper_upper c : isupper c = true -> toupper c = c.
Proof.
  intros H. unfold toupper. replace (islower c) with false; [done|].
  revert H. unfold isupper, islower, char_in. destruct (byte_of_range c). 
  destruct (Z.leb_spec 97 (byte_of c)); [|done]. destruct (Z.leb_spec (byte_of c) 90); [lia|].
  by rewrite andb_false_r.
Qed.
Lemma tolower_idem c : tolower (tolower c) = tolower c.
Proof.
  apply (bool_decide_eq_true_1 (tolower (tolower c) = tolower c)).
  revert c. apply all_bytes_spec. vm_compute. reflexivity.
Qed.

Lemma span_len_le p l : (span_len p l <= length l)%nat.
Proof. induction l as [|c l IH]; simpl; [lia|]. destruct (p c); lia. Qed.
Lemma span_len_stop p l c : l !! span_len p l = Some c -> p c = false.
Proof. induction l as [|d l IH]; simpl; [done|]. destruct (p d) eqn:E; [exact IH|]. by intros [= <-]. Qed.
Lemma span_len_0 p c l : p c = false -> span_len p (c :: l) = O.
Proof. simpl. by intros ->. Qed.
Lemma span_len_all p l : span_len p l = length l <-> forallb p l = true.
Proof.
  induction l as [|c l IH]; simpl; [done|]. destruct (p c); simpl; [|done].
  rewrite <- IH. split; [by intros [=]|by intros ->].
Qed.

Lemma int64_ok_spec z : int64_ok z = true <-> int64_min <= z <= int64_max.
Proof. unfold int64_ok. rewrite andb_true_iff, !Z.leb_le. done. Qed.
