(* ===== verification/Binary64.v ===== *)
(** * IEEE binary64: the [double] of the program

    Values and operations are the Standard Library's executable specification
    of IEEE arithmetic (SpecFloat) at precision 53 and exponent bound 1024, with
    round-to-nearest-even, which is what C++ [double] is on every platform the
    program targets. *)
From Stdlib Require Import SpecFloat.
From S2P Require Import Prelude CString.

Abbreviation double := spec_float.

#[export] Instance double_eq_dec : EqDecision double.
Proof. solve_decision. Defined.

Definition prec : Z := 53.
Definition emax : Z := 1024.

(** [m * 2^e], rounded; [static_cast<double>(int64_t)] is [of_int]. *)
Definition make (m e : Z) : double := binary_normalize prec emax m e false.
Definition of_int (z : Z) : double := make z 0.
Definition dmul : double -> double -> double := SFmul prec emax.
Definition ddiv : double -> double -> double := SFdiv prec emax.
Definition dltb : double -> double -> bool := SFltb.
Definition dleb : double -> double -> bool := SFleb.
Definition deqb : double -> double -> bool := SFeqb.
(** [std::max(a, b)]: [(a < b) ? b : a]. *)
Definition dmax (a b : double) : double := if dltb a b then b else a.

Definition isfinite (d : double) : bool :=
  match d with
  | S754_zero _ | S754_finite _ _ _ => true
  | S754_infinity _ | S754_nan => false
  end.

Definition dzero : double := S754_zero false.

(** The magnitude of [m * 2^e] rounded to an integer, halves away from zero. *)
Definition round_half_away (m e : Z) : Z :=
  if 0 <=? e then Z.shiftl m e else (m + Z.shiftl 1 (- e - 1)) / Z.shiftl 1 (- e).

(** [std::llround].  Outside the range of [long long], and on infinities and
    NaN, the C standard leaves the result unspecified: it is a parameter of the
    platform, an int64 value. *)
Class Platform := {
  llround_unspecified : double -> Z;
  llround_unspecified_int64 d : int64_ok (llround_unspecified d) = true
}.

Definition llround `{Platform} (d : double) : Z :=
  match d with
  | S754_zero _ => 0
  | S754_finite s m e =>
      let n := round_half_away (Zpos m) e in
      let r := if s then - n else n in
      if int64_ok r then r else llround_unspecified d
  | S754_infinity _ | S754_nan => llround_unspecified d
  end.

(** The platform of the witnesses: x86-64 returns the most negative value. *)
Definition x86_platform : Platform :=
  {| llround_unspecified _ := int64_min; llround_unspecified_int64 _ := eq_refl |}.

(** ** Lemmas *)

Lemma round_half_away_nonneg m e : 0 <= m -> 0 <= round_half_away m e.
Proof.
  intros Hm. unfold round_half_away. destruct (Z.leb_spec 0 e).
  - by apply Z.shiftl_nonneg.
  - rewrite !Z.shiftl_1_l. apply Z.div_pos; [|lia].
    pose proof (Z.pow_nonneg 2 (- e - 1)). lia.
Qed.

(** Rounding is to within one half: [2 |n * 2^-e - m| <= 2^-e]. *)
Lemma round_half_away_close m e : e < 0 ->
  2 * Z.abs (round_half_away m e * 2 ^ (- e) - m) <= 2 ^ (- e).
Proof.
  intros He. unfold round_half_away. destruct (Z.leb_spec 0 e); [lia|].
  rewrite !Z.shiftl_1_l.
  assert (Hp : 2 ^ (- e) = 2 * 2 ^ (- e - 1)).
  { rewrite <- Z.pow_succ_r by lia. f_equal. lia. }
  pose proof (Z.pow_pos_nonneg 2 (- e - 1)).
  set (h := 2 ^ (- e - 1)) in *. rewrite Hp.
  pose proof (Z.div_mod (m + h) (2 * h)). pose proof (Z.mod_pos_bound (m + h) (2 * h)). lia.
Qed.

Lemma llround_int64 `{Platform} d : int64_ok (llround d) = true.
Proof.
  destruct d as [| | |s m e]; simpl; try apply llround_unspecified_int64; [done|].
  case_match; [done|apply llround_unspecified_int64].
Qed.
