(* ===== verification/Json.v ===== *)
(** * JSON values, as nlohmann::json stores them

    One constructor per [value_t] the program meets.  An object is listed in
    the order the library iterates it (ascending keys, each once).  Parsing and
    dumping are the library's own and stay parameters of the definitions that
    use them; what is here is the data and its documented accessors. *)
From stdpp Require Import sorting.
From S2P Require Import Prelude CString Binary64.

#[warnings="-register-all"]
Inductive json :=
| JNull
| JBool (b : bool)
| JInteger (z : Z)   (* number_integer: an int64_t *)
| JUnsigned (n : Z)  (* number_unsigned: a uint64_t *)
| JFloat (d : double)
| JString (s : string)
| JArray (l : list json)
| JObject (m : list (string * json))
| JDiscarded.

(** [json::dump] (which throws on invalid UTF-8) and [json::parse]. *)
Class JsonText := {
  json_dump : json -> outcome string;
  json_parse : string -> outcome json
}.

(** An object built from an initializer list: the keys end up sorted. *)
Definition key_le (a b : string * json) : Prop := String.leb a.1 b.1 = true.
#[export] Instance key_le_dec : RelDecision key_le.
Proof. intros a b. unfold key_le. apply _. Defined.
Definition obj (m : list (string * json)) : json := JObject (merge_sort key_le m).
Definition nullable {A} (f : A -> json) (o : option A) : json :=
  match o with Some a => f a | None => JNull end.

Definition is_object (v : json) : bool := match v with JObject _ => true | _ => false end.
Definition is_array (v : json) : bool := match v with JArray _ => true | _ => false end.
Definition is_string (v : json) : bool := match v with JString _ => true | _ => false end.
Definition is_null (v : json) : bool := match v with JNull => true | _ => false end.
Definition is_number (v : json) : bool :=
  match v with JInteger _ | JUnsigned _ | JFloat _ => true | _ => false end.

Fixpoint assoc (key : string) (m : list (string * json)) : option json :=
  match m with
  | [] => None
  | (k, v) :: m' => if decide (k = key) then Some v else assoc key m'
  end.

(** [body.find(key)], with [None] for [end()]. *)
Definition find (key : string) (body : json) : option json :=
  match body with JObject m => assoc key m | _ => None end.
(** [body.contains(key)]. *)
Definition has (key : string) (body : json) : bool :=
  match find key body with Some _ => true | None => false end.
(** The keys [body.items()] goes through, for an object. *)
Definition keys (body : json) : list string :=
  match body with JObject m => map fst m | _ => [] end.

(** [value.get<double>()] of a number. *)
Definition get_double (v : json) : double :=
  match v with
  | JInteger z | JUnsigned z => of_int z
  | JFloat d => d
  | _ => dzero
  end.

(** Numbers as the library can hold them. *)
Definition num_wf (v : json) : Prop :=
  match v with
  | JInteger z => int64_min <= z <= int64_max
  | JUnsigned n => 0 <= n < 2 ^ 64
  | _ => True
  end.

Lemma has_find key body : has key body = true <-> is_Some (find key body).
Proof.
  unfold has. destruct (find key body) as [v|]; [|by split; [|intros []]].
  split; [by exists v|done].
Qed.
Lemma find_None_has key body : find key body = None <-> has key body = false.
Proof. unfold has. by destruct (find key body). Qed.
Lemma assoc_in key m : is_Some (assoc key m) <-> key ∈ map fst m.
Proof.
  induction m as [|[k v] m IH]; simpl.
  - split; [by intros []|by intros ?%elem_of_nil].
  - rewrite elem_of_cons. case_decide; [split; [auto|by eexists]|].
    rewrite IH. naive_solver.
Qed.
Lemma has_keys key body : has key body = true <-> key ∈ keys body.
Proof.
  rewrite has_find. destruct body; simpl; try (split; [by intros []|by intros ?%elem_of_nil]).
  apply assoc_in.
Qed.

(** Every number in a value is one the library can hold. *)
Fixpoint json_wf (v : json) : bool :=
  match v with
  | JInteger z => int64_ok z
  | JUnsigned n => (0 <=? n) && (n <? 2 ^ 64)
  | JArray l => forallb json_wf l
  | JObject m => forallb (fun kv => json_wf (snd kv)) m
  | _ => true
  end.

Lemma json_wf_num v : json_wf v = true -> num_wf v.
Proof.
  destruct v; simpl; try done; [by rewrite int64_ok_spec|].
  rewrite andb_true_iff, Z.leb_le, Z.ltb_lt. done.
Qed.
Lemma json_wf_find key body v : json_wf body = true -> find key body = Some v -> json_wf v = true.
Proof.
  destruct body as [| | | | | | |m|]; simpl; try done.
  induction m as [|[k w] m IH]; simpl; [done|]. rewrite andb_true_iff. intros [Hw Hm].
  case_decide; [by intros [= <-]|auto].
Qed.

(** ** Objects from initializer lists *)

Lemma assoc_elem key v m : NoDup (map fst m) -> assoc key m = Some v <-> (key, v) ∈ m.
Proof.
  induction m as [|[k w] m IH]; cbn; [by intros _; split; [|intros ?%elem_of_nil]|].
  intros [Hk Hm]%NoDup_cons. rewrite elem_of_cons, <- (IH Hm). case_decide as E.
  - subst. split; [intros [= ->]; by left|]. intros [[= ->]|H]; [done|]. destruct Hk. apply assoc_in. by eexists.
  - split; [by right|]. intros [[= -> ->]|H]; done.
Qed.
Lemma find_obj key m : NoDup (map fst m) -> find key (obj m) = assoc key m.
Proof.
  intros Hm. unfold obj. cbn [find]. pose proof (merge_sort_Permutation key_le m) as P.
  assert (Hm' : NoDup (map fst (merge_sort key_le m))) by (rewrite P; done).
  destruct (assoc key m) as [v|] eqn:E.
  - apply assoc_elem; [done|]. rewrite P. by apply assoc_elem.
  - destruct (assoc key (merge_sort _ _)) as [v|] eqn:E'; [|done]. apply assoc_elem in E'; [|done].
    rewrite P in E'. apply assoc_elem in E'; [|done]. congruence.
Qed.
Lemma keys_obj m : keys (obj m) ≡ₚ map fst m.
Proof. cbn. by rewrite merge_sort_Permutation. Qed.
