(* ===== verification/Kinds.v ===== *)
(** * Transaction kinds and the scan_state and source domains

    src/src/receipts/Kinds.h, Kinds.cpp and ReceiptStates.h. *)
From Stdlib Require Import Ascii.
From S2P Require Import Prelude CString.

(** A double quote and a line feed inside the texts below. *)
Definition dq : string := String (char_of 34) "".
Definition nl : string := String (char_of 10) "".

Record KindRules := mkKindRules {
  name : string;
  canonicalDirection : option string;
  allowsTaxDeductible : bool;
  canOffset : bool;
  isOffsetTarget : bool;
  usesIncomeCategories : bool;
  scanDocuments : string;
  scanTotal : string;
  scanRules : string
}.

Definition empty (s : string) : bool := bool_decide (s = ""%string).
Definition scannable (r : KindRules) : bool := negb (empty (scanDocuments r)).

Definition purchase_rules : KindRules :=
  mkKindRules "purchase" (Some "outflow") true false true false
    "a receipt, tax invoice or order confirmation for something bought"
    "the final amount paid, after discounts and including tax, surcharges and tips that are printed"
    "".
Definition refund_rules : KindRules :=
  mkKindRules "refund" (Some "inflow") false true false false
    "a return or refund docket from the business that sold something: money back for a return"
    "the amount refunded"
    "".
Definition reimbursement_rules : KindRules :=
  mkKindRules "reimbursement" (Some "inflow") false true false false
    "proof that someone (an employer, a friend) paid the user back for an expense: an expense app or claim marked reimbursed or paid, a remittance advice, a payment notification"
    "the amount actually paid back to the user for the expense shown, in the currency it was paid in, which may differ from the expense's own amount (e.g. after currency conversion); if a deposit covers several expenses, only this expense's share"
    ("merchant is whoever paid the user back (an employer, a friend, a perks program), or null if the documents don't name them; not the business where the expense was made. purchase_date is the date the money was paid back (null if only the expense date is shown)." +:+ nl +:+
     "- The items say what the money was paid back for, in the total's currency, and add up to the total. When the documents say what each part of the payment was for (a payment note such as " +:+ dq +:+ "pho" +:+ dq +:+ ", an expense claim that lists its lines), list one item per part, with the category that fits it. Otherwise (a lump sum, a vague note such as " +:+ dq +:+ "dinner" +:+ dq +:+ ", or expense lines that don't add up to the amount paid back), list exactly one item: name " +:+ dq +:+ "Reimbursement" +:+ dq +:+ ", amount equal to the total, category the one that best fits the expense.").
Definition income_rules : KindRules :=
  mkKindRules "income" (Some "inflow") false false false true
    "a payslip, pay advice or paycheck"
    "the NET pay (the take-home amount paid into the bank), never the gross"
    ("merchant and store_name_raw are the employer, and purchase_date is the pay date." +:+ nl +:+
     "- Exactly one item with informational=false: name " +:+ dq +:+ "Net pay" +:+ dq +:+ ", amount equal to the total." +:+ nl +:+
     "- Optionally, gross pay, tax withheld, superannuation and other deductions as separate items with informational=true and category null.").
Definition transfer_rules : KindRules :=
  mkKindRules "transfer" None false false false false "" "" "".

Definition kKinds : list KindRules :=
  [purchase_rules; refund_rules; reimbursement_rules; income_rules; transfer_rules].
(** The [static_assert] on the table: a kind the scanner may return has a direction. *)
Definition scannable_directed : bool :=
  forallb (fun rules => implb (scannable rules) (bool_decide (is_Some (canonicalDirection rules)))) kKinds.
Lemma scannable_directed_ok : scannable_directed = true.
Proof. reflexivity. Qed.
Definition kDirections : list string := ["inflow"; "outflow"]%string.
Definition kDefaultKind : string := "purchase".

(** The loop of [findKind]: the first row of that name. *)
Fixpoint find_rules (kind : string) (table : list KindRules) : option KindRules :=
  match table with
  | [] => None
  | rules :: table' => if decide (name rules = kind) then Some rules else find_rules kind table'
  end.
Definition findKind (kind : string) : option KindRules := find_rules kind kKinds.
Definition rulesFor (kind : string) : outcome KindRules :=
  match findKind kind with
  | Some rules => Ok rules
  | None => Throw (LogicError ("unknown kind: " +:+ kind))
  end.
Definition isKnownDirection (direction : string) : bool := bool_decide (direction ∈ kDirections).

(** [acc += (acc.empty() ? first : sep) + item] over a list. *)
Definition join_step (first sep : string) (acc item : string) : string :=
  acc +:+ (if empty acc then first else sep) +:+ item.
Definition kindNames : string :=
  fold_left (join_step "" ", ") (map name kKinds) ""%string.
Definition incomeKindsSqlList : string :=
  "(" +:+ fold_left (join_step "'" ", '")
    (map (fun r => name r +:+ "'") (filter (fun r => usesIncomeCategories r = true) kKinds)) "" +:+ ")".

(** ReceiptStates.h. *)
Module scan_state.
Definition kIdle : string := "idle".
Definition kUploaded : string := "uploaded".
Definition kScanning : string := "scanning".
Definition kScanFailed : string := "scan_failed".
Definition kAll : list string := [kIdle; kUploaded; kScanning; kScanFailed].
End scan_state.
Module source.
Definition kScanned : string := "scanned".
Definition kManual : string := "manual".
Definition kRecurring : string := "recurring".
Definition kAll : list string := [kScanned; kManual; kRecurring].
End source.

(** ** Lemmas *)

Lemma findKind_cases kind r : findKind kind = Some r ->
  (kind = "purchase" /\ r = purchase_rules) \/ (kind = "refund" /\ r = refund_rules) \/
  (kind = "reimbursement" /\ r = reimbursement_rules) \/ (kind = "income" /\ r = income_rules) \/
  (kind = "transfer" /\ r = transfer_rules).
Proof.
  unfold findKind, find_rules, kKinds. simpl name.
  repeat case_decide; intros [= <-]; subst; tauto.
Qed.
(** Case analysis over the five kinds, given that [kind] is one of them. *)
Ltac destruct_kind H :=
  apply findKind_cases in H as [[? ->]|[[? ->]|[[? ->]|[[? ->]|[? ->]]]]].
Lemma rulesFor_Ok kind r : rulesFor kind = Ok r <-> findKind kind = Some r.
Proof. unfold rulesFor. destruct (findKind kind); split; congruence. Qed.
Lemma rulesFor_known kind : is_Some (findKind kind) -> exists r, rulesFor kind = Ok r.
Proof. intros [r H]. exists r. by apply rulesFor_Ok. Qed.
Lemma isKnownDirection_spec d : isKnownDirection d = true <-> d = "inflow"%string \/ d = "outflow"%string.
Proof. unfold isKnownDirection, kDirections. rewrite bool_decide_eq_true, !elem_of_cons, elem_of_nil. tauto. Qed.

(** The static_assert of Kinds.h: a kind the scanner can classify has a fixed
    direction, so dereferencing it is defined. *)
Lemma scannable_has_direction kind r :
  findKind kind = Some r -> scannable r = true -> is_Some (canonicalDirection r).
Proof. intros H Hs. destruct_kind H; [by eexists..|discriminate Hs]. Qed.
Example kindNames_text : kindNames = "purchase, refund, reimbursement, income, transfer"%string.
Proof. vm_compute. reflexivity. Qed.
Example incomeKinds_text : incomeKindsSqlList = "('income')"%string.
Proof. vm_compute. reflexivity. Qed.
