(* ===== verification/Strtod.v ===== *)
(** * Doubles from and to text

    [std::stod] and [std::to_string(double)] of the C++ standard library, which the
    configuration readers and the retry delay of the model adapter use.  A decimal is
    converted with one correct rounding, as the library's [strtod] does. *)
From Stdlib Require Import Ascii SpecFloat.
From S2P Require Import Prelude CString Binary64.

(** The quotient of two positive integers, rounded once. *)
Definition ratio (m d : positive) : double :=
  let '(q, e, l) := SFdiv_core_binary prec emax (Zpos m) 0 (Zpos d) 0 in
  binary_round_aux prec emax false q e l.
(** [m * base^e]. *)
Definition scaled (base m e : Z) : double :=
  match m with
  | Zpos p => if 0 <=? e then of_int (m * base ^ e)
              else match base ^ (- e) with Zpos d => ratio p d | _ => S754_nan end
  | _ => dzero
  end.
(** Whether [d] is exactly [m * base^e]. *)
Definition is_exact (base m e : Z) (d : double) : bool :=
  match d with
  | S754_zero _ => m =? 0
  | S754_finite _ n x =>
      Zpos n * 2 ^ Z.max 0 x * base ^ Z.max 0 (- e) =? m * base ^ Z.max 0 e * 2 ^ Z.max 0 (- x)
  | _ => false
  end.
(** Below the smallest normal number, 2^-1022. *)
Definition tiny (d : double) : bool :=
  match d with
  | S754_zero _ => true
  | S754_finite _ n x => Zpos (digits2_pos n) + x <=? -1022
  | _ => false
  end.

(** ** strtod *)

Definition hex_value (c : ascii) : Z :=
  if isdigit c then byte_of c - 48 else byte_of (tolower c) - 87.
Definition isxdigit (c : ascii) : bool := isdigit c || char_in 97 102 (tolower c).
Definition digits_of (base : Z) (l : list ascii) : Z := fold_left (fun n c => n * base + hex_value c) l 0.
Definition span (p : ascii -> bool) (l : list ascii) : list ascii * list ascii :=
  (take (span_len p l) l, drop (span_len p l) l).

(** The digits of a mantissa, how many of them follow the point, and the rest; [None]
    without a digit. *)
Definition mantissa (p : ascii -> bool) (l : list ascii) : option (list ascii * Z * list ascii) :=
  let '(whole, rest) := span p l in
  let '(fraction, rest) :=
    match rest with
    | "."%char :: rest' => span p rest'
    | _ => ([], rest)
    end in
  match whole ++ fraction with
  | [] => None
  | ds => Some (ds, Z.of_nat (length fraction), rest)
  end.
(** An exponent part counts only with a digit in it. *)
Definition exponent (mark : ascii) (l : list ascii) : Z :=
  match l with
  | c :: l' =>
      if bool_decide (tolower c = mark) then
        let '(neg, l'') := match l' with
                           | "-"%char :: r => (true, r)
                           | "+"%char :: r => (false, r)
                           | r => (false, r)
                           end in
        let v := digits_of 10 (span isdigit l'').1 in
        if (neg : bool) then - v else v
      else 0
  | [] => 0
  end.
Definition word (w : string) (l : list ascii) : bool :=
  bool_decide (take (String.length w) (map tolower l) = chars w).

(** What [strtod] reads at the front of [l], without the sign; [ERANGE] is
    [out_of_range]. *)
Definition checked (base m e : Z) : outcome double :=
  let d := scaled base m e in
  if negb (isfinite d) || (tiny d && negb (is_exact base m e d)) then Throw (OutOfRange "stod") else Ok d.
Definition strtod_abs (l : list ascii) : outcome double :=
  let hex := match l with
             | "0"%char :: x :: r => if bool_decide (tolower x = "x"%char) then mantissa isxdigit r else None
             | _ => None
             end in
  match hex with
  | Some (ds, n, rest) => checked 2 (digits_of 16 ds) (exponent "p" rest - 4 * n)
  | None =>
      match mantissa isdigit l with
      | Some (ds, n, rest) => checked 10 (digits_of 10 ds) (exponent "e" rest - n)
      | None => if word "inf" l then Ok (S754_infinity false)
                else if word "nan" l then Ok S754_nan
                else Throw (InvalidArgument "stod")
      end
  end.
Definition stod (s : string) : outcome double :=
  let l := drop (span_len isspace (chars s)) (chars s) in
  match l with
  | "-"%char :: r => (let* d := strtod_abs r in Ok (SFopp d))%outcome
  | "+"%char :: r => strtod_abs r
  | _ => strtod_abs l
  end.

(** ** std::to_string(double), which prints with ["%f"] *)

(** [m * 2^e] in millionths, ties to even. *)
Definition millionths (m e : Z) : Z :=
  let n := m * 1000000 in
  if 0 <=? e then n * 2 ^ e
  else
    let d := 2 ^ (- e) in
    round_nearest_even (n / d) (new_location d (n mod d)).
Fixpoint pad_digits (width : nat) (n : Z) : list ascii :=
  match width with
  | O => []
  | S w => pad_digits w (n / 10) ++ [char_of (48 + n mod 10)]
  end.
Definition fixed6 (n : Z) : string :=
  to_string (n / 1000000) +:+ "." +:+ of_chars (pad_digits 6 (n mod 1000000)).
Definition double_to_string (d : double) : string :=
  match d with
  | S754_zero s => (if s then "-" else "") +:+ fixed6 0
  | S754_finite s m e => (if s then "-" else "") +:+ fixed6 (millionths (Zpos m) e)
  | S754_infinity s => (if s then "-inf" else "inf")
  | S754_nan => "nan"
  end.

(** ** Checks on literals *)

Example stod_decimal : stod " 23.50 AUD" = Ok (ddiv (of_int 2350) (of_int 100)).
Proof. vm_compute. reflexivity. Qed.
Example stod_exponent : stod "-1.25e2x" = Ok (of_int (-125)).
Proof. vm_compute. reflexivity. Qed.
Example stod_hex : stod "0x1.8p1" = Ok (of_int 3).
Proof. vm_compute. reflexivity. Qed.
Example stod_text : stod "Wed, 21 Oct" = Throw (InvalidArgument "stod").
Proof. vm_compute. reflexivity. Qed.
Example stod_overflow : stod "1e309" = Throw (OutOfRange "stod").
Proof. vm_compute. reflexivity. Qed.
Example stod_zero_x : stod "0x" = Ok dzero.
Proof. vm_compute. reflexivity. Qed.
Example to_string_third : double_to_string (ddiv (of_int (-1)) (of_int 3)) = "-0.333333"%string.
Proof. vm_compute. reflexivity. Qed.
Example to_string_default : double_to_string (ddiv (of_int 3) (of_int 10)) = "0.300000"%string.
Proof. vm_compute. reflexivity. Qed.
Example to_string_seconds : double_to_string (of_int 120) = "120.000000"%string.
Proof. vm_compute. reflexivity. Qed.
