(* ===== verification/Rounding.v ===== *)
(** * Correct rounding

    The result of a SpecFloat operation is the exact value, rounded to the nearest
    representable one: facts about [binary_round_aux], with exact values as a quotient
    [n / d] of integers times a power of two.  A location relates such a value to the
    integer below it. *)
From Stdlib Require Import SpecFloat.
From S2P Require Import Prelude CString Binary64.

(** [m] is the integer part of [n / d] and [l] says where in its unit the rest lies. *)
Definition located (m : Z) (l : location) (n d : Z) : Prop :=
  0 < d /\ 0 <= m /\ 0 <= n - m * d < d /\
  match l with
  | loc_Exact => n = m * d
  | loc_Inexact c => 0 < n - m * d /\ (2 * (n - m * d) ?= d) = c
  end.

Lemma located_exact m : 0 <= m -> located m loc_Exact m 1.
Proof. unfold located. lia. Qed.
Lemma new_location_located n d : 0 <= n -> 0 < d -> located (n / d) (new_location d (n mod d)) n d.
Proof.
  intros Hn Hd. pose proof (Z.div_mod n d ltac:(lia)) as E. pose proof (Z.mod_pos_bound n d Hd) as B.
  assert (n - n / d * d = n mod d) as Er by lia. pose proof (Z.div_pos n d Hn Hd).
  unfold located. rewrite Er. split; [done|split; [done|split; [done|]]].
  unfold new_location, new_location_even, new_location_odd.
  destruct (Z.even d) eqn:Ed; destruct (Z.eqb_spec (n mod d) 0) as [E0|N0]; cbn [Z.eqb]; try lia; (split; [lia|]).
  - done.
  - assert (Odd : Z.odd d = true) by by rewrite <- Z.negb_even, Ed. apply Z.odd_spec in Odd as [k Hk].
    destruct (Z.compare_spec (2 * (n mod d) + 1) d); destruct (Z.compare_spec (2 * (n mod d)) d); lia || done.
Qed.

(** One shift halves the value. *)
Definition rec_located (r : shr_record) (n d : Z) : Prop := located (shr_m r) (loc_of_shr_record r) n d.
Lemma rec_of_loc m l n d : located m l n d -> rec_located (shr_record_of_loc m l) n d.
Proof. by destruct l as [|[]]. Qed.
Lemma shr_1_located r n d : rec_located r n d -> rec_located (shr_1 r) n (2 * d).
Proof.
  destruct r as [m r s]. unfold rec_located. cbn [shr_m]. intros (Hd & Hm & Hb & Hl).
  destruct m as [|p|p]; [| |lia]; [|destruct p as [p|p|]]; destruct r, s; cbn in Hl |- *; unfold located;
    rewrite ?Pos2Z.inj_xI, ?(Pos2Z.inj_xO p) in *; (split; [lia|split; [lia|]]);
    repeat match goal with H : _ /\ _ |- _ => destruct H end;
    repeat match goal with H : (_ ?= _) = _ |- _ =>
      first [apply Z.compare_eq in H | apply -> Z.compare_lt_iff in H | apply -> Z.compare_gt_iff in H] end;
    (split; [lia|]); first [lia | split; [lia|]];
    first [apply Z.compare_eq_iff; lia | apply Z.compare_lt_iff; lia | apply Z.compare_gt_iff; lia].
Qed.

Lemma iter_pos_nat {A} (f : A -> A) p x : SpecFloat.iter_pos f p x = Nat.iter (Pos.to_nat p) f x.
Proof.
  revert x. induction p as [p IH|p IH|]; intros x; cbn [SpecFloat.iter_pos]; [| |done].
  - rewrite !IH, Pos2Nat.inj_xI. replace (S (2 * Pos.to_nat p)) with (Pos.to_nat p + (Pos.to_nat p + 1))%nat by lia.
    by rewrite !Nat.iter_add.
  - rewrite !IH, Pos2Nat.inj_xO. replace (2 * Pos.to_nat p)%nat with (Pos.to_nat p + Pos.to_nat p)%nat by lia.
    by rewrite Nat.iter_add.
Qed.
Lemma iter_shr_located k r n d : rec_located r n d -> rec_located (Nat.iter k shr_1 r) n (d * 2 ^ Z.of_nat k).
Proof.
  intros H. induction k as [|k IH]; [by rewrite Z.mul_1_r|].
  replace (d * 2 ^ Z.of_nat (S k)) with (2 * (d * 2 ^ Z.of_nat k)) by (rewrite Nat2Z.inj_succ, Z.pow_succ_r; lia).
  by apply shr_1_located.
Qed.
(** [shr] by [k] bits, or not at all when [k] is not positive. *)
Lemma shr_spec r e k n d : rec_located r n d ->
  (shr r e k).2 = e + Z.max 0 k /\ rec_located (shr r e k).1 n (d * 2 ^ Z.max 0 k).
Proof.
  intros H. destruct k as [|p|p]; cbn [shr fst snd].
  - by rewrite Z.add_0_r, Z.mul_1_r.
  - rewrite iter_pos_nat. split; [lia|]. replace (Z.max 0 (Zpos p)) with (Z.of_nat (Pos.to_nat p)) by lia.
    by apply iter_shr_located.
  - by rewrite Z.add_0_r, Z.mul_1_r.
Qed.

(** ** Digits *)

Abbreviation digits := Zdigits2.
Lemma digits_pos p : 2 ^ (Zpos (digits2_pos p) - 1) <= Zpos p < 2 ^ Zpos (digits2_pos p).
Proof.
  induction p as [p IH|p IH|]; cbn [digits2_pos]; [| |done].
  all: rewrite Pos2Z.inj_succ, Z.pow_succ_r by lia.
  all: replace (Z.succ (Zpos (digits2_pos p)) - 1) with (Z.succ (Zpos (digits2_pos p) - 1)) by lia.
  all: rewrite Z.pow_succ_r by lia; lia.
Qed.
Lemma digits_spec m : 0 < m -> 1 <= digits m /\ 2 ^ (digits m - 1) <= m < 2 ^ digits m.
Proof. destruct m as [|p|p]; [lia| |lia]. intros _. split; [cbn; lia|apply digits_pos]. Qed.
Lemma digits_unique m k : 1 <= k -> 2 ^ (k - 1) <= m < 2 ^ k -> digits m = k.
Proof.
  intros Hk H. assert (0 < 2 ^ (k - 1)) by (apply Z.pow_pos_nonneg; lia). destruct (digits_spec m) as [H1 H2]; [lia|].
  destruct (Z.lt_trichotomy (digits m) k) as [L|[E|G]]; [|done|].
  - assert (2 ^ digits m <= 2 ^ (k - 1)) by (apply Z.pow_le_mono_r; lia). lia.
  - assert (2 ^ k <= 2 ^ (digits m - 1)) by (apply Z.pow_le_mono_r; lia). lia.
Qed.
Lemma digits_le m k : 0 <= k -> 0 <= m < 2 ^ k -> digits m <= k.
Proof.
  intros Hk H. destruct (Z.eq_dec m 0) as [->|N]; [done|]. destruct (digits_spec m) as [H1 H2]; [lia|].
  destruct (Z.le_gt_cases (digits m) k) as [|G]; [done|]. assert (2 ^ k <= 2 ^ (digits m - 1)) by (apply Z.pow_le_mono_r; lia). lia.
Qed.

(** ** Rounding to nearest *)

Lemma nearest_close m l n d : located m l n d ->
  0 <= round_nearest_even m l <= m + 1 /\ 2 * Z.abs (round_nearest_even m l * d - n) <= d.
Proof.
  intros (Hd & Hm & Hb & Hl). destruct l as [|[]]; cbn [round_nearest_even]; [lia|..]; destruct Hl as [Hp Hc].
  - apply Z.compare_eq in Hc. destruct (Z.even m); lia.
  - apply -> Z.compare_lt_iff in Hc. lia.
  - apply -> Z.compare_gt_iff in Hc. lia.
Qed.
Abbreviation fexp := (SpecFloat.fexp prec emax).

(** The exact value is [n / d * 2^e]; the result is [M * 2^E], for the [M] nearest to
    the value in units of [2^E]. *)
Definition shift_of (m e : Z) : Z := Z.max 0 (fexp (digits m + e) - e).
Definition rounds_to (s : bool) (M E : Z) (r : double) : Prop :=
  if M =? 0 then r = S754_zero s
  else exists p x, r = S754_finite s p x /\ E <= x <= E + 1 /\ Zpos p * 2 ^ (x - E) = M /\ Zpos p < 2 ^ 53 /\
       (2 ^ 52 <= M -> 2 ^ 52 <= Zpos p).
Lemma round_aux_spec s m e l n d : located m l n d -> e + shift_of m e <= 970 ->
  exists M, 0 <= M <= 2 ^ 53 /\ 2 * Z.abs (M * (d * 2 ^ shift_of m e) - n) <= d * 2 ^ shift_of m e /\
    rounds_to s M (e + shift_of m e) (binary_round_aux prec emax s m e l).
Proof.
  intros H Hmax. unfold binary_round_aux, shr_fexp.
  pose proof (shr_spec _ e (fexp (digits m + e) - e) n d (rec_of_loc _ _ _ _ H)) as [H2 H1].
  fold (shift_of m e) in H1, H2. destruct (shr _ e _) as [r' e']. cbn [fst snd] in *. subst e'.
  set (k := shift_of m e) in *. set (M := round_nearest_even (shr_m r') (loc_of_shr_record r')).
  destruct (nearest_close _ _ _ _ H1) as [HM Hc]. fold M in HM, Hc.
  assert (Hm' : shr_m r' < 2 ^ 53).
  { destruct H as (Hd & Hm & Hb & _). destruct H1 as (Hd' & Hm1 & Hb1 & _).
    assert (Hlt : m < 2 ^ (53 + k)).
    { destruct (Z.eq_dec m 0) as [->|N]; [apply Z.pow_pos_nonneg; unfold k, shift_of; lia|].
      destruct (digits_spec m) as [D1 D2]; [lia|]. apply (Z.lt_le_trans _ (2 ^ digits m)); [lia|].
      apply Z.pow_le_mono_r; [lia|]. unfold k, shift_of, SpecFloat.fexp, prec. lia. }
    rewrite Z.pow_add_r in Hlt; unfold k, shift_of in *; [|lia..].
    set (K := 2 ^ Z.max 0 (fexp (digits m + e) - e)) in *. assert (0 < K) by (apply Z.pow_pos_nonneg; lia). nia. }
  exists M. split; [lia|]. split; [exact Hc|]. clear Hc.
  assert (Hk : fexp (digits M + (e + k)) - (e + k) = if M =? 2 ^ 53 then 1 else Z.min 0 (fexp (digits M + (e + k)) - (e + k))).
  { assert (He : -1074 <= e + k) by (unfold k, shift_of, SpecFloat.fexp, emin, prec, emax; lia).
    destruct (Z.eqb_spec M (2 ^ 53)) as [EM|NM].
    - rewrite EM. change (digits (2 ^ 53)) with 54. unfold SpecFloat.fexp, emin, prec, emax. lia.
    - pose proof (digits_le M 53 ltac:(lia) ltac:(lia)). unfold SpecFloat.fexp, emin, prec, emax in *. lia. }
  rewrite Hk. clear Hk. unfold rounds_to. destruct (Z.eqb_spec M (2 ^ 53)) as [EM|NM].
  - rewrite EM. cbn [shr_record_of_loc shr]. change (SpecFloat.iter_pos shr_1 1 _) with (Build_shr_record (2 ^ 52) false false).
    change (2 ^ 53 =? 0) with false. cbn [shr_m]. change (2 ^ 52) with (Zpos 4503599627370496) at 1. cbv iota.
    rewrite (proj2 (Z.leb_le _ _)) by (unfold emax, prec; lia). eexists _, _. split; [reflexivity|]. split; [lia|].
    replace (e + k + 1 - (e + k)) with 1 by lia. done.
  - assert (Hs : shr (shr_record_of_loc M loc_Exact) (e + k) (Z.min 0 (fexp (digits M + (e + k)) - (e + k))) =
      (Build_shr_record M false false, e + k)).
    { destruct (Z.min 0 (fexp (digits M + (e + k)) - (e + k))) eqn:Ez; [done|lia|done]. }
    rewrite Hs. cbn [shr_m]. destruct (Z.eqb_spec M 0) as [->|N0]; [done|]. destruct M as [|p|p]; [done| |lia].
    rewrite (proj2 (Z.leb_le _ _)) by (unfold emax, prec; lia). exists p, (e + k). split; [done|]. split; [lia|].
    replace (e + k - (e + k)) with 0 by lia. split; [lia|]. split; [lia|done].
Qed.

(** ** Integers and hundredths *)

Lemma rounds_to_normal s M E r : 2 ^ 52 <= M < 2 ^ 53 -> rounds_to s M E r -> r = S754_finite s (Z.to_pos M) E.
Proof.
  intros HM H. unfold rounds_to in H. destruct (Z.eqb_spec M 0); [lia|]. destruct H as (p & x & -> & Hx & Hp & Hlt & Hge).
  specialize (Hge ltac:(lia)). assert (x = E \/ x = E + 1) as [->| ->] by lia.
  - rewrite Z.sub_diag, Z.mul_1_r in Hp. by rewrite <- Hp.
  - replace (E + 1 - E) with 1 in Hp by lia. lia.
Qed.
Lemma iter_xO p q : Zpos (Pos.iter xO p q) = Zpos p * 2 ^ Zpos q.
Proof.
  induction q as [|q IH] using Pos.peano_ind; [cbn; lia|].
  rewrite Pos.iter_succ, Pos2Z.inj_xO, IH, Pos2Z.inj_succ, Z.pow_succ_r by lia. lia.
Qed.

(** An integer below 2^53, and the 53-bit form the conversion gives it. *)
Definition lifted (z : Z) : Z := z * 2 ^ (53 - digits z).
Lemma lifted_range z : 0 < z < 2 ^ 53 -> 1 <= digits z <= 53 /\ 2 ^ 52 <= lifted z < 2 ^ 53.
Proof.
  intros Hz. destruct (digits_spec z) as [H1 H2]; [lia|]. pose proof (digits_le z 53 ltac:(lia) ltac:(lia)) as H3.
  split; [done|]. unfold lifted.
  assert (E1 : 2 ^ 52 = 2 ^ (digits z - 1) * 2 ^ (53 - digits z)) by (rewrite <- Z.pow_add_r by lia; f_equal; lia).
  assert (E2 : 2 ^ 53 = 2 ^ digits z * 2 ^ (53 - digits z)) by (rewrite <- Z.pow_add_r by lia; f_equal; lia).
  assert (0 < 2 ^ (53 - digits z)) by (apply Z.pow_pos_nonneg; lia). rewrite E1, E2. nia.
Qed.
Lemma binary_round_small s p : Zpos p < 2 ^ 53 ->
  binary_round prec emax s p 0 = S754_finite s (Z.to_pos (lifted (Zpos p))) (digits (Zpos p) - 53).
Proof.
  intros Hp. destruct (lifted_range (Zpos p) ltac:(lia)) as [Hd Hl]. unfold binary_round.
  replace (SpecFloat.fexp prec emax (Zpos (digits2_pos p) + 0)) with (digits (Zpos p) - 53)
    by (unfold SpecFloat.fexp, emin, prec, emax; cbn [Zdigits2]; cbn [Zdigits2] in Hd; lia).
  assert (Ha : shl_align p 0 (digits (Zpos p) - 53) = (Z.to_pos (lifted (Zpos p)), digits (Zpos p) - 53)).
  { unfold shl_align, lifted. rewrite Z.sub_0_r. destruct (digits (Zpos p) - 53) as [|q|q] eqn:Eq; [|lia|].
    - replace (53 - digits (Zpos p)) with 0 by lia. by rewrite Z.mul_1_r.
    - replace (53 - digits (Zpos p)) with (Zpos q) by lia. by rewrite <- iter_xO. }
  rewrite Ha, Z2Pos.id by lia.
  assert (Hs : shift_of (lifted (Zpos p)) (digits (Zpos p) - 53) = 0).
  { unfold shift_of. rewrite (digits_unique (lifted (Zpos p)) 53) by lia. unfold SpecFloat.fexp, emin, prec, emax. lia. }
  destruct (round_aux_spec s _ (digits (Zpos p) - 53) _ _ _ (located_exact (lifted (Zpos p)) ltac:(lia))) as (M & HM & Hc & Hr).
  { rewrite Hs. lia. }
  rewrite Hs, Z.add_0_r in *. assert (M = lifted (Zpos p)) as -> by lia. by apply rounds_to_normal.
Qed.
Lemma of_int_small z : 0 < z < 2 ^ 53 ->
  of_int z = S754_finite false (Z.to_pos (lifted z)) (digits z - 53) /\
  of_int (- z) = S754_finite true (Z.to_pos (lifted z)) (digits z - 53).
Proof. destruct z as [|p|p]; [lia| |lia]. intros Hz. split; apply binary_round_small; lia. Qed.

Lemma round_half_away_near m e : e <= 0 -> 2 * Z.abs (round_half_away m e * 2 ^ (- e) - m) <= 2 ^ (- e).
Proof.
  intros He. destruct (Z.eq_dec e 0) as [->|N]; [|apply round_half_away_close; lia].
  unfold round_half_away. cbn. rewrite Z.shiftl_0_r. lia.
Qed.

(** [of_int 100] is [hundred * 2^-46]. *)
Definition hundred : Z := 7036874417766400.
Lemma of_int_100 : of_int 100 = S754_finite false (Z.to_pos hundred) (-46).
Proof. vm_compute. reflexivity. Qed.

(** Division by 100: a quotient within half a unit, with a full mantissa. *)
Lemma div_100 s m e : 2 ^ 52 <= m < 2 ^ 53 -> -1000 <= e <= 900 ->
  exists k M x, 0 <= k <= 1 /\ ddiv (S754_finite s (Z.to_pos m) e) (of_int 100) = S754_finite s (Z.to_pos M) x /\
    2 ^ 52 <= M < 2 ^ 53 /\ e - 7 + k <= x <= e - 7 + k + 1 /\
    2 * Z.abs (M * 2 ^ (x - (e - 7)) * hundred - m * 2 ^ 53) <= 2 ^ k * hundred.
Proof.
  intros Hm He. rewrite of_int_100. unfold ddiv, SFdiv, SFdiv_core_binary. rewrite !Z2Pos.id by (unfold hundred; lia).
  rewrite (digits_unique m 53) by lia. change (digits hundred) with 53. change (xorb s false) with (xorb s false).
  replace (Z.min _ _) with (e - 7) by (unfold SpecFloat.fexp, emin, prec, emax; lia).
  replace (e - -46 - (e - 7)) with 53 by lia. cbv iota. rewrite Z.shiftl_mul_pow2 by lia.
  change (Z.div_eucl (m * 2 ^ 53) hundred) with (Z.div_eucl (m * 2 ^ 53) hundred).
  pose proof (new_location_located (m * 2 ^ 53) hundred ltac:(lia) ltac:(done)) as Hl.
  unfold Z.div, Z.modulo in Hl. pose proof (Z_div_mod (m * 2 ^ 53) hundred ltac:(done)) as Hq.
  destruct (Z.div_eucl (m * 2 ^ 53) hundred) as [q r]. destruct Hq as [Hq Hr].
  assert (Hqb : 2 ^ 52 <= q < 2 ^ 54) by (unfold hundred in *; lia).
  assert (Hd : digits q = if q <? 2 ^ 53 then 53 else 54).
  { destruct (Z.ltb_spec q (2 ^ 53)); apply digits_unique; lia. }
  set (k := if q <? 2 ^ 53 then 0 else 1).
  assert (Hk : shift_of q (e - 7) = k).
  { unfold shift_of. rewrite Hd. unfold k. destruct (q <? 2 ^ 53); unfold SpecFloat.fexp, emin, prec, emax; lia. }
  destruct (round_aux_spec (xorb s false) q (e - 7) _ _ _ Hl) as (M & HM & Hc & Hr'); rewrite Hk in *.
  { unfold k. destruct (q <? 2 ^ 53); lia. }
  assert (HM52 : 2 ^ 52 <= M).
  { clear - Hc Hqb Hq Hr. unfold k, hundred in *. destruct (Z.ltb_spec q (2 ^ 53)); lia. }
  unfold rounds_to in Hr'. destruct (Z.eqb_spec M 0); [lia|]. destruct Hr' as (p & x & -> & Hx & Hp & Hlt & Hge).
  exists k, (Zpos p), x. split; [unfold k; destruct (q <? 2 ^ 53); lia|]. split; [by destruct s|].
  split; [lia|]. split; [lia|]. replace (x - (e - 7)) with (x - (e - 7 + k) + k) by lia.
  rewrite Z.pow_add_r by (unfold k; destruct (q <? 2 ^ 53); lia). rewrite Z.mul_assoc, Hp. lia.
Qed.

(** Multiplication by 100. *)
Lemma mul_100 s m e : 2 ^ 52 <= m < 2 ^ 53 -> -1000 <= e <= 900 ->
  exists M x, dmul (S754_finite s (Z.to_pos m) e) (of_int 100) = S754_finite s (Z.to_pos M) x /\
    2 ^ 52 <= M < 2 ^ 53 /\ e + 6 <= x <= e + 8 /\
    2 * Z.abs (M * 2 ^ (x - (e - 46)) - m * hundred) <= 2 ^ 53.
Proof.
  intros Hm He. rewrite of_int_100. unfold dmul, SFmul. rewrite Pos2Z.inj_mul, !Z2Pos.id by (unfold hundred; lia).
  set (n := m * hundred). assert (Hn : 2 ^ 104 <= n < 2 ^ 106) by (unfold n, hundred; lia).
  replace (e + -46) with (e - 46) by lia.
  assert (Hd : digits n = if n <? 2 ^ 105 then 105 else 106).
  { destruct (Z.ltb_spec n (2 ^ 105)); apply digits_unique; lia. }
  set (j := if n <? 2 ^ 105 then 52 else 53).
  assert (Hj : shift_of n (e - 46) = j).
  { unfold shift_of. rewrite Hd. unfold j. destruct (n <? 2 ^ 105); unfold SpecFloat.fexp, emin, prec, emax; lia. }
  destruct (round_aux_spec (xorb s false) n (e - 46) _ _ _ (located_exact n ltac:(lia))) as (M & HM & Hc & Hr); rewrite Hj in *.
  { unfold j. destruct (n <? 2 ^ 105); lia. }
  assert (HM52 : 2 ^ 52 <= M).
  { clear - Hc Hn. unfold j in Hc. clearbody n. destruct (Z.ltb_spec n (2 ^ 105)); lia. }
  unfold rounds_to in Hr. destruct (Z.eqb_spec M 0); [lia|]. destruct Hr as (p & x & -> & Hx & Hp & Hlt & Hge).
  assert (52 <= j <= 53) by (unfold j; destruct (n <? 2 ^ 105); lia).
  exists (Zpos p), x. split; [by destruct s|]. split; [lia|]. split; [lia|].
  replace (x - (e - 46)) with (x - (e - 46 + j) + j) by lia. rewrite Z.pow_add_r by lia. rewrite Z.mul_assoc, Hp.
  assert (2 ^ j <= 2 ^ 53) by (apply Z.pow_le_mono_r; lia). lia.
Qed.

(** An amount of hundredths survives being written as a decimal and read back: divided
    by 100 and multiplied again, with two roundings, it rounds to itself. *)
Lemma hundredths_back s c : 0 < c < 2 ^ 50 ->
  exists p x, dmul (ddiv (S754_finite s (Z.to_pos (lifted c)) (digits c - 53)) (of_int 100)) (of_int 100) = S754_finite s p x /\
    round_half_away (Zpos p) x = c.
Proof.
  intros Hc. destruct (lifted_range c ltac:(lia)) as [_ Hl]. pose proof (digits_le c 50 ltac:(lia) ltac:(lia)) as Hd.
  destruct (digits_spec c) as [Hd1 _]; [lia|]. set (t := digits c - 53) in *.
  destruct (div_100 s (lifted c) t Hl ltac:(lia)) as (k & M1 & x1 & Hk & -> & HM1 & Hx1 & H1).
  destruct (mul_100 s M1 x1 HM1 ltac:(lia)) as (M2 & x2 & -> & HM2 & Hx2 & H2).
  exists (Z.to_pos M2), x2. split; [done|]. rewrite Z2Pos.id by lia.
  pose proof (round_half_away_near M2 x2 ltac:(lia)) as H3. set (n := round_half_away M2 x2) in *.
  set (U := 2 ^ (53 - t)). assert (HU : 2 ^ 56 <= U) by (apply Z.pow_le_mono_r; lia).
  assert (Ec : c * U = lifted c * 2 ^ 53).
  { unfold lifted, U. rewrite <- Z.mul_assoc, <- Z.pow_add_r by lia. f_equal. f_equal. lia. }
  set (g := x2 - (t - 53)). assert (EU : U = 2 ^ (- x2) * 2 ^ g).
  { unfold U, g. rewrite <- Z.pow_add_r by lia. f_equal. lia. }
  set (a := x1 - (t - 7)) in *. assert (Eg : 2 ^ g = 2 ^ (x2 - (x1 - 46)) * 2 ^ a).
  { unfold g, a. rewrite <- Z.pow_add_r by lia. f_equal. lia. }
  assert (Ha : 0 < 2 ^ a <= 2 ^ 2) by (split; [apply Z.pow_pos_nonneg; lia|apply Z.pow_le_mono_r; lia]).
  assert (H4 : 2 * Z.abs (M2 * 2 ^ g - M1 * 2 ^ a * hundred) <= 2 ^ 55).
  { rewrite Eg. replace (M2 * (2 ^ (x2 - (x1 - 46)) * 2 ^ a) - M1 * 2 ^ a * hundred)
      with ((M2 * 2 ^ (x2 - (x1 - 46)) - M1 * hundred) * 2 ^ a) by ring.
    rewrite Z.abs_mul, (Z.abs_eq (2 ^ a)) by lia. nia. }
  assert (H5 : 2 * Z.abs (n * U - M2 * 2 ^ g) <= U).
  { rewrite EU. assert (0 < 2 ^ g) by (apply Z.pow_pos_nonneg; lia).
    replace (n * (2 ^ (- x2) * 2 ^ g) - M2 * 2 ^ g) with ((n * 2 ^ (- x2) - M2) * 2 ^ g) by ring.
    rewrite Z.abs_mul, (Z.abs_eq (2 ^ g)) by lia. rewrite Z.mul_assoc. apply Z.mul_le_mono_nonneg_r; [lia|exact H3]. }
  assert (H6 : 2 ^ k * hundred <= 2 ^ 54) by (assert (k = 0 \/ k = 1) as [->| ->] by lia; done).
  assert (H7 : 2 * Z.abs (n * U - c * U) < 2 * U) by lia.
  replace (n * U - c * U) with ((n - c) * U) in H7 by ring. rewrite Z.abs_mul, (Z.abs_eq U) in H7 by lia.
  assert (Z.abs (n - c) < 1); [|lia]. apply (Z.mul_lt_mono_pos_r U); [lia|]. rewrite Z.mul_1_l. lia.
Qed.

(** ** Exact results

    Sums, products and comparisons of whole numbers below 2^53 are exact. *)

Definition whole (s : bool) (z : Z) : double := S754_finite s (Z.to_pos (lifted z)) (digits z - 53).
Lemma of_int_whole z : 0 < z < 2 ^ 53 -> of_int z = whole false z.
Proof. intros H. by apply of_int_small. Qed.

Lemma digits_shift z q : 0 < z -> 0 <= q -> digits (z * 2 ^ q) = digits z + q.
Proof.
  intros Hz Hq. destruct (digits_spec z Hz) as [H1 H2]. apply digits_unique; [lia|].
  assert (0 < 2 ^ q) by (apply Z.pow_pos_nonneg; lia).
  replace (digits z + q - 1) with (digits z - 1 + q) by lia. rewrite !Z.pow_add_r by lia. nia.
Qed.
(** The value [z], scaled by a power of two that leaves its mantissa full. *)
Lemma round_aux_exact s z q : 0 < z < 2 ^ 53 -> 53 - digits z <= q <= 900 ->
  binary_round_aux prec emax s (z * 2 ^ q) (- q) loc_Exact = whole s z.
Proof.
  intros Hz Hq. destruct (lifted_range z Hz) as [Hd Hl].
  assert (Hs : shift_of (z * 2 ^ q) (- q) = digits z - 53 + q).
  { unfold shift_of. rewrite digits_shift by lia. unfold SpecFloat.fexp, emin, prec, emax. lia. }
  assert (0 < 2 ^ q) by (apply Z.pow_pos_nonneg; lia).
  destruct (round_aux_spec s _ (- q) _ _ _ (located_exact (z * 2 ^ q) ltac:(nia))) as (M & HM & Hc & Hr); rewrite Hs in *; [lia|].
  replace (- q + (digits z - 53 + q)) with (digits z - 53) in Hr by lia. apply rounds_to_normal.
  - done.
  - assert (E : z * 2 ^ q = lifted z * 2 ^ (digits z - 53 + q)).
    { unfold lifted. rewrite <- Z.mul_assoc, <- Z.pow_add_r by lia. f_equal. f_equal. lia. }
    rewrite E, Z.mul_1_l in Hc. set (D := 2 ^ (digits z - 53 + q)) in *. assert (0 < D) by (apply Z.pow_pos_nonneg; lia).
    replace (M * D - lifted z * D) with ((M - lifted z) * D) in Hc by ring. rewrite Z.abs_mul, (Z.abs_eq D) in Hc by lia.
    assert (M = lifted z) as <-; [|done]. assert (Z.abs (M - lifted z) < 1); [|lia].
    apply (Z.mul_lt_mono_pos_r D); [lia|]. lia.
Qed.
Lemma normalize_exact z q : 0 < z < 2 ^ 53 -> 0 <= q <= 900 -> binary_normalize prec emax (z * 2 ^ q) (- q) false = whole false z.
Proof.
  intros Hz Hq. assert (0 < 2 ^ q) by (apply Z.pow_pos_nonneg; lia).
  destruct (z * 2 ^ q) as [|p|p] eqn:Ep; [nia| |nia]. cbn [binary_normalize]. unfold binary_round.
  change (Zpos (digits2_pos p)) with (digits (Zpos p)). rewrite <- Ep, digits_shift by lia.
  destruct (lifted_range z Hz) as [Hd _].
  replace (SpecFloat.fexp prec emax (digits z + q + - q)) with (digits z - 53)
    by (unfold SpecFloat.fexp, emin, prec, emax; lia).
  unfold shl_align. destruct (digits z - 53 - - q) as [|k|k] eqn:Ek.
  - rewrite <- Ep. apply round_aux_exact; lia.
  - rewrite <- Ep. apply round_aux_exact; lia.
  - rewrite iter_xO, <- Ep, <- Z.mul_assoc, <- Z.pow_add_r by lia.
    replace (digits z - 53) with (- (q + Zpos k)) by lia. apply round_aux_exact; lia.
Qed.
Lemma aligned z e : 0 < z < 2 ^ 53 -> e <= digits z - 53 -> -900 <= e ->
  Zpos (fst (shl_align (Z.to_pos (lifted z)) (digits z - 53) e)) = z * 2 ^ (- e).
Proof.
  intros Hz He _. destruct (lifted_range z Hz) as [Hd Hl]. unfold shl_align.
  destruct (e - (digits z - 53)) as [|k|k] eqn:Ek; [| lia |]; cbn [fst].
  - rewrite Z2Pos.id by lia. unfold lifted. f_equal. f_equal. lia.
  - rewrite iter_xO, Z2Pos.id by lia. unfold lifted. rewrite <- Z.mul_assoc, <- Z.pow_add_r by lia. f_equal. f_equal. lia.
Qed.
Lemma add_whole a b : 0 < a -> 0 < b -> a + b < 2 ^ 53 ->
  SFadd prec emax (whole false a) (whole false b) = whole false (a + b).
Proof.
  intros Ha Hb Hs. destruct (lifted_range a ltac:(lia)) as [Da _]. destruct (lifted_range b ltac:(lia)) as [Db _].
  change (SFadd prec emax (whole false a) (whole false b)) with
    (let e := Z.min (digits a - 53) (digits b - 53) in
     binary_normalize prec emax (Zpos (fst (shl_align (Z.to_pos (lifted a)) (digits a - 53) e)) +
       Zpos (fst (shl_align (Z.to_pos (lifted b)) (digits b - 53) e))) e false).
  set (e := Z.min (digits a - 53) (digits b - 53)). cbv zeta.
  rewrite !aligned by (unfold e; lia). rewrite <- Z.mul_add_distr_r. replace e with (- - e) at 2 by lia.
  apply normalize_exact; unfold e; lia.
Qed.
Lemma mul_whole a b : 0 < a -> 0 < b -> a * b < 2 ^ 53 -> dmul (whole false a) (whole false b) = whole false (a * b).
Proof.
  intros Ha Hb Hs. assert (a < 2 ^ 53 /\ b < 2 ^ 53) by nia.
  destruct (lifted_range a ltac:(lia)) as [Da La]. destruct (lifted_range b ltac:(lia)) as [Db Lb].
  change (dmul (whole false a) (whole false b)) with
    (binary_round_aux prec emax false (Zpos (Z.to_pos (lifted a) * Z.to_pos (lifted b)))
       (digits a - 53 + (digits b - 53)) loc_Exact).
  rewrite Pos2Z.inj_mul, !Z2Pos.id by lia.
  assert (Hd : digits a + digits b - 1 <= digits (a * b)).
  { destruct (digits_spec a Ha) as [_ H1]. destruct (digits_spec b Hb) as [_ H2]. destruct (digits_spec (a * b)) as [H3 H4]; [nia|].
    destruct (Z.le_gt_cases (digits a + digits b - 1) (digits (a * b))) as [|G]; [done|].
    assert (2 ^ digits (a * b) <= 2 ^ (digits a - 1 + (digits b - 1))) by (apply Z.pow_le_mono_r; lia).
    rewrite Z.pow_add_r in * by lia. nia. }
  assert (E : lifted a * lifted b = a * b * 2 ^ (106 - digits a - digits b)).
  { unfold lifted. replace (106 - digits a - digits b) with ((53 - digits a) + (53 - digits b)) by lia. rewrite Z.pow_add_r by lia. ring. }
  rewrite E. replace (digits a - 53 + (digits b - 53)) with (- (106 - digits a - digits b)) by lia.
  apply round_aux_exact; lia.
Qed.
Lemma pos_compare_cont a b : Pos.compare_cont Eq a b = (Zpos a ?= Zpos b).
Proof. done. Qed.
Lemma leb_whole a b : 0 < a < 2 ^ 53 -> 0 < b < 2 ^ 53 -> dleb (whole false a) (whole false b) = (a <=? b).
Proof.
  intros Ha Hb. destruct (lifted_range a Ha) as [Da La]. destruct (lifted_range b Hb) as [Db Lb].
  destruct (digits_spec a) as [_ H1]; [lia|]. destruct (digits_spec b) as [_ H2]; [lia|].
  unfold dleb, SFleb, SFcompare, whole. rewrite pos_compare_cont, !Z2Pos.id by lia.
  destruct (Z.compare_spec (digits a - 53) (digits b - 53)) as [E|L|G].
  - unfold lifted. replace (digits b) with (digits a) by lia. assert (0 < 2 ^ (53 - digits a)) by (apply Z.pow_pos_nonneg; lia).
    destruct (Z.compare_spec (a * 2 ^ (53 - digits a)) (b * 2 ^ (53 - digits a))); symmetry;
      [apply Z.leb_le|apply Z.leb_le|apply Z.leb_gt]; nia.
  - assert (2 ^ digits a <= 2 ^ (digits b - 1)) by (apply Z.pow_le_mono_r; lia). symmetry. apply Z.leb_le. lia.
  - assert (2 ^ digits b <= 2 ^ (digits a - 1)) by (apply Z.pow_le_mono_r; lia). symmetry. apply Z.leb_gt. lia.
Qed.
