(* ===== verification/Calendar.v ===== *)
(** * Calendar dates

    The part of <chrono> the program uses: [year_month_day{y, m, d}.ok()]
    (JsonInput.cpp, [date]) and the conversion to [sys_days] (ScanWorker.cpp,
    [daysBetween]), on the proleptic Gregorian calendar. *)
From S2P Require Import Prelude CString.

Record ymd := mkYmd { year : Z; month : Z; day : Z }.

Definition is_leap (y : Z) : bool :=
  (y mod 4 =? 0) && (negb (y mod 100 =? 0) || (y mod 400 =? 0)).
Definition days_in_month (y m : Z) : Z :=
  if m =? 2 then (if is_leap y then 29 else 28)
  else if (m =? 4) || (m =? 6) || (m =? 9) || (m =? 11) then 30 else 31.

(** [year_month_day::ok()] for a year that fits the library's range. *)
Definition ymd_ok (t : ymd) : bool :=
  (-32767 <=? year t) && (year t <=? 32767) && (1 <=? month t) && (month t <=? 12) &&
  (1 <=? day t) && (day t <=? days_in_month (year t) (month t)).

(** [sys_days{ymd}]: days since 1970-01-01. *)
Definition sys_days (t : ymd) : Z :=
  let y := if month t <=? 2 then year t - 1 else year t in
  let era := y / 400 in
  let yoe := y mod 400 in
  let mp := if 2 <? month t then month t - 3 else month t + 9 in
  let doy := (153 * mp + 2) / 5 + day t - 1 in
  let doe := yoe * 365 + yoe / 4 - yoe / 100 + doy in
  era * 146097 + doe - 719468.

Definition next_day (t : ymd) : ymd :=
  if day t <? days_in_month (year t) (month t) then mkYmd (year t) (month t) (day t + 1)
  else if month t <? 12 then mkYmd (year t) (month t + 1) 1
  else mkYmd (year t + 1) 1 1.

Lemma ymd_ok_spec t : ymd_ok t = true <->
  -32767 <= year t <= 32767 /\ 1 <= month t <= 12 /\ 1 <= day t <= days_in_month (year t) (month t).
Proof. unfold ymd_ok. rewrite !andb_true_iff, !Z.leb_le. lia. Qed.

Definition year_days (y : Z) : Z := 365 * y + y / 4 - y / 100 + y / 400.

Lemma year_days_era y :
  (y / 400) * 146097 + ((y mod 400) * 365 + (y mod 400) / 4 - (y mod 400) / 100) = year_days y.
Proof. unfold year_days. Z.to_euclidean_division_equations. lia. Qed.

Lemma year_days_step y : year_days y - year_days (y - 1) = if is_leap y then 366 else 365.
Proof.
  unfold year_days, is_leap.
  destruct (Z.eqb_spec (y mod 4) 0); destruct (Z.eqb_spec (y mod 100) 0);
    destruct (Z.eqb_spec (y mod 400) 0); simpl;
    Z.to_euclidean_division_equations; lia.
Qed.

(** Days before month [m] of the year that starts in March. *)
Definition days_before (m : Z) : Z := (153 * (if 2 <? m then m - 3 else m + 9) + 2) / 5.

Lemma sys_days_eq t :
  sys_days t = year_days (if month t <=? 2 then year t - 1 else year t) +
    days_before (month t) + day t - 719469.
Proof. unfold sys_days, days_before. rewrite <- year_days_era. lia. Qed.

Ltac eval_days_before :=
  repeat match goal with
  | |- context [days_before ?m] =>
      let v := eval vm_compute in (days_before m) in change (days_before m) with v
  end.

(** [sys_days] counts days: the day after is one more. *)
Lemma sys_days_next t : 1 <= month t <= 12 -> 1 <= day t <= days_in_month (year t) (month t) ->
  sys_days (next_day t) = sys_days t + 1.
Proof.
  destruct t as [y m d]. cbn [month day year]. intros Hm Hd. rewrite !sys_days_eq.
  unfold next_day. cbn [month day year].
  pose proof (year_days_step y) as Hstep.
  destruct (Z.ltb_spec d (days_in_month y m)); cbn [month day year]; [lia|].
  assert (d = days_in_month y m) as -> by lia.
  destruct (Z.ltb_spec m 12); cbn [month day year].
  2: { assert (m = 12) as -> by lia. rewrite Z.add_simpl_r. change (days_in_month y 12) with 31.
       eval_days_before. repeat case_match; lia. }
  assert (m = 1 \/ m = 2 \/ m = 3 \/ m = 4 \/ m = 5 \/ m = 6 \/ m = 7 \/ m = 8 \/ m = 9 \/
          m = 10 \/ m = 11) as Hcases by lia.
  repeat (destruct Hcases as [->|Hcases]); try subst m; unfold days_in_month;
    destruct (is_leap y); cbv iota in *; eval_days_before; repeat case_match; lia.
Qed.

Lemma next_day_ok t : 1 <= month t <= 12 -> 1 <= day t <= days_in_month (year t) (month t) ->
  1 <= month (next_day t) <= 12 /\ 1 <= day (next_day t) <= days_in_month (year (next_day t)) (month (next_day t)).
Proof.
  destruct t as [y m d]. cbn [month day year]. intros Hm Hd. unfold next_day. cbn [month day year].
  destruct (Z.ltb_spec d (days_in_month y m)); cbn [month day year]; [lia|].
  destruct (Z.ltb_spec m 12); cbn [month day year]; split; try lia;
    unfold days_in_month; repeat case_match; lia.
Qed.

(** The number of days a walk of [n] single days covers. *)
Lemma sys_days_iter n t : 1 <= month t <= 12 -> 1 <= day t <= days_in_month (year t) (month t) ->
  sys_days (Nat.iter n next_day t) = sys_days t + Z.of_nat n.
Proof.
  intros Hm Hd.
  assert (H : (1 <= month (Nat.iter n next_day t) <= 12 /\
     1 <= day (Nat.iter n next_day t) <=
       days_in_month (year (Nat.iter n next_day t)) (month (Nat.iter n next_day t))) /\
     sys_days (Nat.iter n next_day t) = sys_days t + Z.of_nat n); [|apply H].
  induction n as [|n [[IH1 IH2] IH3]]; [simpl; split; [done|lia]|].
  change (Nat.iter (S n) next_day t) with (next_day (Nat.iter n next_day t)). split.
  - by apply next_day_ok.
  - rewrite sys_days_next by done. lia.
Qed.

Example sys_days_epoch : sys_days (mkYmd 1970 1 1) = 0.
Proof. reflexivity. Qed.
Example sys_days_2026 : sys_days (mkYmd 2026 3 1) - sys_days (mkYmd 2024 2 29) = 731.
Proof. reflexivity. Qed.
