(* ===== verification/JsonInput.v ===== *)
(** * Typed field readers for request bodies

    src/src/receipts/JsonInput.h and JsonInput.cpp. *)
From Stdlib Require Import Ascii.
From S2P Require Import Prelude CString Binary64 Json Calendar.
Open Scope outcome_scope.

Definition fail {A} (field problem : string) : outcome A :=
  Throw (ValidationError (field +:+ " " +:+ problem)).

(** [begin] and [end] of the code are the indices [b] and [e]. *)
Definition trim (s : string) : string :=
  let l := chars s in
  let b := span_len isspace l in
  let e := (length l - span_len isspace (reverse l))%nat in
  if (b <? e)%nat then of_chars (take (e - b) (drop b l)) else ""%string.

Definition asInt64 (value : json) : option Z :=
  match value with
  | JUnsigned u => if int64_max <? u then None else Some u
  | JInteger z => Some z
  | _ => None
  end.

Definition requireObject (body : json) : outcome unit :=
  if is_object body then Ok () else Throw (ValidationError "request body must be a JSON object").

Fixpoint reject_keys (ks allowed : list string) : outcome unit :=
  match ks with
  | [] => Ok ()
  | key :: ks' =>
      if bool_decide (key ∈ allowed) then reject_keys ks' allowed
      else fail key "is not a recognized field"
  end.
Definition rejectUnknownKeys (body : json) (allowed : list string) : outcome unit :=
  reject_keys (keys body) allowed.

Definition requiredString (value : json) (field : string) : outcome string :=
  match value with
  | JString t => let s := trim t in if bool_decide (s = "") then fail field "must not be empty" else Ok s
  | _ => fail field "must be a string"
  end.

Definition nullableString (value : json) (field : string) : outcome (option string) :=
  match value with
  | JNull => Ok None
  | JString t => let s := trim t in Ok (if bool_decide (s = "") then None else Some s)
  | _ => fail field "must be a string or null"
  end.

Definition cents (value : json) (field : string) : outcome Z :=
  match asInt64 value with
  | Some n => if n <? 0 then fail field "must be a non-negative integer (cents)" else Ok n
  | None => fail field "must be a non-negative integer (cents)"
  end.

Definition nullableCents (value : json) (field : string) : outcome (option Z) :=
  if is_null value then Ok None else let* n := cents value field in Ok (Some n).

Definition nullableId (value : json) (field : string) : outcome (option Z) :=
  if is_null value then Ok None
  else match asInt64 value with
       | Some n => if n <=? 0 then fail field "must be a positive integer id or null" else Ok (Some n)
       | None => fail field "must be a positive integer id or null"
       end.

Definition boolean (value : json) (field : string) : outcome bool :=
  match value with
  | JBool b => Ok b
  | _ => fail field "must be true or false"
  end.

Definition char_at (i : nat) (c : ascii) (s : string) : bool := bool_decide (String.get i s = Some c).
Definition date_shaped (s : string) : bool :=
  (String.length s =? 10)%nat && char_at 4 "-" s && char_at 7 "-" s &&
  all_chars (fun c => bool_decide (c = "-"%char) || isdigit c) s.
(** [month{static_cast<unsigned>(m)}] keeps the low byte; so does [day]. *)
Definition ymd_of_ints (y m d : Z) : ymd :=
  mkYmd y (to_uchar (to_unsigned m)) (to_uchar (to_unsigned d)).
Definition date (value : json) (field : string) : outcome string :=
  match value with
  | JString s =>
      if date_shaped s then
        let* y := stoi (substr 0 4 s) in
        let* m := stoi (substr 5 2 s) in
        let* d := stoi (substr 8 2 s) in
        if ymd_ok (ymd_of_ints y m d) then Ok s else fail field "is not a real calendar date"
      else fail field "must be a YYYY-MM-DD string"
  | _ => fail field "must be a YYYY-MM-DD string"
  end.

Definition nullableDate (value : json) (field : string) : outcome (option string) :=
  if is_null value then Ok None else let* s := date value field in Ok (Some s).

Definition currency (value : json) (field : string) : outcome string :=
  match value with
  | JString s =>
      if negb (String.length s =? 3)%nat || negb (all_chars isalpha s)
      then fail field "must be a 3-letter currency code"
      else Ok (map_chars toupper s)
  | _ => fail field "must be a 3-letter currency code"
  end.

Definition nullablePositiveNumber (value : json) (field : string) : outcome (option double) :=
  if is_null value then Ok None
  else if negb (is_number value) || negb (isfinite (get_double value)) || dleb (get_double value) dzero
  then fail field "must be a positive number or null"
  else Ok (Some (get_double value)).

(** The body of [idList]'s loop. *)
Definition id_step (field : string) (ids : list Z) (element : json) : outcome (list Z) :=
  match asInt64 element with
  | Some n =>
      if n <=? 0 then fail field "must be an array of positive integer ids"
      else Ok (if bool_decide (n ∈ ids) then ids else ids ++ [n])
  | None => fail field "must be an array of positive integer ids"
  end.
Definition idList (value : json) (field : string) : outcome (list Z) :=
  match value with
  | JArray elements => ofold (id_step field) [] elements
  | _ => fail field "must be an array of ids"
  end.

(** [target] is field [f] of [r]. *)
Definition setIfPresent {R T} (body : json) (key : string) (f : R -> T) `{!Setter f}
    (read : json -> string -> outcome T) (r : R) : outcome R :=
  match find key body with
  | Some v => let* x := read v key in Ok (r <| f := x |>)
  | None => Ok r
  end.

(** ** Which exceptions the readers throw *)

Lemma fail_validation {A} f p : throws_only is_validation (fail (A := A) f p).
Proof. by eexists. Qed.
Create HintDb readers.
#[export] Hint Resolve fail_validation throws_only_Ok : readers.

(** Close [throws_only is_validation] of a reader by its cases. *)
Ltac validation_only :=
  repeat (case_match || case_decide || (apply throws_only_bind; [|intros]));
  try done; auto with readers.

Lemma requireObject_throws b : throws_only is_validation (requireObject b).
Proof. unfold requireObject. destruct (is_object b); [done|by eexists]. Qed.
Lemma reject_keys_throws ks allowed : throws_only is_validation (reject_keys ks allowed).
Proof. induction ks; simpl; [done|]. case_match; auto with readers. Qed.
Lemma rejectUnknownKeys_throws b a : throws_only is_validation (rejectUnknownKeys b a).
Proof. apply reject_keys_throws. Qed.
Lemma requiredString_throws v f : throws_only is_validation (requiredString v f).
Proof. unfold requiredString. validation_only. Qed.
Lemma nullableString_throws v f : throws_only is_validation (nullableString v f).
Proof. unfold nullableString. validation_only. Qed.
Lemma cents_throws v f : throws_only is_validation (cents v f).
Proof. unfold cents. validation_only. Qed.
#[export] Hint Resolve requireObject_throws rejectUnknownKeys_throws requiredString_throws
  nullableString_throws cents_throws : readers.
Lemma nullableCents_throws v f : throws_only is_validation (nullableCents v f).
Proof. unfold nullableCents. validation_only. Qed.
Lemma nullableId_throws v f : throws_only is_validation (nullableId v f).
Proof. unfold nullableId. validation_only. Qed.
Lemma boolean_throws v f : throws_only is_validation (boolean v f).
Proof. unfold boolean. validation_only. Qed.
Lemma currency_throws v f : throws_only is_validation (currency v f).
Proof. unfold currency. validation_only. Qed.
Lemma nullablePositiveNumber_throws v f : throws_only is_validation (nullablePositiveNumber v f).
Proof. unfold nullablePositiveNumber. validation_only. Qed.
Lemma idList_throws v f : throws_only is_validation (idList v f).
Proof.
  unfold idList. validation_only. apply throws_only_ofold.
  intros. unfold id_step. validation_only.
Qed.
#[export] Hint Resolve nullableCents_throws nullableId_throws boolean_throws currency_throws
  nullablePositiveNumber_throws idList_throws : readers.

Lemma setIfPresent_throws {R T} P body key (f : R -> T) `{!Setter f} read r :
  (forall v, throws_only P (read v key)) -> throws_only P (setIfPresent body key f read r).
Proof.
  intros H. unfold setIfPresent. case_match; [|done].
  by apply throws_only_bind.
Qed.

(** PATCH semantics of one field: [x'] is what the reader makes of [key]'s value,
    or the old [x] when [key] is absent. *)
Definition patched {T} (body : json) (key : string) (read : json -> string -> outcome T) (x x' : T) : Prop :=
  match find key body with
  | Some v => read v key = Ok x'
  | None => x' = x
  end.

Lemma patched_again {T} body key (read : json -> string -> outcome T) x x' :
  patched body key read x x' -> patched body key read x' x'.
Proof. unfold patched. by case_match. Qed.

Lemma setIfPresent_Ok {R T} body key (f : R -> T) `{!Setter f, !SetterSame f} read r r' :
  setIfPresent body key f read r = Ok r' <->
  exists x, patched body key read (f r) x /\ r' = r <| f := x |>.
Proof.
  unfold setIfPresent, patched. destruct (find key body) as [v|].
  - rewrite obind_Ok. split.
    + intros (x & Hx & H). injection H as <-. by exists x.
    + intros (x & Hx & ->). by exists x.
  - split.
    + intros [= <-]. exists (f r). split; [done|]. symmetry. apply setter_same.
    + intros (x & -> & ->). f_equal. symmetry. apply setter_same.
Qed.

(** ** Trimming *)

Lemma span_len_take p l : forallb p (take (span_len p l) l) = true.
Proof. induction l as [|c l IH]; simpl; [done|]. destruct (p c) eqn:E; simpl; [by rewrite E|done]. Qed.

Lemma forallb_lookup {A} (p : A -> bool) (l : list A) :
  forallb p l = true <-> forall i x, l !! i = Some x -> p x = true.
Proof.
  rewrite forallb_forall. split.
  - intros H i x Hi. apply H, list_elem_of_In. by eapply list_elem_of_lookup_2.
  - intros H x Hx. apply list_elem_of_In, list_elem_of_lookup in Hx as [i Hi]. eauto.
Qed.

(** Neither the first nor the last byte is white space. *)
Definition clean (l : list ascii) : Prop :=
  (forall c, head l = Some c -> isspace c = false) /\
  (forall c, last l = Some c -> isspace c = false).

Lemma trim_decompose s : exists pre post,
  chars s = pre ++ chars (trim s) ++ post /\
  forallb isspace pre = true /\ forallb isspace post = true /\ clean (chars (trim s)).
Proof.
  unfold trim. set (l := chars s). set (b := span_len isspace l).
  set (t := span_len isspace (reverse l)). set (e := (length l - t)%nat).
  pose proof (span_len_take isspace l) as Hpre. fold b in Hpre.
  pose proof (span_len_take isspace (reverse l)) as Hpost. fold t in Hpost.
  assert (Ht : (t <= length l)%nat) by (rewrite <- length_reverse; apply span_len_le).
  assert (Htail : forall i x, (e <= i)%nat -> l !! i = Some x -> isspace x = true).
  { intros i x Hi Hx. rewrite forallb_lookup in Hpost.
    pose proof (lookup_lt_Some _ _ _ Hx).
    apply (Hpost (length l - S i)%nat). rewrite lookup_take_lt by lia.
    rewrite reverse_lookup by lia. by replace (length l - S (length l - S i))%nat with i by lia. }
  destruct (Nat.ltb_spec b e) as [Hbe|Hbe].
  - exists (take b l), (drop e l). autorewrite with chars.
    split; [|split; [done|split]].
    + rewrite <- (take_drop b l) at 1. f_equal.
      rewrite <- (take_drop (e - b) (drop b l)) at 1. f_equal. rewrite drop_drop. f_equal. lia.
    + apply forallb_lookup. intros i x. rewrite lookup_drop. intros Hx. eapply Htail; [|exact Hx]. lia.
    + split; intros c Hc.
      * rewrite head_lookup, lookup_take_lt, lookup_drop, Nat.add_0_r in Hc by lia.
        by apply span_len_stop in Hc.
      * rewrite last_lookup, length_take, length_drop in Hc.
        rewrite lookup_take_lt, lookup_drop in Hc by lia.
        apply (span_len_stop isspace (reverse l)). fold t.
        rewrite reverse_lookup by lia. rewrite <- Hc. f_equal. lia.
  - exists l, []. simpl. rewrite !app_nil_r. split; [done|split; [|split; [done|by split]]].
    apply forallb_lookup. intros i x Hx. destruct (decide (i < b)%nat) as [Hi|Hi].
    + rewrite forallb_lookup in Hpre. apply (Hpre i). by rewrite lookup_take_lt.
    + apply (Htail i); [lia|done].
Qed.

Lemma trim_id s : clean (chars s) -> trim s = s.
Proof.
  intros [Hh Hl]. unfold trim. destruct (chars s) as [|c l] eqn:E.
  { simpl. by rewrite <- (of_chars_chars s), E. }
  rewrite span_len_0 by (by apply Hh).
  assert (Hr : span_len isspace (reverse (c :: l)) = 0%nat).
  { destruct (reverse (c :: l)) as [|d l'] eqn:Er; [done|]. apply span_len_0, Hl.
    by rewrite <- head_reverse, Er. }
  rewrite Hr, drop_0, !Nat.sub_0_r, firstn_all. simpl (_ <? _)%nat. cbv iota.
  by rewrite <- E, of_chars_chars.
Qed.

Lemma trim_clean s : clean (chars (trim s)).
Proof. by destruct (trim_decompose s) as (? & ? & ? & ? & ? & ?). Qed.
Lemma trim_idem s : trim (trim s) = trim s.
Proof. apply trim_id, trim_clean. Qed.

(** ** Integers, ids and currencies *)

Lemma asInt64_range v n : num_wf v -> asInt64 v = Some n -> int64_min <= n <= int64_max.
Proof.
  destruct v; simpl; try done; intros Hwf.
  - by intros [= <-].
  - destruct (Z.ltb_spec int64_max n0); [done|]. intros [= <-]. unfold int64_min. lia.
Qed.

Lemma cents_Ok v f n : cents v f = Ok n <-> asInt64 v = Some n /\ 0 <= n.
Proof.
  unfold cents. destruct (asInt64 v) as [m|]; [|split; [done|by intros [? _]]].
  destruct (Z.ltb_spec m 0); split; try done.
  - intros [[= ->] ?]. lia.
  - intros [= ->]. done.
  - by intros [[= ->] _].
Qed.

Lemma id_step_Ok f ids v ids' : id_step f ids v = Ok ids' ->
  exists n, asInt64 v = Some n /\ 0 < n /\ ids' = if bool_decide (n ∈ ids) then ids else ids ++ [n].
Proof.
  unfold id_step. destruct (asInt64 v) as [n|]; [|done].
  destruct (Z.leb_spec n 0); [done|]. intros [= <-]. by exists n.
Qed.

(** What [idList]'s loop maintains: [ids] are distinct positive ids. *)
Definition ids_ok (ids : list Z) : Prop := NoDup ids /\ Forall (fun n => 0 < n) ids.

Lemma idList_loop f elements ids out : ids_ok ids ->
  ofold (id_step f) ids elements = Ok out ->
  ids_ok out /\ ids `prefix_of` out /\
  forall n, n ∈ out <-> n ∈ ids \/ exists v, v ∈ elements /\ asInt64 v = Some n.
Proof.
  revert ids. induction elements as [|v elements IH]; intros ids [Hnd Hpos] H; simpl in H.
  - injection H as <-. split; [done|split; [done|]]. intros n.
    split; [by left|]. intros [?|(? & []%not_elem_of_nil & _)]; done.
  - ok_inv. apply id_step_Ok in Ha as (m & Hm & Hm0 & ->).
    assert (Hok : ids_ok (if bool_decide (m ∈ ids) then ids else ids ++ [m])).
    { case_bool_decide; [by split|]. split.
      - apply NoDup_app. split; [done|]. split; [|apply NoDup_singleton].
        intros x Hx ->%list_elem_of_singleton. done.
      - by apply Forall_app_2; [|constructor]. }
    destruct (IH _ Hok H) as (Hout & Hpre & Hin). split; [done|]. split.
    + etransitivity; [|exact Hpre]. case_bool_decide; [done|]. by eexists.
    + intros n. rewrite Hin. setoid_rewrite elem_of_cons.
      case_bool_decide as Hd; [|rewrite elem_of_app, list_elem_of_singleton];
        split; intros Hn; destruct_or?; naive_solver.
Qed.

Lemma map_toupper_upper l : forallb isalpha l = true -> forallb isupper (map toupper l) = true.
Proof.
  induction l as [|c l IH]; simpl; [done|]. rewrite !andb_true_iff.
  intros [H1 H2]. split; [by apply isalpha_toupper|auto].
Qed.

Definition currency_code (s : string) : Prop :=
  String.length s = 3%nat /\ all_chars isupper s = true.

Lemma currency_Ok v f s : currency v f = Ok s -> currency_code s.
Proof.
  unfold currency. destruct v as [| | | | |t| | |]; try done.
  destruct (Nat.eqb_spec (String.length t) 3) as [Hl|]; [|done].
  destruct (all_chars isalpha t) eqn:Ha; [|done]. simpl. intros [= <-].
  split.
  - rewrite <- length_chars, chars_map_chars, length_map, length_chars. done.
  - unfold all_chars. rewrite chars_map_chars. by apply map_toupper_upper.
Qed.

Lemma currency_code_ok s f : currency_code s -> currency (JString s) f = Ok s.
Proof.
  intros [Hl Hu]. unfold currency. rewrite Hl. simpl.
  assert (Hd : forall c, isupper c = true -> isalpha c = true /\ toupper c = c).
  { intros c Hc. split; [by unfold isalpha; rewrite Hc|by apply toupper_upper]. }
  unfold all_chars in *. assert (Ha : forallb isalpha (chars s) = true /\ map toupper (chars s) = chars s).
  { revert Hu. generalize (chars s). clear Hl s. intros l. induction l as [|c l IH]; simpl; [done|].
    rewrite andb_true_iff. intros [Hc Hl]. destruct (IH Hl) as [-> ->], (Hd c Hc) as [-> ->]. done. }
  destruct Ha as [-> Hm]. simpl. unfold map_chars. by rewrite Hm, of_chars_chars.
Qed.

(** ** Dates *)

(** The decimal value of two or four digits. *)
Definition digit (c : ascii) : Z := byte_of c - 48.
Definition dec2 (a b : ascii) : Z := 10 * digit a + digit b.
Definition dec4 (a b c d : ascii) : Z := 1000 * digit a + 100 * digit b + 10 * digit c + digit d.

Lemma isdigit_range c : isdigit c = true -> 0 <= digit c <= 9.
Proof. unfold isdigit, char_in, digit. rewrite andb_true_iff, !Z.leb_le. lia. Qed.
Lemma isdigit_not_space c : isdigit c = true -> isspace c = false.
Proof.
  unfold isdigit, isspace, char_in. rewrite andb_true_iff, !Z.leb_le. intros ?.
  destruct (Z.leb_spec (byte_of c) 13); [lia|]. destruct (Z.eqb_spec (byte_of c) 32); [lia|].
  by rewrite andb_false_r.
Qed.

(** [stoi] on a short run of digits. *)
Lemma stoi_digits c l v : isdigit c = true -> digits_value 0 (c :: l) = v -> int32_ok v = true ->
  stoi (of_chars (c :: l)) = Ok v.
Proof.
  intros Hc Hv Hr. unfold stoi, strto. rewrite chars_of_chars.
  rewrite span_len_0 by (by apply isdigit_not_space). rewrite drop_0.
  pose proof (isdigit_range c Hc) as Hb. unfold digit in Hb.
  destruct (Z.eqb_spec (byte_of c) 45); [lia|]. destruct (Z.eqb_spec (byte_of c) 43); [lia|].
  by rewrite Hc, Hv, Hr.
Qed.

Lemma stoi_dec2 a b : isdigit a = true -> isdigit b = true ->
  stoi (of_chars [a; b]) = Ok (dec2 a b).
Proof.
  intros Ha Hb. pose proof (isdigit_range a Ha). pose proof (isdigit_range b Hb).
  apply stoi_digits; [done|..].
  - cbn -[isdigit Z.mul Z.add]. rewrite Ha, Hb. unfold dec2, digit. lia.
  - unfold int32_ok, dec2. rewrite andb_true_iff, Z.leb_le, Z.ltb_lt. lia.
Qed.
Lemma stoi_dec4 a b c d : isdigit a = true -> isdigit b = true -> isdigit c = true -> isdigit d = true ->
  stoi (of_chars [a; b; c; d]) = Ok (dec4 a b c d).
Proof.
  intros Ha Hb Hc Hd. pose proof (isdigit_range a Ha). pose proof (isdigit_range b Hb).
  pose proof (isdigit_range c Hc). pose proof (isdigit_range d Hd).
  apply stoi_digits; [done|..].
  - cbn -[isdigit Z.mul Z.add]. rewrite Ha, Hb, Hc, Hd. unfold dec4, digit. lia.
  - unfold int32_ok, dec4. rewrite andb_true_iff, Z.leb_le, Z.ltb_lt. lia.
Qed.

(** A string [YYYY-MM-DD] with a digit in each letter's place. *)
Record ymd_text := mkYmdText { y1 : ascii; y2 : ascii; y3 : ascii; y4 : ascii;
                               m1 : ascii; m2 : ascii; d1 : ascii; d2 : ascii }.
Definition text_digits (t : ymd_text) : bool :=
  forallb isdigit [y1 t; y2 t; y3 t; y4 t; m1 t; m2 t; d1 t; d2 t].
Definition text_string (t : ymd_text) : string :=
  of_chars [y1 t; y2 t; y3 t; y4 t; "-"%char; m1 t; m2 t; "-"%char; d1 t; d2 t].
Definition text_date (t : ymd_text) : ymd :=
  mkYmd (dec4 (y1 t) (y2 t) (y3 t) (y4 t)) (dec2 (m1 t) (m2 t)) (dec2 (d1 t) (d2 t)).

Lemma to_uchar_small z : 0 <= z < 256 -> to_uchar (to_unsigned z) = z.
Proof.
  intros. unfold to_uchar, to_unsigned. rewrite (Z.mod_small z (2 ^ 32)) by lia.
  apply Z.mod_small. lia.
Qed.

Lemma date_text t f : text_digits t = true ->
  date (JString (text_string t)) f =
  if ymd_ok (text_date t) then Ok (text_string t) else fail f "is not a real calendar date".
Proof.
  destruct t as [a b c d e g h i]. unfold text_digits. cbn [forallb y1 y2 y3 y4 m1 m2 d1 d2].
  rewrite !andb_true_iff. intros (Ha & Hb & Hc & Hd & He & Hg & Hh & Hi & _).
  unfold date, text_string, text_date. cbn [y1 y2 y3 y4 m1 m2 d1 d2].
  assert (Hs : date_shaped (of_chars [a; b; c; d; "-"%char; e; g; "-"%char; h; i]) = true).
  { unfold date_shaped, all_chars. rewrite chars_of_chars. cbn -[isdigit bool_decide].
    rewrite Ha, Hb, Hc, Hd, He, Hg, Hh, Hi, !orb_true_r. done. }
  rewrite Hs.
  change (substr 0 4 _) with (of_chars [a; b; c; d]).
  change (substr 5 2 _) with (of_chars [e; g]).
  change (substr 8 2 _) with (of_chars [h; i]).
  rewrite stoi_dec4, !stoi_dec2 by done. cbn [obind].
  unfold ymd_of_ints. pose proof (isdigit_range _ He). pose proof (isdigit_range _ Hg).
  pose proof (isdigit_range _ Hh). pose proof (isdigit_range _ Hi).
  rewrite !to_uchar_small by (unfold dec2; lia). done.
Qed.

(** *** What [date] can throw: its own message, or [std::stoi]'s complaint *)

Definition date_exn (e : exn) : Prop := is_validation e \/ e = InvalidArgument "stoi".

Lemma validation_date_exn {A} (m : outcome A) :
  throws_only is_validation m -> throws_only date_exn m.
Proof. destruct m; simpl; [done|by left|done]. Qed.

Lemma digits_value_bound l acc : 0 <= acc ->
  0 <= digits_value acc l < (acc + 1) * 10 ^ Z.of_nat (length l).
Proof.
  revert acc. induction l as [|c l IH]; intros acc Hacc; cbn -[isdigit Z.mul Z.add Z.pow Z.of_nat].
  { rewrite Z.pow_0_r. lia. }
  rewrite Nat2Z.inj_succ, Z.pow_succ_r by lia.
  assert (0 < 10 ^ Z.of_nat (length l)) by lia.
  destruct (isdigit c) eqn:Hc; [|nia].
  pose proof (isdigit_range c Hc) as Hd. unfold digit in Hd.
  destruct (IH (10 * acc + (byte_of c - 48))); nia.
Qed.

Lemma stoi_short s : (String.length s <= 9)%nat -> throws_only date_exn (stoi s).
Proof.
  intros Hlen. unfold stoi, strto.
  set (l := drop (span_len isspace (chars s)) (chars s)).
  assert (Hl : (length l <= 9)%nat) by (unfold l; rewrite length_drop, length_chars; lia).
  assert (Hint : forall l', (length l' <= 9)%nat ->
    int32_ok (digits_value 0 l') = true /\ int32_ok (- digits_value 0 l') = true).
  { intros l' Hl'. pose proof (digits_value_bound l' 0) as Hb.
    assert (10 ^ Z.of_nat (length l') <= 10 ^ 9) by (apply Z.pow_le_mono_r; lia).
    unfold int32_ok. rewrite !andb_true_iff, !Z.leb_le, !Z.ltb_lt. lia. }
  match goal with |- context [let '(neg, l2) := ?x in _] => set (p := x) end.
  assert (Hp : (length (snd p) <= 9)%nat).
  { unfold p. destruct l as [|c l']; simpl in *; [lia|]. repeat case_match; simpl; lia. }
  destruct p as [neg l2]. simpl in Hp. destruct (Hint l2 Hp) as [H1 H2].
  destruct l2 as [|c l2]; [by right|]. case_match; [|by right].
  destruct neg; rewrite ?H1, ?H2; done.
Qed.

Lemma length_substr pos n s : (String.length (substr pos n s) <= n)%nat.
Proof.
  unfold substr. revert pos n. induction s as [|c s IH]; intros [|pos] [|n]; simpl; try lia.
  - pose proof (IH 0%nat n). lia.
  - apply (IH pos 0%nat).
  - apply (IH pos (S n)).
Qed.

Lemma fail_date_exn {A} f p : throws_only date_exn (fail (A := A) f p).
Proof. left. by eexists. Qed.
#[export] Hint Resolve fail_date_exn : readers.

Lemma date_throws v f : throws_only date_exn (date v f).
Proof.
  unfold date. destruct v as [| | | | |s| | |]; auto with readers.
  case_match; auto with readers.
  repeat (apply throws_only_bind; [apply stoi_short; etransitivity; [apply length_substr|lia]|intros]).
  case_match; [done|auto with readers].
Qed.

Lemma date_Ok_same v f s : date v f = Ok s -> v = JString s /\ date_shaped s = true.
Proof.
  unfold date. destruct v as [| | | | |t| | |]; try done.
  destruct (date_shaped t) eqn:E; [|done]. intros H. ok_inv.
  case_match; [|done]. by injection H as <-.
Qed.
