(* ===== verification/LedgerInput.v ===== *)
(** * Request bodies into validated structs

    src/src/receipts/LedgerInput.h and LedgerInput.cpp: manual entry, receipt
    PATCH, item create and PATCH, and the kind rules that do not need the
    database. *)
From S2P Require Import Prelude CString Binary64 Json Kinds Calendar JsonInput.
Open Scope outcome_scope.

(** ** Data *)

Record EditableReceipt := mkEditable {
  er_kind : string;
  er_direction : string;
  er_totalCents : Z;
  er_currency : string;
  er_merchant : option string;
  er_storeNameRaw : option string;
  er_purchaseDate : option string;
  er_paymentMethodId : option Z;
  er_taxDeductible : bool;
  er_note : option string;
  er_offsetsReceiptId : option Z;
  er_fxRateToAud : option double
}.
#[export] Instance eta_EditableReceipt : Eta EditableReceipt := fun r =>
  mkEditable (er_kind r) (er_direction r) (er_totalCents r) (er_currency r) (er_merchant r)
    (er_storeNameRaw r) (er_purchaseDate r) (er_paymentMethodId r) (er_taxDeductible r)
    (er_note r) (er_offsetsReceiptId r) (er_fxRateToAud r).
#[export] Instance EditableReceipt_eq_dec : EqDecision EditableReceipt.
Proof. solve_decision. Defined.

(** The member initialisers; the direction is [kDefaultKind]'s canonical one. *)
Definition default_receipt : EditableReceipt :=
  mkEditable kDefaultKind (default "" (canonicalDirection purchase_rules)) 0 "AUD"
    None None None None false None None None.

Record ItemInput := mkItemInput {
  ii_name : option string;
  ii_quantity : option double;
  ii_unitPriceCents : option Z;
  ii_amountCents : Z;
  ii_categoryId : option Z;
  ii_informational : bool;
  ii_tagIds : list Z
}.
#[export] Instance eta_ItemInput : Eta ItemInput := fun i =>
  mkItemInput (ii_name i) (ii_quantity i) (ii_unitPriceCents i) (ii_amountCents i)
    (ii_categoryId i) (ii_informational i) (ii_tagIds i).
#[export] Instance ItemInput_eq_dec : EqDecision ItemInput.
Proof. solve_decision. Defined.
Definition default_item : ItemInput := mkItemInput None None None 0 None false [].

Record ManualEntryInput := mkManualEntry {
  me_receipt : EditableReceipt;
  me_categoryId : option Z;
  me_items : list ItemInput
}.
#[export] Instance eta_ManualEntryInput : Eta ManualEntryInput := fun i =>
  mkManualEntry (me_receipt i) (me_categoryId i) (me_items i).

(** ** Operations *)

Definition parseKind (value : json) : outcome string :=
  let* kind := requiredString value "kind" in
  match findKind kind with
  | Some _ => Ok kind
  | None => Throw (ValidationError ("kind must be one of " +:+ kindNames))
  end.

Definition parseDirection (value : json) : outcome string :=
  let* direction := requiredString value "direction" in
  if isKnownDirection direction then Ok direction
  else Throw (ValidationError "direction must be inflow or outflow").

Definition applyCommonReceiptFields (r : EditableReceipt) (body : json) : outcome EditableReceipt :=
  let* r := setIfPresent body "total_cents" er_totalCents cents r in
  let* r := setIfPresent body "currency" er_currency currency r in
  let* r := setIfPresent body "merchant" er_merchant nullableString r in
  let* r := setIfPresent body "purchase_date" er_purchaseDate nullableDate r in
  let* r := setIfPresent body "payment_method_id" er_paymentMethodId nullableId r in
  let* r := setIfPresent body "tax_deductible" er_taxDeductible boolean r in
  let* r := setIfPresent body "note" er_note nullableString r in
  let* r := setIfPresent body "offsets_receipt_id" er_offsetsReceiptId nullableId r in
  setIfPresent body "fx_rate_to_aud" er_fxRateToAud nullablePositiveNumber r.

Definition applyItemFields (item : ItemInput) (body : json) : outcome ItemInput :=
  let* i := setIfPresent body "name" ii_name nullableString item in
  let* i := setIfPresent body "quantity" ii_quantity nullablePositiveNumber i in
  let* i := setIfPresent body "unit_price_cents" ii_unitPriceCents nullableCents i in
  let* i := setIfPresent body "amount_cents" ii_amountCents cents i in
  let* i := setIfPresent body "category_id" ii_categoryId nullableId i in
  let* i := setIfPresent body "informational" ii_informational boolean i in
  setIfPresent body "tag_ids" ii_tagIds idList i.

Definition item_keys : list string :=
  ["name"; "quantity"; "unit_price_cents"; "amount_cents"; "category_id"; "informational"; "tag_ids"]%string.
Definition rejectUnknownItemKeys (body : json) : outcome unit := rejectUnknownKeys body item_keys.

Definition validateReceipt (r : EditableReceipt) : outcome unit :=
  let* rules := rulesFor (er_kind r) in
  match canonicalDirection rules with
  | Some d =>
      if bool_decide (d = er_direction r) then Ok ()
      else Throw (ValidationError ("direction must be " +:+ d +:+ " when kind is " +:+ er_kind r))
  | None => Ok ()
  end ;;;
  (if er_taxDeductible r && negb (allowsTaxDeductible rules)
   then Throw (ValidationError ("tax_deductible is not allowed when kind is " +:+ er_kind r)) else Ok ()) ;;;
  (if bool_decide (is_Some (er_offsetsReceiptId r)) && negb (canOffset rules)
   then Throw (ValidationError ("offsets_receipt_id is not allowed when kind is " +:+ er_kind r)) else Ok ()) ;;;
  (if bool_decide (is_Some (er_fxRateToAud r)) && bool_decide (er_currency r = "AUD"%string)
   then Throw (ValidationError "fx_rate_to_aud only applies to non-AUD currencies") else Ok ()).

Definition parseNewItem (body : json) : outcome ItemInput :=
  requireObject body ;;;
  rejectUnknownItemKeys body ;;;
  if has "amount_cents" body then applyItemFields default_item body
  else Throw (ValidationError "amount_cents is required").

(** The item and [tagsGiven]. *)
Definition applyItemPatch (item : ItemInput) (body : json) : outcome (ItemInput * bool) :=
  requireObject body ;;;
  rejectUnknownItemKeys body ;;;
  let* item := applyItemFields item body in
  Ok (item, has "tag_ids" body).

Definition manual_keys : list string :=
  ["kind"; "direction"; "total_cents"; "currency"; "merchant"; "purchase_date";
   "payment_method_id"; "tax_deductible"; "note"; "offsets_receipt_id"; "fx_rate_to_aud";
   "category_id"; "items"]%string.

(** The [items] branch of [parseManualEntry]. *)
Definition parseItems (body : json) (input : ManualEntryInput) : outcome ManualEntryInput :=
  match find "items" body with
  | None => Ok input
  | Some (JArray elements) =>
      if bool_decide (is_Some (me_categoryId input))
      then Throw (ValidationError "send either category_id (one implicit item) or items, not both")
      else ofold (fun input item => let* i := parseNewItem item in Ok (input <| me_items ::= fun l => l ++ [i] |>))
             input elements
  | Some _ => Throw (ValidationError "items must be an array")
  end.

Definition parseManualEntry (body : json) : outcome ManualEntryInput :=
  requireObject body ;;;
  rejectUnknownKeys body manual_keys ;;;
  if negb (has "total_cents" body) then Throw (ValidationError "total_cents is required") else
  let r := default_receipt in
  let* r := match find "kind" body with
            | Some v => let* k := parseKind v in Ok (r <| er_kind := k |>)
            | None => Ok r
            end in
  let* r := applyCommonReceiptFields r body in
  let* r := match find "direction" body with
            | Some v => let* d := parseDirection v in Ok (r <| er_direction := d |>)
            | None =>
                let* rules := rulesFor (er_kind r) in
                match canonicalDirection rules with
                | Some d => Ok (r <| er_direction := d |>)
                | None => Throw (ValidationError ("direction is required when kind is " +:+ er_kind r))
                end
            end in
  let* input := setIfPresent body "category_id" me_categoryId nullableId (mkManualEntry r None []) in
  let* input := parseItems body input in
  validateReceipt r ;;;
  Ok input.

Definition patch_keys : list string :=
  ["kind"; "direction"; "total_cents"; "currency"; "merchant"; "store_name_raw"; "purchase_date";
   "payment_method_id"; "tax_deductible"; "note"; "offsets_receipt_id"; "fx_rate_to_aud"; "reviewed"]%string.

(** The receipt and [markReviewed]. *)
Definition applyReceiptPatch (r : EditableReceipt) (body : json) : outcome (EditableReceipt * bool) :=
  requireObject body ;;;
  rejectUnknownKeys body patch_keys ;;;
  let* r := match find "kind" body with
            | Some v =>
                let* k := parseKind v in
                let r := r <| er_kind := k |> in
                if has "direction" body then Ok r
                else let* rules := rulesFor (er_kind r) in
                     Ok (match canonicalDirection rules with
                         | Some d => r <| er_direction := d |>
                         | None => r
                         end)
            | None => Ok r
            end in
  let* r := match find "direction" body with
            | Some v => let* d := parseDirection v in Ok (r <| er_direction := d |>)
            | None => Ok r
            end in
  let* r := setIfPresent body "store_name_raw" er_storeNameRaw nullableString r in
  let* r := applyCommonReceiptFields r body in
  let* markReviewed := match find "reviewed" body with
            | Some v =>
                let* b := boolean v "reviewed" in
                if (b : bool) then Ok true else Throw (ValidationError "reviewed only accepts true")
            | None => Ok false
            end in
  validateReceipt r ;;;
  Ok (r, markReviewed).

Definition categoryFitsKind (categoryIsIncome : bool) (kind : string) : outcome bool :=
  let* rules := rulesFor kind in Ok (Bool.eqb categoryIsIncome (usesIncomeCategories rules)).

Definition audEquivalentCents `{Platform} (totalCents : Z) (fxRateToAud : option double) : option Z :=
  match fxRateToAud with
  | None => None
  | Some rate => Some (llround (dmul (of_int totalCents) rate))
  end.

(** ** What a patch does, as a relation

    [common_patched body r r']: [r'] is [r] with the fields [body] names, and no
    others, replaced by what their readers return. *)
Record common_patched (body : json) (r r' : EditableReceipt) : Prop := {
  cp_total : patched body "total_cents" cents (er_totalCents r) (er_totalCents r');
  cp_currency : patched body "currency" currency (er_currency r) (er_currency r');
  cp_merchant : patched body "merchant" nullableString (er_merchant r) (er_merchant r');
  cp_date : patched body "purchase_date" nullableDate (er_purchaseDate r) (er_purchaseDate r');
  cp_payment : patched body "payment_method_id" nullableId (er_paymentMethodId r) (er_paymentMethodId r');
  cp_tax : patched body "tax_deductible" boolean (er_taxDeductible r) (er_taxDeductible r');
  cp_note : patched body "note" nullableString (er_note r) (er_note r');
  cp_offsets : patched body "offsets_receipt_id" nullableId (er_offsetsReceiptId r) (er_offsetsReceiptId r');
  cp_fx : patched body "fx_rate_to_aud" nullablePositiveNumber (er_fxRateToAud r) (er_fxRateToAud r')
}.

(** Turn a returned chain of [setIfPresent] into its [patched] facts. *)
Ltac set_inv :=
  repeat match goal with
  | H : @setIfPresent ?R ?T ?b ?k ?f ?S ?rd ?r = Ok ?r' |- _ =>
      let x := fresh "x" in let Hx := fresh "Hx" in
      assert (SetterSame f) by (intros []; reflexivity);
      apply (@setIfPresent_Ok R T b k f S _ rd r r') in H as (x & Hx & ->)
  end.
(** Build a returned chain of [setIfPresent] from its [patched] facts. *)
Ltac by_patched :=
  lazymatch goal with
  | |- patched ?b ?k _ _ _ => match goal with H : patched b k _ _ _ |- _ => exact H end
  end.
Ltac set_intro :=
  lazymatch goal with
  | |- obind _ _ = Ok _ =>
      apply obind_Ok; eexists; split; [set_intro|set_intro]
  | |- @setIfPresent ?R ?T ?b ?k ?f ?S ?rd ?r = Ok ?r' =>
      assert (SetterSame f) by (intros []; reflexivity);
      apply (@setIfPresent_Ok R T b k f S _ rd r r'); eexists; split; [by_patched|reflexivity]
  end.

Lemma applyCommonReceiptFields_Ok r body r' :
  applyCommonReceiptFields r body = Ok r' <->
  common_patched body r r' /\ er_kind r' = er_kind r /\ er_direction r' = er_direction r /\
  er_storeNameRaw r' = er_storeNameRaw r.
Proof.
  split.
  - unfold applyCommonReceiptFields. intros H. ok_inv. set_inv. simpl in *. split; [split; by_patched|done].
  - destruct r, r'. simpl. intros ([] & -> & -> & ->). simpl in *.
    unfold applyCommonReceiptFields. set_intro.
Qed.

Record item_patched (body : json) (i i' : ItemInput) : Prop := {
  ip_name : patched body "name" nullableString (ii_name i) (ii_name i');
  ip_quantity : patched body "quantity" nullablePositiveNumber (ii_quantity i) (ii_quantity i');
  ip_unit : patched body "unit_price_cents" nullableCents (ii_unitPriceCents i) (ii_unitPriceCents i');
  ip_amount : patched body "amount_cents" cents (ii_amountCents i) (ii_amountCents i');
  ip_category : patched body "category_id" nullableId (ii_categoryId i) (ii_categoryId i');
  ip_informational : patched body "informational" boolean (ii_informational i) (ii_informational i');
  ip_tags : patched body "tag_ids" idList (ii_tagIds i) (ii_tagIds i')
}.

Lemma applyItemFields_Ok i body i' : applyItemFields i body = Ok i' <-> item_patched body i i'.
Proof.
  split.
  - unfold applyItemFields. intros H. ok_inv. set_inv. simpl in *. split; by_patched.
  - destruct i, i'. intros []. simpl in *. unfold applyItemFields. set_intro.
Qed.

Lemma reject_keys_Ok ks allowed : reject_keys ks allowed = Ok () <-> ks ⊆ allowed.
Proof.
  induction ks as [|k ks IH]; simpl.
  - split; [intros _ ? []%not_elem_of_nil|done].
  - case_bool_decide as Hk.
    + rewrite IH. split; [|set_solver]. intros H x [->|Hx]%elem_of_cons; auto.
    + split; [done|]. intros H. exfalso. apply Hk, H. left.
Qed.
Lemma requireObject_Ok b : requireObject b = Ok () <-> is_object b = true.
Proof. unfold requireObject. by destruct (is_object b). Qed.

(** The whole of PATCH /receipts/:id on the editable fields. *)
Record patch_spec (r : EditableReceipt) (body : json) (r' : EditableReceipt) (markReviewed : bool) : Prop := {
  ps_object : is_object body = true;
  ps_keys : keys body ⊆ patch_keys;
  ps_kind : patched body "kind" (fun v _ => parseKind v) (er_kind r) (er_kind r');
  ps_direction :
    match find "direction" body with
    | Some v => parseDirection v = Ok (er_direction r')
    | None => er_direction r' =
        if has "kind" body
        then default (er_direction r) (findKind (er_kind r') ≫= canonicalDirection)
        else er_direction r
    end;
  ps_store : patched body "store_name_raw" nullableString (er_storeNameRaw r) (er_storeNameRaw r');
  ps_common : common_patched body r r';
  ps_valid : validateReceipt r' = Ok ();
  ps_reviewed :
    match find "reviewed" body with
    | Some v => v = JBool true /\ markReviewed = true
    | None => markReviewed = false
    end
}.

Lemma parseKind_Ok v k : parseKind v = Ok k -> is_Some (findKind k).
Proof. unfold parseKind. intros H. ok_inv. case_match; [|done]. injection H as <-. by eexists. Qed.
Lemma parseDirection_Ok v d : parseDirection v = Ok d -> isKnownDirection d = true.
Proof. unfold parseDirection. intros H. ok_inv. case_match; [|done]. by injection H as <-. Qed.
Lemma boolean_Ok v f b : boolean v f = Ok b -> v = JBool b.
Proof. unfold boolean. destruct v; try done. by intros [= ->]. Qed.
Lemma unit_Ok (m : outcome unit) x : m = Ok x -> m = Ok ().
Proof. by destruct x. Qed.

Lemma setIfPresent_store r body r' :
  setIfPresent body "store_name_raw" er_storeNameRaw nullableString r = Ok r' <->
  exists x, patched body "store_name_raw" nullableString (er_storeNameRaw r) x /\
            r' = r <| er_storeNameRaw := x |>.
Proof. apply setIfPresent_Ok. intros []; reflexivity. Qed.

(** The direction a patch leaves, given the kind it leaves. *)
Definition patched_direction (body : json) (k d : string) : string :=
  if has "kind" body then default d (findKind k ≫= canonicalDirection) else d.

Lemma patch_kind_Ok r body r1 :
  match find "kind" body with
  | Some v =>
      let* k := parseKind v in
      let r := r <| er_kind := k |> in
      if has "direction" body then Ok r
      else let* rules := rulesFor (er_kind r) in
           Ok (match canonicalDirection rules with
               | Some d => r <| er_direction := d |>
               | None => r
               end)
  | None => Ok r
  end = Ok r1 <->
  exists k, patched body "kind" (fun v _ => parseKind v) (er_kind r) k /\
    r1 = r <| er_kind := k |> <| er_direction :=
      if has "direction" body then er_direction r else patched_direction body k (er_direction r) |>.
Proof.
  unfold patched, patched_direction. destruct r as [kd d t c m s p y x n o f]. cbn [er_kind er_direction set_field].
  pose proof (eq_refl : has "kind" body = match find "kind" body with Some _ => true | None => false end) as Hh.
  destruct (find "kind" body) as [v|]; rewrite Hh.
  - rewrite obind_Ok. split.
    + intros (k & Hpk & H). exists k. split; [done|]. destruct (has "direction" body); [by injection H as <-|].
      apply parseKind_Ok in Hpk as [rules Hr]. unfold rulesFor in H. simpl in H. rewrite Hr in *. simpl in *.
      injection H as <-. by destruct (canonicalDirection rules).
    + intros (k & Hpk & ->). exists k. split; [done|]. destruct (has "direction" body); [done|].
      apply parseKind_Ok in Hpk as [rules Hr]. unfold rulesFor. simpl. rewrite Hr. simpl.
      by destruct (canonicalDirection rules).
  - split.
    + intros [= <-]. exists kd. split; [done|]. simpl. by destruct (has "direction" body).
    + intros (k & -> & ->). simpl. by destruct (has "direction" body).
Qed.

Lemma patch_direction_Ok r body r1 :
  match find "direction" body with
  | Some v => let* d := parseDirection v in Ok (r <| er_direction := d |>)
  | None => Ok r
  end = Ok r1 <->
  exists d, patched body "direction" (fun v _ => parseDirection v) (er_direction r) d /\
    r1 = r <| er_direction := d |>.
Proof.
  unfold patched. destruct (find "direction" body) as [v|].
  - rewrite obind_Ok. split; intros (d & Hd & H); exists d; (split; [done|]); congruence.
  - split; [intros [= <-]; exists (er_direction r); by destruct r|]. intros (d & -> & ->). by destruct r.
Qed.

Lemma patch_reviewed_Ok body m :
  match find "reviewed" body with
  | Some v => let* b := boolean v "reviewed" in
      if (b : bool) then Ok true else Throw (ValidationError "reviewed only accepts true")
  | None => Ok false
  end = Ok m <->
  match find "reviewed" body with
  | Some v => v = JBool true /\ m = true
  | None => m = false
  end.
Proof.
  destruct (find "reviewed" body) as [v|]; [|split; congruence].
  rewrite obind_Ok. split.
  - intros ([] & Hb & H); [|done]. apply boolean_Ok in Hb as ->. split; congruence.
  - intros [-> ->]. by exists true.
Qed.

Lemma applyReceiptPatch_Ok r body r' m :
  applyReceiptPatch r body = Ok (r', m) <-> patch_spec r body r' m.
Proof.
  unfold applyReceiptPatch. split.
  - intros H. apply obind_Ok in H as ([] & Ho & H). apply obind_Ok in H as ([] & Hk & H).
    apply obind_Ok in H as (r1 & H1 & H). apply patch_kind_Ok in H1 as (k & Hpk & ->).
    apply obind_Ok in H as (r2 & H2 & H). apply patch_direction_Ok in H2 as (d & Hpd & ->).
    apply obind_Ok in H as (r3 & H3 & H). apply setIfPresent_store in H3 as (s & Hps & ->).
    apply obind_Ok in H as (r4 & H4 & H). apply applyCommonReceiptFields_Ok in H4 as (Hc & Ek & Ed & Es).
    apply obind_Ok in H as (m' & Hm & H). apply patch_reviewed_Ok in Hm.
    apply obind_Ok in H as ([] & Hv & H). injection H as -> ->.
    simpl in *. split; try done.
    + by apply requireObject_Ok.
    + by apply reject_keys_Ok.
    + by rewrite Ek.
    + rewrite Ed, Ek. unfold patched, patched_direction, has in Hpd |- *.
      by destruct (find "direction" body).
    + by rewrite Es.
    + destruct Hc. by split.
  - intros []. apply obind_Ok. exists (). split; [by apply requireObject_Ok|].
    apply obind_Ok. exists (). split; [by apply reject_keys_Ok|].
    apply obind_Ok. eexists. split; [apply patch_kind_Ok; by exists (er_kind r')|].
    apply obind_Ok. eexists. split; [apply patch_direction_Ok; exists (er_direction r'); split; [|reflexivity]|].
    { unfold patched, has in *. simpl. by destruct (find "direction" body). }
    apply obind_Ok. eexists. split; [apply setIfPresent_store; by exists (er_storeNameRaw r')|].
    apply obind_Ok. exists r'. split; [apply applyCommonReceiptFields_Ok; destruct ps_common0; by repeat split|].
    apply obind_Ok. exists m. split; [by apply patch_reviewed_Ok|].
    apply obind_Ok. by exists ().
Qed.

(** ** Validity

    What every receipt the program accepts satisfies; the CHECK constraints of
    the schema follow from it (see Db). *)
Record valid_receipt (r : EditableReceipt) : Prop := {
  vr_rules : validateReceipt r = Ok ();
  vr_direction : isKnownDirection (er_direction r) = true;
  vr_total : 0 <= er_totalCents r <= int64_max;
  vr_currency : currency_code (er_currency r)
}.

Record valid_item (i : ItemInput) : Prop := {
  vi_amount : 0 <= ii_amountCents i <= int64_max;
  vi_unit : forall p, ii_unitPriceCents i = Some p -> 0 <= p <= int64_max;
  vi_category : forall c, ii_categoryId i = Some c -> 0 < c;
  vi_tags : ids_ok (ii_tagIds i)
}.

Lemma cents_range body key v n : json_wf body = true -> find key body = Some v ->
  cents v key = Ok n -> 0 <= n <= int64_max.
Proof.
  intros Hwf Hf [Ha Hn]%cents_Ok. split; [done|].
  by apply (asInt64_range v n (json_wf_num _ (json_wf_find _ _ _ Hwf Hf))).
Qed.

Lemma common_patched_valid body r r' : json_wf body = true -> common_patched body r r' ->
  0 <= er_totalCents r <= int64_max -> currency_code (er_currency r) ->
  0 <= er_totalCents r' <= int64_max /\ currency_code (er_currency r').
Proof.
  intros Hwf [Ht Hc _ _ _ _ _ _ _] H1 H2. unfold patched in Ht, Hc. split.
  - destruct (find "total_cents" body) eqn:E; [|by rewrite Ht]. by eapply cents_range.
  - destruct (find "currency" body); [|by rewrite Hc]. by eapply currency_Ok.
Qed.

Lemma item_patched_valid body i i' : json_wf body = true -> item_patched body i i' ->
  valid_item i -> valid_item i'.
Proof.
  intros Hwf [_ _ Hu Ha Hc _ Hg] [V1 V2 V3 V4]. unfold patched in *. split.
  - destruct (find "amount_cents" body) eqn:E; [|by rewrite Ha]. by eapply cents_range.
  - destruct (find "unit_price_cents" body) as [v|] eqn:E; [|by rewrite Hu].
    intros p Hp. rewrite Hp in Hu. unfold nullableCents in Hu. destruct (is_null v); [done|].
    ok_inv. by eapply cents_range.
  - destruct (find "category_id" body) as [v|]; [|by rewrite Hc].
    intros c Hv. rewrite Hv in Hc. unfold nullableId in Hc. destruct (is_null v); [done|].
    destruct (asInt64 v) as [n|]; [|done]. destruct (Z.leb_spec n 0); [done|]. by injection Hc as <-.
  - destruct (find "tag_ids" body) as [v|]; [|by rewrite Hg].
    destruct v; try done. simpl in Hg.
    by apply idList_loop in Hg as [? _]; [|split; constructor].
Qed.

Lemma default_item_valid : valid_item default_item.
Proof. split; simpl; try done. split; constructor. Qed.

Lemma parseNewItem_valid body i : json_wf body = true -> parseNewItem body = Ok i -> valid_item i.
Proof.
  unfold parseNewItem. intros Hwf H. ok_inv. destruct (has "amount_cents" body); [|done].
  apply applyItemFields_Ok in H. eapply item_patched_valid; eauto using default_item_valid.
Qed.

(** The loop of [parseItems]: one more item per element. *)
Lemma parseItems_loop elements input input' :
  ofold (fun input item => let* i := parseNewItem item in Ok (input <| me_items ::= fun l => l ++ [i] |>))
    input elements = Ok input' ->
  me_receipt input' = me_receipt input /\ me_categoryId input' = me_categoryId input /\
  exists items, me_items input' = me_items input ++ items /\
    Forall2 (fun v i => parseNewItem v = Ok i) elements items.
Proof.
  revert input. induction elements as [|v elements IH]; intros input H; simpl in H.
  - injection H as <-. split; [done|split; [done|]]. exists []. by rewrite app_nil_r.
  - ok_inv. apply IH in H as (Hr & Hc & items & Hi & HF). simpl in *.
    split; [done|split; [done|]]. exists (a0 :: items). split; [|by constructor].
    by rewrite Hi, <- app_assoc.
Qed.

(** The shape of a manual entry that parses: which items, and from where. *)
Lemma parseManualEntry_inv body input : parseManualEntry body = Ok input ->
  let r := me_receipt input in
  common_patched body default_receipt r /\
  (match find "direction" body with
   | Some v => parseDirection v = Ok (er_direction r)
   | None => (findKind (er_kind r) ≫= canonicalDirection) = Some (er_direction r)
   end) /\
  validateReceipt r = Ok () /\
  match find "items" body with
  | Some (JArray elements) =>
      me_categoryId input = None /\ Forall2 (fun v i => parseNewItem v = Ok i) elements (me_items input)
  | Some _ => False
  | None => me_items input = []
  end.
Proof.
  unfold parseManualEntry. intros H. apply obind_Ok in H as (? & _ & H). apply obind_Ok in H as (? & _ & H).
  destruct (has "total_cents" body); [|done]. simpl negb in H. cbv iota zeta in H.
  apply obind_Ok in H as (r1 & H1 & H). apply obind_Ok in H as (r2 & H2 & H).
  apply obind_Ok in H as (r3 & H3 & H). apply obind_Ok in H as (i4 & H4 & H).
  apply obind_Ok in H as (i5 & H5 & H). apply obind_Ok in H as ([] & Hv & H). injection H as <-.
  apply applyCommonReceiptFields_Ok in H2 as (Hc & Hk & _).
  assert (Hi4 : me_receipt i4 = r3 /\ me_items i4 = []).
  { unfold setIfPresent in H4. destruct (find "category_id" body); ok_inv; done. }
  destruct Hi4 as [Hr4 Hi4].
  assert (H5r : me_receipt i5 = r3 /\ match find "items" body with
    | Some (JArray elements) => me_categoryId i5 = None /\
        Forall2 (fun v i => parseNewItem v = Ok i) elements (me_items i5)
    | Some _ => False | None => me_items i5 = [] end).
  { unfold parseItems in H5. destruct (find "items" body) as [[]|]; try done.
    - case_bool_decide as Hcat; [done|]. apply parseItems_loop in H5 as (-> & Hcat' & items & Hit & HF).
      split; [done|]. rewrite Hit, Hi4, Hcat'. split; [by apply eq_None_not_Some|done].
    - by injection H5 as <-. }
  destruct H5r as [Hr5 Hi5]. rewrite Hr5. split; [|split; [|done]].
  - assert (Hd : common_patched body default_receipt r2).
    { destruct Hc. destruct (find "kind" body); ok_inv; split; by_patched. }
    destruct Hd. destruct (find "direction" body); ok_inv; [split; by_patched|].
    match type of H3 with context [canonicalDirection ?q] => destruct (canonicalDirection q) end; [|done].
    injection H3 as <-. split; by_patched.
  - destruct (find "direction" body) as [v|].
    + ok_inv. done.
    + apply obind_Ok in H3 as (rules & Hrules & H3). apply rulesFor_Ok in Hrules.
      destruct (canonicalDirection rules) as [d|] eqn:Ed; [|done]. injection H3 as <-.
      simpl. by rewrite Hrules.
Qed.

(** ** Exceptions *)

Lemma validation_throw {A} w : throws_only (A := A) date_exn (Throw (ValidationError w)).
Proof. left. by eexists. Qed.
Lemma weaken_validation {A} (m : outcome A) : throws_only is_validation m -> throws_only date_exn m.
Proof. apply validation_date_exn. Qed.
#[export] Hint Resolve validation_throw : readers.
#[export] Hint Resolve weaken_validation | 10 : readers.

Lemma nullableDate_throws v f : throws_only date_exn (nullableDate v f).
Proof.
  unfold nullableDate. destruct (is_null v); [done|].
  apply throws_only_bind; [apply date_throws|done].
Qed.
#[export] Hint Resolve nullableDate_throws date_throws : readers.

Lemma parseKind_throws v : throws_only date_exn (parseKind v).
Proof. unfold parseKind. apply throws_only_bind; [auto with readers|]. intros. case_match; auto with readers. Qed.
Lemma parseDirection_throws v : throws_only date_exn (parseDirection v).
Proof. unfold parseDirection. apply throws_only_bind; [auto with readers|]. intros. case_match; auto with readers. Qed.

Ltac throws_chain :=
  repeat first [ apply throws_only_bind; [|intros]
               | apply setIfPresent_throws; intros ];
  auto with readers.

Lemma applyCommonReceiptFields_throws r body : throws_only date_exn (applyCommonReceiptFields r body).
Proof. unfold applyCommonReceiptFields. throws_chain. Qed.
Lemma applyItemFields_throws i body : throws_only date_exn (applyItemFields i body).
Proof. unfold applyItemFields. throws_chain. Qed.
#[export] Hint Resolve parseKind_throws parseDirection_throws applyCommonReceiptFields_throws
  applyItemFields_throws : readers.

Lemma parseNewItem_throws body : throws_only date_exn (parseNewItem body).
Proof. unfold parseNewItem, rejectUnknownItemKeys. throws_chain. case_match; auto with readers. Qed.
Lemma applyItemPatch_throws i body : throws_only date_exn (applyItemPatch i body).
Proof. unfold applyItemPatch, rejectUnknownItemKeys. throws_chain. Qed.

Lemma validateReceipt_throws r : is_Some (findKind (er_kind r)) -> throws_only date_exn (validateReceipt r).
Proof.
  intros [rules Hr]. unfold validateReceipt, rulesFor. rewrite Hr. cbn [obind].
  apply throws_only_bind; [repeat case_match; auto with readers|intros _ _].
  repeat (apply throws_only_bind; [case_match; auto with readers|intros _ _]).
  case_match; auto with readers.
Qed.

Lemma applyReceiptPatch_throws r body : is_Some (findKind (er_kind r)) ->
  throws_only date_exn (applyReceiptPatch r body).
Proof.
  intros Hr. unfold applyReceiptPatch.
  apply throws_only_bind; [auto with readers|intros]. apply throws_only_bind; [auto with readers|intros].
  apply throws_only_bind.
  { destruct (find "kind" body); [|done]. apply throws_only_bind; [auto with readers|].
    intros k [rules Hk]%parseKind_Ok. cbn [er_kind set_field]. destruct (has "direction" body); [done|].
    unfold rulesFor. by rewrite Hk. }
  intros r1 H1. apply patch_kind_Ok in H1 as (k & Hk & ->).
  assert (Hkk : is_Some (findKind k)).
  { unfold patched in Hk. destruct (find "kind" body); [by eapply parseKind_Ok|by rewrite Hk]. }
  apply throws_only_bind.
  { destruct (find "direction" body); [|done]. apply throws_only_bind; [auto with readers|done]. }
  intros r2 H2. apply patch_direction_Ok in H2 as (d & _ & ->).
  apply throws_only_bind; [apply setIfPresent_throws; auto with readers|].
  intros r3 H3. apply setIfPresent_store in H3 as (s & _ & ->).
  apply throws_only_bind; [auto with readers|].
  intros r4 H4. apply applyCommonReceiptFields_Ok in H4 as (_ & Ek & _).
  apply throws_only_bind.
  { destruct (find "reviewed" body); [|done].
    apply throws_only_bind; [auto with readers|]. intros [] _; [done|auto with readers]. }
  intros. apply throws_only_bind; [|done]. apply validateReceipt_throws. by rewrite Ek.
Qed.

Lemma parseManualEntry_throws body : throws_only date_exn (parseManualEntry body).
Proof.
  unfold parseManualEntry.
  apply throws_only_bind; [auto with readers|intros]. apply throws_only_bind; [auto with readers|intros].
  destruct (negb _); [auto with readers|].
  apply throws_only_bind.
  { destruct (find "kind" body); [|done]. apply throws_only_bind; [auto with readers|done]. }
  intros r1 H1.
  assert (Hk1 : is_Some (findKind (er_kind r1))).
  { destruct (find "kind" body); [|injection H1 as <-; by exists purchase_rules].
    apply obind_Ok in H1 as (k & Hk & H1). injection H1 as <-. by eapply parseKind_Ok. }
  apply throws_only_bind; [auto with readers|].
  intros r2 H2. apply applyCommonReceiptFields_Ok in H2 as (_ & Ek & _). rewrite <- Ek in Hk1.
  apply throws_only_bind.
  { destruct (find "direction" body); [apply throws_only_bind; [auto with readers|done]|].
    destruct Hk1 as [rules Hr]. unfold rulesFor. rewrite Hr. cbn [obind].
    destruct (canonicalDirection rules); [done|auto with readers]. }
  intros r3 H3.
  assert (Hk3 : er_kind r3 = er_kind r2).
  { destruct (find "direction" body); ok_inv; [done|].
    match type of H3 with context [canonicalDirection ?q] => destruct (canonicalDirection q) end; [|done].
    by injection H3 as <-. }
  apply throws_only_bind; [apply setIfPresent_throws; auto with readers|intros].
  apply throws_only_bind.
  { unfold parseItems. destruct (find "items" body) as [[| | | | | |l| |]|]; auto with readers.
    case_bool_decide; [auto with readers|]. apply throws_only_ofold. intros.
    apply throws_only_bind; [apply parseNewItem_throws|done]. }
  intros. apply throws_only_bind; [|done]. apply validateReceipt_throws. by rewrite Hk3.
Qed.

Lemma validateReceipt_kind r : validateReceipt r = Ok () -> is_Some (findKind (er_kind r)).
Proof. unfold validateReceipt. intros H. ok_inv. apply rulesFor_Ok in Ha. by eexists. Qed.

Lemma patch_spec_again r body r' m : patch_spec r body r' m -> patch_spec r' body r' m.
Proof.
  intros []. split; try done.
  - by eapply patched_again.
  - destruct (find "direction" body); [done|]. destruct (has "kind" body) eqn:E; [|done].
    rewrite ps_direction0. by destruct (findKind (er_kind r') ≫= canonicalDirection).
  - by eapply patched_again.
  - destruct ps_common0. split; by eapply patched_again.
Qed.

(** ** Properties *)

(** C28: PATCH /receipts/:id implements its relational specification exactly: it
    accepts a body and leaves [r'] iff [r'] is [r] with precisely the present
    fields replaced by what their readers return, the direction re-derived from
    a changed kind (or kept for a transfer), and the merged receipt valid. *)
Theorem receipt_patch_refines (r : EditableReceipt) (body : json) (r' : EditableReceipt) (m : bool) :
  applyReceiptPatch r body = Ok (r', m) <-> patch_spec r body r' m.
Proof. apply applyReceiptPatch_Ok. Qed.

(** Applying an accepted patch a second time changes nothing. *)
Theorem receipt_patch_idempotent (r : EditableReceipt) (body : json) (r' : EditableReceipt) (m : bool) :
  applyReceiptPatch r body = Ok (r', m) -> applyReceiptPatch r' body = Ok (r', m).
Proof. rewrite !applyReceiptPatch_Ok. apply patch_spec_again. Qed.

(** A patch keeps a valid receipt valid: known kind and direction agreeing
    with the kind, non-negative int64 total, upper-case currency code,
    tax_deductible, offset and rate only where allowed. *)
Theorem receipt_patch_valid (r : EditableReceipt) (body : json) (r' : EditableReceipt) (m : bool) :
  valid_receipt r -> json_wf body = true -> applyReceiptPatch r body = Ok (r', m) -> valid_receipt r'.
Proof.
  intros [_ Hd Ht Hc] Hwf [_ _ _ Hdir _ Hcp Hv _]%applyReceiptPatch_Ok.
  destruct (common_patched_valid _ _ _ Hwf Hcp Ht Hc). split; try done.
  destruct (find "direction" body); [by eapply parseDirection_Ok|]. rewrite Hdir.
  destruct (has "kind" body); [|done].
  destruct (findKind (er_kind r')) as [rules|] eqn:Ek; [|done].
  by destruct_kind Ek.
Qed.

(** A manual entry that parses is valid, and so are its items; and it has
    either explicit items or the single category, never both. *)
Theorem manual_entry_valid (body : json) (input : ManualEntryInput) :
  json_wf body = true -> parseManualEntry body = Ok input ->
  valid_receipt (me_receipt input) /\ Forall valid_item (me_items input) /\
  (me_items input = [] \/ me_categoryId input = None).
Proof.
  intros Hwf H. destruct (parseManualEntry_inv _ _ H) as (Hcp & Hdir & Hv & Hitems).
  destruct (common_patched_valid _ _ _ Hwf Hcp) as [Ht Hc]; [done|done|].
  split; [|split].
  - split; try done. destruct (find "direction" body); [by eapply parseDirection_Ok|].
    destruct (validateReceipt_kind _ Hv) as [rules Ek]. rewrite Ek in Hdir. simpl in Hdir.
    apply isKnownDirection_spec. destruct_kind Ek; simpl in Hdir; naive_solver.
  - destruct (find "items" body) as [v|] eqn:Ei; [|rewrite Hitems; constructor].
    destruct v; try done. destruct Hitems as [_ HF].
    pose proof (json_wf_find _ _ _ Hwf Ei) as Hl. simpl in Hl. rewrite forallb_forall in Hl.
    apply Forall_forall. intros i Hi. apply list_elem_of_lookup in Hi as [n Hn].
    destruct (Forall2_lookup_r _ _ _ _ _ HF Hn) as (w & Hw & Hp).
    eapply parseNewItem_valid; [|exact Hp].
    apply Hl, list_elem_of_In. by eapply list_elem_of_lookup_2.
  - destruct (find "items" body) as [[]|]; naive_solver.
Qed.

(** On any JSON value whatsoever the body parsers return, or throw
    ValidationError or the std::invalid_argument of [std::stoi] (see the date
    finding); never undefined behaviour and never the logic_error of
    [rulesFor]. *)
Theorem parsers_throw_only_client_errors (body : json) (r : EditableReceipt) (i : ItemInput) :
  is_Some (findKind (er_kind r)) ->
  throws_only date_exn (parseManualEntry body) /\ throws_only date_exn (applyReceiptPatch r body) /\
  throws_only date_exn (parseNewItem body) /\ throws_only date_exn (applyItemPatch i body).
Proof.
  intros Hr. split; [apply parseManualEntry_throws|]. split; [by apply applyReceiptPatch_throws|].
  split; [apply parseNewItem_throws|apply applyItemPatch_throws].
Qed.

(** ** Witnesses *)
Definition example_patch : json :=
  JObject [("kind", JString "refund"); ("note", JString " back "); ("reviewed", JBool true)]%string.
Definition example_manual : json :=
  JObject [("category_id", JUnsigned 7); ("currency", JString "jpy"); ("fx_rate_to_aud", JFloat (make 5 (-9)));
           ("merchant", JString "Lawson"); ("total_cents", JUnsigned 200000)]%string.
Definition example_patched : EditableReceipt :=
  default_receipt <| er_kind := "refund"%string |> <| er_direction := "inflow"%string |>
    <| er_note := Some "back"%string |>.

Lemma receipt_patch_idempotent_witness :
  applyReceiptPatch default_receipt example_patch = Ok (example_patched, true) /\
  applyReceiptPatch example_patched example_patch = Ok (example_patched, true).
Proof.
  split; [vm_compute; reflexivity|].
  apply (receipt_patch_idempotent default_receipt). vm_compute. reflexivity.
Defined.

Lemma default_receipt_valid : valid_receipt default_receipt.
Proof. split; vm_compute; try done; split; congruence. Qed.

Lemma receipt_patch_valid_witness :
  applyReceiptPatch default_receipt example_patch = Ok (example_patched, true) /\ valid_receipt example_patched.
Proof.
  split; [vm_compute; reflexivity|].
  apply (receipt_patch_valid default_receipt example_patch example_patched true);
    [exact default_receipt_valid|vm_compute; reflexivity|vm_compute; reflexivity].
Defined.

Definition example_entry : ManualEntryInput :=
  match parseManualEntry example_manual with Ok i => i | _ => mkManualEntry default_receipt None [] end.

Lemma manual_entry_valid_witness :
  parseManualEntry example_manual = Ok example_entry /\ valid_receipt (me_receipt example_entry).
Proof.
  split; [vm_compute; reflexivity|].
  apply (manual_entry_valid example_manual example_entry); vm_compute; reflexivity.
Defined.

Lemma parsers_throw_only_client_errors_witness :
  throws_only date_exn (parseManualEntry JDiscarded) /\
  throws_only date_exn (applyReceiptPatch default_receipt example_patch).
Proof.
  destruct (parsers_throw_only_client_errors JDiscarded default_receipt default_item) as (H1 & _ & _ & _);
    [eexists; reflexivity|].
  destruct (parsers_throw_only_client_errors example_patch default_receipt default_item) as (_ & H2 & _ & _);
    [eexists; reflexivity|].
  split; assumption.
Defined.
