(* ===== verification/TokenUtils.v ===== *)
(** * Hex digests and random tokens

    src/src/auth/TokenUtils.h and TokenUtils.cpp.  libsodium is third-party
    code: the class [Sodium] holds what the program uses of it. *)
From Stdlib Require Import Ascii.
From S2P Require Import Prelude CString.

(** libsodium, on byte strings.  [randombytes_buf i n] are the [n] bytes of the
    [i]-th call; password hashing draws its salt the same way. *)
Class Sodium := {
  randombytes_buf : nat -> nat -> list ascii;
  randombytes_length i n : length (randombytes_buf i n) = n;
  crypto_hash_sha256 : string -> list ascii;
  sha256_length s : length (crypto_hash_sha256 s) = 32%nat;
  crypto_auth_hmacsha256 : string -> string -> list ascii;
  hmac_length k s : length (crypto_auth_hmacsha256 k s) = 32%nat;
  (** [None] when hashing fails (out of memory). *)
  crypto_pwhash_str : nat -> string -> option string;
  crypto_pwhash_str_verify : string -> string -> bool
}.

(** [digits[i]] of the table "0123456789abcdef". *)
Definition hex_digit (i : Z) : ascii :=
  if i <? 10 then char_of (48 + i) else char_of (87 + i).
Definition hex_byte (c : ascii) : list ascii :=
  [hex_digit (Z.shiftr (byte_of c) 4); hex_digit (Z.land (byte_of c) 15)].
Definition toHex (data : list ascii) : string := of_chars (data ≫= hex_byte).

Definition generateToken `{Sodium} (draw byteLength : nat) : string :=
  toHex (randombytes_buf draw byteLength).
Definition hashToken `{Sodium} (token : string) : string := toHex (crypto_hash_sha256 token).

(** ** Decoding *)

Definition unhex_digit (c : ascii) : option Z :=
  if char_in 48 57 c then Some (byte_of c - 48)
  else if char_in 97 102 c then Some (byte_of c - 87) else None.
Fixpoint unhex (l : list ascii) : option (list ascii) :=
  match l with
  | [] => Some []
  | a :: b :: l' =>
      x ← unhex_digit a; y ← unhex_digit b; rest ← unhex l'; Some (char_of (16 * x + y) :: rest)
  | [_] => None
  end.

Definition is_hex (c : ascii) : bool := char_in 48 57 c || char_in 97 102 c.

Definition hex_byte_ok (c : ascii) : bool :=
  match hex_byte c with
  | [a; b] =>
      is_hex a && is_hex b &&
      bool_decide ((x ← unhex_digit a; y ← unhex_digit b; Some (char_of (16 * x + y))) = Some c)
  | _ => false
  end.
Lemma hex_byte_all c : hex_byte_ok c = true.
Proof. revert c. apply all_bytes_spec. vm_compute. reflexivity. Qed.

Lemma unhex_hex_byte c l : unhex (hex_byte c ++ l) = (rest ← unhex l; Some (c :: rest)).
Proof.
  pose proof (hex_byte_all c) as H. unfold hex_byte_ok, hex_byte in *. simpl app.
  apply andb_true_iff in H as [_ H%bool_decide_eq_true].
  set (a := hex_digit (Z.shiftr (byte_of c) 4)) in *. set (b := hex_digit (Z.land (byte_of c) 15)) in *.
  change (unhex (a :: b :: l)) with
    (x ← unhex_digit a; y ← unhex_digit b; rest ← unhex l; Some (char_of (16 * x + y) :: rest)).
  destruct (unhex_digit a) as [x|]; [|discriminate H]. destruct (unhex_digit b) as [y|]; [|discriminate H].
  cbn [mbind option_bind] in *. by injection H as ->.
Qed.

Lemma unhex_toHex data : unhex (chars (toHex data)) = Some data.
Proof.
  unfold toHex. rewrite chars_of_chars. induction data as [|c data IH]; [done|].
  rewrite bind_cons, unhex_hex_byte, IH. done.
Qed.

Lemma toHex_length data : String.length (toHex data) = (2 * length data)%nat.
Proof.
  unfold toHex. rewrite <- length_chars, chars_of_chars.
  induction data as [|c data IH]; [done|]. rewrite bind_cons, length_app, IH. simpl. lia.
Qed.

Lemma toHex_hex data : all_chars is_hex (toHex data) = true.
Proof.
  unfold all_chars, toHex. rewrite chars_of_chars. induction data as [|c data IH]; [done|].
  rewrite bind_cons, forallb_app, IH, andb_true_r.
  pose proof (hex_byte_all c) as H. unfold hex_byte_ok, hex_byte in H.
  apply andb_true_iff in H as [H _]. unfold hex_byte. simpl. rewrite andb_true_r. exact H.
Qed.

#[export] Instance toHex_inj : Inj (=) (=) toHex.
Proof.
  intros x y H. apply (f_equal (fun s => unhex (chars s))) in H. rewrite !unhex_toHex in H. congruence.
Qed.
