(* ===== verification/RateLimiter.v ===== *)
(** * The rate limiter

    src/src/auth/RateLimiter.h: fixed windows, one counter per key, in memory.
    Times are readings of [steady_clock] in one unit; the mutex makes each call
    one step. *)
From S2P Require Import Prelude CString.

Record Entry := mkEntry { windowStart : Z; count : Z }.

Section RateLimiter.
Context (maxAttempts_ window_ : Z).

(** [now] is read on entry; [created] is the second reading, taken by the member
    initialiser when [attempts_[key]] inserts the entry. *)
Definition attempt (now : Z) (entry : Entry) : outcome (bool * Entry) :=
  let entry := if window_ <? now - windowStart entry then mkEntry now 0 else entry in
  let count := count entry + 1 in
  if int32_ok count then Ok (count <=? maxAttempts_, mkEntry (windowStart entry) count)
  else UB "signed overflow".
Definition allow (key : string) (now created : Z) (attempts_ : gmap string Entry)
    : outcome (bool * gmap string Entry) :=
  (let* (ok, entry) := attempt now (default (mkEntry created 0) (attempts_ !! key)) in
   Ok (ok, <[key := entry]> attempts_))%outcome.

(** ** Bounds

    The calls of one key: the times of the calls, and for each whether it was
    let through. *)
Fixpoint calls (times : list (Z * Z)) (entry : option Entry) : outcome (list bool) :=
  match times with
  | [] => Ok []
  | (now, created) :: times' =>
      (let* (ok, entry) := attempt now (default (mkEntry created 0) entry) in
       let* oks := calls times' (Some entry) in
       Ok (ok :: oks))%outcome
  end.
Definition allowed (oks : list bool) : Z := Z.of_nat (length (filter (fun b => b = true) oks)).

Lemma allowed_cons b oks : allowed (b :: oks) = (if b then 1 else 0) + allowed oks.
Proof. unfold allowed. rewrite filter_cons. destruct b; case_decide; cbn [length]; (done || lia). Qed.
Lemma attempt_inv now e ok e' : attempt now e = Ok (ok, e') ->
  let start := if window_ <? now - windowStart e then now else windowStart e in
  let n := if window_ <? now - windowStart e then 1 else count e + 1 in
  e' = mkEntry start n /\ ok = (n <=? maxAttempts_).
Proof. unfold attempt. destruct (window_ <? now - windowStart e); cbn; case_match; intros [= <- <-]; done. Qed.

(** Calls that all fall in the running window. *)
Lemma calls_same_window times e oks b :
  Forall (fun t => t.1 <= b) times -> b - windowStart e <= window_ -> 0 <= count e ->
  calls times (Some e) = Ok oks -> allowed oks <= Z.max 0 (maxAttempts_ - count e).
Proof.
  revert e oks. induction times as [|[now created] times IH]; intros e oks Ht Hb Hc H; cbn in H.
  { injection H as <-. unfold allowed. cbn. lia. }
  apply Forall_cons in Ht as [Hn Ht]. cbn in Hn.
  apply obind_Ok in H as ([ok e'] & Ha & H). apply obind_Ok in H as (oks' & H & [= <-]).
  apply attempt_inv in Ha as [-> ->]. destruct (Z.ltb_spec window_ (now - windowStart e)); [lia|].
  specialize (IH (mkEntry (windowStart e) (count e + 1)) oks' Ht Hb ltac:(cbn; lia) H). cbn [count] in IH. rewrite allowed_cons.
  destruct (Z.leb_spec (count e + 1) maxAttempts_); lia.
Qed.
(** Calls in any stretch of time no longer than a window: at most one reset. *)
Lemma calls_interval times e oks a b :
  Forall (fun t => a <= t.1 <= b) times -> b - a <= window_ -> 0 <= count e ->
  calls times (Some e) = Ok oks -> allowed oks <= Z.max 0 (maxAttempts_ - count e) + Z.max 0 maxAttempts_.
Proof.
  revert e oks. induction times as [|[now created] times IH]; intros e oks Ht Hb Hc H; cbn in H.
  { injection H as <-. unfold allowed. cbn. lia. }
  apply Forall_cons in Ht as [Hn Ht]. cbn in Hn.
  apply obind_Ok in H as ([ok e'] & Ha & H). apply obind_Ok in H as (oks' & H & [= <-]).
  apply attempt_inv in Ha as [-> ->]. rewrite allowed_cons.
  destruct (Z.ltb_spec window_ (now - windowStart e)).
  - assert (Forall (fun t => t.1 <= b) times) as Ht' by (eapply Forall_impl; [exact Ht|cbn; lia]).
    pose proof (calls_same_window times (mkEntry now 1) oks' b Ht' ltac:(cbn; lia) ltac:(cbn; lia) H) as Hw. cbn [count] in Hw.
    destruct (Z.leb_spec 1 maxAttempts_); lia.
  - specialize (IH (mkEntry (windowStart e) (count e + 1)) oks' Ht Hb ltac:(cbn; lia) H). cbn [count] in IH.
    destruct (Z.leb_spec (count e + 1) maxAttempts_); lia.
Qed.
Lemma calls_fresh times oks a b :
  Forall (fun t => a <= t.1 <= b /\ t.1 <= t.2) times -> b - a <= window_ ->
  calls times None = Ok oks -> allowed oks <= Z.max 0 maxAttempts_.
Proof.
  destruct times as [|[now created] times]; intros Ht Hb H; [injection H as <-; unfold allowed; cbn; lia|].
  assert (calls ((now, created) :: times) (Some (mkEntry created 0)) = Ok oks) as H' by exact H.
  apply calls_same_window with (b := b) in H'; cbn in *; [lia|eapply Forall_impl; [exact Ht|cbn; lia]| |lia].
  apply Forall_cons in Ht as [Hn _]. cbn in Hn. lia.
Qed.

(** The calls of one key are those of the trace with that key: other keys have no
    influence. *)
Fixpoint run (trace : list (string * (Z * Z))) (attempts_ : gmap string Entry) : outcome (list (string * bool)) :=
  match trace with
  | [] => Ok []
  | (key, (now, created)) :: trace' =>
      (let* (ok, attempts_) := allow key now created attempts_ in
       let* oks := run trace' attempts_ in
       Ok ((key, ok) :: oks))%outcome
  end.
Definition of_key {A} (k : string) (l : list (string * A)) : list A :=
  map snd (filter (fun x => x.1 = k) l).
Lemma run_key k trace m oks : run trace m = Ok oks -> calls (of_key k trace) (m !! k) = Ok (of_key k oks).
Proof.
  revert m oks. induction trace as [|[key [now created]] trace IH]; intros m oks H; [by injection H as <-|].
  cbn [run] in H. unfold allow in H. apply obind_Ok in H as ([ok m'] & Ha & H).
  apply obind_Ok in Ha as ([ok' e] & Ha & [= -> <-]). apply obind_Ok in H as (oks' & H & [= <-]).
  apply IH in H. unfold of_key. rewrite !filter_cons. cbn [fst]. destruct (decide (key = k)) as [->|N].
  - cbn. rewrite Ha. cbn. rewrite lookup_insert_eq in H. unfold of_key in H. by rewrite H.
  - by rewrite lookup_insert_ne in H.
Qed.
End RateLimiter.

(** ** Properties *)

(** C37: Any two calls' worth of time no longer than the window lets at most
    [2 * maxAttempts] calls of one key through, whatever the limiter's earlier
    history and whatever the other keys do; a key seen for the first time gets at
    most [maxAttempts]. *)
Theorem rate_limit_bound (maxAttempts window : Z) (m : gmap string Entry) (k : string)
    (trace : list (string * (Z * Z))) (oks : list (string * bool)) (a b : Z) :
  (forall e, m !! k = Some e -> 0 <= count e) ->
  Forall (fun t => a <= t.1 <= b /\ t.1 <= t.2) (of_key k trace) -> b - a <= window ->
  run maxAttempts window trace m = Ok oks ->
  allowed (of_key k oks) <= 2 * Z.max 0 maxAttempts /\
  (m !! k = None -> allowed (of_key k oks) <= Z.max 0 maxAttempts).
Proof.
  intros He Ht Hw H. apply (run_key _ _ k) in H. destruct (m !! k) as [e|] eqn:E.
  - specialize (He e eq_refl). split; [|done].
    apply (calls_interval _ _ _ _ _ a b) in H; [lia| |lia|lia]. eapply Forall_impl; [exact Ht|]. cbn. lia.
  - apply (calls_fresh _ _ _ _ a b) in H; [lia|done|lia].
Qed.
Definition example_trace : list (string * (Z * Z)) :=
  [("a", (0, 1)); ("b", (0, 1)); ("a", (2, 2)); ("a", (3, 3)); ("a", (5, 5))]%string.
Lemma rate_limit_bound_witness :
  allowed (of_key "a" [("a", true); ("b", true); ("a", true); ("a", false); ("a", false)]%string) <= 2 * Z.max 0 2 /\
  ((∅ : gmap string Entry) !! "a"%string = None ->
   allowed (of_key "a" [("a", true); ("b", true); ("a", true); ("a", false); ("a", false)]%string) <= Z.max 0 2).
Proof.
  apply (rate_limit_bound 2 10 ∅ "a" example_trace
           [("a", true); ("b", true); ("a", true); ("a", false); ("a", false)]%string 0 10).
  - intros e H. discriminate H.
  - unfold example_trace, of_key. repeat (constructor; [cbn; lia|]). constructor.
  - lia.
  - vm_compute. reflexivity.
Defined.
