(* ===== verification/Db.v ===== *)
(** * The database, transactions and the store of images

    The tables of db/migrations as finite maps from id to row, with the
    constraints the SQL declares (CHECK, UNIQUE, FOREIGN KEY with its ON DELETE
    action); the SQL statements of the services are functions on them, written
    next to the service that issues them.  What Postgres computes by itself
    ([lower], the [date] input function, float8 to NUMERIC, [similarity], the
    Sydney date) is the class [Postgres]; the object store behind
    storage/ImageStore.h is the class [ImageStore]. *)
From S2P Require Import Prelude CString Binary64 Json Kinds JsonInput LedgerInput.

(** ** What Postgres and the object store compute *)

Class Postgres := {
  pg_lower : string -> string;
  (** [$1::date] read back as text; [None] when the cast raises an error. *)
  pg_date_in : string -> option string;
  (** [(now() AT TIME ZONE 'Australia/Sydney')::date], as text. *)
  pg_sydney_date : Z -> string;
  (** A float8 stored in a NUMERIC column and read back as float8. *)
  pg_numeric : double -> double;
  (** [$1::jsonb] read back as JSON; [None] when the cast raises an error. *)
  pg_jsonb : string -> option json;
  pg_similarity : string -> string -> double;
  (** A timestamptz as text ([::text]) and back ([::timestamptz]), and as the
      ISO-8601 UTC text of [to_char]. *)
  pg_ts_out : Z -> string;
  pg_ts_in : string -> option Z;
  pg_iso_utc : Z -> string;
  (** [clock_timestamp()] evaluated for the row with the given id, in a statement that
      starts at the given instant. *)
  pg_clock_timestamp : Z -> Z -> Z
}.
(** PostgreSQL prints a timestamptz with its full microsecond precision and its
    zone, so reading it back under the same settings gives the same instant. *)
Class TimestampText `{Postgres} := ts_in_out t : pg_ts_in (pg_ts_out t) = Some t.

(** storage/ImageStore.h: an operation may throw; the store's state is its own. *)
Class ImageStore := {
  store : Type;
  put : string -> string -> string -> store -> outcome unit * store;
  get : string -> store -> outcome string * store;
  remove : string -> store -> outcome unit * store
}.

(** ** Rows *)

Record category_row := mkCategory { c_user_id : Z; c_name : string; c_is_income : bool }.
Record tag_row := mkTag { t_user_id : Z; t_name : string }.
Record payment_method_row := mkPaymentMethod { p_user_id : Z; p_name : string; p_stored_value : bool }.

(** The columns a user edits are grouped as [EditableReceipt], the struct the
    code reads them into. *)
Record receipt_row := mkReceipt {
  rc_user_id : Z;
  rc_fields : EditableReceipt;
  rc_aud_equivalent_cents : option Z;
  rc_scan_state : string;
  rc_scan_attempts : Z;
  rc_reclaim_count : Z;
  rc_scan_started_at : option Z;
  rc_proposed_at : option Z;
  rc_reviewed_at : option Z;
  rc_source : string;
  rc_raw_ocr_json : option json;
  rc_created_at : Z;
  rc_updated_at : Z
}.
#[export] Instance eta_receipt_row : Eta receipt_row := fun r =>
  mkReceipt (rc_user_id r) (rc_fields r) (rc_aud_equivalent_cents r) (rc_scan_state r)
    (rc_scan_attempts r) (rc_reclaim_count r) (rc_scan_started_at r) (rc_proposed_at r)
    (rc_reviewed_at r) (rc_source r) (rc_raw_ocr_json r) (rc_created_at r) (rc_updated_at r).

Record image_row := mkImage {
  im_receipt_id : Z; im_user_id : Z; im_image_key : string; im_image_sha256 : string; im_created_at : Z }.

Record item_row := mkItemRow {
  it_receipt_id : Z;
  it_name : option string;
  it_quantity : option double;
  it_unit_price_cents : option Z;
  it_amount_cents : Z;
  it_category_id : option Z;
  it_informational : bool
}.
#[export] Instance eta_item_row : Eta item_row := fun i =>
  mkItemRow (it_receipt_id i) (it_name i) (it_quantity i) (it_unit_price_cents i)
    (it_amount_cents i) (it_category_id i) (it_informational i).

Record user_row := mkUser { u_email : string; u_password_hash : string; u_email_verified_at : option Z }.
#[export] Instance eta_user_row : Eta user_row := fun u =>
  mkUser (u_email u) (u_password_hash u) (u_email_verified_at u).
Record session_row := mkSession { s_user_id : Z; s_token_hash : string; s_expires_at : Z }.
#[export] Instance eta_session_row : Eta session_row := fun s =>
  mkSession (s_user_id s) (s_token_hash s) (s_expires_at s).
Record auth_token_row := mkAuthToken {
  a_user_id : Z; a_token_hash : string; a_purpose : string; a_expires_at : Z }.

(** A table with a BIGSERIAL key: its rows, and the sequence's next value. *)
Record table (A : Type) := mkTable { rows : gmap Z A; seq : Z }.
Arguments mkTable {A} _ _.
Arguments rows {A} _.
Arguments seq {A} _.
#[export] Instance eta_table A : Eta (table A) := fun t => mkTable (rows t) (seq t).

Record Db := mkDb {
  users : table user_row;
  sessions : table session_row;
  auth_tokens : table auth_token_row;
  categories : table category_row;
  tags : table tag_row;
  payment_methods : table payment_method_row;
  receipts : table receipt_row;
  receipt_images : table image_row;
  items : table item_row;
  item_tags : gset (Z * Z)
}.
#[export] Instance eta_Db : Eta Db := fun d =>
  mkDb (users d) (sessions d) (auth_tokens d) (categories d) (tags d) (payment_methods d)
    (receipts d) (receipt_images d) (items d) (item_tags d).

(** ** Table primitives *)

Definition insert_row {A} (a : A) (t : table A) : table A :=
  mkTable (<[seq t := a]> (rows t)) (seq t + 1).
Definition update_row {A} (id : Z) (a : A) (t : table A) : table A :=
  mkTable (<[id := a]> (rows t)) (seq t).
Definition delete_row {A} (id : Z) (t : table A) : table A := mkTable (delete id (rows t)) (seq t).
(** Every row through [f]; the rows [f] drops are deleted. *)
Definition map_rows {A} (f : Z -> A -> option A) (t : table A) : table A :=
  mkTable (map_imap f (rows t)) (seq t).
Definition keep_rows {A} (p : A -> bool) (t : table A) : table A :=
  mkTable (filter (fun kv => p kv.2 = true) (rows t)) (seq t).
(** The rows satisfying [p], in no particular order. *)
Definition select {A} (p : A -> bool) (t : table A) : list (Z * A) :=
  map_to_list (filter (fun kv => p kv.2 = true) (rows t)).

(** ** Constraints of the migrations *)

Definition chk_direction_by_kind (kind direction : string) : bool :=
  (bool_decide (kind = "purchase"%string) && bool_decide (direction = "outflow"%string)) ||
  (bool_decide (kind ∈ ["refund"; "reimbursement"; "income"]%string) && bool_decide (direction = "inflow"%string)) ||
  bool_decide (kind = "transfer"%string).
Definition chk_tax_deductible_purchase_only (tax_deductible : bool) (kind : string) : bool :=
  negb tax_deductible || bool_decide (kind = "purchase"%string).
(** All CHECKs of the receipts table and its CHAR(3) width. *)
Definition receipt_checks (r : receipt_row) : bool :=
  let f := rc_fields r in
  bool_decide (er_kind f ∈ ["purchase"; "refund"; "reimbursement"; "income"; "transfer"]%string) &&
  bool_decide (er_direction f ∈ ["inflow"; "outflow"]%string) &&
  (0 <=? er_totalCents f) && (String.length (er_currency f) <=? 3)%nat &&
  bool_decide (rc_scan_state r ∈ ["idle"; "uploaded"; "scanning"; "scan_failed"]%string) &&
  bool_decide (rc_source r ∈ ["scanned"; "manual"; "recurring"]%string) &&
  chk_direction_by_kind (er_kind f) (er_direction f) &&
  chk_tax_deductible_purchase_only (er_taxDeductible f) (er_kind f).
(** A nullable reference finds its row. *)
Definition fk {A} (id : option Z) (t : table A) : bool :=
  match id with Some k => bool_decide (is_Some (rows t !! k)) | None => true end.
Definition receipt_fks (r : receipt_row) (d : Db) : bool :=
  fk (Some (rc_user_id r)) (users d) && fk (er_paymentMethodId (rc_fields r)) (payment_methods d) &&
  fk (er_offsetsReceiptId (rc_fields r)) (receipts d).

Definition check_violation : exn := DbError "ERROR:  new row violates check constraint".
Definition fk_violation : exn := DbError "ERROR:  insert or update violates foreign key constraint".
Definition unique_violation : exn := DbError "ERROR:  duplicate key value violates unique constraint".

Definition guard (b : bool) (e : exn) : outcome unit := if b then Ok () else Throw e.

(** INSERT/UPDATE of one receipts row, with its constraints. *)
Definition put_receipt (id : Z) (r : receipt_row) (d : Db) : outcome Db :=
  (guard (receipt_checks r) check_violation ;;;
   guard (receipt_fks r d) fk_violation ;;;
   Ok (d <| receipts ::= update_row id r |>))%outcome.
Definition insert_receipt (r : receipt_row) (d : Db) : outcome (Z * Db) :=
  (guard (receipt_checks r) check_violation ;;;
   guard (receipt_fks r d) fk_violation ;;;
   Ok (seq (receipts d), d <| receipts ::= insert_row r |>))%outcome.

(** DELETE with the schema's ON DELETE actions. *)
Definition delete_item (id : Z) (d : Db) : Db :=
  d <| items ::= delete_row id |>
    <| item_tags ::= fun s => filter (fun it => it.1 <> id) s |>.
Definition delete_items_of (receipt_id : Z) (d : Db) : Db :=
  d <| items ::= keep_rows (fun i => negb (it_receipt_id i =? receipt_id)) |>
    <| item_tags ::= fun s => filter (fun it =>
         (it_receipt_id <$> rows (items d) !! it.1) <> Some receipt_id) s |>.
Definition clear_offset (target : Z) (r : receipt_row) : receipt_row :=
  if bool_decide (er_offsetsReceiptId (rc_fields r) = Some target)
  then r <| rc_fields ::= fun f => f <| er_offsetsReceiptId := None |> |> else r.
Definition delete_receipt (id : Z) (d : Db) : Db :=
  delete_items_of id d
    <| receipts ::= fun t => mkTable (clear_offset id <$> delete id (rows t)) (seq t) |>
    <| receipt_images ::= keep_rows (fun i => negb (im_receipt_id i =? id)) |>.
Definition clear_category (id : Z) (i : item_row) : item_row :=
  if bool_decide (it_category_id i = Some id) then i <| it_category_id := None |> else i.
Definition delete_category (id : Z) (d : Db) : Db :=
  d <| categories ::= delete_row id |>
    <| items ::= fun t => mkTable (clear_category id <$> rows t) (seq t) |>.
Definition delete_tag (id : Z) (d : Db) : Db :=
  d <| tags ::= delete_row id |> <| item_tags ::= fun s => filter (fun it => it.2 <> id) s |>.
Definition clear_payment (id : Z) (r : receipt_row) : receipt_row :=
  if bool_decide (er_paymentMethodId (rc_fields r) = Some id)
  then r <| rc_fields ::= fun f => f <| er_paymentMethodId := None |> |> else r.
Definition delete_payment_method (id : Z) (d : Db) : Db :=
  d <| payment_methods ::= delete_row id |>
    <| receipts ::= fun t => mkTable (clear_payment id <$> rows t) (seq t) |>.

(** The unique indexes: [uq_*_user_name] and the token and e-mail ones. *)
Definition name_taken {A} (same : A -> bool) (except : option Z) (t : table A) : bool :=
  bool_decide (filter (fun kv => same kv.2 = true /\ Some kv.1 <> except) (rows t) <> ∅).
