(* ===== verification/Env.v ===== *)
(** * Configuration and image normalisation

    src/src/config/Env.h and src/src/storage/ImageNormalizer.cpp.  The process
    environment and libvips are outside the source: the classes [Environment]
    and [Vips] state what the code calls. *)
From S2P Require Import Prelude CString.

(** [std::getenv]. *)
Class Environment := getenv : string -> option string.

Definition envOr `{Environment} (name fallback : string) : string :=
  match getenv name with
  | Some value => value
  | None => fallback
  end.

(** [VImage::thumbnail_buffer], [webpsave_buffer] and the accessors; the left
    side of a sum is the message of a [vips::VError]. *)
Inductive vips_size := VIPS_SIZE_BOTH | VIPS_SIZE_DOWN.
Class Vips := {
  vimage : Type;
  thumbnail_buffer : string -> Z -> Z -> vips_size -> string + vimage;
  webpsave_buffer : vimage -> Z -> bool -> string + string;
  vwidth : vimage -> Z;
  vheight : vimage -> Z
}.

Record NormalizedImage := mkNormalized { ni_bytes : string; ni_width : Z; ni_height : Z }.
Definition kLongEdgePx : Z := 2048.
Definition kWebpQuality : Z := 80.

Definition normalizeSync `{Vips} (bytes : string) : outcome NormalizedImage :=
  match thumbnail_buffer bytes kLongEdgePx kLongEdgePx VIPS_SIZE_DOWN with
  | inl e => Throw (ImageDecodeError ("ImageNormalizer: failed to decode/resize image: " +:+ e))
  | inr image =>
      match webpsave_buffer image kWebpQuality true with
      | inl e => Throw (RuntimeError ("ImageNormalizer: failed to encode WebP: " +:+ e))
      | inr webpBytes => Ok (mkNormalized webpBytes (vwidth image) (vheight image))
      end
  end.
