(* ===== verification/Sigv4Signer.v ===== *)
(** * Request signing and the S3 image store

    src/src/storage/Sigv4Signer.h and Sigv4Signer.cpp (AWS Signature Version 4),
    S3ImageStore.h and S3ImageStore.cpp (the [ImageStore] over HTTP), and
    [s3ConfigFromEnv] of src/src/receipts/AppServices.cpp.  Drogon's HTTP client is
    third-party code: the class [HttpClient]. *)
From Stdlib Require Import Ascii.
From S2P Require Import Prelude CString Binary64 Json Calendar JsonInput LedgerInput TokenUtils Env Db.

(** ** Time stamps *)

(** [gmtime_r]: the calendar date of a day number (the inverse of [sys_days]). *)
Definition date_of_days (z : Z) : ymd :=
  let z := z + 719468 in
  let era := z / 146097 in
  let doe := z mod 146097 in
  let yoe := (doe - doe / 1460 + doe / 36524 - doe / 146096) / 365 in
  let doy := doe - (365 * yoe + yoe / 4 - yoe / 100) in
  let mp := (5 * doy + 2) / 153 in
  let d := doy - (153 * mp + 2) / 5 + 1 in
  let m := if mp <? 10 then mp + 3 else mp - 9 in
  mkYmd (yoe + era * 400 + (if m <=? 2 then 1 else 0)) m d.

(** [%02d] and [%Y] of strftime, for numbers that have that many digits. *)
Definition digit_char (n : Z) : ascii := char_of (48 + n mod 10).
Definition two (n : Z) : list ascii := [digit_char (n / 10); digit_char n].
Definition four (n : Z) : list ascii := [digit_char (n / 1000); digit_char (n / 100); digit_char (n / 10); digit_char n].

Record Timestamps := mkTimestamps { amzDate : string; dateStamp : string }.
(** [t] is [system_clock::to_time_t(now)], in seconds.  Outside the years 0-9999
    strftime has no room for its result, and the buffer is unspecified. *)
Definition formatTimestamps (t : Z) : outcome Timestamps :=
  let days := t / 86400 in
  let secs := t mod 86400 in
  let d := date_of_days days in
  if (0 <=? year d) && (year d <=? 9999) then
    let date := four (year d) ++ two (month d) ++ two (day d) in
    Ok (mkTimestamps
          (of_chars (date ++ ["T"%char] ++ two (secs / 3600) ++ two (secs / 60 mod 60) ++ two (secs mod 60) ++ ["Z"%char]))
          (of_chars date))
  else UB "strftime without room".

Section Sigv4.
Context `{SO : Sodium}.

Definition sha256_hex (data : string) : string := toHex (crypto_hash_sha256 data).
Definition hmac (key data : string) : list ascii := crypto_auth_hmacsha256 key data.
Definition hmacRaw (key data : string) : string := of_chars (hmac key data).
Definition hmacHex (key data : string) : string := toHex (hmac key data).

Record Sigv4Signer := mkSigner { accessKey_ : string; secretKey_ : string; region_ : string; service_ : string }.
Record SignedHeaders := mkSigned { sg_authorization : string; sg_amzDate : string; sg_contentSha256 : string }.

Definition nl : string := String "010"%char "".
Definition signedHeaderNames : string := "host;x-amz-content-sha256;x-amz-date".
Definition canonicalRequest (method canonicalUri host payloadHash date : string) : string :=
  let canonicalHeaders :=
    "host:" +:+ host +:+ nl +:+ "x-amz-content-sha256:" +:+ payloadHash +:+ nl +:+ "x-amz-date:" +:+ date +:+ nl in
  method +:+ nl +:+ canonicalUri +:+ nl +:+ "" +:+ nl +:+ canonicalHeaders +:+ nl +:+ signedHeaderNames +:+ nl +:+
  payloadHash.
Definition credentialScope (signer : Sigv4Signer) (stamp : string) : string :=
  stamp +:+ "/" +:+ region_ signer +:+ "/" +:+ service_ signer +:+ "/aws4_request".
Definition stringToSign (date scope request : string) : string :=
  "AWS4-HMAC-SHA256" +:+ nl +:+ date +:+ nl +:+ scope +:+ nl +:+ sha256_hex request.
Definition signingKey (signer : Sigv4Signer) (stamp : string) : string :=
  let dateKey := hmacRaw ("AWS4" +:+ secretKey_ signer) stamp in
  let dateRegionKey := hmacRaw dateKey (region_ signer) in
  let dateRegionServiceKey := hmacRaw dateRegionKey (service_ signer) in
  hmacRaw dateRegionServiceKey "aws4_request".

Definition sign (signer : Sigv4Signer) (method canonicalUri host payload : string) (now : Z) : outcome SignedHeaders :=
  (let* ts := formatTimestamps now in
   let payloadHash := sha256_hex payload in
   let request := canonicalRequest method canonicalUri host payloadHash (amzDate ts) in
   let scope := credentialScope signer (dateStamp ts) in
   let signature := hmacHex (signingKey signer (dateStamp ts)) (stringToSign (amzDate ts) scope request) in
   Ok (mkSigned
         ("AWS4-HMAC-SHA256 Credential=" +:+ accessKey_ signer +:+ "/" +:+ scope +:+ ", SignedHeaders=" +:+
          signedHeaderNames +:+ ", Signature=" +:+ signature)
         (amzDate ts) payloadHash))%outcome.
End Sigv4.

(** ** S3ImageStore *)

Definition unreserved (c : ascii) : bool :=
  char_in 65 90 c || char_in 97 122 c || char_in 48 57 c ||
  bool_decide (c ∈ ["-"; "."; "_"; "~"]%char).
(** [hex[i]] of "0123456789ABCDEF". *)
Definition upper_hex (i : Z) : ascii := if i <? 10 then char_of (48 + i) else char_of (55 + i).
Definition encode_byte (c : ascii) : list ascii :=
  if unreserved c || bool_decide (c = "/"%char) then [c]
  else ["%"%char; upper_hex (Z.shiftr (byte_of c) 4); upper_hex (Z.land (byte_of c) 15)].
Definition uriEncodePath (path : string) : string := of_chars (chars path ≫= encode_byte).

Record S3Config := mkS3Config {
  endpoint : string; s3_region : string; bucket : string; accessKey : string; secretKey : string; pathStyle : bool }.
Definition s3ConfigFromEnv `{Environment} : S3Config :=
  mkS3Config (envOr "S3_ENDPOINT" "http://localhost:9000") (envOr "S3_REGION" "us-east-1") (envOr "S3_BUCKET" "receipts")
    (envOr "S3_ACCESS_KEY" "receipt_scanner") (envOr "S3_SECRET_KEY" "dev_only_change_me")
    (bool_decide (envOr "S3_PATH_STYLE" "true" = "true"%string)).

(** One HTTP exchange: a transport failure throws.  [net] is whatever is behind the
    connection, [net_time] the time of a request in seconds, [hq_timeout] the time-out
    argument of [sendRequestCoro] (zero, its default, for none). *)
Record HttpRequest := mkHttpRequest {
  hq_method : string; hq_path : string; hq_headers : list (string * string); hq_contentType : option string; hq_body : string;
  hq_timeout : double }.
Record HttpResponse := mkHttpResponse { hr_status : Z; hr_body : string; hr_header : string -> string }.
Class HttpClient := {
  net : Type;
  net_time : net -> Z;
  sendRequest : HttpRequest -> net -> outcome HttpResponse * net
}.

Section S3ImageStore.
Context `{SO : Sodium} `{HC : HttpClient}.
Context (config_ : S3Config).

Definition signer_ : Sigv4Signer := mkSigner (accessKey config_) (secretKey config_) (s3_region config_) "s3".

(** Everything after the first "://", or the whole text. *)
Definition after_scheme (s : string) : string :=
  match String.index 0 "://" s with
  | Some n => substr (n + 3) (String.length s) s
  | None => s
  end.
Definition hostHeader : string :=
  let hostAndPort := after_scheme (endpoint config_) in
  if pathStyle config_ then hostAndPort else bucket config_ +:+ "." +:+ hostAndPort.
Definition canonicalUri (key : string) : string :=
  uriEncodePath (if pathStyle config_ then "/" +:+ bucket config_ +:+ "/" +:+ key else "/" +:+ key).
Definition signed_headers (host : string) (s : SignedHeaders) : list (string * string) :=
  [("Host", host); ("x-amz-date", sg_amzDate s); ("x-amz-content-sha256", sg_contentSha256 s);
   ("Authorization", sg_authorization s)]%string.
Definition httpError (op : string) (resp : HttpResponse) : exn :=
  RuntimeError ("S3ImageStore::" +:+ op +:+ " failed: HTTP " +:+ to_string (hr_status resp) +:+ " " +:+ hr_body resp).

(** A signed exchange with the object [key]. *)
Definition exchange (method key : string) (contentType : option string) (bytes : string) (n : net)
    : outcome HttpResponse * net :=
  let uri := canonicalUri key in
  let host := hostHeader in
  match sign signer_ method uri host bytes (net_time n) with
  | Ok s => sendRequest (mkHttpRequest method uri (signed_headers host s) contentType bytes dzero) n
  | Throw e => (Throw e, n)
  | UB u => (UB u, n)
  end.
Definition s3_put (key contentType bytes : string) (n : net) : outcome unit * net :=
  let '(r, n) := exchange "PUT" key (Some contentType) bytes n in
  ((let* resp := r in if hr_status resp =? 200 then Ok () else Throw (httpError "put" resp))%outcome, n).
Definition s3_get (key : string) (n : net) : outcome string * net :=
  let '(r, n) := exchange "GET" key None "" n in
  ((let* resp := r in if hr_status resp =? 200 then Ok (hr_body resp) else Throw (httpError "get" resp))%outcome, n).
Definition s3_remove (key : string) (n : net) : outcome unit * net :=
  let '(r, n) := exchange "DELETE" key None "" n in
  ((let* resp := r in
    if (hr_status resp =? 204) || (hr_status resp =? 200) then Ok () else Throw (httpError "remove" resp))%outcome, n).

Definition S3ImageStore : ImageStore :=
  {| store := net; put := s3_put; get := s3_get; remove := s3_remove |}.
End S3ImageStore.
