(* ===== verification/World.v ===== *)
(** * Service code: a state and error monad with transactions

    A service method runs over a [World]: the database, the object store, the
    number of draws made so far (random bytes, answers of the scan provider), the
    clock, the notifications sent and the rate limiters' counters.  [execSqlCoro] on the
    plain client is one statement with its own [now()]; a Drogon transaction is
    [transactionE]: it commits on every exit unless rolled back, and the services
    roll back on every exception.  A rolled-back transaction leaves the object
    store and the id sequences as they are, which is what S3 and Postgres do.

    [wp m Q w] says how the run of [m] from [w] ends; the rules below compute it
    along a program. *)
From S2P Require Import Prelude CString Binary64 Json Kinds JsonInput LedgerInput TokenUtils RateLimiter Db.

Section World.
Context `{IS : ImageStore} `{SO : Sodium}.

(** The counters of the four function-local static limiters of AuthController.cpp. *)
Record Limits := mkLimits {
  login_ip : gmap string Entry; login_account : gmap string Entry;
  register_ip : gmap string Entry; register_account : gmap string Entry }.
#[export] Instance eta_Limits : Eta Limits := fun l =>
  mkLimits (login_ip l) (login_account l) (register_ip l) (register_account l).

(** [w_notes] lists the notifications sent, latest last. *)
Record World := mkWorld {
  w_db : Db; w_store : store; w_rand : nat; w_clock : Z; w_notes : list (Z * string * json);
  w_limits : Limits }.
#[export] Instance eta_World : Eta World := fun w =>
  mkWorld (w_db w) (w_store w) (w_rand w) (w_clock w) (w_notes w) (w_limits w).

Definition M (A : Type) : Type := World -> outcome A * World.

Definition mret {A} (a : A) : M A := fun w => (Ok a, w).
Definition mthrow {A} (e : exn) : M A := fun w => (Throw e, w).
Definition lift {A} (m : outcome A) : M A := fun w => (m, w).
Definition mbind {A B} (k : A -> M B) (m : M A) : M B := fun w =>
  match m w with
  | (Ok a, w') => k a w'
  | (Throw e, w') => (Throw e, w')
  | (UB u, w') => (UB u, w')
  end.

(** [try m catch (...) { h(e) }]. *)
Definition mcatch {A} (m : M A) (h : exn -> M A) : M A := fun w =>
  match m w with
  | (Throw e, w') => h e w'
  | r => r
  end.

(** A SELECT, and a statement that writes. *)
Definition query {A} (f : Db -> A) : M A := fun w => (Ok (f (w_db w)), w).
Definition exec {A} (f : Db -> outcome (A * Db)) : M A := fun w =>
  match f (w_db w) with
  | Ok (a, d) => (Ok a, w <| w_db := d |>)
  | Throw e => (Throw e, w)
  | UB u => (UB u, w)
  end.
Definition exec_ (f : Db -> outcome Db) : M () :=
  exec (fun d => match f d with Ok d' => Ok ((), d') | Throw e => Throw e | UB u => UB u end).
Definition now : M Z := fun w => (Ok (w_clock w), w).
Definition draw_token (byteLength : nat) : M string := fun w =>
  (Ok (generateToken (w_rand w) byteLength), w <| w_rand ::= S |>).
(** The number of a call to the scan provider, drawn from the same counter. *)
Definition next_call : M nat := fun w => (Ok (w_rand w), w <| w_rand ::= S |>).
Definition store_put (key contentType bytes : string) : M () := fun w =>
  let '(r, s) := put key contentType bytes (w_store w) in (r, w <| w_store := s |>).
Definition store_get (key : string) : M string := fun w =>
  let '(r, s) := get key (w_store w) in (r, w <| w_store := s |>).
Definition store_remove (key : string) : M () := fun w =>
  let '(r, s) := remove key (w_store w) in (r, w <| w_store := s |>).

(** The tables of [old] with the sequences of [new]. *)
Definition keep_seq {A} (old new : table A) : table A := mkTable (rows old) (seq new).
Definition rollback_db (old new : Db) : Db :=
  mkDb (keep_seq (users old) (users new)) (keep_seq (sessions old) (sessions new))
    (keep_seq (auth_tokens old) (auth_tokens new)) (keep_seq (categories old) (categories new))
    (keep_seq (tags old) (tags new)) (keep_seq (payment_methods old) (payment_methods new))
    (keep_seq (receipts old) (receipts new)) (keep_seq (receipt_images old) (receipt_images new))
    (keep_seq (items old) (items new)) (item_tags old).

Inductive ending (A : Type) := Commit (a : A) | Rollback (a : A).
Arguments Commit {A} a.
Arguments Rollback {A} a.

Definition transactionE {A} (body : M (ending A)) : M A := fun w =>
  match body w with
  | (Ok (Commit a), w') => (Ok a, w')
  | (Ok (Rollback a), w') => (Ok a, w' <| w_db := rollback_db (w_db w) (w_db w') |>)
  | (Throw e, w') => (Throw e, w' <| w_db := rollback_db (w_db w) (w_db w') |>)
  | (UB u, w') => (UB u, w' <| w_db := rollback_db (w_db w) (w_db w') |>)
  end.
Definition transaction {A} (body : M A) : M A :=
  transactionE (mbind (fun a => mret (Commit a)) body).

(** [for (x : xs) body(x)]. *)
Fixpoint for_each {A} (body : A -> M ()) (xs : list A) : M () :=
  match xs with
  | [] => mret ()
  | x :: xs' => mbind (fun _ => for_each body xs') (body x)
  end.

(** ** Weakest preconditions *)

Definition wp {A} (m : M A) (Q : outcome A -> World -> Prop) (w : World) : Prop :=
  Q (m w).1 (m w).2.

(** What follows a computation that ended in [r]. *)
Definition after {A B} (k : A -> M B) (Q : outcome B -> World -> Prop) (r : outcome A) (w : World) : Prop :=
  match r with
  | Ok a => wp (k a) Q w
  | Throw e => Q (Throw e) w
  | UB u => Q (UB u) w
  end.

Lemma wp_bind {A B} (m : M A) (k : A -> M B) Q w : wp (mbind k m) Q w <-> wp m (after k Q) w.
Proof. unfold wp, mbind, after. by destruct (m w) as [[] w']. Qed.
Lemma wp_ret {A} (a : A) Q w : wp (mret a) Q w <-> Q (Ok a) w.
Proof. done. Qed.
Lemma wp_throw {A} e Q w : wp (mthrow (A := A) e) Q w <-> Q (Throw e) w.
Proof. done. Qed.
Lemma wp_lift {A} (m : outcome A) Q w : wp (lift m) Q w <-> Q m w.
Proof. done. Qed.
Lemma wp_query {A} (f : Db -> A) Q w : wp (query f) Q w <-> Q (Ok (f (w_db w))) w.
Proof. done. Qed.
Lemma wp_now Q w : wp now Q w <-> Q (Ok (w_clock w)) w.
Proof. done. Qed.
Lemma wp_next_call Q w : wp next_call Q w <-> Q (Ok (w_rand w)) (w <| w_rand ::= S |>).
Proof. done. Qed.
Lemma wp_exec {A} (f : Db -> outcome (A * Db)) Q w :
  wp (exec f) Q w <->
  match f (w_db w) with
  | Ok (a, d) => Q (Ok a) (w <| w_db := d |>)
  | Throw e => Q (Throw e) w
  | UB u => Q (UB u) w
  end.
Proof. unfold wp, exec. by destruct (f (w_db w)) as [[]| |]. Qed.
Lemma wp_exec_ (f : Db -> outcome Db) Q w :
  wp (exec_ f) Q w <->
  match f (w_db w) with
  | Ok d => Q (Ok ()) (w <| w_db := d |>)
  | Throw e => Q (Throw e) w
  | UB u => Q (UB u) w
  end.
Proof. unfold exec_. rewrite wp_exec. by destruct (f (w_db w)). Qed.
Lemma wp_mono {A} (m : M A) (Q Q' : outcome A -> World -> Prop) w :
  wp m Q w -> (forall r w', Q r w' -> Q' r w') -> wp m Q' w.
Proof. unfold wp. auto. Qed.
Lemma wp_transaction {A} (body : M A) Q w :
  wp (transaction body) Q w <->
  wp body (fun r w' => match r with
                       | Ok a => Q (Ok a) w'
                       | r => Q r (w' <| w_db := rollback_db (w_db w) (w_db w') |>)
                       end) w.
Proof.
  unfold wp, transaction, transactionE, mbind, mret. by destruct (body w) as [[] w'].
Qed.

(** A property of the database kept by a computation however it ends. *)
Definition preserves {A} (I : Db -> Prop) (m : M A) : Prop :=
  forall w, I (w_db w) -> I (w_db (m w).2).

(** [I] does not look at the sequences. *)
Definition rows_only (I : Db -> Prop) : Prop := forall old new, I old -> I (rollback_db old new).

End World.
Arguments Commit {A} a.
Arguments Rollback {A} a.

Declare Scope service_scope.
Delimit Scope service_scope with service.
Notation "'let!' x ':=' c 'in' k" := (mbind (fun x => k) c)
  (at level 10, x pattern, c at level 100, k at level 200,
   format "'[v' 'let!'  x  ':='  c  'in' '/' k ']'") : service_scope.
Notation "c1 ;! c2" := (mbind (fun _ => c2) c1)
  (at level 100, right associativity) : service_scope.
Open Scope service_scope.

Create Rewrite HintDb wp.
#[export] Hint Rewrite @wp_bind @wp_ret @wp_throw @wp_lift @wp_query @wp_now @wp_exec @wp_exec_
  @wp_transaction : wp.

(** One step of the computation rules, and a call specified by a lemma. *)
Ltac wp_step :=
  first [rewrite wp_bind | rewrite wp_ret | rewrite wp_throw | rewrite wp_lift | rewrite wp_query
        | rewrite wp_now | rewrite wp_next_call | rewrite wp_exec | rewrite wp_exec_ | rewrite wp_transaction]; cbn [after].
Ltac wp_steps := repeat wp_step.
Ltac wp_call spec := eapply wp_mono; [eapply spec|cbn beta].

(** A loop keeps what each of its turns keeps, however it ends. *)
Lemma wp_for_each `{IS : ImageStore} {A} (I : World -> Prop) (body : A -> M ()) xs w :
  (forall x w', x ∈ xs -> I w' -> wp (body x) (fun _ => I) w') -> I w -> wp (for_each body xs) (fun _ => I) w.
Proof.
  revert w. induction xs as [|x xs IH]; intros w H HI; cbn [for_each]; [by apply wp_ret|].
  apply wp_bind. eapply wp_mono; [apply H; [left|exact HI]|]. intros [u| |] w' HI'; cbn [after]; [|done..].
  apply IH; [|done]. intros y w'' Hy. apply H. by right.
Qed.
Lemma wp_catch `{IS : ImageStore} {A} (m : M A) h Q w :
  wp (mcatch m h) Q w <-> wp m (fun r w' => match r with Throw e => wp (h e) Q w' | r => Q r w' end) w.
Proof. unfold wp, mcatch. by destruct (m w) as [[] w']. Qed.
