(* ===== verification/ItemService.v ===== *)
(** * Items

    src/src/receipts/ItemService.h and ItemService.cpp: each method, with the
    SQL statement of every [execSqlCoro] as a function on the tables. *)
From stdpp Require Import sorting.
From S2P Require Import Prelude CString Binary64 Json Kinds JsonInput LedgerInput TokenUtils Db World.

Record Item := mkItem { i_id : Z; i_row : item_row; i_tagIds : list Z }.

(** [SELECT ... FROM receipts WHERE id = $1 AND user_id = $2]. *)
Definition owned_receipt (user_id id : Z) (d : Db) : option receipt_row :=
  match rows (receipts d) !! id with
  | Some r => if rc_user_id r =? user_id then Some r else None
  | None => None
  end.
Definition owned_category (user_id id : Z) (d : Db) : option category_row :=
  match rows (categories d) !! id with
  | Some c => if c_user_id c =? user_id then Some c else None
  | None => None
  end.
Definition owned_tag (user_id id : Z) (d : Db) : option tag_row :=
  match rows (tags d) !! id with
  | Some t => if t_user_id t =? user_id then Some t else None
  | None => None
  end.
Definition owned_payment_method (user_id id : Z) (d : Db) : option payment_method_row :=
  match rows (payment_methods d) !! id with
  | Some p => if p_user_id p =? user_id then Some p else None
  | None => None
  end.
(** [SELECT tag_id FROM item_tags WHERE item_id = $1 ORDER BY tag_id]. *)
Definition tags_of (item_id : Z) (d : Db) : list Z :=
  merge_sort Z.le (map snd (filter (fun it => it.1 = item_id) (elements (item_tags d)))).
Definition id_le {A} (a b : Z * A) : Prop := a.1 <= b.1.
#[export] Instance id_le_dec {A} : RelDecision (@id_le A).
Proof. intros a b. unfold id_le. apply _. Defined.

(** [INSERT INTO items]. *)
Definition sql_insert_item (row : item_row) (d : Db) : outcome (Z * Db) :=
  (guard (fk (Some (it_receipt_id row)) (receipts d) && fk (it_category_id row) (categories d)) fk_violation ;;;
   Ok (seq (items d), d <| items ::= insert_row row |>))%outcome.
(** [INSERT INTO item_tags], whose primary key is the pair. *)
Definition sql_insert_item_tag (item_id tag_id : Z) (d : Db) : outcome Db :=
  (guard (fk (Some item_id) (items d) && fk (Some tag_id) (tags d)) fk_violation ;;;
   guard (negb (bool_decide ((item_id, tag_id) ∈ item_tags d))) unique_violation ;;;
   Ok (d <| item_tags ::= fun s => {[(item_id, tag_id)]} ∪ s |>))%outcome.
(** [DELETE FROM item_tags WHERE item_id = $1]. *)
Definition sql_clear_item_tags (item_id : Z) (d : Db) : outcome Db :=
  Ok (d <| item_tags ::= fun s => filter (fun it => it.1 <> item_id) s |>).
(** [UPDATE items SET ... WHERE id = $7]. *)
Definition sql_update_item (id : Z) (row : item_row) (d : Db) : outcome Db :=
  (guard (fk (it_category_id row) (categories d)) fk_violation ;;;
   Ok (d <| items ::= update_row id row |>))%outcome.

Module ItemService.
Section Service.
Context `{PG : Postgres} `{IS : ImageStore}.

Definition itemToInput (item : Item) : ItemInput :=
  let r := i_row item in
  mkItemInput (it_name r) (it_quantity r) (it_unit_price_cents r) (it_amount_cents r)
    (it_category_id r) (it_informational r) (i_tagIds item).

(** The columns an INSERT or UPDATE binds from an input. *)
Definition input_row (receipt_id : Z) (i : ItemInput) : item_row :=
  mkItemRow receipt_id (ii_name i) (pg_numeric <$> ii_quantity i) (ii_unitPriceCents i)
    (ii_amountCents i) (ii_categoryId i) (ii_informational i).

Definition ownedReceiptKind (userId receiptId : Z) : M string :=
  let! result := query (owned_receipt userId receiptId) in
  match result with
  | Some r => mret (er_kind (rc_fields r))
  | None => mthrow ReceiptNotFoundError
  end.

Definition tagIdsFor (itemId : Z) : M (list Z) := query (tags_of itemId).

Definition fetchItem (itemId : Z) : M Item :=
  let! result := query (fun d => rows (items d) !! itemId) in
  match result with
  | Some row =>
      let! tagIds := tagIdsFor itemId in
      mret (mkItem itemId row tagIds)
  | None => lift (UB "result[0] of an empty result")
  end.

(** The body of [replaceTags]'s loop. *)
Definition add_tag (userId itemId tagId : Z) : M () :=
  let! owned := query (owned_tag userId tagId) in
  match owned with
  | None => mthrow (ValidationError "tag_ids contains a tag that does not exist")
  | Some _ => exec_ (sql_insert_item_tag itemId tagId)
  end.
Definition replaceTags (userId itemId : Z) (tagIds : list Z) : M () :=
  exec_ (sql_clear_item_tags itemId) ;!
  for_each (add_tag userId itemId) tagIds.

Definition requireCategoryFitsKind (userId categoryId : Z) (kind : string) : M () :=
  let! result := query (owned_category userId categoryId) in
  match result with
  | None => mthrow (ValidationError "category_id does not exist")
  | Some c =>
      let! fits := lift (categoryFitsKind (c_is_income c) kind) in
      if (fits : bool) then mret ()
      else
        let! rules := lift (rulesFor kind) in
        mthrow (ValidationError ("items on a " +:+ kind +:+ " need " +:+
          (if usesIncomeCategories rules then "an income" else "an expense") +:+ " category"))
  end.

Definition insert (userId receiptId : Z) (receiptKind : string) (item : ItemInput) : M Z :=
  match ii_categoryId item with
  | Some c => requireCategoryFitsKind userId c receiptKind
  | None => mret ()
  end ;!
  let! itemId := exec (sql_insert_item (input_row receiptId item)) in
  replaceTags userId itemId (ii_tagIds item) ;!
  mret itemId.

(** Items in creation order, each with its tags; the second query's rows are
    grouped by item, in tag order. *)
Definition list (userId receiptId : Z) : M (list Item) :=
  ownedReceiptKind userId receiptId ;!
  let! rows := query (fun d => merge_sort id_le (select (fun i => it_receipt_id i =? receiptId) (items d))) in
  query (fun d => map (fun kv => mkItem kv.1 kv.2 (tags_of kv.1 d)) rows).

Definition create (userId receiptId : Z) (body : json) : M Item :=
  let! input := lift (parseNewItem body) in
  transaction (
    let! kind := ownedReceiptKind userId receiptId in
    let! itemId := insert userId receiptId kind input in
    fetchItem itemId).

Definition update (userId receiptId itemId : Z) (body : json) : M Item :=
  transaction (
    let! kind := ownedReceiptKind userId receiptId in
    let! current := query (fun d => rows (items d) !! itemId) in
    match current with
    | Some row =>
        if negb (it_receipt_id row =? receiptId) then mthrow (NotFoundError "item not found") else
        let! (item, tagsGiven) := lift (applyItemPatch (itemToInput (mkItem itemId row [])) body) in
        match ii_categoryId item with
        | Some c => if has "category_id" body then requireCategoryFitsKind userId c kind else mret ()
        | None => mret ()
        end ;!
        exec_ (sql_update_item itemId (input_row receiptId item)) ;!
        (if (tagsGiven : bool) then replaceTags userId itemId (ii_tagIds item) else mret ()) ;!
        fetchItem itemId
    | None => mthrow (NotFoundError "item not found")
    end).

Definition remove (userId receiptId itemId : Z) : M () :=
  ownedReceiptKind userId receiptId ;!
  let! result := exec (fun d =>
    match rows (items d) !! itemId with
    | Some row => if it_receipt_id row =? receiptId then Ok (true, delete_item itemId d) else Ok (false, d)
    | None => Ok (false, d)
    end) in
  if (result : bool) then mret () else mthrow (NotFoundError "item not found").

End Service.
End ItemService.
