(* ===== verification/ReceiptService.v ===== *)
(** * Receipts

    src/src/receipts/ReceiptService.h and ReceiptService.cpp, every method, running
    alone.  The locks, which keep concurrent calls apart, are in TxServices, where
    the same methods run statement by statement beside others. *)
From stdpp Require Import sorting.
From S2P Require Import Prelude CString Binary64 Json Kinds JsonInput LedgerInput TokenUtils Env Db World.
From S2P Require Import ItemService.

Record ImageConflict := mkImageConflict { ic_receiptId : Z; ic_imageId : Z }.

Record ReceiptSummary := mkSummary {
  rs_id : Z;
  rs_storeNameRaw : option string;
  rs_merchant : option string;
  rs_purchaseDate : option string;
  rs_totalCents : Z;
  rs_direction : string;
  rs_currency : string;
  rs_kind : string;
  rs_scanState : string;
  rs_taxDeductible : bool;
  rs_note : option string;
  rs_source : string;
  rs_paymentMethodId : option Z;
  rs_offsetsReceiptId : option Z;
  rs_fxRateToAud : option double;
  rs_audEquivalentCents : option Z;
  rs_proposedAt : option string;
  rs_reviewedAt : option string;
  rs_needsReview : bool;
  rs_isConfirmed : bool;
  rs_createdAt : string;
  rs_updatedAt : string
}.
Record ImageRef := mkImageRef { ir_id : Z; ir_createdAt : string }.
Record ImageLocation := mkImageLocation { il_ownerUserId : Z; il_imageKey : string }.
Record PreparedImage := mkPrepared { pi_normalized : NormalizedImage; pi_sha256Hex : string }.

(** The two derived columns of the view v_receipt_state. *)
Definition needs_review (proposed_at reviewed_at : option Z) : bool :=
  match proposed_at, reviewed_at with
  | Some p, Some r => r <? p
  | Some _, None => true
  | None, _ => false
  end.
Definition is_confirmed (proposed_at reviewed_at : option Z) : bool :=
  match proposed_at, reviewed_at with
  | Some p, Some r => p <=? r
  | None, Some _ => true
  | _, None => false
  end.

(** ** Statements *)

(** [INSERT INTO receipts (user_id, kind, direction, source, scan_state)]: the
    other columns take the schema's defaults. *)
Definition scanned_row (user_id : Z) (kind direction : string) (t : Z) : receipt_row :=
  mkReceipt user_id (mkEditable kind direction 0 "AUD" None None None None false None None None)
    None scan_state.kUploaded 0 0 None None None source.kScanned None t t.
(** [INSERT INTO receipt_images]. *)
Definition sql_insert_image (row : image_row) (d : Db) : outcome Db :=
  (guard (fk (Some (im_receipt_id row)) (receipts d) && fk (Some (im_user_id row)) (users d)) fk_violation ;;;
   Ok (d <| receipt_images ::= insert_row row |>))%outcome.
(** [UPDATE receipts SET ... WHERE id = $n]. *)
Definition sql_update_receipt (id : Z) (f : receipt_row -> receipt_row) (d : Db) : outcome Db :=
  match rows (receipts d) !! id with
  | Some r => put_receipt id (f r) d
  | None => Ok d
  end.
Definition created_desc (a b : Z * receipt_row) : Prop :=
  rc_created_at b.2 < rc_created_at a.2 \/ (rc_created_at b.2 = rc_created_at a.2 /\ b.1 <= a.1).
#[export] Instance created_desc_dec : RelDecision created_desc.
Proof. intros a b. unfold created_desc. apply _. Defined.
Definition image_created_le (a b : Z * image_row) : Prop := im_created_at a.2 <= im_created_at b.2.
#[export] Instance image_created_le_dec : RelDecision image_created_le.
Proof. intros a b. unfold image_created_le. apply _. Defined.

Section ReceiptService.
Context `{PG : Postgres} `{IS : ImageStore} `{SO : Sodium} `{EN : Environment} `{VI : Vips} `{PL : Platform}.

(** [$n::date]: the cast raises an error on text that is no date. *)
Definition sql_date (s : option string) : outcome (option string) :=
  match s with
  | None => Ok None
  | Some s =>
      match pg_date_in s with
      | Some t => Ok (Some t)
      | None => Throw (DbError "ERROR:  invalid input syntax for type date")
      end
  end.

Definition sha256Hex (data : string) : string := toHex (crypto_hash_sha256 data).
Definition maxImagesPerReceipt : outcome Z := stoi (envOr "MAX_IMAGES_PER_RECEIPT" "8").
Definition generateImageKey (userId receiptId : Z) : M string :=
  let! token := draw_token 16 in
  mret ("receipts/" +:+ to_string userId +:+ "/" +:+ to_string receiptId +:+ "/" +:+ token +:+ ".webp").

Definition summary_of (id : Z) (row : receipt_row) : ReceiptSummary :=
  let f := rc_fields row in
  mkSummary id (er_storeNameRaw f) (er_merchant f) (er_purchaseDate f) (er_totalCents f)
    (er_direction f) (er_currency f) (er_kind f) (rc_scan_state row) (er_taxDeductible f) (er_note f)
    (rc_source row) (er_paymentMethodId f) (er_offsetsReceiptId f) (er_fxRateToAud f)
    (rc_aud_equivalent_cents row) (pg_iso_utc <$> rc_proposed_at row) (pg_iso_utc <$> rc_reviewed_at row)
    (needs_review (rc_proposed_at row) (rc_reviewed_at row))
    (is_confirmed (rc_proposed_at row) (rc_reviewed_at row))
    (pg_iso_utc (rc_created_at row)) (pg_iso_utc (rc_updated_at row)).
Definition editable_of (row : receipt_row) : EditableReceipt := rc_fields row.

(** ** Images *)

Fixpoint prepareImages (rawImages : list string) : outcome (list PreparedImage) :=
  match rawImages with
  | [] => Ok []
  | raw :: rawImages' =>
      (let* normalized := normalizeSync raw in
       let* prepared := prepareImages rawImages' in
       Ok (mkPrepared normalized (sha256Hex (ni_bytes normalized)) :: prepared))%outcome
  end.

(** [SELECT id, receipt_id FROM receipt_images WHERE ... LIMIT 1]: some row, if any. *)
Fixpoint findConflict (userId : Z) (prepared : list PreparedImage) (d : Db) : option ImageConflict :=
  match prepared with
  | [] => None
  | prep :: prepared' =>
      match select (fun i => (im_user_id i =? userId) && bool_decide (im_image_sha256 i = pi_sha256Hex prep))
                   (receipt_images d) with
      | (id, dup) :: _ => Some (mkImageConflict (im_receipt_id dup) id)
      | [] => findConflict userId prepared' d
      end
  end.

(** The body of [storeImages]'s loop. *)
Definition store_image (userId receiptId : Z) (prep : PreparedImage) : M () :=
  let! key := generateImageKey userId receiptId in
  store_put key "image/webp" (ni_bytes (pi_normalized prep)) ;!
  let! t := now in
  exec_ (sql_insert_image (mkImage receiptId userId key (pi_sha256Hex prep) t)).
Definition storeImages (userId receiptId : Z) (prepared : list PreparedImage) : M () :=
  for_each (store_image userId receiptId) prepared.

Definition uploadReceipt (userId : Z) (images : list string) (force : bool) : M (Z + ImageConflict) :=
  let! cap := lift maxImagesPerReceipt in
  if cap <? Z.of_nat (length images) then mthrow TooManyImagesError else
  let! prepared := lift (prepareImages images) in
  let! rules := lift (rulesFor kDefaultKind) in
  match canonicalDirection rules with
  | None => lift (UB "dereference of an empty optional")
  | Some provisionalDirection =>
      transactionE (
        let! conflict := (if force then mret None else query (findConflict userId prepared)) in
        match conflict with
        | Some c => mret (Rollback (inr c))
        | None =>
            let! t := now in
            let! receiptId := exec (insert_receipt (scanned_row userId kDefaultKind provisionalDirection t)) in
            storeImages userId receiptId prepared ;!
            mret (Commit (inl receiptId))
        end)
  end.

Definition image_count (receiptId : Z) (d : Db) : Z :=
  Z.of_nat (length (select (fun i => im_receipt_id i =? receiptId) (receipt_images d))).

Definition addImages (userId receiptId : Z) (images : list string) (force : bool) : M (() + ImageConflict) :=
  let! owned := query (owned_receipt userId receiptId) in
  match owned with
  | None => mthrow ReceiptNotFoundError
  | Some _ =>
      let! prepared := lift (prepareImages images) in
      transactionE (
        let! currentCount := query (image_count receiptId) in
        let! cap := lift maxImagesPerReceipt in
        if cap <? currentCount + Z.of_nat (length prepared) then mthrow TooManyImagesError else
        let! conflict := (if force then mret None else query (findConflict userId prepared)) in
        match conflict with
        | Some c => mret (Rollback (inr c))
        | None =>
            storeImages userId receiptId prepared ;!
            exec_ (sql_update_receipt receiptId (fun r => r <| rc_scan_state := scan_state.kUploaded |>)) ;!
            mret (Commit (inl ()))
        end)
  end.

(** ** Manual entry and edits *)

Definition validateReferences (userId : Z) (receiptId : option Z) (receipt : EditableReceipt) : M () :=
  match er_paymentMethodId receipt with
  | None => mret ()
  | Some pm =>
      let! owned := query (owned_payment_method userId pm) in
      match owned with
      | None => mthrow (ValidationError "payment_method_id does not exist")
      | Some _ => mret ()
      end
  end ;!
  match er_offsetsReceiptId receipt with
  | None => mret ()
  | Some o =>
      if bool_decide (receiptId = Some o) then mthrow (ValidationError "a receipt cannot offset itself") else
      let! target := query (owned_receipt userId o) in
      match target with
      | None => mthrow (ValidationError "offsets_receipt_id does not exist")
      | Some t =>
          let targetKind := er_kind (rc_fields t) in
          let! rules := lift (rulesFor targetKind) in
          if isOffsetTarget rules then mret ()
          else mthrow (ValidationError ("offsets_receipt_id can't point at a " +:+ targetKind))
      end
  end.

(** The row [createManual] inserts: the date defaults to today in Sydney, and
    fx_rate_to_aud passes through NUMERIC. *)
Definition manual_row (userId : Z) (r : EditableReceipt) (date : option string) (t : Z) : receipt_row :=
  mkReceipt userId
    (mkEditable (er_kind r) (er_direction r) (er_totalCents r) (er_currency r) (er_merchant r) None
       (Some (default (pg_sydney_date t) date)) (er_paymentMethodId r) (er_taxDeductible r) (er_note r)
       (er_offsetsReceiptId r) (pg_numeric <$> er_fxRateToAud r))
    (audEquivalentCents (er_totalCents r) (er_fxRateToAud r))
    scan_state.kIdle 0 0 None None (Some t) source.kManual None t t.

Definition implicit_item (input : ManualEntryInput) : ItemInput :=
  default_item <| ii_name := er_merchant (me_receipt input) |>
               <| ii_amountCents := er_totalCents (me_receipt input) |>
               <| ii_categoryId := me_categoryId input |>.

Definition insert_items (userId receiptId : Z) (kind : string) (items : list ItemInput) : M () :=
  for_each (fun item => ItemService.insert userId receiptId kind item ;! mret ()) items.

Definition createManual (userId : Z) (body : json) : M Z :=
  let! input := lift (parseManualEntry body) in
  let r := me_receipt input in
  transaction (
    validateReferences userId None r ;!
    let! t := now in
    let! date := lift (sql_date (er_purchaseDate r)) in
    let! receiptId := exec (insert_receipt (manual_row userId r date t)) in
    (if bool_decide (me_items input = [])
     then insert_items userId receiptId (er_kind r) [implicit_item input]
     else insert_items userId receiptId (er_kind r) (me_items input)) ;!
    mret receiptId).

(** [SELECT c.is_income FROM items i JOIN categories c ... FOR SHARE OF c]. *)
Definition item_category_sides (receiptId : Z) (d : Db) : list bool :=
  omap (fun kv => match it_category_id kv.2 with
                  | Some c => c_is_income <$> rows (categories d) !! c
                  | None => None
                  end)
       (select (fun i => it_receipt_id i =? receiptId) (items d)).

(** The row after [updateReceipt]'s UPDATE. *)
Definition edited_row (r : EditableReceipt) (date : option string) (markReviewed : bool) (t : Z)
    (row : receipt_row) : receipt_row :=
  row <| rc_fields := r <| er_purchaseDate := date |> <| er_fxRateToAud ::= fmap pg_numeric |> |>
      <| rc_aud_equivalent_cents := audEquivalentCents (er_totalCents r) (er_fxRateToAud r) |>
      <| rc_updated_at := t |>
      <| rc_reviewed_at ::= fun old => if markReviewed then Some t else old |>.

Definition updateReceipt (userId receiptId : Z) (body : json) : M ReceiptSummary :=
  transaction (
    let! current := query (owned_receipt userId receiptId) in
    match current with
    | None => mthrow ReceiptNotFoundError
    | Some row =>
        let r0 := editable_of row in
        let! before := lift (rulesFor (er_kind r0)) in
        let wasIncomeSide := usesIncomeCategories before in
        let! (r, markReviewed) := lift (applyReceiptPatch r0 body) in
        validateReferences userId (Some receiptId) r ;!
        let! after := lift (rulesFor (er_kind r)) in
        let isIncomeSide := usesIncomeCategories after in
        (if eqb isIncomeSide wasIncomeSide then mret () else
         let! itemCategories := query (item_category_sides receiptId) in
         if existsb (fun is_income => negb (eqb is_income isIncomeSide)) itemCategories
         then mthrow (ValidationError ("this kind change would leave items in the wrong expense/income categories -- " +:+
                                       "recategorize them first"))
         else mret ()) ;!
        let! t := now in
        let! date := lift (sql_date (er_purchaseDate r)) in
        exec_ (sql_update_receipt receiptId (edited_row r date markReviewed t)) ;!
        let! updated := query (fun d => rows (receipts d) !! receiptId) in
        match updated with
        | Some row' => mret (summary_of receiptId row')
        | None => lift (UB "updated[0] of an empty result")
        end
    end).

(** ** Reads, retry and deletion *)

Definition getReceipt (userId receiptId : Z) : M (option ReceiptSummary) :=
  let! result := query (owned_receipt userId receiptId) in
  mret (summary_of receiptId <$> result).

(** The UPDATE of [retryScan]: whether a row was re-queued. *)
Definition sql_requeue (userId receiptId t : Z) (d : Db) : outcome (bool * Db) :=
  match owned_receipt userId receiptId d with
  | Some r =>
      if bool_decide (rc_scan_state r = scan_state.kScanFailed)
      then (let* d' := put_receipt receiptId
                         (r <| rc_scan_state := scan_state.kUploaded |> <| rc_scan_attempts := 0 |>
                            <| rc_reclaim_count := 0 |> <| rc_updated_at := t |>) d in
            Ok (true, d'))%outcome
      else Ok (false, d)
  | None => Ok (false, d)
  end.
Definition retryScan (userId receiptId : Z) : M ReceiptSummary :=
  let! t := now in
  let! requeued := exec (sql_requeue userId receiptId t) in
  let! receipt := getReceipt userId receiptId in
  match receipt with
  | None => mthrow ReceiptNotFoundError
  | Some receipt =>
      if (requeued : bool) then mret receipt
      else mthrow (ConflictError "only a receipt in scan_failed can be retried")
  end.

Definition listReceipts (userId limit offset : Z) : M (list ReceiptSummary) :=
  if limit <? 0 then mthrow (DbError "ERROR:  LIMIT must not be negative") else
  if offset <? 0 then mthrow (DbError "ERROR:  OFFSET must not be negative") else
  query (fun d =>
    let sorted := merge_sort created_desc (select (fun r => rc_user_id r =? userId) (receipts d)) in
    map (fun kv => summary_of kv.1 kv.2) (take (Z.to_nat limit) (drop (Z.to_nat offset) sorted))).

Definition listImages (userId receiptId : Z) : M (list ImageRef) :=
  let! owned := query (owned_receipt userId receiptId) in
  match owned with
  | None => mthrow ReceiptNotFoundError
  | Some _ =>
      query (fun d =>
        map (fun kv => mkImageRef kv.1 (pg_ts_out (im_created_at kv.2)))
            (merge_sort image_created_le (select (fun i => im_receipt_id i =? receiptId) (receipt_images d))))
  end.

Definition image_keys (userId receiptId : Z) (d : Db) : list string :=
  match owned_receipt userId receiptId d with
  | Some _ => map (fun kv => im_image_key kv.2) (select (fun i => im_receipt_id i =? receiptId) (receipt_images d))
  | None => []
  end.
Definition sql_delete_receipt (userId receiptId : Z) (d : Db) : outcome (bool * Db) :=
  match owned_receipt userId receiptId d with
  | Some _ => Ok (true, delete_receipt receiptId d)
  | None => Ok (false, d)
  end.
Definition deleteReceipt (userId receiptId : Z) : M bool :=
  let! images := query (image_keys userId receiptId) in
  let! result := exec (sql_delete_receipt userId receiptId) in
  if (result : bool)
  then for_each (fun key => mcatch (store_remove key) (fun _ => mret ())) images ;! mret true
  else mret false.

Definition findImage (imageId : Z) : M (option ImageLocation) :=
  query (fun d =>
    match rows (receipt_images d) !! imageId with
    | Some ri =>
        match rows (receipts d) !! im_receipt_id ri with
        | Some r => Some (mkImageLocation (rc_user_id r) (im_image_key ri))
        | None => None
        end
    | None => None
    end).

End ReceiptService.
