(* ===== verification/ReferenceData.v ===== *)
(** * Categories, tags and payment methods

    src/src/receipts/ReferenceDataService.h and ReferenceDataService.cpp: the
    three user-editable lists, one Module per service. *)
From stdpp Require Import sorting.
From S2P Require Import Prelude CString Binary64 Json Kinds JsonInput LedgerInput TokenUtils Db World ItemService.

Record Category := mkCategoryDto { cat_id : Z; cat_name : string; cat_isIncome : bool }.
Record Tag := mkTagDto { tag_id : Z; tag_name : string }.
Record PaymentMethod := mkPaymentMethodDto { pm_id : Z; pm_name : string; pm_storedValue : bool }.

Definition category_of (id : Z) (row : category_row) : Category := mkCategoryDto id (c_name row) (c_is_income row).
Definition tag_of (id : Z) (row : tag_row) : Tag := mkTagDto id (t_name row).
Definition payment_method_of (id : Z) (row : payment_method_row) : PaymentMethod :=
  mkPaymentMethodDto id (p_name row) (p_stored_value row).

(** [setIfPresent] on a plain variable. *)
Definition readIfPresent {T} (body : json) (key : string) (read : json -> string -> outcome T) (x : option T)
    : outcome (option T) :=
  match find key body with
  | Some v => (let* y := read v key in Ok (Some y))%outcome
  | None => Ok x
  end.

Definition duplicate_text : string := "duplicate key value violates unique constraint".
Definition asConflictIfDuplicate (noun : string) (e : exn) : exn :=
  if contains duplicate_text (what e)
  then ConflictError ("a " +:+ noun +:+ " with that name already exists")
  else e.
Definition requiredName (body : json) : outcome string :=
  (let* name := readIfPresent body "name" requiredString None in
   match name with
   | Some n => Ok n
   | None => Throw (ValidationError "name is required")
   end)%outcome.
(** An optional bool of the body with its default. *)
Definition boolOr (body : json) (key : string) (fallback : bool) : outcome bool :=
  (let* b := readIfPresent body key boolean None in Ok (default fallback b))%outcome.

Section Sql.
Context `{PG : Postgres}.

(** The rows of one user, [ORDER BY lower(name), id]. *)
Definition by_name {A} (nm : A -> string) (a b : Z * A) : Prop :=
  String.ltb (pg_lower (nm a.2)) (pg_lower (nm b.2)) = true \/
  (pg_lower (nm a.2) = pg_lower (nm b.2) /\ a.1 <= b.1).
#[export] Instance by_name_dec {A} (nm : A -> string) : RelDecision (by_name nm).
Proof. intros a b. unfold by_name. apply _. Defined.

(** The unique indexes of the second migration. *)
Definition same_category (row other : category_row) : bool :=
  (c_user_id other =? c_user_id row) && eqb (c_is_income other) (c_is_income row) &&
  bool_decide (pg_lower (c_name other) = pg_lower (c_name row)).
Definition same_tag (row other : tag_row) : bool :=
  (t_user_id other =? t_user_id row) && bool_decide (pg_lower (t_name other) = pg_lower (t_name row)).
Definition same_payment_method (row other : payment_method_row) : bool :=
  (p_user_id other =? p_user_id row) && bool_decide (pg_lower (p_name other) = pg_lower (p_name row)).

(** INSERT and UPDATE of one row of a table with a unique index on [same]. *)
Definition insert_unique {A} (same : A -> A -> bool) (owner : A -> Z) (f : Db -> table A)
    `{!Setter f} (row : A) (d : Db) : outcome (Z * Db) :=
  (guard (negb (name_taken (same row) None (f d))) unique_violation ;;;
   guard (fk (Some (owner row)) (users d)) fk_violation ;;;
   Ok (seq (f d), set_field f (insert_row row) d))%outcome.
Definition update_unique {A} (same : A -> A -> bool) (f : Db -> table A)
    `{!Setter f} (id : Z) (row : A) (d : Db) : outcome Db :=
  (guard (negb (name_taken (same row) (Some id) (f d))) unique_violation ;;;
   Ok (set_field f (update_row id row) d))%outcome.

(** [WHERE it.category_id = $1 AND (r.kind IN incomeKindsSqlList()) <> $2]: some item
    of the category is on a receipt of the other side. *)
Definition income_kinds : list string :=
  map name (filter (fun r => usesIncomeCategories r = true) kKinds).
Definition category_clash (id : Z) (isIncome : bool) (d : Db) : bool :=
  existsb (fun kv =>
    match rows (receipts d) !! it_receipt_id kv.2 with
    | Some r => negb (eqb (bool_decide (er_kind (rc_fields r) ∈ income_kinds)) isIncome)
    | None => false
    end)
    (select (fun i => bool_decide (it_category_id i = Some id)) (items d)).

(** [DELETE FROM table WHERE id = $1 AND user_id = $2 RETURNING id]. *)
Definition delete_owned {A} (owned : option A) (del : Db -> Db) (d : Db) : outcome (bool * Db) :=
  match owned with
  | Some _ => Ok (true, del d)
  | None => Ok (false, d)
  end.
End Sql.

Definition removed (noun : string) (result : bool) `{IS : ImageStore} : M () :=
  if result then mret () else mthrow (NotFoundError (noun +:+ " not found")).

Module CategoryService.
Section Category.
Context `{PG : Postgres} `{IS : ImageStore}.

Definition list (userId : Z) : M (list Category) :=
  query (fun d => map (fun kv => category_of kv.1 kv.2)
    (merge_sort (by_name c_name) (select (fun c => c_user_id c =? userId) (categories d)))).

Definition create (userId : Z) (body : json) : M Category :=
  lift (requireObject body) ;!
  lift (rejectUnknownKeys body ["name"; "is_income"]%string) ;!
  let! nm := lift (requiredName body) in
  let! isIncome := lift (boolOr body "is_income" false) in
  let row := mkCategory userId nm isIncome in
  mcatch
    (let! id := exec (insert_unique same_category c_user_id categories row) in mret (category_of id row))
    (fun e => mthrow (asConflictIfDuplicate "category" e)).

Definition update (userId id : Z) (body : json) : M Category :=
  lift (requireObject body) ;!
  lift (rejectUnknownKeys body ["name"; "is_income"]%string) ;!
  let! nm := lift (readIfPresent body "name" requiredString None) in
  let! isIncome := lift (readIfPresent body "is_income" boolean None) in
  mcatch
    (transaction (
      let! current := query (owned_category userId id) in
      match current with
      | None => mthrow (NotFoundError "category not found")
      | Some c =>
          match isIncome with
          | Some side =>
              if eqb side (c_is_income c) then mret () else
              let! clash := query (category_clash id side) in
              if (clash : bool)
              then mthrow (ValidationError (if side then "category is used by items on non-income receipts"
                                            else "category is used by items on income receipts"))
              else mret ()
          | None => mret ()
          end ;!
          let row := mkCategory (c_user_id c) (default (c_name c) nm) (default (c_is_income c) isIncome) in
          exec_ (update_unique same_category categories id row) ;!
          mret (category_of id row)
      end))
    (fun e => mthrow (asConflictIfDuplicate "category" e)).

Definition remove (userId id : Z) : M () :=
  let! result := exec (fun d => delete_owned (owned_category userId id d) (delete_category id) d) in
  removed "category" result.
End Category.
End CategoryService.

Module TagService.
Section Tag.
Context `{PG : Postgres} `{IS : ImageStore}.

Definition list (userId : Z) : M (list Tag) :=
  query (fun d => map (fun kv => tag_of kv.1 kv.2)
    (merge_sort (by_name t_name) (select (fun t => t_user_id t =? userId) (tags d)))).

Definition create (userId : Z) (body : json) : M Tag :=
  lift (requireObject body) ;!
  lift (rejectUnknownKeys body ["name"]%string) ;!
  let! nm := lift (requiredName body) in
  let row := mkTag userId nm in
  mcatch
    (let! id := exec (insert_unique same_tag t_user_id tags row) in mret (tag_of id row))
    (fun e => mthrow (asConflictIfDuplicate "tag" e)).

Definition update (userId id : Z) (body : json) : M Tag :=
  lift (requireObject body) ;!
  lift (rejectUnknownKeys body ["name"]%string) ;!
  let! nm := lift (requiredName body) in
  let row := mkTag userId nm in
  let! result :=
    mcatch
      (exec (fun d =>
         match owned_tag userId id d with
         | Some _ => (let* d' := update_unique same_tag tags id row d in Ok (true, d'))%outcome
         | None => Ok (false, d)
         end))
      (fun e => mthrow (asConflictIfDuplicate "tag" e)) in
  if (result : bool) then mret (tag_of id row) else mthrow (NotFoundError "tag not found").

Definition remove (userId id : Z) : M () :=
  let! result := exec (fun d => delete_owned (owned_tag userId id d) (delete_tag id) d) in
  removed "tag" result.
End Tag.
End TagService.

Module PaymentMethodService.
Section PaymentMethod.
Context `{PG : Postgres} `{IS : ImageStore}.

Definition list (userId : Z) : M (list PaymentMethod) :=
  query (fun d => map (fun kv => payment_method_of kv.1 kv.2)
    (merge_sort (by_name p_name) (select (fun p => p_user_id p =? userId) (payment_methods d)))).

Definition create (userId : Z) (body : json) : M PaymentMethod :=
  lift (requireObject body) ;!
  lift (rejectUnknownKeys body ["name"; "stored_value"]%string) ;!
  let! nm := lift (requiredName body) in
  let! storedValue := lift (boolOr body "stored_value" false) in
  let row := mkPaymentMethod userId nm storedValue in
  mcatch
    (let! id := exec (insert_unique same_payment_method p_user_id payment_methods row) in
     mret (payment_method_of id row))
    (fun e => mthrow (asConflictIfDuplicate "payment method" e)).

(** One UPDATE with COALESCE: absent fields keep their value. *)
Definition update (userId id : Z) (body : json) : M PaymentMethod :=
  lift (requireObject body) ;!
  lift (rejectUnknownKeys body ["name"; "stored_value"]%string) ;!
  let! nm := lift (readIfPresent body "name" requiredString None) in
  let! storedValue := lift (readIfPresent body "stored_value" boolean None) in
  let! result :=
    mcatch
      (exec (fun d =>
         match owned_payment_method userId id d with
         | Some p =>
             let row := mkPaymentMethod (p_user_id p) (default (p_name p) nm)
                          (default (p_stored_value p) storedValue) in
             (let* d' := update_unique same_payment_method payment_methods id row d in Ok (Some row, d'))%outcome
         | None => Ok (None, d)
         end))
      (fun e => mthrow (asConflictIfDuplicate "payment method" e)) in
  match result with
  | Some row => mret (payment_method_of id row)
  | None => mthrow (NotFoundError "payment method not found")
  end.

Definition remove (userId id : Z) : M () :=
  let! result := exec (fun d => delete_owned (owned_payment_method userId id d) (delete_payment_method id) d) in
  removed "payment method" result.
End PaymentMethod.
End PaymentMethodService.
