(* ===== verification/AuthService.v ===== *)
(** * Accounts, sessions and one-time tokens

    src/src/auth/AuthService.h and AuthService.cpp, PasswordHasher.cpp and
    src/src/seeds/DefaultSeeds.h.  Timestamps are microseconds. *)
From S2P Require Import Prelude CString Binary64 Json Kinds JsonInput LedgerInput TokenUtils Env Db World.
From S2P Require Import ItemService ReferenceData.

(** ** Seeds *)

Definition kExpenseCategories : list string :=
  ["groceries"; "dining/takeaway"; "transport"; "fuel"; "household"; "utilities"; "subscriptions"; "insurance";
   "health"; "clothing"; "entertainment"; "gifts"; "fees"; "bonds/deposits"; "rewards"; "work-expenses";
   "junk food"; "hobby"; "other"]%string.
Definition kIncomeCategories : list string :=
  ["salary"; "interest"; "dividends/distributions"; "other-income"]%string.
Definition kDefaultPaymentMethod : string := "cash".

Definition kSessionLifetimeSeconds : Z := 30 * 24 * 60 * 60.

(** [secondsToIntervalLiteral(s)::interval], in microseconds. *)
Definition secondsToInterval (seconds : Z) : outcome Z :=
  if int64_ok (seconds * 1000000) then Ok (seconds * 1000000)
  else Throw (DbError "ERROR:  interval out of range").

Section AuthService.
Context `{PG : Postgres} `{IS : ImageStore} `{SO : Sodium} `{EN : Environment}.

(** ** PasswordHasher *)

Definition hash (password : string) : M string := fun w =>
  match crypto_pwhash_str (w_rand w) password with
  | Some h => (Ok h, w <| w_rand ::= S |>)
  | None => (Throw (RuntimeError "PasswordHasher::hash: crypto_pwhash_str failed (out of memory?)"), w <| w_rand ::= S |>)
  end.
Definition verify (password storedHash : string) : bool := crypto_pwhash_str_verify storedHash password.

(** ** Statements *)

(** users.email is CITEXT. *)
Definition same_email (email : string) (u : user_row) : bool := bool_decide (pg_lower (u_email u) = pg_lower email).
Definition find_user (email : string) (d : Db) : option (Z * user_row) :=
  match select (same_email email) (users d) with
  | kv :: _ => Some kv
  | [] => None
  end.
Definition sql_insert_user (email password_hash : string) (d : Db) : outcome (Z * Db) :=
  (guard (negb (name_taken (same_email email) None (users d))) unique_violation ;;;
   Ok (seq (users d), d <| users ::= insert_row (mkUser email password_hash None) |>))%outcome.
Definition sql_insert_session (user_id : Z) (token_hash : string) (expires_at : Z) (d : Db) : outcome Db :=
  (guard (negb (name_taken (fun s => bool_decide (s_token_hash s = token_hash)) None (sessions d))) unique_violation ;;;
   guard (fk (Some user_id) (users d)) fk_violation ;;;
   Ok (d <| sessions ::= insert_row (mkSession user_id token_hash expires_at) |>))%outcome.
Definition sql_insert_auth_token (row : auth_token_row) (d : Db) : outcome Db :=
  (guard (negb (name_taken (fun s => bool_decide (a_token_hash s = a_token_hash row)) None (auth_tokens d))) unique_violation ;;;
   guard (fk (Some (a_user_id row)) (users d)) fk_violation ;;;
   Ok (d <| auth_tokens ::= insert_row row |>))%outcome.
Definition sql_set_user (id : Z) (f : user_row -> user_row) (d : Db) : outcome Db :=
  Ok (match rows (users d) !! id with
      | Some u => d <| users ::= update_row id (f u) |>
      | None => d
      end).
(** [WHERE token_hash = $1 AND purpose = ... AND expires_at > now()]. *)
Definition live_token (token_hash purpose : string) (t : Z) (a : auth_token_row) : bool :=
  bool_decide (a_token_hash a = token_hash) && bool_decide (a_purpose a = purpose) && (t <? a_expires_at a).
Definition token_user (token_hash purpose : string) (t : Z) (d : Db) : option Z :=
  match select (live_token token_hash purpose t) (auth_tokens d) with
  | (_, a) :: _ => Some (a_user_id a)
  | [] => None
  end.
Definition drop_token (token_hash : string) (d : Db) : Db :=
  d <| auth_tokens ::= keep_rows (fun a => negb (bool_decide (a_token_hash a = token_hash))) |>.
Definition live_session (token_hash : string) (t : Z) (s : session_row) : bool :=
  bool_decide (s_token_hash s = token_hash) && (t <? s_expires_at s).
Definition session_user (token_hash : string) (t : Z) (d : Db) : option Z :=
  match select (live_session token_hash t) (sessions d) with
  | (_, s) :: _ => Some (s_user_id s)
  | [] => None
  end.
(** The sliding-expiry UPDATE. *)
Definition touch_session (token_hash : string) (below to : Z) (s : session_row) : session_row :=
  if bool_decide (s_token_hash s = token_hash) && (s_expires_at s <? below) then s <| s_expires_at := to |> else s.

(** ** AuthService *)

Definition sessionTouchIntervalSeconds : outcome Z := stoll (envOr "SESSION_TOUCH_INTERVAL" "86400").

Definition seed_category (userId : Z) (isIncome : bool) (nm : string) : M () :=
  exec (insert_unique same_category c_user_id categories (mkCategory userId nm isIncome)) ;! mret ().
Definition registerUser (email password : string) : M Z :=
  let! passwordHash := hash password in
  mcatch
    (transaction (
      let! userId := exec (sql_insert_user email passwordHash) in
      for_each (seed_category userId false) kExpenseCategories ;!
      for_each (seed_category userId true) kIncomeCategories ;!
      exec (insert_unique same_payment_method p_user_id payment_methods
              (mkPaymentMethod userId kDefaultPaymentMethod false)) ;!
      mret userId))
    (fun e => mthrow (if contains duplicate_text (what e) then DuplicateEmailError else e)).

Definition login (email password : string) : M (option string) :=
  let! result := query (find_user email) in
  match result with
  | None => mret None
  | Some (userId, u) =>
      if negb (verify password (u_password_hash u)) then mret None else
      let! rawToken := draw_token 32 in
      let! lifetime := lift (secondsToInterval kSessionLifetimeSeconds) in
      let! t := now in
      exec_ (sql_insert_session userId (hashToken rawToken) (t + lifetime)) ;!
      mret (Some rawToken)
  end.

Definition validateSession (rawToken : string) : M (option Z) :=
  let tokenHash := hashToken rawToken in
  let! t := now in
  let! result := query (session_user tokenHash t) in
  match result with
  | None => mret None
  | Some userId =>
      let! touch := lift sessionTouchIntervalSeconds in
      if negb (int64_ok (kSessionLifetimeSeconds - touch)) then lift (UB "signed overflow") else
      let! lifetime := lift (secondsToInterval kSessionLifetimeSeconds) in
      let! threshold := lift (secondsToInterval (kSessionLifetimeSeconds - touch)) in
      exec_ (fun d => Ok (d <| sessions ::=
        map_rows (fun _ s => Some (touch_session tokenHash (t + threshold) (t + lifetime) s)) |>)) ;!
      mret (Some userId)
  end.

Definition logout (rawToken : string) : M () :=
  exec_ (fun d => Ok (d <| sessions ::=
    keep_rows (fun s => negb (bool_decide (s_token_hash s = hashToken rawToken))) |>)).

Definition hour : Z := 60 * 60 * 1000000.
Definition requestPasswordReset (email : string) : M string :=
  let! result := query (find_user email) in
  match result with
  | None => draw_token 32
  | Some (userId, _) =>
      let! rawToken := draw_token 32 in
      let! t := now in
      exec_ (sql_insert_auth_token (mkAuthToken userId (hashToken rawToken) "reset" (t + hour))) ;!
      mret rawToken
  end.

(** The three statements of the transaction, which commits however it ends;
    Postgres turns the COMMIT after a failed statement into a rollback. *)
Definition confirmPasswordReset (rawToken newPassword : string) : M bool :=
  let tokenHash := hashToken rawToken in
  let! t := now in
  let! result := query (token_user tokenHash "reset" t) in
  match result with
  | None => mret false
  | Some userId =>
      let! newHash := hash newPassword in
      transaction (
        exec_ (sql_set_user userId (fun u => u <| u_password_hash := newHash |>)) ;!
        exec_ (fun d => Ok (d <| sessions ::= keep_rows (fun s => negb (s_user_id s =? userId)) |>)) ;!
        exec_ (fun d => Ok (drop_token tokenHash d))) ;!
      mret true
  end.

Definition requestEmailVerification (userId : Z) : M string :=
  let! rawToken := draw_token 32 in
  let! t := now in
  exec_ (sql_insert_auth_token (mkAuthToken userId (hashToken rawToken) "verify" (t + 24 * hour))) ;!
  mret rawToken.

Definition confirmEmailVerification (rawToken : string) : M bool :=
  let tokenHash := hashToken rawToken in
  let! t := now in
  let! result := query (token_user tokenHash "verify" t) in
  match result with
  | None => mret false
  | Some userId =>
      exec_ (sql_set_user userId (fun u => u <| u_email_verified_at := Some t |>)) ;!
      exec_ (fun d => Ok (drop_token tokenHash d)) ;!
      mret true
  end.

End AuthService.
