(* ===== verification/Http.v ===== *)
(** * The HTTP layer

    src/src/controllers/ (Responses, AuthController, ReceiptController,
    ItemController, ReferenceDataController, HealthController) and
    src/src/filters/SessionAuthFilter.cpp.  Drogon parses the request and sends
    the response; a handler is a computation from the parsed request to the
    response it passes to its callback, and an exception that leaves it is
    Drogon's own 500. *)
From S2P Require Import Prelude CString Binary64 Json Kinds JsonInput LedgerInput TokenUtils RateLimiter Env Db.
From S2P Require Import World ItemService ReceiptService ReferenceData AuthService.

Record Cookie := mkCookie {
  ck_name : string; ck_value : string; ck_httpOnly : bool; ck_secure : bool; ck_sameSite : string;
  ck_path : string; ck_maxAge : Z }.
Record Response := mkResponse {
  resp_status : Z; resp_contentType : string; resp_body : string; resp_headers : list (string * string);
  resp_cookie : option Cookie }.
#[export] Instance eta_Response : Eta Response := fun r =>
  mkResponse (resp_status r) (resp_contentType r) (resp_body r) (resp_headers r) (resp_cookie r).

(** What a handler reads of a request; an absent parameter or cookie is empty, and
    [rq_files] is [None] when the body is no multipart form. *)
Record Request := mkRequest {
  rq_body : string;
  rq_cookie : string;
  rq_param : string -> string;
  rq_files : option (list string);
  rq_peer : string
}.

Definition k200OK : Z := 200.
Definition k201Created : Z := 201.
Definition k400BadRequest : Z := 400.
Definition k401Unauthorized : Z := 401.
Definition k404NotFound : Z := 404.
Definition k409Conflict : Z := 409.
Definition k429TooManyRequests : Z := 429.
Definition k500InternalServerError : Z := 500.
Definition k503ServiceUnavailable : Z := 503.

Section Http.
Context `{PG : Postgres} `{IS : ImageStore} `{SO : Sodium} `{EN : Environment} `{VI : Vips} `{PL : Platform} `{JT : JsonText}.

(** ** Responses *)

Definition jsonResponse (status : Z) (body : json) : outcome Response :=
  (let* text := json_dump body in Ok (mkResponse status "application/json" text [] None))%outcome.
Definition error_body (code message : string) : json :=
  obj [("error", obj [("code", JString code); ("message", JString message)])]%string.
Definition errorResponse (status : Z) (code message : string) : outcome Response :=
  jsonResponse status (error_body code message).
(** [json::parse(body, nullptr, false)]: malformed text comes back discarded. *)
Definition parseBody (req : Request) : json :=
  match json_parse (rq_body req) with
  | Ok v => v
  | _ => JDiscarded
  end.
(** The catch clauses in order; ReceiptNotFoundError derives from NotFoundError. *)
Definition errorResponseFor (error : exn) : outcome Response :=
  match error with
  | NotFoundError _ | ReceiptNotFoundError => errorResponse k404NotFound "not_found" (what error)
  | ValidationError _ => errorResponse k400BadRequest "invalid_request" (what error)
  | ConflictError _ => errorResponse k409Conflict "conflict" (what error)
  | _ => errorResponse k500InternalServerError "internal_error" "internal error"
  end.
Definition status_ok : json := obj [("status", JString "ok")]%string.

(** [try { callback(render(co_await m)); } catch (...) { callback(handler(e)); }]. *)
Definition guarded {A} (handler : exn -> outcome Response) (m : M A) (render : A -> outcome Response) : M Response :=
  mcatch (let! a := m in lift (render a)) (fun e => lift (handler e)).

(** ** SessionAuthFilter *)

Definition unauthorized : outcome Response :=
  jsonResponse k401Unauthorized (error_body "unauthorized" "missing or invalid session").
(** The filter and the handler behind it. *)
Definition with_session (req : Request) (handler : Z -> M Response) : M Response :=
  if empty (rq_cookie req) then lift unauthorized else
  let! userId := validateSession (rq_cookie req) in
  match userId with
  | None => lift unauthorized
  | Some u => handler u
  end.

(** ** AuthController *)

(** One limiter call on the field [f] of [w_limits]. *)
Definition limiter_allow (f : Limits -> gmap string Entry) `{!Setter f} (key : string) : M bool := fun w =>
  match stoi (envOr "RATE_LIMIT_MAX_ATTEMPTS" "10"), stoll (envOr "RATE_LIMIT_WINDOW_SECONDS" "300") with
  | Ok maxAttempts, Ok window =>
      match allow maxAttempts (window * 1000000) key (w_clock w) (w_clock w) (f (w_limits w)) with
      | Ok (ok, attempts) => (Ok ok, w <| w_limits ::= set_field f (fun _ => attempts) |>)
      | Throw e => (Throw e, w)
      | UB u => (UB u, w)
      end
  | Ok _, Throw e | Throw e, _ => (Throw e, w)
  | Ok _, UB u | UB u, _ => (UB u, w)
  end.
Definition checkRateLimit (ip email : string) (byIp byAccount : string -> M bool) : M bool :=
  let! ipOk := byIp ip in
  let! accountOk := byAccount email in
  mret (ipOk && accountOk).

Definition makeSessionCookie (rawToken : string) : Cookie :=
  mkCookie "session" rawToken true (bool_decide (envOr "COOKIE_SECURE" "false" = "true"%string)) "Lax" "/"
    kSessionLifetimeSeconds.

(** [body[key].get<std::string>()]: a type_error unless it is a string. *)
Definition get_string (key : string) (body : json) : outcome string :=
  match find key body with
  | Some (JString s) => Ok s
  | _ => Throw (JsonException "type must be string")
  end.
(** The checks and the two fields both auth forms start with. *)
Definition missing (keys : list string) (body : json) : bool := negb (forallb (fun k => has k body) keys).

Definition register_handler (req : Request) : M Response :=
  let body := parseBody req in
  if missing ["email"; "password"]%string body
  then lift (errorResponse k400BadRequest "invalid_request" "email and password are required") else
  let! email := lift (get_string "email" body) in
  let! password := lift (get_string "password" body) in
  let! ok := checkRateLimit (rq_peer req) email (limiter_allow register_ip) (limiter_allow register_account) in
  if negb ok then lift (errorResponse k429TooManyRequests "rate_limited" "too many registration attempts") else
  mcatch
    (let! userId := registerUser email password in
     let! verifyToken := requestEmailVerification userId in
     lift (jsonResponse k201Created (obj [("id", JInteger userId)]%string)))
    (fun e => match e with
              | DuplicateEmailError =>
                  lift (errorResponse k409Conflict "email_taken" "an account with this email already exists")
              | e => mthrow e
              end).

Definition login_handler (req : Request) : M Response :=
  let body := parseBody req in
  if missing ["email"; "password"]%string body
  then lift (errorResponse k400BadRequest "invalid_request" "email and password are required") else
  let! email := lift (get_string "email" body) in
  let! password := lift (get_string "password" body) in
  let! ok := checkRateLimit (rq_peer req) email (limiter_allow login_ip) (limiter_allow login_account) in
  if negb ok then lift (errorResponse k429TooManyRequests "rate_limited" "too many login attempts") else
  let! session := login email password in
  match session with
  | None => lift (errorResponse k401Unauthorized "invalid_credentials" "wrong email or password")
  | Some rawToken =>
      let! resp := lift (jsonResponse k200OK status_ok) in
      mret (resp <| resp_cookie := Some (makeSessionCookie rawToken) |>)
  end.

(** The expired cookie keeps what Drogon's [Cookie] starts from: HttpOnly, not Secure,
    no SameSite. *)
Definition logout_handler (req : Request) : M Response :=
  logout (rq_cookie req) ;!
  let! resp := lift (jsonResponse k200OK status_ok) in
  mret (resp <| resp_cookie := Some (mkCookie "session" "" true false "" "/" 0) |>).

Definition verify_email_handler (req : Request) : M Response :=
  let body := parseBody req in
  if missing ["token"]%string body
  then lift (errorResponse k400BadRequest "invalid_request" "token is required") else
  let! token := lift (get_string "token" body) in
  let! ok := confirmEmailVerification token in
  if (ok : bool) then lift (jsonResponse k200OK status_ok)
  else lift (errorResponse k400BadRequest "invalid_token" "verification token is invalid or expired").

Definition request_reset_handler (req : Request) : M Response :=
  let body := parseBody req in
  if missing ["email"]%string body
  then lift (errorResponse k400BadRequest "invalid_request" "email is required") else
  let! email := lift (get_string "email" body) in
  requestPasswordReset email ;!
  lift (jsonResponse k200OK status_ok).

Definition confirm_reset_handler (req : Request) : M Response :=
  let body := parseBody req in
  if missing ["token"; "password"]%string body
  then lift (errorResponse k400BadRequest "invalid_request" "token and password are required") else
  let! token := lift (get_string "token" body) in
  let! password := lift (get_string "password" body) in
  let! ok := confirmPasswordReset token password in
  if (ok : bool) then lift (jsonResponse k200OK status_ok)
  else lift (errorResponse k400BadRequest "invalid_token" "reset token is invalid or expired").

(** ** ReceiptController *)

Definition kMaxImageBytes : Z := 15 * 1024 * 1024.

Definition conflictResponse (conflict : ImageConflict) : outcome Response :=
  jsonResponse k409Conflict (obj [("error", obj
    [("code", JString "duplicate_image");
     ("message", JString "an image with identical content already exists");
     ("duplicate_of", obj [("receipt_id", JInteger (ic_receiptId conflict));
                           ("image_id", JInteger (ic_imageId conflict))])])]%string).

Definition summary_json (r : ReceiptSummary) : json :=
  obj [("id", JInteger (rs_id r));
       ("store_name_raw", nullable JString (rs_storeNameRaw r));
       ("merchant", nullable JString (rs_merchant r));
       ("purchase_date", nullable JString (rs_purchaseDate r));
       ("total_cents", JInteger (rs_totalCents r));
       ("direction", JString (rs_direction r));
       ("currency", JString (rs_currency r));
       ("kind", JString (rs_kind r));
       ("scan_state", JString (rs_scanState r));
       ("tax_deductible", JBool (rs_taxDeductible r));
       ("note", nullable JString (rs_note r));
       ("source", JString (rs_source r));
       ("payment_method_id", nullable JInteger (rs_paymentMethodId r));
       ("offsets_receipt_id", nullable JInteger (rs_offsetsReceiptId r));
       ("fx_rate_to_aud", nullable JFloat (rs_fxRateToAud r));
       ("aud_equivalent_cents", nullable JInteger (rs_audEquivalentCents r));
       ("proposed_at", nullable JString (rs_proposedAt r));
       ("reviewed_at", nullable JString (rs_reviewedAt r));
       ("needs_review", JBool (rs_needsReview r));
       ("is_confirmed", JBool (rs_isConfirmed r));
       ("created_at", JString (rs_createdAt r));
       ("updated_at", JString (rs_updatedAt r))]%string.

(** The images, or the error response already sent. *)
Definition extractImageFiles (req : Request) : outcome (Response + list string) :=
  match rq_files req with
  | None | Some [] =>
      (let* r := errorResponse k400BadRequest "invalid_request" "expected one or more multipart image files" in Ok (inl r))%outcome
  | Some files =>
      if existsb (fun f => kMaxImageBytes <? size f) files
      then (let* r := errorResponse k400BadRequest "file_too_large" "each image must be 15MB or smaller" in Ok (inl r))%outcome
      else Ok (inr files)
  end.
Definition forceRequested (req : Request) : bool := bool_decide (rq_param req "force" = "true"%string).
Definition imageWriteErrorResponse (error : exn) : outcome Response :=
  match error with
  | TooManyImagesError => errorResponse k400BadRequest "too_many_images" "this would exceed the per-receipt image cap"
  | ImageDecodeError _ =>
      errorResponse k400BadRequest "invalid_image" "could not decode image (JPEG, PNG or WebP expected)"
  | e => errorResponseFor e
  end.

Definition upload_handler (req : Request) (userId : Z) : M Response :=
  let! images := lift (extractImageFiles req) in
  match images with
  | inl resp => mret resp
  | inr images =>
      guarded imageWriteErrorResponse (uploadReceipt userId images (forceRequested req)) (fun result =>
        match result with
        | inr conflict => conflictResponse conflict
        | inl id => jsonResponse k201Created (obj [("id", JInteger id)]%string)
        end)
  end.
Definition add_images_handler (req : Request) (userId id : Z) : M Response :=
  let! images := lift (extractImageFiles req) in
  match images with
  | inl resp => mret resp
  | inr images =>
      guarded imageWriteErrorResponse (addImages userId id images (forceRequested req)) (fun result =>
        match result with
        | inr conflict => conflictResponse conflict
        | inl _ => jsonResponse k200OK status_ok
        end)
  end.
Definition list_images_handler (userId id : Z) : M Response :=
  mcatch
    (let! images := listImages userId id in
     lift (jsonResponse k200OK (JArray (map (fun img =>
       obj [("id", JInteger (ir_id img)); ("created_at", JString (ir_createdAt img))]%string) images))))
    (fun e => match e with
              | ReceiptNotFoundError => lift (errorResponse k404NotFound "not_found" "receipt not found")
              | e => mthrow e
              end).

(** [std::clamp(v, lo, hi)] with [lo <= hi]. *)
Definition clamp (v lo hi : Z) : Z := if v <? lo then lo else if hi <? v then hi else v.
Definition page_limit (req : Request) : outcome Z :=
  if empty (rq_param req "limit") then Ok 50
  else (let* v := stoi (rq_param req "limit") in Ok (clamp v 1 200))%outcome.
Definition page_offset (req : Request) : outcome Z :=
  if empty (rq_param req "offset") then Ok 0
  else (let* v := stoi (rq_param req "offset") in Ok (Z.max 0 v))%outcome.
Definition list_handler (req : Request) (userId : Z) : M Response :=
  let! limit := lift (page_limit req) in
  let! offset := lift (page_offset req) in
  let! result := listReceipts userId limit offset in
  lift (jsonResponse k200OK (JArray (map summary_json result))).
Definition get_handler (userId id : Z) : M Response :=
  let! result := getReceipt userId id in
  match result with
  | None => lift (errorResponse k404NotFound "not_found" "receipt not found")
  | Some r => lift (jsonResponse k200OK (summary_json r))
  end.
Definition remove_handler (userId id : Z) : M Response :=
  let! deleted := deleteReceipt userId id in
  if (deleted : bool) then lift (jsonResponse k200OK status_ok)
  else lift (errorResponse k404NotFound "not_found" "receipt not found").
Definition image_handler (userId id : Z) : M Response :=
  let! location := findImage id in
  match location with
  | Some l =>
      if il_ownerUserId l =? userId then
        let! bytes := store_get (il_imageKey l) in
        mret (mkResponse k200OK "image/webp" bytes [("Cache-Control", "private, max-age=31536000, immutable")]%string None)
      else lift (errorResponse k404NotFound "not_found" "image not found")
  | None => lift (errorResponse k404NotFound "not_found" "image not found")
  end.
Definition create_manual_handler (req : Request) (userId : Z) : M Response :=
  guarded errorResponseFor (createManual userId (parseBody req))
    (fun id => jsonResponse k201Created (obj [("id", JInteger id)]%string)).
Definition update_handler (req : Request) (userId id : Z) : M Response :=
  guarded errorResponseFor (updateReceipt userId id (parseBody req)) (fun r => jsonResponse k200OK (summary_json r)).
Definition retry_handler (userId id : Z) : M Response :=
  guarded errorResponseFor (retryScan userId id) (fun r => jsonResponse k200OK (summary_json r)).

(** ** ItemController *)

Definition item_json (item : Item) : json :=
  let r := i_row item in
  obj [("id", JInteger (i_id item));
       ("receipt_id", JInteger (it_receipt_id r));
       ("name", nullable JString (it_name r));
       ("quantity", nullable JFloat (it_quantity r));
       ("unit_price_cents", nullable JInteger (it_unit_price_cents r));
       ("amount_cents", JInteger (it_amount_cents r));
       ("category_id", nullable JInteger (it_category_id r));
       ("informational", JBool (it_informational r));
       ("tag_ids", JArray (map JInteger (i_tagIds item)))]%string.
Definition item_list_handler (userId receiptId : Z) : M Response :=
  guarded errorResponseFor (ItemService.list userId receiptId) (fun l => jsonResponse k200OK (JArray (map item_json l))).
Definition item_create_handler (req : Request) (userId receiptId : Z) : M Response :=
  guarded errorResponseFor (ItemService.create userId receiptId (parseBody req))
    (fun i => jsonResponse k201Created (item_json i)).
Definition item_update_handler (req : Request) (userId receiptId itemId : Z) : M Response :=
  guarded errorResponseFor (ItemService.update userId receiptId itemId (parseBody req))
    (fun i => jsonResponse k200OK (item_json i)).
Definition item_remove_handler (userId receiptId itemId : Z) : M Response :=
  guarded errorResponseFor (ItemService.remove userId receiptId itemId) (fun _ => jsonResponse k200OK status_ok).

(** ** ReferenceDataController *)

Definition toJsonArray {T} (toJson : T -> json) (entries : list T) : json := JArray (map toJson entries).

Definition category_json (c : Category) : json :=
  obj [("id", JInteger (cat_id c)); ("name", JString (cat_name c)); ("is_income", JBool (cat_isIncome c))]%string.
Definition tag_json (t : Tag) : json := obj [("id", JInteger (tag_id t)); ("name", JString (tag_name t))]%string.
Definition payment_method_json (m : PaymentMethod) : json :=
  obj [("id", JInteger (pm_id m)); ("name", JString (pm_name m)); ("stored_value", JBool (pm_storedValue m))]%string.

Definition list_categories_handler (userId : Z) : M Response :=
  guarded errorResponseFor (CategoryService.list userId) (fun l => jsonResponse k200OK (toJsonArray category_json l)).
Definition create_category_handler (req : Request) (userId : Z) : M Response :=
  guarded errorResponseFor (CategoryService.create userId (parseBody req)) (fun c => jsonResponse k201Created (category_json c)).
Definition update_category_handler (req : Request) (userId id : Z) : M Response :=
  guarded errorResponseFor (CategoryService.update userId id (parseBody req)) (fun c => jsonResponse k200OK (category_json c)).
Definition remove_category_handler (userId id : Z) : M Response :=
  guarded errorResponseFor (CategoryService.remove userId id) (fun _ => jsonResponse k200OK status_ok).

Definition list_tags_handler (userId : Z) : M Response :=
  guarded errorResponseFor (TagService.list userId) (fun l => jsonResponse k200OK (toJsonArray tag_json l)).
Definition create_tag_handler (req : Request) (userId : Z) : M Response :=
  guarded errorResponseFor (TagService.create userId (parseBody req)) (fun t => jsonResponse k201Created (tag_json t)).
Definition update_tag_handler (req : Request) (userId id : Z) : M Response :=
  guarded errorResponseFor (TagService.update userId id (parseBody req)) (fun t => jsonResponse k200OK (tag_json t)).
Definition remove_tag_handler (userId id : Z) : M Response :=
  guarded errorResponseFor (TagService.remove userId id) (fun _ => jsonResponse k200OK status_ok).

Definition list_payment_methods_handler (userId : Z) : M Response :=
  guarded errorResponseFor (PaymentMethodService.list userId)
    (fun l => jsonResponse k200OK (toJsonArray payment_method_json l)).
Definition create_payment_method_handler (req : Request) (userId : Z) : M Response :=
  guarded errorResponseFor (PaymentMethodService.create userId (parseBody req))
    (fun m => jsonResponse k201Created (payment_method_json m)).
Definition update_payment_method_handler (req : Request) (userId id : Z) : M Response :=
  guarded errorResponseFor (PaymentMethodService.update userId id (parseBody req))
    (fun m => jsonResponse k200OK (payment_method_json m)).
Definition remove_payment_method_handler (userId id : Z) : M Response :=
  guarded errorResponseFor (PaymentMethodService.remove userId id) (fun _ => jsonResponse k200OK status_ok).

(** ** HealthController: [ping] is whether [SELECT 1] came back. *)
Definition health_handler (ping : outcome unit) : outcome Response :=
  match ping with
  | Ok _ => jsonResponse k200OK (obj [("status", JString "ok"); ("db", JString "ok")]%string)
  | Throw _ => jsonResponse k503ServiceUnavailable (obj [("status", JString "degraded"); ("db", JString "error")]%string)
  | UB u => UB u
  end.
End Http.
