(* ===== verification/Routes.v ===== *)
(** * Routing: which handler a request reaches, and through which filters

    The METHOD_LIST tables of the controllers' headers, row by row, and the way a
    request goes from its method and path to the response: Drogon selects a
    registered route (the class [Drogon]), the route's filters run, then its
    handler with the user id the filter left in the request's attributes and the
    path's placeholders. *)
From Stdlib Require Import Ascii.
From S2P Require Import Prelude CString Binary64 Json Kinds JsonInput LedgerInput TokenUtils RateLimiter Env Db.
From S2P Require Import World ItemService ReceiptService ReferenceData AuthService Http.
#[local] Open Scope string_scope.

Inductive Method := Get | Post | Patch | Delete.
#[export] Instance Method_eq_dec : EqDecision Method.
Proof. solve_decision. Defined.

(** Drogon's router: the registered path and method a request selects, with the
    integers its placeholders [{1}], [{2}] matched, or Drogon's own answer (404,
    405, or a placeholder that is no integer); what [attributes()->get<int64_t>]
    returns for a key nobody inserted; and whether [SELECT 1] comes back. *)
Class Drogon := {
  select_route : list (string * Method) -> Method -> string -> Response + (nat * list Z);
  absent_attribute : Z;
  db_ping : outcome unit
}.
(** The placeholders of a registered path. *)
Fixpoint placeholders (path : string) : nat :=
  match path with
  | String c path' => (if bool_decide (c = "{"%char) then 1 else 0) + placeholders path'
  | EmptyString => 0
  end.
(** A selected route is registered under the request's method and gets one integer
    per placeholder of its path. *)
Class DrogonRouting `{Drogon} :=
  select_sound table m path i ids : select_route table m path = inr (i, ids) ->
    exists pattern, table !! i = Some (pattern, m) /\ length ids = placeholders pattern.

Section Routes.
Context `{PG : Postgres} `{IS : ImageStore} `{SO : Sodium} `{EN : Environment} `{VI : Vips} `{PL : Platform} `{JT : JsonText} `{DR : Drogon}.

(** A handler by what it reads: the request alone, the session's user, and the
    placeholders of its path. *)
Inductive Handler :=
| Plain (h : Request -> M Response)
| ForUser (h : Request -> Z -> M Response)
| WithId (h : Request -> Z -> Z -> M Response)
| WithIds (h : Request -> Z -> Z -> Z -> M Response).
Inductive Filter := SessionAuthFilter.

(** [ADD_METHOD_TO(handler, path, method, filters...)]. *)
Record Route := ADD_METHOD_TO {
  rt_handler : Handler; rt_path : string; rt_method : Method; rt_filters : list Filter }.

Definition auth_routes : list Route := [
  ADD_METHOD_TO (Plain register_handler) "/api/v1/auth/register" Post [];
  ADD_METHOD_TO (Plain login_handler) "/api/v1/auth/login" Post [];
  ADD_METHOD_TO (Plain logout_handler) "/api/v1/auth/logout" Post [SessionAuthFilter];
  ADD_METHOD_TO (Plain verify_email_handler) "/api/v1/auth/verify" Post [];
  ADD_METHOD_TO (Plain request_reset_handler) "/api/v1/auth/password-reset/request" Post [];
  ADD_METHOD_TO (Plain confirm_reset_handler) "/api/v1/auth/password-reset/confirm" Post []].

Definition receipt_routes : list Route := [
  ADD_METHOD_TO (ForUser upload_handler) "/api/v1/receipts" Post [SessionAuthFilter];
  ADD_METHOD_TO (WithId add_images_handler) "/api/v1/receipts/{1}/images" Post [SessionAuthFilter];
  ADD_METHOD_TO (WithId (fun _ => list_images_handler)) "/api/v1/receipts/{1}/images" Get [SessionAuthFilter];
  ADD_METHOD_TO (ForUser list_handler) "/api/v1/receipts" Get [SessionAuthFilter];
  ADD_METHOD_TO (WithId (fun _ => get_handler)) "/api/v1/receipts/{1}" Get [SessionAuthFilter];
  ADD_METHOD_TO (WithId (fun _ => remove_handler)) "/api/v1/receipts/{1}" Delete [SessionAuthFilter];
  ADD_METHOD_TO (WithId (fun _ => image_handler)) "/api/v1/images/{1}" Get [SessionAuthFilter];
  ADD_METHOD_TO (ForUser create_manual_handler) "/api/v1/receipts/manual" Post [SessionAuthFilter];
  ADD_METHOD_TO (WithId update_handler) "/api/v1/receipts/{1}" Patch [SessionAuthFilter];
  ADD_METHOD_TO (WithId (fun _ => retry_handler)) "/api/v1/receipts/{1}/retry-scan" Post [SessionAuthFilter]].

Definition item_routes : list Route := [
  ADD_METHOD_TO (WithId (fun _ => item_list_handler)) "/api/v1/receipts/{1}/items" Get [SessionAuthFilter];
  ADD_METHOD_TO (WithId item_create_handler) "/api/v1/receipts/{1}/items" Post [SessionAuthFilter];
  ADD_METHOD_TO (WithIds item_update_handler) "/api/v1/receipts/{1}/items/{2}" Patch [SessionAuthFilter];
  ADD_METHOD_TO (WithIds (fun _ => item_remove_handler)) "/api/v1/receipts/{1}/items/{2}" Delete [SessionAuthFilter]].

Definition reference_routes : list Route := [
  ADD_METHOD_TO (ForUser (fun _ => list_categories_handler)) "/api/v1/categories" Get [SessionAuthFilter];
  ADD_METHOD_TO (ForUser create_category_handler) "/api/v1/categories" Post [SessionAuthFilter];
  ADD_METHOD_TO (WithId update_category_handler) "/api/v1/categories/{1}" Patch [SessionAuthFilter];
  ADD_METHOD_TO (WithId (fun _ => remove_category_handler)) "/api/v1/categories/{1}" Delete [SessionAuthFilter];
  ADD_METHOD_TO (ForUser (fun _ => list_tags_handler)) "/api/v1/tags" Get [SessionAuthFilter];
  ADD_METHOD_TO (ForUser create_tag_handler) "/api/v1/tags" Post [SessionAuthFilter];
  ADD_METHOD_TO (WithId update_tag_handler) "/api/v1/tags/{1}" Patch [SessionAuthFilter];
  ADD_METHOD_TO (WithId (fun _ => remove_tag_handler)) "/api/v1/tags/{1}" Delete [SessionAuthFilter];
  ADD_METHOD_TO (ForUser (fun _ => list_payment_methods_handler)) "/api/v1/payment-methods" Get [SessionAuthFilter];
  ADD_METHOD_TO (ForUser create_payment_method_handler) "/api/v1/payment-methods" Post [SessionAuthFilter];
  ADD_METHOD_TO (WithId update_payment_method_handler) "/api/v1/payment-methods/{1}" Patch [SessionAuthFilter];
  ADD_METHOD_TO (WithId (fun _ => remove_payment_method_handler)) "/api/v1/payment-methods/{1}" Delete [SessionAuthFilter]].

Definition health_routes : list Route := [
  ADD_METHOD_TO (Plain (fun _ => lift (health_handler db_ping))) "/api/v1/health" Get []].

Definition routes : list Route := auth_routes ++ receipt_routes ++ item_routes ++ reference_routes ++ health_routes.

(** The user id in the request's attributes, as the handlers read it. *)
Definition currentUserId (attributes : option Z) : Z := default absent_attribute attributes.

(** A handler with the integers of its path; the router supplies as many as the
    path has placeholders. *)
Definition run_handler (h : Handler) (req : Request) (attributes : option Z) (ids : list Z) : M Response :=
  match h, ids with
  | Plain f, _ => f req
  | ForUser f, _ => f req (currentUserId attributes)
  | WithId f, id :: _ => f req (currentUserId attributes) id
  | WithIds f, id :: id2 :: _ => f req (currentUserId attributes) id id2
  | _, _ => lift (UB "a handler without its path arguments")
  end.
(** Each filter answers the request or lets it pass with its attributes. *)
Fixpoint run_filters (filters : list Filter) (req : Request) (attributes : option Z) (k : option Z -> M Response) : M Response :=
  match filters with
  | [] => k attributes
  | SessionAuthFilter :: filters' => with_session req (fun userId => run_filters filters' req (Some userId) k)
  end.
Definition run_route (r : Route) (req : Request) (ids : list Z) : M Response :=
  run_filters (rt_filters r) req None (fun attributes => run_handler (rt_handler r) req attributes ids).

(** The server on one request. *)
Definition http (m : Method) (path : string) (req : Request) : M Response :=
  match select_route (map (fun r => (rt_path r, rt_method r)) routes) m path with
  | inl resp => mret resp
  | inr (i, ids) =>
      match routes !! i with
      | Some r => run_route r req ids
      | None => lift (UB "an unregistered route")
      end
  end.
End Routes.
