(* ===== verification/Rows.v ===== *)
(** * Rows as the database sends them

    The services work with records; the code gets there by way of text.  A SELECT list
    names columns and casts, the database sends each value as NULL or text, and the
    readers of src/src/receipts/RowValues.h and the [rowTo...] functions of the services
    pick the columns by name and convert them.  Reading a selected row back gives
    exactly the record the services' definitions use. *)
From Stdlib Require Import Ascii.
From S2P Require Import Prelude CString Binary64 Json Kinds JsonInput LedgerInput TokenUtils Env Db World.
From S2P Require Import ItemService ReceiptService ReferenceData.
#[local] Open Scope string_scope.

(** The text in which values are sent, and [Field::as<T>]. *)
Class RowText := {
  int_text : Z -> string;
  float_text : double -> string;
  bool_text : bool -> string;
  as_int64 : option string -> Z;
  as_double : option string -> double;
  as_bool : option string -> bool;
  as_string : option string -> string
}.
Class RowTextLaws `{RowText} := {
  as_int64_text z : int64_ok z = true -> as_int64 (Some (int_text z)) = z;
  as_double_text d : as_double (Some (float_text d)) = d;
  as_bool_text b : as_bool (Some (bool_text b)) = b;
  as_string_text s : as_string (Some s) = s
}.

Definition Row := list (string * option string).
(** [row[field]]. *)
Fixpoint column (row : Row) (field : string) : outcome (option string) :=
  match row with
  | [] => Throw (DbError ("there is no column named " +:+ field))
  | (name, value) :: row' => if decide (name = field) then Ok value else column row' field
  end.

(** ** Queries *)

Inductive Value := VInt (z : Z) | VFloat (d : double) | VText (s : string) | VBool (b : bool) | VTime (t : Z).
(** A row of a table or view, with its columns' names. *)
Definition Stored := list (string * option Value).
Fixpoint stored (row : Stored) (name : string) : option Value :=
  match row with
  | [] => None
  | (name', value) :: row' => if decide (name' = name) then value else stored row' name
  end.

(** An entry of a SELECT list. *)
Inductive Expr :=
| Col (name : string)
| Float8 (name : string)
| AsText (name : string)
| IsoUtc (name : string).
Definition quote : string := String "034" "".
Definition isoUtc (column : string) : string :=
  "to_char(" +:+ column +:+ " AT TIME ZONE 'UTC', 'YYYY-MM-DD" +:+ quote +:+ "T" +:+ quote +:+ "HH24:MI:SS.MS" +:+
  quote +:+ "Z" +:+ quote +:+ "') AS " +:+ column.
Definition expr_name (e : Expr) : string := match e with Col n | Float8 n | AsText n | IsoUtc n => n end.
Definition expr_text (e : Expr) : string :=
  match e with
  | Col n => n
  | Float8 n => n +:+ "::float8 AS " +:+ n
  | AsText n => n +:+ "::text AS " +:+ n
  | IsoUtc n => isoUtc n
  end.
Definition select_text (l : list Expr) : string := String.concat ", " (map expr_text l).

Definition kItemColumns : string :=
  "id, receipt_id, name, quantity::float8 AS quantity, unit_price_cents, amount_cents, category_id, informational".
Definition item_list : list Expr :=
  [Col "id"; Col "receipt_id"; Col "name"; Float8 "quantity"; Col "unit_price_cents"; Col "amount_cents"; Col "category_id";
   Col "informational"].

Definition receiptSelect : string :=
  "SELECT id, store_name_raw, merchant, purchase_date::text AS purchase_date, total_cents, direction, currency, " +:+
  "kind, scan_state, tax_deductible, note, source, payment_method_id, offsets_receipt_id, " +:+
  "fx_rate_to_aud::float8 AS fx_rate_to_aud, aud_equivalent_cents, " +:+
  isoUtc "proposed_at" +:+ ", " +:+ isoUtc "reviewed_at" +:+ ", needs_review, is_confirmed, " +:+ isoUtc "created_at" +:+
  ", " +:+ isoUtc "updated_at" +:+ " FROM v_receipt_state".
Definition receipt_list : list Expr :=
  [Col "id"; Col "store_name_raw"; Col "merchant"; AsText "purchase_date"; Col "total_cents"; Col "direction"; Col "currency";
   Col "kind"; Col "scan_state"; Col "tax_deductible"; Col "note"; Col "source"; Col "payment_method_id";
   Col "offsets_receipt_id"; Float8 "fx_rate_to_aud"; Col "aud_equivalent_cents"; IsoUtc "proposed_at"; IsoUtc "reviewed_at";
   Col "needs_review"; Col "is_confirmed"; IsoUtc "created_at"; IsoUtc "updated_at"].

(** The list of the query in [updateReceipt]. *)
Definition editable_select : string :=
  "SELECT kind, direction, total_cents, currency, merchant, store_name_raw, purchase_date::text AS purchase_date, " +:+
  "payment_method_id, tax_deductible, note, offsets_receipt_id, fx_rate_to_aud::float8 AS fx_rate_to_aud " +:+
  "FROM receipts WHERE id = $1 AND user_id = $2 FOR UPDATE".
Definition editable_list : list Expr :=
  [Col "kind"; Col "direction"; Col "total_cents"; Col "currency"; Col "merchant"; Col "store_name_raw"; AsText "purchase_date";
   Col "payment_method_id"; Col "tax_deductible"; Col "note"; Col "offsets_receipt_id"; Float8 "fx_rate_to_aud"].

(** The lists say what the queries' texts say. *)
Lemma item_list_text : select_text item_list = kItemColumns.
Proof. reflexivity. Qed.
Lemma receipt_list_text : "SELECT " +:+ select_text receipt_list +:+ " FROM v_receipt_state" = receiptSelect.
Proof. reflexivity. Qed.
Lemma editable_list_text :
  "SELECT " +:+ select_text editable_list +:+ " FROM receipts WHERE id = $1 AND user_id = $2 FOR UPDATE" = editable_select.
Proof. reflexivity. Qed.

(** ** Tables *)

Definition item_stored (id : Z) (r : item_row) : Stored :=
  [("id", Some (VInt id)); ("receipt_id", Some (VInt (it_receipt_id r))); ("name", VText <$> it_name r);
   ("quantity", VFloat <$> it_quantity r); ("unit_price_cents", VInt <$> it_unit_price_cents r);
   ("amount_cents", Some (VInt (it_amount_cents r))); ("category_id", VInt <$> it_category_id r);
   ("informational", Some (VBool (it_informational r)))].
(** A row of v_receipt_state: every column of receipts that is read, and the two
    derived ones. *)
Definition receipt_stored (id : Z) (r : receipt_row) : Stored :=
  let f := rc_fields r in
  [("id", Some (VInt id)); ("user_id", Some (VInt (rc_user_id r))); ("store_name_raw", VText <$> er_storeNameRaw f);
   ("merchant", VText <$> er_merchant f); ("purchase_date", VText <$> er_purchaseDate f);
   ("total_cents", Some (VInt (er_totalCents f))); ("direction", Some (VText (er_direction f)));
   ("currency", Some (VText (er_currency f))); ("fx_rate_to_aud", VFloat <$> er_fxRateToAud f);
   ("aud_equivalent_cents", VInt <$> rc_aud_equivalent_cents r); ("kind", Some (VText (er_kind f)));
   ("scan_state", Some (VText (rc_scan_state r))); ("proposed_at", VTime <$> rc_proposed_at r);
   ("reviewed_at", VTime <$> rc_reviewed_at r); ("payment_method_id", VInt <$> er_paymentMethodId f);
   ("tax_deductible", Some (VBool (er_taxDeductible f))); ("note", VText <$> er_note f); ("source", Some (VText (rc_source r)));
   ("offsets_receipt_id", VInt <$> er_offsetsReceiptId f); ("created_at", Some (VTime (rc_created_at r)));
   ("updated_at", Some (VTime (rc_updated_at r)));
   ("needs_review", Some (VBool (needs_review (rc_proposed_at r) (rc_reviewed_at r))));
   ("is_confirmed", Some (VBool (is_confirmed (rc_proposed_at r) (rc_reviewed_at r))))].
Definition category_stored (id : Z) (r : category_row) : Stored :=
  [("id", Some (VInt id)); ("user_id", Some (VInt (c_user_id r))); ("name", Some (VText (c_name r)));
   ("is_income", Some (VBool (c_is_income r)))].
Definition tag_stored (id : Z) (r : tag_row) : Stored :=
  [("id", Some (VInt id)); ("user_id", Some (VInt (t_user_id r))); ("name", Some (VText (t_name r)))].
Definition payment_method_stored (id : Z) (r : payment_method_row) : Stored :=
  [("id", Some (VInt id)); ("user_id", Some (VInt (p_user_id r))); ("name", Some (VText (p_name r)));
   ("stored_value", Some (VBool (p_stored_value r)))].
Definition category_list : list Expr := [Col "id"; Col "name"; Col "is_income"].
Definition tag_list : list Expr := [Col "id"; Col "name"].
Definition payment_method_list : list Expr := [Col "id"; Col "name"; Col "stored_value"].

Section Rows.
Context `{PG : Postgres} `{RT : RowText}.

Definition value_text (v : Value) : string :=
  match v with
  | VInt z => int_text z
  | VFloat d => float_text d
  | VText s => s
  | VBool b => bool_text b
  | VTime t => pg_ts_out t
  end.
(** What is sent for an entry of the list. *)
Definition evaluate (row : Stored) (e : Expr) : option string :=
  match e, stored row (expr_name e) with
  | IsoUtc _, Some (VTime t) => Some (pg_iso_utc t)
  | _, Some v => Some (value_text v)
  | _, None => None
  end.
Definition select_row (l : list Expr) (row : Stored) : Row := map (fun e => (expr_name e, evaluate row e)) l.

(** ** Readers *)

Definition optString (row : Row) (field : string) : outcome (option string) :=
  (let* v := column row field in Ok (match v with None => None | Some _ => Some (as_string v) end))%outcome.
Definition optInt (row : Row) (field : string) : outcome (option Z) :=
  (let* v := column row field in Ok (match v with None => None | Some _ => Some (as_int64 v) end))%outcome.
Definition optDouble (row : Row) (field : string) : outcome (option double) :=
  (let* v := column row field in Ok (match v with None => None | Some _ => Some (as_double v) end))%outcome.
(** [row[field].as<T>()]. *)
Definition int (row : Row) (field : string) : outcome Z := (let* v := column row field in Ok (as_int64 v))%outcome.
Definition text (row : Row) (field : string) : outcome string := (let* v := column row field in Ok (as_string v))%outcome.
Definition flag (row : Row) (field : string) : outcome bool := (let* v := column row field in Ok (as_bool v))%outcome.

Definition rowToItem (row : Row) : outcome Item :=
  (let* id := int row "id" in
   let* receipt_id := int row "receipt_id" in
   let* name := optString row "name" in
   let* quantity := optDouble row "quantity" in
   let* unit_price_cents := optInt row "unit_price_cents" in
   let* amount_cents := int row "amount_cents" in
   let* category_id := optInt row "category_id" in
   let* informational := flag row "informational" in
   Ok (mkItem id (mkItemRow receipt_id name quantity unit_price_cents amount_cents category_id informational) []))%outcome.

Definition rowToSummary (row : Row) : outcome ReceiptSummary :=
  (let* id := int row "id" in
   let* storeNameRaw := optString row "store_name_raw" in
   let* merchant := optString row "merchant" in
   let* purchaseDate := optString row "purchase_date" in
   let* totalCents := int row "total_cents" in
   let* direction := text row "direction" in
   let* currency := text row "currency" in
   let* kind := text row "kind" in
   let* scanState := text row "scan_state" in
   let* taxDeductible := flag row "tax_deductible" in
   let* note := optString row "note" in
   let* source := text row "source" in
   let* paymentMethodId := optInt row "payment_method_id" in
   let* offsetsReceiptId := optInt row "offsets_receipt_id" in
   let* fxRateToAud := optDouble row "fx_rate_to_aud" in
   let* audEquivalentCents := optInt row "aud_equivalent_cents" in
   let* proposedAt := optString row "proposed_at" in
   let* reviewedAt := optString row "reviewed_at" in
   let* needsReview := flag row "needs_review" in
   let* isConfirmed := flag row "is_confirmed" in
   let* createdAt := text row "created_at" in
   let* updatedAt := text row "updated_at" in
   Ok (mkSummary id storeNameRaw merchant purchaseDate totalCents direction currency kind scanState taxDeductible note source
         paymentMethodId offsetsReceiptId fxRateToAud audEquivalentCents proposedAt reviewedAt needsReview isConfirmed
         createdAt updatedAt))%outcome.

Definition rowToEditable (row : Row) : outcome EditableReceipt :=
  (let* kind := text row "kind" in
   let* direction := text row "direction" in
   let* totalCents := int row "total_cents" in
   let* currency := text row "currency" in
   let* merchant := optString row "merchant" in
   let* storeNameRaw := optString row "store_name_raw" in
   let* purchaseDate := optString row "purchase_date" in
   let* paymentMethodId := optInt row "payment_method_id" in
   let* taxDeductible := flag row "tax_deductible" in
   let* note := optString row "note" in
   let* offsetsReceiptId := optInt row "offsets_receipt_id" in
   let* fxRateToAud := optDouble row "fx_rate_to_aud" in
   Ok (mkEditable kind direction totalCents currency merchant storeNameRaw purchaseDate paymentMethodId taxDeductible note
         offsetsReceiptId fxRateToAud))%outcome.

Definition rowToCategory (row : Row) : outcome Category :=
  (let* id := int row "id" in let* name := text row "name" in let* is_income := flag row "is_income" in
   Ok (mkCategoryDto id name is_income))%outcome.
Definition rowToTag (row : Row) : outcome Tag :=
  (let* id := int row "id" in let* name := text row "name" in Ok (mkTagDto id name))%outcome.
Definition rowToPaymentMethod (row : Row) : outcome PaymentMethod :=
  (let* id := int row "id" in let* name := text row "name" in let* stored_value := flag row "stored_value" in
   Ok (mkPaymentMethodDto id name stored_value))%outcome.
End Rows.
