(* ===== verification/Views.v ===== *)
(** * The views of the ledger

    The views at the end of src/db/migrations/20260906000000_initial_schema.sql, which
    say what counts as spend and as income: v_receipt_state adds the two derived columns
    ([needs_review] and [is_confirmed] of file ReceiptService) to every receipt; the
    others select from it, per receipt and per item. *)
From S2P Require Import Prelude CString Binary64 Json Kinds JsonInput LedgerInput TokenUtils Env Db World.
From S2P Require Import ItemService ReceiptService.
#[local] Open Scope string_scope.

(** The column is_confirmed of v_receipt_state. *)
Definition confirmed (r : receipt_row) : bool := is_confirmed (rc_proposed_at r) (rc_reviewed_at r).
Definition kind_of (r : receipt_row) : string := er_kind (rc_fields r).

(** ** Receipts *)

Definition spend_sign (kind : string) : Z := if bool_decide (kind = "purchase") then 1 else -1.
Definition signed_spend_cents (r : receipt_row) : Z := er_totalCents (rc_fields r) * spend_sign (kind_of r).
(** [COALESCE(pm.stored_value, false)] of the LEFT JOIN. *)
Definition stored_value (r : receipt_row) (d : Db) : bool :=
  match er_paymentMethodId (rc_fields r) with
  | Some id => match rows (payment_methods d) !! id with Some p => p_stored_value p | None => false end
  | None => false
  end.
Definition countable (d : Db) (r : receipt_row) : bool :=
  confirmed r && bool_decide (kind_of r ∈ ["purchase"; "refund"; "reimbursement"]) &&
  negb (bool_decide (kind_of r = "purchase") && stored_value r d).
Definition v_countable_spend (d : Db) : list (Z * receipt_row) := select (countable d) (receipts d).
Definition earned (r : receipt_row) : bool := confirmed r && bool_decide (kind_of r = "income").
Definition v_income (d : Db) : list (Z * receipt_row) := select earned (receipts d).

(** ** Items *)

Record SpendItem := mkSpendItem {
  vs_item_id : Z; vs_receipt_id : Z; vs_category_id : option Z; vs_amount_cents : Z; vs_signed_amount_cents : Z;
  vs_user_id : Z; vs_currency : string; vs_purchase_date : option string; vs_kind : string }.
Record IncomeItem := mkIncomeItem {
  vn_item_id : Z; vn_receipt_id : Z; vn_category_id : option Z; vn_amount_cents : Z;
  vn_user_id : Z; vn_currency : string; vn_purchase_date : option string }.

(** The receipt an item joins, if that satisfies the view's condition and the item is
    not informational. *)
Definition joined_receipt (p : receipt_row -> bool) (i : item_row) (d : Db) : option receipt_row :=
  match rows (receipts d) !! it_receipt_id i with
  | Some r => if p r && negb (it_informational i) then Some r else None
  | None => None
  end.
Definition v_countable_spend_items (d : Db) : list SpendItem :=
  omap (fun kv =>
    (fun r => mkSpendItem kv.1 (it_receipt_id kv.2) (it_category_id kv.2) (it_amount_cents kv.2)
       (it_amount_cents kv.2 * spend_sign (kind_of r)) (rc_user_id r) (er_currency (rc_fields r))
       (er_purchaseDate (rc_fields r)) (kind_of r)) <$> joined_receipt (countable d) kv.2 d)
    (map_to_list (rows (items d))).
Definition v_income_items (d : Db) : list IncomeItem :=
  omap (fun kv =>
    (fun r => mkIncomeItem kv.1 (it_receipt_id kv.2) (it_category_id kv.2) (it_amount_cents kv.2) (rc_user_id r)
       (er_currency (rc_fields r)) (er_purchaseDate (rc_fields r))) <$> joined_receipt earned kv.2 d)
    (map_to_list (rows (items d))).
