(* ===== verification/ScanWorker.v ===== *)
(** * The scan pipeline

    src/src/scan/ScanWorker.h and ScanWorker.cpp, with the interfaces
    src/src/scan/ScanProvider.h, MerchantMatcher.h and src/src/notify/Notifier.h
    as classes.  A method runs over a [World]; [compare] and [write_attempt] are
    the two halves of the body of [applyResult]'s loop, between which other
    requests may run. *)
From stdpp Require Import sorting.
From S2P Require Import Prelude CString Binary64 Json Kinds Calendar JsonInput LedgerInput TokenUtils Env Db.
From S2P Require Import World ItemService ReceiptService.

(** ** Interfaces *)

Record ScanContext := mkScanContext {
  sc_knownKind : option string;
  sc_expenseCategories : list string;
  sc_incomeCategories : list string;
  sc_tags : list string
}.
#[export] Instance eta_ScanContext : Eta ScanContext := fun c =>
  mkScanContext (sc_knownKind c) (sc_expenseCategories c) (sc_incomeCategories c) (sc_tags c).
Record ScannedItem := mkScannedItem {
  si_name : option string;
  si_quantity : option double;
  si_unitPriceCents : option Z;
  si_amountCents : Z;
  si_category : option string;
  si_informational : bool;
  si_tags : list string
}.
Record ScanResult := mkScanResult {
  sr_kind : string;
  sr_currency : string;
  sr_totalCents : Z;
  sr_merchant : option string;
  sr_storeNameRaw : option string;
  sr_purchaseDate : option string;
  sr_items : list ScannedItem;
  sr_raw : json
}.
#[export] Instance eta_ScanResult : Eta ScanResult := fun r =>
  mkScanResult (sr_kind r) (sr_currency r) (sr_totalCents r) (sr_merchant r) (sr_storeNameRaw r)
    (sr_purchaseDate r) (sr_items r) (sr_raw r).

(** A provider is a service on the network: what it answers to the [n]-th call need
    not be what it answered before. *)
Class ScanProvider := scanReceipt : nat -> list string -> ScanContext -> outcome ScanResult.
Class MerchantMatcher := similarity : string -> string -> outcome double.
Class Notifier := notify : Z -> string -> json -> outcome unit.
Definition PgTrgmMerchantMatcher `{Postgres} : MerchantMatcher := fun a b => Ok (pg_similarity a b).
Definition NoopNotifier : Notifier := fun _ _ _ => Ok ().

Record ScanWorkerConfig := mkConfig {
  concurrency : Z;
  maxScanAttempts : Z;
  maxReclaims : Z;
  reclaimAfterSeconds : Z;
  matchDateDays : Z;
  merchantMatchThreshold : double
}.
(** The member initialisers; [0.3] is the double nearest to 3/10. *)
Definition default_config : ScanWorkerConfig := mkConfig 2 3 10 600 3 (ddiv (of_int 3) (of_int 10)).

Record Claim := mkClaim { cl_receiptId : Z; cl_userId : Z; cl_claimedAt : string }.

(** ** Local data *)

Record CategoryRef := mkCategoryRef { cr_id : Z; cr_name : string; cr_isIncome : bool }.
Record TagRef := mkTagRef { tr_id : Z; tr_name : string }.
Record Taxonomy := mkTaxonomy { tx_categories : list CategoryRef; tx_tags : list TagRef }.
Record Snapshot := mkSnapshot {
  sn_reviewed : bool;
  sn_kind : string;
  sn_totalCents : Z;
  sn_currency : string;
  sn_merchant : option string;
  sn_purchaseDate : option string;
  sn_taxDeductible : bool;
  sn_offsetsReceiptId : option Z;
  sn_updatedAt : string;
  sn_itemCount : Z
}.

Definition lower (s : string) : string := map_chars tolower s.

(** [parse] inside [daysBetween]; a month out of range leaves the conversion to
    [sys_days] unspecified. *)
Definition parse_date (s : string) : outcome Z :=
  (let* y := stoi (substr 0 4 s) in
   let* m := stoi (substr 5 2 s) in
   let* d := stoi (substr 8 2 s) in
   let t := ymd_of_ints y m d in
   if (1 <=? month t) && (month t <=? 12) then Ok (sys_days t) else UB "sys_days of an invalid month")%outcome.
Definition daysBetween (from to : string) : outcome Z :=
  (let* b := parse_date to in
   let* a := parse_date from in
   Ok (b - a))%outcome.

(** [try ... catch (const ValidationError &e) { throw ScanError("provider returned " + e.what()); }]. *)
Definition as_scan_error {A} (m : outcome A) : outcome A :=
  match m with
  | Throw (ValidationError w) => Throw (ScanError ("provider returned " +:+ w))
  | m => m
  end.
Definition bad_item (item : ScannedItem) : bool :=
  (si_amountCents item <? 0) ||
  match si_unitPriceCents item with Some p => p <? 0 | None => false end ||
  match si_quantity item with Some q => negb (dltb dzero q) | None => false end.
Definition unusable_kind (kind : string) : bool :=
  match findKind kind with Some rules => negb (scannable rules) | None => true end.
Definition validateResult (result : ScanResult) (verifying : bool) : outcome ScanResult :=
  if negb verifying && unusable_kind (sr_kind result)
  then Throw (ScanError ("provider returned an unusable kind: " +:+ sr_kind result)) else
  if sr_totalCents result <? 0 then Throw (ScanError "provider returned a negative total") else
  if existsb bad_item (sr_items result)
  then Throw (ScanError "provider returned an item with a negative amount or non-positive quantity") else
  as_scan_error
    (let* c := JsonInput.currency (JString (sr_currency result)) "currency" in
     let result := result <| sr_currency := c |> in
     match sr_purchaseDate result with
     | Some s => date (JString s) "purchase_date" ;;; Ok result
     | None => Ok result
     end)%outcome.

Definition category_matches (side : bool) (name : string) (category : CategoryRef) : bool :=
  eqb (cr_isIncome category) side && bool_decide (lower (cr_name category) = lower name).
Fixpoint find_category (side : bool) (name : string) (categories : list CategoryRef) : option Z :=
  match categories with
  | [] => None
  | c :: categories' => if category_matches side name c then Some (cr_id c) else find_category side name categories'
  end.
(** The two nested loops over tag names and the user's tags. *)
Definition add_tag_id (tagName : string) (ids : list Z) (tag : TagRef) : list Z :=
  if bool_decide (lower (tr_name tag) = lower tagName) && negb (bool_decide (tr_id tag ∈ ids))
  then ids ++ [tr_id tag] else ids.
Definition tag_ids (names : list string) (tags : list TagRef) : list Z :=
  fold_left (fun ids tagName => fold_left (add_tag_id tagName) tags ids) names [].
Definition toItemInput (scanned : ScannedItem) (kind : string) (taxonomy : Taxonomy) : outcome ItemInput :=
  (let* categoryId :=
     match si_category scanned with
     | Some nm =>
         let* rules := rulesFor kind in
         Ok (find_category (usesIncomeCategories rules) nm (tx_categories taxonomy))
     | None => Ok None
     end in
   Ok (mkItemInput (si_name scanned) (si_quantity scanned) (si_unitPriceCents scanned) (si_amountCents scanned)
         categoryId (si_informational scanned) (tag_ids (si_tags scanned) (tx_tags taxonomy))))%outcome.

Definition makeContext (taxonomy : Taxonomy) (knownKind : option string) : ScanContext :=
  mkScanContext knownKind
    (map cr_name (filter (fun c => cr_isIncome c = false) (tx_categories taxonomy)))
    (map cr_name (filter (fun c => cr_isIncome c = true) (tx_categories taxonomy)))
    (map tr_name (tx_tags taxonomy)).

Section ScanWorker.
Context `{PG : Postgres} `{IS : ImageStore} `{SO : Sodium} `{JT : JsonText}.
Context `{SP : ScanProvider} `{MM : MerchantMatcher} `{NO : Notifier}.
Context (config_ : ScanWorkerConfig).

(** ** Reads *)

Definition item_count (receiptId : Z) (d : Db) : Z :=
  Z.of_nat (length (select (fun i => it_receipt_id i =? receiptId) (items d))).
(** [r.id = $1 AND r.scan_state = 'scanning' AND r.scan_started_at = $3::timestamptz]. *)
Definition claimed (claim : Claim) (r : receipt_row) : bool :=
  bool_decide (rc_scan_state r = scan_state.kScanning) &&
  match rc_scan_started_at r with
  | Some t => bool_decide (pg_ts_in (cl_claimedAt claim) = Some t)
  | None => false
  end.
Definition snapshot_of (id : Z) (r : receipt_row) (d : Db) : Snapshot :=
  let f := rc_fields r in
  mkSnapshot (bool_decide (is_Some (rc_reviewed_at r))) (er_kind f) (er_totalCents f) (er_currency f)
    (er_merchant f) (er_purchaseDate f) (er_taxDeductible f) (er_offsetsReceiptId f)
    (pg_ts_out (rc_updated_at r)) (item_count id d).
Definition readSnapshot (claim : Claim) (d : Db) : option Snapshot :=
  match rows (receipts d) !! cl_receiptId claim with
  | Some r => if claimed claim r then Some (snapshot_of (cl_receiptId claim) r d) else None
  | None => None
  end.
Definition loadTaxonomy (userId : Z) (d : Db) : Taxonomy :=
  mkTaxonomy
    (map (fun kv => mkCategoryRef kv.1 (c_name kv.2) (c_is_income kv.2))
       (merge_sort id_le (select (fun c => c_user_id c =? userId) (categories d))))
    (map (fun kv => mkTagRef kv.1 (t_name kv.2))
       (merge_sort id_le (select (fun t => t_user_id t =? userId) (tags d)))).

(** ** Writes *)

Definition insert_scanned (claim : Claim) (kind : string) (taxonomy : Taxonomy) (scanned : ScannedItem) : M () :=
  let! input := lift (toItemInput scanned kind taxonomy) in
  ItemService.insert (cl_userId claim) (cl_receiptId claim) kind input ;!
  mret ().
Definition insertScannedItems (claim : Claim) (kind : string) (scanned : list ScannedItem) (taxonomy : Taxonomy) : M () :=
  for_each (insert_scanned claim kind taxonomy) scanned.

(** [result.raw.dump()] bound as [$n::jsonb]. *)
Definition raw_column (result : ScanResult) : outcome json :=
  (let* text := json_dump (sr_raw result) in
   match pg_jsonb text with
   | Some v => Ok v
   | None => Throw (DbError "ERROR:  invalid input syntax for type json")
   end)%outcome.

Definition extracted_row (result : ScanResult) (direction : string) (date : option string) (raw : json)
    (taxDeductible : bool) (offsets : option Z) (t : Z) (r : receipt_row) : receipt_row :=
  r <| rc_fields ::= fun f =>
         f <| er_kind := sr_kind result |> <| er_direction := direction |>
           <| er_totalCents := sr_totalCents result |> <| er_currency := sr_currency result |>
           <| er_merchant := sr_merchant result |> <| er_storeNameRaw := sr_storeNameRaw result |>
           <| er_purchaseDate := date |> <| er_taxDeductible := taxDeductible |>
           <| er_offsetsReceiptId := offsets |> |>
    <| rc_raw_ocr_json := Some raw |> <| rc_scan_state := scan_state.kIdle |>
    <| rc_scan_started_at := None |> <| rc_proposed_at := Some t |> <| rc_updated_at := t |>.

Definition writeExtraction (claim : Claim) (result : ScanResult) (taxonomy : Taxonomy) (snapshot : Snapshot) : M () :=
  let! rules := lift (rulesFor (sr_kind result)) in
  match canonicalDirection rules with
  | None => lift (UB "dereference of an empty optional")
  | Some direction =>
      let taxDeductible := sn_taxDeductible snapshot && allowsTaxDeductible rules in
      let offsets := if canOffset rules then sn_offsetsReceiptId snapshot else None in
      let! t := now in
      let! raw := lift (raw_column result) in
      let! date := lift (sql_date (sr_purchaseDate result)) in
      exec_ (sql_update_receipt (cl_receiptId claim)
               (extracted_row result direction date raw taxDeductible offsets t)) ;!
      exec_ (fun d => Ok (delete_items_of (cl_receiptId claim) d)) ;!
      insertScannedItems claim (sr_kind result) (sr_items result) taxonomy
  end.

Definition coalesce {A} (a b : option A) : option A := match a with Some _ => a | None => b end.
Definition verified_row (result : ScanResult) (date : option string) (raw : json) (allMatch : bool) (t : Z)
    (r : receipt_row) : receipt_row :=
  r <| rc_fields ::= fun f =>
         f <| er_merchant ::= fun m => coalesce m (sr_merchant result) |>
           <| er_storeNameRaw ::= fun m => coalesce m (sr_storeNameRaw result) |>
           <| er_purchaseDate ::= fun m => coalesce m date |> |>
    <| rc_raw_ocr_json := Some raw |> <| rc_scan_state := scan_state.kIdle |>
    <| rc_scan_started_at := None |> <| rc_proposed_at := Some t |>
    <| rc_reviewed_at ::= fun old => if allMatch then Some t else old |> <| rc_updated_at := t |>.

Definition writeVerify (claim : Claim) (result : ScanResult) (taxonomy : Taxonomy) (snapshot : Snapshot)
    (allMatch : bool) : M () :=
  let! t := now in
  let! raw := lift (raw_column result) in
  let! date := lift (sql_date (sr_purchaseDate result)) in
  exec_ (sql_update_receipt (cl_receiptId claim) (verified_row result date raw allMatch t)) ;!
  (if sn_itemCount snapshot =? 0
   then insertScannedItems claim (sn_kind snapshot) (sr_items result) taxonomy
   else mret ()).

(** The comparison of verify mode, on the snapshot taken before the write. *)
Definition dates_match (before : Snapshot) (result : ScanResult) : outcome bool :=
  match sn_purchaseDate before, sr_purchaseDate result with
  | Some a, Some b =>
      (let* days := daysBetween a b in Ok (negb (matchDateDays config_ <? Z.abs days)))%outcome
  | _, _ => Ok true
  end.
Definition merchants_match (before : Snapshot) (result : ScanResult) : outcome bool :=
  match sn_merchant before, sr_merchant result, sr_storeNameRaw result with
  | None, _, _ => Ok true
  | Some _, None, None => Ok true
  | Some m, merchant, store =>
      (let* s := match merchant with Some x => similarity m x | None => Ok dzero end in
       let* s := match store with
                 | Some x =>
                     if dltb s (merchantMatchThreshold config_)
                     then let* storeSimilarity := similarity m x in Ok (dmax s storeSimilarity)
                     else Ok s
                 | None => Ok s
                 end in
       Ok (negb (dltb s (merchantMatchThreshold config_))))%outcome
  end.
Definition compare (before : Snapshot) (result : ScanResult) : outcome bool :=
  if sn_reviewed before then
    (let* dates := dates_match before result in
     let* merchants := merchants_match before result in
     Ok ((sr_totalCents result =? sn_totalCents before) && bool_decide (sr_currency result = sn_currency before) &&
         dates && merchants))%outcome
  else Ok true.

(** The write transaction: whether the loop is done. *)
Definition unchanged (before locked : Snapshot) : bool :=
  bool_decide (sn_updatedAt locked = sn_updatedAt before) && eqb (sn_reviewed locked) (sn_reviewed before) &&
  (sn_itemCount locked =? sn_itemCount before).
Definition write_attempt (claim : Claim) (result : ScanResult) (taxonomy : Taxonomy) (before : Snapshot)
    (allMatch : bool) : M bool :=
  transactionE (
    let! locked := query (readSnapshot claim) in
    match locked with
    | None => mret (Rollback true)
    | Some l =>
        if unchanged before l then
          (if sn_reviewed l then writeVerify claim result taxonomy l allMatch
           else writeExtraction claim result taxonomy l) ;!
          mret (Commit true)
        else mret (Rollback false)
    end).

(** The loop, with [attempts] iterations left (the code starts with two). *)
Fixpoint apply_loop (claim : Claim) (result : ScanResult) (taxonomy : Taxonomy) (attempts : nat) : M () :=
  match attempts with
  | O => mthrow (RuntimeError "receipt kept changing while its scan result was being written")
  | S attempts' =>
      let! before := query (readSnapshot claim) in
      match before with
      | None => mret ()
      | Some b =>
          let! allMatch := lift (compare b result) in
          let! done := write_attempt claim result taxonomy b allMatch in
          if (done : bool) then mret () else apply_loop claim result taxonomy attempts'
      end
  end.
Definition applyResult (claim : Claim) (result : ScanResult) : M () :=
  let! taxonomy := query (loadTaxonomy (cl_userId claim)) in
  apply_loop claim result taxonomy 2.

(** ** Queue *)

Definition notifyScanFailed (userId receiptId : Z) (reason : string) : M () := fun w =>
  let payload := JObject [("reason", JString reason); ("receipt_id", JInteger receiptId)]%string in
  let w' := w <| w_notes ::= fun notes => notes ++ [(userId, "scan_failed"%string, payload)] |> in
  match notify userId "scan_failed" payload with
  | UB u => (UB u, w')
  | _ => (Ok (), w')
  end.

(** [scan_state] after spending one unit of a budget. *)
Definition spent_state (count cap : Z) : string :=
  if cap <=? count + 1 then scan_state.kScanFailed else scan_state.kUploaded.
Definition stuck (t : Z) (r : receipt_row) : bool :=
  bool_decide (rc_scan_state r = scan_state.kScanning) &&
  match rc_scan_started_at r with
  | Some s => s <? t - reclaimAfterSeconds config_ * 1000000
  | None => false
  end.
Definition reclaimed_row (r : receipt_row) : receipt_row :=
  r <| rc_scan_state := spent_state (rc_reclaim_count r) (maxReclaims config_) |>
    <| rc_reclaim_count ::= fun n => n + 1 |> <| rc_scan_started_at := None |>.
(** The UPDATE ... RETURNING of [reclaimStuck]. *)
Definition sql_reclaim (t : Z) (d : Db) : outcome (list (Z * receipt_row) * Db) :=
  Ok (map (fun kv => (kv.1, reclaimed_row kv.2)) (select (stuck t) (receipts d)),
      d <| receipts ::= map_rows (fun _ r => Some (if stuck t r then reclaimed_row r else r)) |>).
Definition reclaimStuck : M () :=
  let! t := now in
  let! rows := exec (sql_reclaim t) in
  for_each (fun kv =>
    if bool_decide (rc_scan_state kv.2 = scan_state.kScanFailed)
    then notifyScanFailed (rc_user_id kv.2) kv.1 "the scan kept timing out"
    else mret ()) rows.

Definition queue_le (a b : Z * receipt_row) : Prop :=
  rc_created_at a.2 < rc_created_at b.2 \/ (rc_created_at a.2 = rc_created_at b.2 /\ a.1 <= b.1).
#[local] Instance queue_le_dec : RelDecision queue_le.
Proof. intros a b. unfold queue_le. apply _. Defined.
Definition in_state (s : string) (r : receipt_row) : bool := bool_decide (rc_scan_state r = s).
(** The rows the subquery of [claim] selects. *)
Definition claimable (d : Db) : list (Z * receipt_row) :=
  take (Z.to_nat (Z.max (concurrency config_ - Z.of_nat (length (select (in_state scan_state.kScanning) (receipts d)))) 0))
    (merge_sort queue_le (select (in_state scan_state.kUploaded) (receipts d))).
Definition claimed_row (t : Z) (r : receipt_row) : receipt_row :=
  r <| rc_scan_state := scan_state.kScanning |> <| rc_scan_started_at := Some t |>.
(** The UPDATE ... RETURNING of [claim], each row with its own reading of the clock. *)
Definition sql_claim (t : Z) (d : Db) : outcome (list Claim * Db) :=
  let ids := map fst (claimable d) in
  Ok (map (fun kv => mkClaim kv.1 (rc_user_id kv.2) (pg_ts_out (pg_clock_timestamp t kv.1))) (claimable d),
      d <| receipts ::= map_rows (fun id r => Some (if bool_decide (id ∈ ids) then claimed_row (pg_clock_timestamp t id) r else r)) |>).
Definition claim : M (list Claim) :=
  let! t := now in exec (sql_claim t).

(** ** One claimed receipt *)

Definition failed_row (scanError : bool) (cap : Z) (r : receipt_row) : receipt_row :=
  if scanError
  then r <| rc_scan_state := spent_state (rc_scan_attempts r) cap |>
         <| rc_scan_attempts ::= fun n => n + 1 |> <| rc_scan_started_at := None |>
  else r <| rc_scan_state := spent_state (rc_reclaim_count r) cap |>
         <| rc_reclaim_count ::= fun n => n + 1 |> <| rc_scan_started_at := None |>.
Definition sql_fail (claim : Claim) (scanError : bool) (cap : Z) (d : Db) : outcome (option string * Db) :=
  match rows (receipts d) !! cl_receiptId claim with
  | Some r =>
      if claimed claim r then
        let r' := failed_row scanError cap r in
        Ok (Some (rc_scan_state r'), d <| receipts ::= update_row (cl_receiptId claim) r' |>)
      else Ok (None, d)
  | None => Ok (None, d)
  end.
Definition recordFailure (claim : Claim) (scanError terminal : bool) (error : string) : M () :=
  let cap := if terminal then 0 else if scanError then maxScanAttempts config_ else maxReclaims config_ in
  let! state := exec (sql_fail claim scanError cap) in
  if bool_decide (state = Some scan_state.kScanFailed)
  then notifyScanFailed (cl_userId claim) (cl_receiptId claim) error
  else mret ().

Definition image_queue_le (a b : Z * image_row) : Prop :=
  im_created_at a.2 < im_created_at b.2 \/ (im_created_at a.2 = im_created_at b.2 /\ a.1 <= b.1).
#[local] Instance image_queue_le_dec : RelDecision image_queue_le.
Proof. intros a b. unfold image_queue_le. apply _. Defined.
Definition scan_keys (receiptId : Z) (d : Db) : list string :=
  map (fun kv => im_image_key kv.2)
    (merge_sort image_queue_le (select (fun i => im_receipt_id i =? receiptId) (receipt_images d))).
Fixpoint fetch_images (keys : list string) : M (list string) :=
  match keys with
  | [] => mret []
  | key :: keys' =>
      let! bytes := store_get key in
      let! images := fetch_images keys' in
      mret (bytes :: images)
  end.

(** The part of [process]'s [try] block up to the validated result; [None] when
    the receipt has no images. *)
Definition scan_images (claim : Claim) (s : Snapshot) : M (option ScanResult) :=
  let! keys := query (scan_keys (cl_receiptId claim)) in
  if bool_decide (keys = []) then mret None else
  let! images := fetch_images keys in
  let! taxonomy := query (loadTaxonomy (cl_userId claim)) in
  let knownKind := if sn_reviewed s then Some (sn_kind s) else None in
  let! call := next_call in
  let! result := lift (scanReceipt call images (makeContext taxonomy knownKind)) in
  let! result := lift (validateResult result (sn_reviewed s)) in
  mret (Some result).
(** The [try] block of [process]; [true] when it threw the terminal ScanError. *)
Definition scan_body (claim : Claim) : M bool :=
  let! snapshot := query (readSnapshot claim) in
  match snapshot with
  | None => mret false
  | Some s =>
      let! scanned := scan_images claim s in
      match scanned with
      | None => mret true
      | Some result => applyResult claim result ;! mret false
      end
  end.
(** The arguments of [recordFailure] in each catch clause. *)
Definition failure_of (e : exn) : bool * string :=
  match e with
  | ScanError m => (true, m)
  | e => (false, what e)
  end.
Definition process (claim : Claim) : M () := fun w =>
  let record scanError terminal error w' :=
    match recordFailure claim scanError terminal error w' with
    | (Throw _, w'') => (Ok (), w'')
    | r => r
    end in
  match scan_body claim w with
  | (Ok false, w') => (Ok (), w')
  | (Ok true, w') => record true true "receipt has no images"%string w'
  | (Throw e, w') => record (failure_of e).1 false (failure_of e).2 w'
  | (UB u, w') => (UB u, w')
  end.

(** The scans of one tick, one after another: their interleavings are in Pipeline.v. *)
Definition tick : M Z := fun w =>
  match mbind (fun _ => claim) reclaimStuck w with
  | (Ok claims, w') =>
      match for_each process claims w' with
      | (UB u, w'') => (UB u, w'')
      | (_, w'') => (Ok (Z.of_nat (length claims)), w'')
      end
  | (Throw _, w') => (Ok 0, w')
  | (UB u, w') => (UB u, w')
  end.

End ScanWorker.
