(* ===== verification/Anthropic.v ===== *)
(** * The model-service scan provider

    src/src/scan/AnthropicScanProvider.h and AnthropicScanProvider.cpp: the prompt,
    the request with its output schema, the reading of a reply, the retries and the
    second scan.  The network is the class [HttpClient] of Sigv4Signer.v; waiting and
    base64 are Drogon's.  Where the code lets an exception of the JSON library
    through, its text is abbreviated. *)
From Stdlib Require Import Ascii.
From S2P Require Import Prelude CString Binary64 Strtod Json Kinds Calendar JsonInput LedgerInput TokenUtils Env Db.
From S2P Require Import Sigv4Signer World ItemService ReceiptService ScanWorker.

(** ** The system prompt *)

Definition kApiVersion : string := "2026-10-21".

(** The loop of [kindNamesFor]. *)
Definition kindNamesFor (incomeCategories : bool) : string :=
  fold_left (join_step "" ", ")
    (map name (filter (fun r => scannable r && eqb (usesIncomeCategories r) incomeCategories) kKinds)) ""%string.

(** What one scannable kind adds to [kinds], [totals] and [extraRules]. *)
Definition kind_line (r : KindRules) : string := "- " +:+ name r +:+ ": " +:+ scanDocuments r +:+ "." +:+ Kinds.nl.
Definition total_line (r : KindRules) : string := " For " +:+ name r +:+ ", " +:+ scanTotal r +:+ ".".
Definition rules_line (r : KindRules) : string :=
  if empty (scanRules r) then ""%string
  else Kinds.nl +:+ "For " +:+ name r +:+ ":" +:+ Kinds.nl +:+ "- " +:+ scanRules r +:+ Kinds.nl.
Definition concat_map (f : KindRules -> string) (l : list KindRules) : string :=
  fold_left (fun acc r => acc +:+ f r) l ""%string.
Definition scannable_kinds : list KindRules := filter (fun r => scannable r) kKinds.

(** Text in double quotes. *)
Definition quoted (s : string) : string := dq +:+ s +:+ dq.
(** Lines, each ended by a line feed. *)
Definition lines (l : list string) : string := fold_right (fun s acc => s +:+ Kinds.nl +:+ acc) ""%string l.

Definition prompt_intro : string := lines [
  "You extract structured data from photos of financial documents for a personal spending and income ledger.";
  "";
  "The user message contains one or more images followed by instructions. All the images belong to ONE transaction: for example two overlapping photos of one long receipt, or a receipt plus a screenshot of an email correcting it. Return one result for the transaction.";
  "";
  "Several images:";
  "- They may overlap. Count each line item once.";
  "- If they conflict, prefer the clearer reading, and prefer a later correction over the figure it corrects.";
  "";
  "Transaction kind, when you are asked to classify it, by the type of document shown:"]%string.
Definition prompt_fields : string :=
  Kinds.nl +:+ "Fields:" +:+ Kinds.nl +:+
  "- total: the amount that actually changed hands, as a positive number in the main currency unit, exactly as printed (23.50, not 2350).".
Definition prompt_more_fields : string :=
  Kinds.nl +:+ lines [
  "- subtotal: the printed subtotal (the lines' sum, before whole-transaction discounts, surcharges and tips), as printed. Null if no subtotal is printed.";
  "- currency: the ISO 4217 code shown by the symbol, text, address or country (e.g. " +:+ quoted "$" +:+ " on an Australian receipt is AUD, " +:+ quoted "¥" +:+ " in Japan is JPY). Use AUD only when the documents give no signal.";
  "- merchant: the short brand name a person would use for the business, e.g. " +:+ quoted "Woolworths" +:+ ", " +:+ quoted "Bunnings" +:+ ", " +:+ quoted "McDonald's" +:+ ", not the legal entity or branch.";
  "- store_name_raw: the business name exactly as printed at the top, including any branch or store number, e.g. " +:+ quoted "WOOLWORTHS METRO 1234 SYDNEY" +:+ ". Null if no name is printed.";
  "- purchase_date: the transaction date as YYYY-MM-DD. Read ambiguous numeric dates day-first (03/04/2026 is 3 April 2026) unless the document is from a country that writes month-first. Null if no date is printed.";
  "- unreadable_reason: null normally. If the images don't show one of the document types above, or the total cannot be read (too blurry, cut off), a short reason; still fill in what you can.";
  "";
  "Items (the transaction's lines):";
  "- amount: the line's total as a positive number, as printed.";
  "- quantity and unit_price: the numbers printed for the line, or null when the line doesn't print them.";
  "- The same product on several lines at the same price is one item, with the combined quantity and amount.";
  "- Check that the item amounts add up to the subtotal (or the total, if no subtotal is printed). If they don't, re-read them: printed amounts are not always on the same line as their item.";
  "- A discount on one line reduces that line's amount. Do not add items for whole-transaction discounts, loyalty savings, rounding, subtotal, tax/GST, total, payment or change lines.";
  "- A surcharge, service fee, delivery fee or tip is an item, with the category of what it was charged on (if that spans several categories, the one with the largest amount)."]%string.
Definition systemPrompt : string :=
  prompt_intro +:+ concat_map kind_line scannable_kinds +:+
  prompt_fields +:+ concat_map total_line scannable_kinds +:+
  prompt_more_fields +:+
  "- category: pick from the given categories for the transaction's kind (expense categories for " +:+
  kindNamesFor false +:+ "; income categories for " +:+ kindNamesFor true +:+ "). Null if none fits." +:+ Kinds.nl +:+
  "- tags: only from the given tag list, and only when one clearly applies. Usually empty." +:+ Kinds.nl +:+
  "- informational: false, unless a kind's rules below say otherwise." +:+ Kinds.nl +:+
  concat_map rules_line scannable_kinds +:+
  Kinds.nl +:+ "Never invent values that are not on the documents, apart from the currency default.".

(** ** Images and names *)

(** The eight bytes of the PNG signature. *)
Definition png_signature : string := of_chars (map char_of [137; 80; 78; 71; 13; 10; 26; 10]).
Definition byte_at (i : nat) (s : string) : option Z := byte_of <$> String.get i s.
Definition mediaType (bytes : string) : outcome string :=
  if (12 <=? size bytes) && bool_decide (substr 0 4 bytes = "RIFF"%string) && bool_decide (substr 8 4 bytes = "WEBP"%string)
  then Ok "image/webp"%string
  else if (3 <=? size bytes) && bool_decide (byte_at 0 bytes = Some 255) && bool_decide (byte_at 1 bytes = Some 216)
  then Ok "image/jpeg"%string
  else if (8 <=? size bytes) && bool_decide (substr 0 8 bytes = png_signature) then Ok "image/png"%string
  else if (4 <=? size bytes) && bool_decide (substr 0 4 bytes = "GIF8"%string) then Ok "image/gif"%string
  else Throw (ScanError "image is not WebP, JPEG, PNG or GIF").

(** The body of [uniqueNames]'s inner loop. *)
Definition add_name (out : list string) (name : string) : list string :=
  if forallb (fun seen => negb (bool_decide (lower seen = lower name))) out then out ++ [name] else out.
Definition uniqueNames (lists : list (list string)) : list string :=
  fold_left (fun out l => fold_left add_name l out) lists [].

(** ** The output schema *)

Definition type_of (t : string) : json := obj [("type", JString t)]%string.
Definition names_json (names : list string) : json := JArray (map JString names).
(** [nullable] of this file: a schema, or null. *)
Definition nullable_schema (schema : json) : json := obj [("anyOf", JArray [schema; type_of "null"])]%string.
Definition enum_schema (names : json) : json := obj [("type", JString "string"); ("enum", names)]%string.
Definition enumOrNull (names : list string) : json :=
  if bool_decide (names = []) then type_of "null" else nullable_schema (enum_schema (names_json names)).
Definition objectSchema (properties : json) : json :=
  obj [("type", JString "object"); ("properties", properties);
       ("required", names_json (keys properties)); ("additionalProperties", JBool false)]%string.
Definition arraySchema (items : json) : json := obj [("type", JString "array"); ("items", items)]%string.

Definition categoriesFor (context : ScanContext) : outcome (list string) :=
  match sc_knownKind context with
  | None => Ok (uniqueNames [sc_expenseCategories context; sc_incomeCategories context])
  | Some kind =>
      (let* rules := rulesFor kind in
       Ok (if usesIncomeCategories rules then sc_incomeCategories context else sc_expenseCategories context))%outcome
  end.

Definition itemSchema (context : ScanContext) (categories : list string) : json :=
  objectSchema (obj (
    [("name", nullable_schema (type_of "string")); ("quantity", nullable_schema (type_of "number"));
     ("unit_price", nullable_schema (type_of "number")); ("amount", type_of "number");
     ("category", enumOrNull categories); ("informational", type_of "boolean")]%string ++
    (if bool_decide (sc_tags context = []) then []
     else [("tags", arraySchema (enum_schema (names_json (sc_tags context))))]%string))).
Definition outputSchema (context : ScanContext) : outcome json :=
  (let* categories := categoriesFor context in
   Ok (objectSchema (obj (
     [("unreadable_reason", nullable_schema (type_of "string")); ("currency", type_of "string");
      ("total", type_of "number"); ("subtotal", nullable_schema (type_of "number"));
      ("merchant", nullable_schema (type_of "string")); ("store_name_raw", nullable_schema (type_of "string"));
      ("purchase_date", nullable_schema (obj [("type", JString "string"); ("format", JString "date")]));
      ("items", arraySchema (itemSchema context categories))]%string ++
     match sc_knownKind context with
     | None => [("kind", enum_schema (names_json (map name scannable_kinds)))]%string
     | Some _ => []
     end))))%outcome.

(** ** The user message *)

Definition joined (names : list string) : string :=
  if bool_decide (names = []) then "(none)"%string else fold_left (join_step "" ", ") names ""%string.

(** Whether the known kind, if any, is on the given side. *)
Definition side_asked (context : ScanContext) (income : bool) : outcome bool :=
  match sc_knownKind context with
  | None => Ok true
  | Some kind => (let* rules := rulesFor kind in Ok (eqb (usesIncomeCategories rules) income))%outcome
  end.
Definition instructions (context : ScanContext) (imageCount : Z) : outcome string :=
  (let text :=
     if imageCount =? 1 then "The image above is one transaction."%string
     else "The " +:+ to_string imageCount +:+ " images above are one transaction." in
   let text := text +:+
     match sc_knownKind context with
     | Some kind => " It is already known to be of kind " +:+ quoted kind +:+ "; extract the fields for that kind."
     | None => " Classify its kind, then extract the fields."
     end in
   let* expense := side_asked context false in
   let text := if (expense : bool)
     then text +:+ Kinds.nl +:+ Kinds.nl +:+ "Expense categories: " +:+ joined (sc_expenseCategories context) else text in
   let* income := side_asked context true in
   let text := if (income : bool)
     then text +:+ Kinds.nl +:+ "Income categories: " +:+ joined (sc_incomeCategories context) else text in
   Ok (text +:+ Kinds.nl +:+ "Tags: " +:+ joined (sc_tags context)))%outcome.

(** ** The configuration and the request *)

(** [AnthropicScanProvider::Config]. *)
Record AnthropicConfig := mkAnthropicConfig {
  apiKey : string;
  model : string;
  baseUrl : string;
  timeoutSeconds : double;
  maxRetries : Z;
  maxTokens : Z;
  effort : string;
  rescanEffort : string
}.
#[export] Instance eta_AnthropicConfig : Eta AnthropicConfig := fun c =>
  mkAnthropicConfig (apiKey c) (model c) (baseUrl c) (timeoutSeconds c) (maxRetries c) (maxTokens c) (effort c)
    (rescanEffort c).
(** The member initialisers. *)
Definition default_anthropic : AnthropicConfig :=
  mkAnthropicConfig "" "claude-haiku-5-5" "https://api.anthropic.com" (of_int 120) 2 16000 "low" "medium".

(** [drogon::utils::base64Encode]. *)
Class Base64 := base64Encode : string -> string.

Definition text_block (text : string) : json := obj [("type", JString "text"); ("text", JString text)]%string.
Definition image_block `{Base64} (media bytes : string) : json :=
  obj [("type", JString "image");
       ("source", obj [("type", JString "base64"); ("media_type", JString media);
                       ("data", JString (base64Encode bytes))])]%string.
(** The loop over the images, [i] being the index of the first. *)
Fixpoint image_blocks `{Base64} (numbered : bool) (i : Z) (images : list string) : outcome (list json) :=
  match images with
  | [] => Ok []
  | bytes :: images' =>
      (let* media := mediaType bytes in
       let* rest := image_blocks numbered (i + 1) images' in
       Ok ((if numbered then [text_block ("Image " +:+ to_string (i + 1) +:+ ":")] else []) ++
           image_block media bytes :: rest))%outcome
  end.
Definition buildRequest `{Base64} (images : list string) (context : ScanContext) (config : AnthropicConfig) : outcome json :=
  let count := Z.of_nat (length images) in
  (let* blocks := image_blocks (1 <? count) 0 images in
   let* text := instructions context count in
   let* schema := outputSchema context in
   Ok (obj
     [("model", JString (model config)); ("max_tokens", JInteger (maxTokens config)); ("system", JString systemPrompt);
      ("messages", JArray [obj [("role", JString "user"); ("content", JArray (blocks ++ [text_block text]))]]);
      ("output_config", obj [("effort", JString (effort config));
         ("format", obj [("type", JString "json_schema"); ("schema", schema)])])]%string))%outcome.

(** [Config::fromEnv]. *)
Definition anthropicFromEnv `{Environment} : outcome AnthropicConfig :=
  let d := default_anthropic in
  let key := envOr "ANTHROPIC_API_KEY" "" in
  if empty key then Throw (RuntimeError "SCAN_PROVIDER=anthropic needs ANTHROPIC_API_KEY") else
  (let* timeout := stod (envOr "SCAN_TIMEOUT_SECONDS" (double_to_string (timeoutSeconds d))) in
   let* tokens := stoi (envOr "ANTHROPIC_MAX_TOKENS" (to_string (maxTokens d))) in
   Ok (mkAnthropicConfig key (envOr "ANTHROPIC_MODEL" (model d)) (envOr "ANTHROPIC_BASE_URL" (baseUrl d)) timeout
         (maxRetries d) tokens (envOr "ANTHROPIC_EFFORT" (effort d))
         (envOr "ANTHROPIC_RESCAN_EFFORT" (rescanEffort d))))%outcome.

(** ** Reading a reply *)

(** nlohmann's accessors on a value: [at], [get], [value] and iteration, with the
    exceptions they throw.  A primitive value is a range of one element, itself. *)
Definition json_error {A} (what : string) : outcome A := Throw (JsonException what).
Definition at_key (key : string) (v : json) : outcome json :=
  match v with
  | JObject m => match assoc key m with Some x => Ok x | None => json_error ("key '" +:+ key +:+ "' not found") end
  | _ => json_error "cannot use at()"
  end.
Definition as_string (v : json) : outcome string :=
  match v with JString s => Ok s | _ => json_error "type must be string" end.
Definition as_bool (v : json) : outcome bool :=
  match v with JBool b => Ok b | _ => json_error "type must be boolean" end.
Definition as_double (v : json) : outcome double :=
  if is_number v then Ok (get_double v) else json_error "type must be number".
Fixpoint omap_list {A B} (f : A -> outcome B) (l : list A) : outcome (list B) :=
  match l with
  | [] => Ok []
  | a :: l' => (let* b := f a in let* bs := omap_list f l' in Ok (b :: bs))%outcome
  end.
Definition as_strings (v : json) : outcome (list string) :=
  match v with JArray l => omap_list as_string l | _ => json_error "type must be array" end.
Definition value_or (key : string) (fallback : json) (v : json) : outcome json :=
  match v with
  | JObject m => Ok (default fallback (assoc key m))
  | _ => json_error "cannot use value()"
  end.
Definition value_string (key : string) (v : json) : outcome string :=
  (let* x := value_or key (JString "") v in as_string x)%outcome.
Definition elements (v : json) : list json :=
  match v with
  | JArray l => l
  | JObject m => map snd m
  | JNull => []
  | v => [v]
  end.

(** [find_first_not_of(" \t\r\n") == npos]. *)
Definition is_blank (s : string) : bool := all_chars (fun c => bool_decide (byte_of c ∈ [32; 9; 13; 10])) s.
Definition optText (object : json) (key : string) : option string :=
  match find key object with
  | Some (JString s) => if is_blank s then None else Some s
  | _ => None
  end.
Definition optNumber (object : json) (key : string) : option double :=
  match find key object with
  | Some v => if is_number v then Some (get_double v) else None
  | None => None
  end.

Section Parse.
Context `{PL : Platform} `{JT : JsonText}.

Definition toCents (amount : double) : Z := llround (dmul amount (of_int 100)).
Definition positive_double (d : double) : bool := dltb dzero d.
Definition toItem (line : json) : outcome ScannedItem :=
  (let* amount := at_key "amount" line in
   let* amount := as_double amount in
   let* informational := at_key "informational" line in
   let* informational := as_bool informational in
   let* tags := match find "tags" line with Some v => as_strings v | None => Ok [] end in
   Ok (mkScannedItem (optText line "name")
         (match optNumber line "quantity" with Some q => if dltb dzero q then Some q else None | None => None end)
         (match optNumber line "unit_price" with
          | Some p => if dleb dzero p then Some (toCents p) else None | None => None end)
         (toCents amount) (optText line "category") informational tags))%outcome.

(** Unary minus on int64. *)
Definition neg64 (n : Z) : outcome Z := if int64_ok (- n) then Ok (- n) else UB "signed overflow".
(** One turn of the loop over the lines. *)
Definition add_item (kind : string) (items : list ScannedItem) (line : json) : outcome (list ScannedItem) :=
  (let* item := toItem line in
   if si_amountCents item <? 0 then
     if negb (bool_decide (kind = "refund"%string)) then Ok items else
     let* amount := neg64 (si_amountCents item) in
     Ok (items ++ [mkScannedItem (si_name item) (si_quantity item) (si_unitPriceCents item) amount (si_category item)
                     (si_informational item) (si_tags item)])
   else Ok (items ++ [item]))%outcome.

(** The first content block of type "text". *)
Fixpoint text_of (blocks : list json) : outcome (option json) :=
  match blocks with
  | [] => Ok None
  | block :: blocks' =>
      (let* t := value_string "type" block in
       if bool_decide (t = "text"%string) then Ok (Some block) else text_of blocks')%outcome
  end.

(** The [try] block of [parseResponse]. *)
Definition read_output (context : ScanContext) (response text : json) : outcome ScanResult :=
  (let* t := at_key "text" text in
   let* t := as_string t in
   let* output := json_parse t in
   match optText output "unreadable_reason" with
   | Some reason => Throw (ScanError ("model could not read the document: " +:+ reason))
   | None =>
       let* kind :=
         match sc_knownKind context with
         | Some k => Ok k
         | None => let* k := at_key "kind" output in as_string k
         end in
       let* currency := at_key "currency" output in
       let* currency := as_string currency in
       let* total := at_key "total" output in
       let* total := as_double total in
       let* total := llabs (toCents total) in
       let* lines := at_key "items" output in
       let* items := ofold (add_item kind) [] (elements lines) in
       let* model := value_string "model" response in
       let* id := value_string "id" response in
       let* usage := value_or "usage" (JObject []) response in
       Ok (mkScanResult kind currency total (optText output "merchant") (optText output "store_name_raw")
             (optText output "purchase_date") items
             (obj [("provider", JString "anthropic"); ("model", JString model); ("message_id", JString id);
                   ("usage", usage); ("output", output)]%string))
   end)%outcome.
(** [catch (const nlohmann::json::exception &e)]. *)
Definition json_as_scan_error {A} (m : outcome A) : outcome A :=
  match m with
  | Throw (JsonException w) => Throw (ScanError ("Anthropic reply doesn't match the extraction schema: " +:+ w))
  | m => m
  end.
(** [json::parse(text, nullptr, false)]. *)
Definition parse_or_discard (text : string) : json :=
  match json_parse text with Ok v => v | _ => JDiscarded end.
Definition parseResponse (body : string) (context : ScanContext) : outcome ScanResult :=
  let response := parse_or_discard body in
  if negb (is_object response) then Throw (ScanError "Anthropic response is not JSON") else
  (let* stopReason := value_string "stop_reason" response in
   if bool_decide (stopReason = "refusal"%string) then Throw (ScanError "model refused to read the document") else
   if bool_decide (stopReason = "max_tokens"%string) then Throw (ScanError "model reply was cut off at max_tokens") else
   let* text := match find "content" response with
                | Some (JArray blocks) => text_of blocks
                | _ => Ok None
                end in
   match text with
   | None => Throw (ScanError ("Anthropic response has no text block (stop_reason " +:+ stopReason +:+ ")"))
   | Some block => json_as_scan_error (read_output context response block)
   end)%outcome.

(** ** Do the items add up? *)

Definition add_amount (sum : Z) (item : ScannedItem) : outcome Z :=
  if si_informational item then Ok sum else add64 sum (si_amountCents item).
Definition subtotal_of (raw : json) : outcome (option Z) :=
  match find "output" raw with
  | Some output =>
      match find "subtotal" output with
      | Some v => if is_number v then (let* s := llabs (toCents (get_double v)) in Ok (Some s))%outcome else Ok None
      | None => Ok None
      end
  | None => Ok None
  end.
Definition itemsAddUp (result : ScanResult) : outcome bool :=
  (let* sum := ofold add_amount 0 (sr_items result) in
   let* subtotal := subtotal_of (sr_raw result) in
   Ok (bool_decide (sr_items result = []) || (sum =? sr_totalCents result) || bool_decide (subtotal = Some sum)))%outcome.
End Parse.

(** ** The network: retries and the second scan *)

Definition retryable (code : Z) : bool := (code =? 408) || (code =? 429) || (500 <=? code).

(** [trantor]'s [sleepCoro]: what happens on the network meanwhile. *)
Class EventLoop `{HttpClient} := sleepCoro : double -> net -> net.

(** [2 << attempt] on int: arithmetic modulo 2^32, undefined for a shift of the width
    or more. *)
Definition shl_int (n count : Z) : outcome Z :=
  if (0 <=? count) && (count <? 32) then
    let u := (n * 2 ^ count) mod 2 ^ 32 in
    Ok (if u <? 2 ^ 31 then u else u - 2 ^ 32)
  else UB "shift out of range".
(** [std::clamp]. *)
Definition clamp (v lo hi : double) : double := if dltb v lo then lo else if dltb hi v then hi else v.

Section Network.
Context `{PL : Platform} `{JT : JsonText} `{BE : Base64} `{HC : HttpClient} `{EL : !EventLoop}.
Context (config_ : AnthropicConfig).

(** Computations over the network. *)
Definition N (A : Type) : Type := net -> outcome A * net.
Definition nret {A} (m : outcome A) : N A := fun n => (m, n).
Definition nbind {A B} (m : N A) (k : A -> N B) : N B := fun n =>
  match m n with
  | (Ok a, n') => k a n'
  | (Throw e, n') => (Throw e, n')
  | (UB u, n') => (UB u, n')
  end.

Definition apiErrorMessage (body : string) : outcome string :=
  match find "error" (parse_or_discard body) with
  | Some error =>
      if is_object error then
        (let* type := value_string "type" error in
         let* message := value_string "message" error in
         Ok (type +:+ ": " +:+ message))%outcome
      else Ok (substr 0 300 body)
  | None => Ok (substr 0 300 body)
  end.

Definition api_request (body : string) : HttpRequest :=
  mkHttpRequest "POST" "/v1/messages" [("x-api-key", apiKey config_); ("anthropic-version", kApiVersion)]%string
    (Some "application/json"%string) body (timeoutSeconds config_).
(** The message of a failed exchange. *)
Definition api_failure (resp : HttpResponse) : outcome string :=
  (let* message := apiErrorMessage (hr_body resp) in
   Ok ("Anthropic API HTTP " +:+ to_string (hr_status resp) +:+ ": " +:+ message))%outcome.
Definition retry_delay (attempt : Z) (resp : HttpResponse) : outcome double :=
  (let* backoff := shl_int 2 attempt in
   let after := hr_header resp "retry-after" in
   if empty after then Ok (of_int backoff) else
   match stod after with
   | Ok d => Ok (clamp d dzero (of_int 30))
   | Throw _ => Ok (of_int backoff)
   | UB u => UB u
   end)%outcome.
(** The loop of [send] from its [attempt]-th turn on, with [left] retries to go. *)
Fixpoint send_loop (body : string) (attempt : Z) (left : nat) : N string :=
  nbind (sendRequest (api_request body)) (fun resp =>
  if hr_status resp =? 200 then nret (Ok (hr_body resp)) else
  nbind (nret (api_failure resp)) (fun message =>
  if negb (retryable (hr_status resp)) then nret (Throw (ScanError message)) else
  match left with
  | O => nret (Throw (RuntimeError message))
  | S left' =>
      nbind (nret (retry_delay attempt resp)) (fun delay =>
      nbind (fun n => (Ok (), sleepCoro delay n)) (fun _ => send_loop body (attempt + 1) left'))
  end)).
Definition send (body : string) (maxRetries : Z) : N string := send_loop body 0 (Z.to_nat maxRetries).

(** [result.raw[key] = value]. *)
Definition with_raw (key : string) (value : json) (result : ScanResult) : ScanResult :=
  result <| sr_raw ::= fun raw =>
    match raw with
    | JObject m => obj ((key, value) :: filter (fun kv => kv.1 <> key) m)
    | raw => raw
    end |>.
Definition request_text (images : list string) (context : ScanContext) (config : AnthropicConfig) : outcome string :=
  (let* request := buildRequest images context config in json_dump request)%outcome.
Definition anthropic_scanReceipt (images : list string) (context : ScanContext) : N ScanResult :=
  nbind (nret (request_text images context config_)) (fun request =>
  nbind (send request (maxRetries config_)) (fun firstBody =>
  nbind (nret (parseResponse firstBody context)) (fun first =>
  nbind (nret (itemsAddUp first)) (fun good =>
  if good || empty (rescanEffort config_) then nret (Ok first) else
  nbind (nret (request_text images context (config_ <| effort := rescanEffort config_ |>))) (fun rescanRequest n =>
  match nbind (send rescanRequest 0) (fun secondBody => nret (parseResponse secondBody context)) n with
  | (Ok second, n') => (Ok (with_raw "first_scan" (sr_raw first) second), n')
  | (Throw e, n') => (Ok (with_raw "rescan_error" (JString (what e)) first), n')
  | (UB u, n') => (UB u, n')
  end))))).

(** The interface the worker calls: the [n]-th call meets the network as [networks n]
    has it. *)
Definition AnthropicScanProvider (networks : nat -> net) : ScanProvider := fun call images context =>
  (anthropic_scanReceipt images context (networks call)).1.
End Network.

(** ** FakeScanProvider *)

Definition cannedResult (images : list string) (context : ScanContext) : outcome ScanResult :=
  Ok (mkScanResult (default kDefaultKind (sc_knownKind context)) "AUD" 1234 (Some "Fake Merchant"%string)
        (Some "FAKE MERCHANT PTY LTD"%string) None
        [mkScannedItem (Some "fake item"%string) None None 1234 None false []]
        (obj [("provider", JString "fake")]%string)).
(** A call of a provider with a scripted [handler]; the state is [imageCounts_]. *)
Definition fake_scanReceipt (handler : list string -> ScanContext -> outcome ScanResult) (images : list string)
    (context : ScanContext) (imageCounts : list Z) : outcome ScanResult * list Z :=
  (handler images context, imageCounts ++ [Z.of_nat (length images)]).
Definition FakeScanProvider : ScanProvider := fun _ images context =>
  (fake_scanReceipt cannedResult images context []).1.
