(* ===== verification/ScanServices.v ===== *)
(** * Start-up of the scan pipeline

    src/src/scan/ScanServices.cpp, [ScanWorkerConfig::fromEnv] of
    src/src/scan/ScanWorker.cpp: the configuration read from the environment and the
    check that a slow call cannot outlive its claim. *)
From Stdlib Require Import SpecFloat.
From S2P Require Import Prelude CString Binary64 Strtod Json Kinds Calendar JsonInput LedgerInput TokenUtils Env Db.
From S2P Require Import Sigv4Signer World ItemService ReceiptService ScanWorker Anthropic.

Section ScanServices.
Context `{EN : Environment}.

Definition envInt (name : string) (fallback : Z) : outcome Z := stoi (envOr name (to_string fallback)).

(** [ScanWorkerConfig::fromEnv]. *)
Definition workerFromEnv : outcome ScanWorkerConfig :=
  let d := default_config in
  (let* concurrency := envInt "SCAN_CONCURRENCY" (concurrency d) in
   let* attempts := envInt "SCAN_MAX_ATTEMPTS" (maxScanAttempts d) in
   let* reclaims := envInt "SCAN_MAX_RECLAIMS" (maxReclaims d) in
   let* reclaim := envInt "SCAN_RECLAIM_SECONDS" (reclaimAfterSeconds d) in
   let* days := envInt "MATCH_DATE_DAYS" (matchDateDays d) in
   let* threshold := stod (envOr "MERCHANT_MATCH_THRESHOLD" (double_to_string (merchantMatchThreshold d))) in
   Ok (mkConfig concurrency attempts reclaims reclaim days threshold))%outcome.

Definition dadd : double -> double -> double := SFadd prec emax.
(** [maxRetries + 1] is int arithmetic before the conversion. *)
Definition worstCase (config : AnthropicConfig) : double :=
  dadd (dmul (dadd (timeoutSeconds config) (of_int 30)) (of_int (maxRetries config + 1)))
    (if empty (rescanEffort config) then of_int 0 else timeoutSeconds config).
Definition checkedAnthropicConfig : outcome AnthropicConfig :=
  (let* config := anthropicFromEnv in
   let* worker := workerFromEnv in
   if dleb (of_int (reclaimAfterSeconds worker)) (worstCase config)
   then Throw (RuntimeError ("SCAN_TIMEOUT_SECONDS is too long for SCAN_RECLAIM_SECONDS: a slow call would be " +:+
                             "re-queued and scanned twice"))
   else Ok config)%outcome.

(** What [scanProvider()] constructs. *)
Inductive Provider := Fake | Anthropic (config : AnthropicConfig).
Definition scanProvider : outcome Provider :=
  let name := envOr "SCAN_PROVIDER" "fake" in
  if bool_decide (name = "fake"%string) then Ok Fake
  else if bool_decide (name = "anthropic"%string) then (let* config := checkedAnthropicConfig in Ok (Anthropic config))%outcome
  else Throw (RuntimeError ("unknown SCAN_PROVIDER: " +:+ name)).
(** The singletons of [scanWorker()]; C++ leaves open which of the two is built first,
    which shows only in which exception a wrong configuration ends with. *)
Definition scanWorker : outcome (Provider * ScanWorkerConfig) :=
  (let* provider := scanProvider in
   let* config := workerFromEnv in
   Ok (provider, config))%outcome.
(** The interval of the timer, and what its ticks run. *)
Definition startScanWorker : outcome (double * (Provider * ScanWorkerConfig)) :=
  (let* pollSeconds := stod (envOr "SCAN_POLL_SECONDS" "5") in
   let* worker := scanWorker in
   Ok (pollSeconds, worker))%outcome.
End ScanServices.

(** The provider as the worker sees it. *)
Definition provider_instance `{PL : Platform} `{JT : JsonText} `{BE : Base64} `{HC : HttpClient} `{EL : !EventLoop}
    (networks : nat -> net) (p : Provider) : ScanProvider :=
  match p with
  | Fake => FakeScanProvider
  | Anthropic config => AnthropicScanProvider config networks
  end.
