(* ===== verification/Startup.v ===== *)
(** * Start-up of the server

    src/src/main.cpp with auth/SodiumInit.cpp and storage/VipsInit.cpp: the libraries
    initialised once per process, the database connection read from the environment,
    the limits and the listener given to Drogon, and the scan worker started when its
    loop runs.  What [run()] then does is the rest of the library. *)
From S2P Require Import Prelude CString Binary64 Strtod Json Kinds Calendar JsonInput LedgerInput TokenUtils Env Db.
From S2P Require Import Sigv4Signer World ItemService ReceiptService AuthService Http ScanWorker Anthropic ScanServices.

(** [sodium_init], [VIPS_INIT] (nonzero on failure) and the text of its error. *)
Class Libraries := { sodium_init : Z; vips_init : string -> Z; vips_error_buffer : string }.

(** The [std::once_flag]s of the process. *)
Record Flags := mkFlags { sodium_flag : bool; vips_flag : bool }.
#[export] Instance eta_Flags : Eta Flags := fun f => mkFlags (sodium_flag f) (vips_flag f).
(** [std::call_once]: a call that throws leaves the flag unset. *)
Definition call_once (flag : bool) (f : outcome unit) : outcome unit * bool :=
  if flag then (Ok (), true) else match f with Ok _ => (Ok (), true) | failed => (failed, false) end.

Record PostgresConfig := mkPostgres {
  pc_host : string; pc_port : Z; pc_databaseName : string; pc_username : string; pc_password : string;
  pc_connectionNumber : Z; pc_name : string }.
(** What is set on [drogon::app()] before it runs. *)
Record App := mkApp {
  app_clientMaxBodySize : Z; app_dbClient : PostgresConfig; app_listener : string * Z; app_threadNum : Z }.
(** The server when its loop has started: with the timer's interval and the worker. *)
Record Server := mkServer { sv_app : App; sv_flags : Flags; sv_worker : double * (Provider * ScanWorkerConfig) }.

Section Startup.
Context `{EN : Environment} `{LB : Libraries}.

Definition ensureSodiumInitialized (f : Flags) : outcome unit * Flags :=
  let once := call_once (sodium_flag f) (if sodium_init <? 0 then Throw (RuntimeError "sodium_init failed") else Ok ()) in
  (once.1, f <| sodium_flag := once.2 |>).
Definition initVips (argv0 : string) (f : Flags) : outcome unit * Flags :=
  let once := call_once (vips_flag f)
    (if vips_init argv0 =? 0 then Ok () else Throw (RuntimeError ("VIPS_INIT failed: " +:+ vips_error_buffer))) in
  (once.1, f <| vips_flag := once.2 |>).

(** [static_cast<unsigned short>]. *)
Definition unsigned_short (z : Z) : Z := z mod 2 ^ 16.
Definition dbConfig : outcome PostgresConfig :=
  (let* port := stoi (envOr "DB_PORT" "5432") in
   Ok (mkPostgres (envOr "DB_HOST" "localhost") (unsigned_short port) (envOr "DB_NAME" "receipt_scanner")
         (envOr "DB_USER" "receipt_scanner") (envOr "DB_PASSWORD" "") 4 "default"))%outcome.
Definition clientMaxBodySize : Z := 130 * 1024 * 1024.

(** [main] up to the running loop, whose beginning advice starts the worker. *)
Definition main : outcome Server :=
  let sodium := ensureSodiumInitialized (mkFlags false false) in
  (sodium.1 ;;;
   let vips := initVips "receipt_scanner" sodium.2 in
   vips.1 ;;;
   let* db := dbConfig in
   let app := mkApp clientMaxBodySize db ("0.0.0.0"%string, 8080) 4 in
   let* worker := startScanWorker in
   Ok (mkServer app vips.2 worker))%outcome.

(** ** What start-up guarantees *)

Lemma main_Ok s : main = Ok s ->
  0 <= sodium_init /\ vips_init "receipt_scanner" = 0 /\ startScanWorker = Ok (sv_worker s) /\
  dbConfig = Ok (app_dbClient (sv_app s)) /\ sv_flags s = mkFlags true true.
Proof.
  unfold main, ensureSodiumInitialized, initVips, call_once. cbn [fst snd sodium_flag vips_flag set_field].
  destruct (Z.ltb_spec sodium_init 0); cbn; [done|]. destruct (Z.eqb_spec (vips_init "receipt_scanner") 0); cbn; [|done].
  intros H'. ok_inv. done.
Qed.
(** Once the server runs, initialising again does nothing: [normalizeSync], which asks
    for libvips before each image, never fails for it. *)
Lemma initialized_once s argv0 : main = Ok s ->
  initVips argv0 (sv_flags s) = (Ok (), sv_flags s) /\ ensureSodiumInitialized (sv_flags s) = (Ok (), sv_flags s).
Proof. by intros (_ & _ & _ & _ & ->)%main_Ok. Qed.
(** The port is one, whatever DB_PORT says. *)
Lemma port_in_range s : main = Ok s -> 0 <= pc_port (app_dbClient (sv_app s)) < 2 ^ 16.
Proof. intros (_ & _ & _ & H & _)%main_Ok. unfold dbConfig in H. ok_inv. rewrite <- H. apply Z.mod_pos_bound. lia. Qed.
(** A provider that passes for the server's passed the check of its time-outs. *)
Lemma provider_checked s config worker : main = Ok s -> (sv_worker s).2 = (Anthropic config, worker) ->
  checkedAnthropicConfig = Ok config /\ workerFromEnv = Ok worker.
Proof.
  intros (_ & _ & H & _)%main_Ok E. unfold startScanWorker, scanWorker, scanProvider in H.
  destruct (stod _) as [poll| |]; try discriminate. cbn [obind] in H.
  repeat case_bool_decide; cbn [obind] in H; [|destruct checkedAnthropicConfig; cbn [obind] in H|];
    try discriminate; destruct workerFromEnv; cbn [obind] in H; try discriminate; injection H as H; rewrite <- H in E; by simplify_eq/=.
Qed.

(** The largest upload the handlers accept fits the body limit with 10 MiB to spare,
    for a cap up to the default of eight images. *)
Lemma upload_fits_body n : maxImagesPerReceipt = Ok n -> n <= 8 ->
  n * kMaxImageBytes + 10 * 1024 * 1024 <= clientMaxBodySize.
Proof. unfold kMaxImageBytes, clientMaxBodySize. lia. Qed.
End Startup.
