(* ===== verification/Invariant.v ===== *)
(** * The database invariant and tenant isolation

    [db_ok]: what the migrations, the foreign keys and the ownership checks of the
    services keep true of the tables together.  Every row refers to rows of the
    same user, an item's category is on its receipt's side, an offset points at
    another receipt of the user, and ids are below their sequence.
    [evolves U d d']: going from [d] to [d'] keeps [db_ok] and changes no row that
    belongs to another user than [U].  Statements.v has one lemma per SQL
    statement; the services' theorems chain them. *)
From S2P Require Import Prelude CString Binary64 Json Kinds JsonInput LedgerInput TokenUtils Env Db World.
From S2P Require Import ItemService ReceiptService ReferenceData.

(** ** Heads: what other tables need to know of a row *)

Definition rhead (d : Db) : gmap Z (Z * string) :=
  (fun r => (rc_user_id r, er_kind (rc_fields r))) <$> rows (receipts d).
Definition chead (d : Db) : gmap Z (Z * bool) :=
  (fun c => (c_user_id c, c_is_income c)) <$> rows (categories d).
Definition thead (d : Db) : gmap Z Z := t_user_id <$> rows (tags d).
Definition phead (d : Db) : gmap Z Z := p_user_id <$> rows (payment_methods d).
Definition ihead (d : Db) : gmap Z Z := it_receipt_id <$> rows (items d).

Definition fits (side : bool) (kind : string) : Prop := categoryFitsKind side kind = Ok true.
Definition can_offset (kind : string) : bool :=
  match findKind kind with Some rules => canOffset rules | None => false end.

Definition receipt_ok (rh : gmap Z (Z * string)) (ph : gmap Z Z) (k : Z) (r : receipt_row) : Prop :=
  let f := rc_fields r in
  receipt_checks r = true /\
  (forall p, er_paymentMethodId f = Some p -> ph !! p = Some (rc_user_id r)) /\
  (forall o, er_offsetsReceiptId f = Some o ->
     o <> k /\ can_offset (er_kind f) = true /\ fst <$> rh !! o = Some (rc_user_id r)).
Definition image_ok (rh : gmap Z (Z * string)) (i : image_row) : Prop :=
  fst <$> rh !! im_receipt_id i = Some (im_user_id i).
Definition item_ok (rh : gmap Z (Z * string)) (ch : gmap Z (Z * bool)) (i : item_row) : Prop :=
  exists u kind, rh !! it_receipt_id i = Some (u, kind) /\
    forall c, it_category_id i = Some c -> exists side, ch !! c = Some (u, side) /\ fits side kind.
Definition link_ok (rh : gmap Z (Z * string)) (ih th : gmap Z Z) (l : Z * Z) : Prop :=
  exists rid u, ih !! l.1 = Some rid /\ fst <$> rh !! rid = Some u /\ th !! l.2 = Some u.

Definition all {A} (P : Z -> A -> Prop) (t : table A) : Prop := map_Forall P (rows t).
Definition below {A} (t : table A) : Prop := all (fun k _ => k < seq t) t.

Record db_ok (d : Db) : Prop := {
  ok_below : below (categories d) /\ below (tags d) /\ below (payment_methods d) /\
             below (receipts d) /\ below (receipt_images d) /\ below (items d);
  ok_receipts : all (receipt_ok (rhead d) (phead d)) (receipts d);
  ok_images : all (fun _ => image_ok (rhead d)) (receipt_images d);
  ok_items : all (fun _ => item_ok (rhead d) (chead d)) (items d);
  ok_links : forall l, l ∈ item_tags d -> link_ok (rhead d) (ihead d) (thead d) l
}.

(** ** What belongs to the other users *)

Definition outside {A} (U : Z) (owner : A -> option Z) (m : gmap Z A) : gmap Z A :=
  filter (fun kv => owner kv.2 <> Some U) m.
Definition item_owner (d : Db) (i : item_row) : option Z := fst <$> rhead d !! it_receipt_id i.
Definition link_owner (d : Db) (l : Z * Z) : option Z := rid ← ihead d !! l.1; fst <$> rhead d !! rid.

Record view := mkView {
  vw_categories : gmap Z category_row;
  vw_tags : gmap Z tag_row;
  vw_payment_methods : gmap Z payment_method_row;
  vw_receipts : gmap Z receipt_row;
  vw_images : gmap Z image_row;
  vw_items : gmap Z item_row;
  vw_links : gset (Z * Z);
  vw_accounts : table user_row * table session_row * table auth_token_row
}.
Definition others (U : Z) (d : Db) : view :=
  mkView (outside U (fun c => Some (c_user_id c)) (rows (categories d)))
    (outside U (fun t => Some (t_user_id t)) (rows (tags d)))
    (outside U (fun p => Some (p_user_id p)) (rows (payment_methods d)))
    (outside U (fun r => Some (rc_user_id r)) (rows (receipts d)))
    (outside U (fun i => Some (im_user_id i)) (rows (receipt_images d)))
    (outside U (item_owner d) (rows (items d)))
    (filter (fun l => link_owner d l <> Some U) (item_tags d))
    (users d, sessions d, auth_tokens d).

Definition grows (d d' : Db) : Prop :=
  seq (categories d) <= seq (categories d') /\ seq (tags d) <= seq (tags d') /\
  seq (payment_methods d) <= seq (payment_methods d') /\ seq (receipts d) <= seq (receipts d') /\
  seq (receipt_images d) <= seq (receipt_images d') /\ seq (items d) <= seq (items d').

(** What never changes in a receipt, as long as it exists: its owner, its source,
    its creation time, and having been reviewed once. *)
Definition row_kept (r r' : receipt_row) : Prop :=
  rc_user_id r' = rc_user_id r /\ rc_source r' = rc_source r /\ rc_created_at r' = rc_created_at r /\
  (is_Some (rc_reviewed_at r) -> is_Some (rc_reviewed_at r')).
Definition keeps (d d' : Db) : Prop :=
  forall k r', k < seq (receipts d) -> rows (receipts d') !! k = Some r' ->
    exists r, rows (receipts d) !! k = Some r /\ row_kept r r'.

Record evolves (U : Z) (d d' : Db) : Prop := {
  ev_ok : db_ok d';
  ev_others : others U d' = others U d;
  ev_grows : grows d d';
  ev_keeps : keeps d d'
}.

Lemma row_kept_refl r : row_kept r r.
Proof. done. Qed.
Lemma row_kept_trans r1 r2 r3 : row_kept r1 r2 -> row_kept r2 r3 -> row_kept r1 r3.
Proof. intros (? & ? & ? & ?) (? & ? & ? & ?). repeat split; [congruence..|auto]. Qed.
Lemma keeps_same d d' : rows (receipts d') = rows (receipts d) -> keeps d d'.
Proof. intros E k r _. rewrite E. intros Hr. exists r. split; [done|apply row_kept_refl]. Qed.
Lemma keeps_trans d1 d2 d3 : seq (receipts d1) <= seq (receipts d2) -> keeps d1 d2 -> keeps d2 d3 -> keeps d1 d3.
Proof.
  intros L H1 H2 k r3 Hk E3. destruct (H2 k r3) as (r2 & E2 & K2); [lia|done|].
  destruct (H1 k r2 Hk E2) as (r1 & E1 & K1). exists r1. split; [done|by eapply row_kept_trans].
Qed.
Lemma evolves_refl U d : db_ok d -> evolves U d d.
Proof. intros H. split; [done|done| |by apply keeps_same]. unfold grows. lia. Qed.
Lemma evolves_trans U d1 d2 d3 : evolves U d1 d2 -> evolves U d2 d3 -> evolves U d1 d3.
Proof.
  intros [_ E1 G1 K1] [H E2 G2 K2]. split; [done|congruence| |eapply keeps_trans; [apply G1|done..]].
  unfold grows in *. lia.
Qed.

(** ** Generic lemmas on tables *)

Section Tables.
Context {A : Type}.
Implicit Types (t : table A) (a : A) (P Q : Z -> A -> Prop).

Lemma all_lookup P t k a : all P t -> rows t !! k = Some a -> P k a.
Proof. intros H E. exact (H k a E). Qed.
Lemma all_insert P t a : all P t -> P (seq t) a -> all P (insert_row a t).
Proof. intros H Ha. by apply map_Forall_insert_2. Qed.
Lemma all_update P t k a : all P t -> P k a -> all P (update_row k a t).
Proof. intros H Ha. by apply map_Forall_insert_2. Qed.
Lemma all_delete P t k : all P t -> all P (delete_row k t).
Proof. intros H. by apply map_Forall_delete. Qed.
Lemma all_keep P t p : all P t -> all P (keep_rows p t).
Proof. intros H k a. cbn. rewrite map_lookup_filter_Some. intros [E _]. by apply H. Qed.
Lemma all_mono P Q t : all P t -> (forall k a, rows t !! k = Some a -> P k a -> Q k a) -> all Q t.
Proof. intros H HPQ k a E. eapply HPQ, H; eassumption. Qed.
Lemma all_fmap P Q t (f : A -> A) s :
  all P t -> (forall k a, rows t !! k = Some a -> P k a -> Q k (f a)) -> all Q (mkTable (f <$> rows t) s).
Proof.
  intros H HPQ k b. cbn. rewrite lookup_fmap_Some. intros (a & <- & E). eapply HPQ, H; eassumption.
Qed.
Lemma all_keep_seq P t t' : all P t -> all P (keep_seq t t').
Proof. done. Qed.

Lemma below_insert t a : below t -> below (insert_row a t).
Proof.
  intros H. unfold below. apply all_insert; [|cbn; lia].
  eapply all_mono; [exact H|]. cbn. intros. lia.
Qed.
Lemma below_update t k a : below t -> is_Some (rows t !! k) -> below (update_row k a t).
Proof. intros H [b E]. unfold below. apply all_update; [exact H|]. exact (H k b E). Qed.
Lemma below_delete t k : below t -> below (delete_row k t).
Proof. apply all_delete. Qed.
Lemma below_keep t p : below t -> below (keep_rows p t).
Proof. apply all_keep. Qed.
Lemma below_fmap t (f : A -> A) : below t -> below (mkTable (f <$> rows t) (seq t)).
Proof. intros H. eapply all_fmap; [exact H|done]. Qed.
Lemma below_fresh t : below t -> rows t !! seq t = None.
Proof.
  intros H. destruct (rows t !! seq t) as [a|] eqn:E; [|done]. pose proof (H _ _ E) as L. cbn in L. lia.
Qed.
Lemma below_keep_seq t t' : below t -> seq t <= seq t' -> below (keep_seq t t').
Proof. intros H L k a E. pose proof (H k a E) as Hk. cbn in *. lia. Qed.

Lemma outside_ext U (o o' : A -> option Z) (m m' : gmap Z A) :
  (forall k a, (m !! k = Some a /\ o a <> Some U) <-> (m' !! k = Some a /\ o' a <> Some U)) ->
  outside U o m = outside U o' m'.
Proof.
  intros H. apply map_eq. intros k. apply option_eq. intros a.
  unfold outside. rewrite !map_lookup_filter_Some. apply H.
Qed.
Lemma outside_insert U (o : A -> option Z) m k a :
  o a = Some U -> (forall b, m !! k = Some b -> o b = Some U) ->
  outside U o (<[k := a]> m) = outside U o m.
Proof.
  intros Ha Hb. apply outside_ext. intros j b. rewrite lookup_insert_Some. split.
  - intros [[[<- <-]|[? ?]] ?]; [congruence|done].
  - intros [E Ho]. split; [|done]. right. split; [|done]. intros ->. by rewrite (Hb b E) in Ho.
Qed.
(** A row of [U] inserted, updated or deleted. *)
Lemma outside_fresh U (o : A -> option Z) t a :
  below t -> o a = Some U -> outside U o (rows (insert_row a t)) = outside U o (rows t).
Proof. intros B Ha. apply outside_insert; [done|]. intros b E. by rewrite below_fresh in E. Qed.
Lemma outside_update U (o : A -> option Z) t k a b :
  rows t !! k = Some a -> o a = Some U -> o b = Some U ->
  outside U o (rows (update_row k b t)) = outside U o (rows t).
Proof. intros E Ha Hb. apply outside_insert; [done|]. intros c Ec. congruence. Qed.
Lemma outside_remove U (o : A -> option Z) t k a :
  rows t !! k = Some a -> o a = Some U -> outside U o (rows (delete_row k t)) = outside U o (rows t).
Proof.
  intros E Ha. apply outside_ext. intros j b. cbn. rewrite lookup_delete_Some. split; [tauto|].
  intros [Eb Ho]. repeat split; [|done..]. intros ->. congruence.
Qed.
Lemma outside_fmap U (o : A -> option Z) (f : A -> A) m :
  (forall k a, m !! k = Some a -> o (f a) = o a) ->
  (forall k a, m !! k = Some a -> o a <> Some U -> f a = a) ->
  outside U o (f <$> m) = outside U o m.
Proof.
  intros Ho Hf. apply outside_ext. intros k a. rewrite lookup_fmap_Some. split.
  - intros [(b & <- & E) Hn]. rewrite (Ho k b E) in Hn. by rewrite (Hf k b E Hn).
  - intros [E Hn]. split; [|done]. exists a. by rewrite (Hf k a E Hn).
Qed.
Lemma outside_keep U (o : A -> option Z) (p : A -> bool) t :
  (forall k a, rows t !! k = Some a -> p a = false -> o a = Some U) ->
  outside U o (rows (keep_rows p t)) = outside U o (rows t).
Proof.
  intros H. apply outside_ext. intros k a. cbn. rewrite map_lookup_filter_Some. cbn. split; [tauto|].
  intros [E Ho]. repeat split; [done| |done].
  destruct (p a) eqn:Ep; [done|]. by rewrite (H k a E Ep) in Ho.
Qed.
End Tables.

Create HintDb db.
#[export] Hint Resolve below_insert below_delete below_keep below_fmap : db.

(** ** Monotonicity: new rows invalidate nothing *)

Lemma fst_lookup_mono {B} (m m' : gmap Z (Z * B)) k u : m ⊆ m' -> fst <$> m !! k = Some u -> fst <$> m' !! k = Some u.
Proof. intros H. rewrite !fmap_Some. intros (x & E & ->). exists x. split; [by eapply lookup_weaken|done]. Qed.
Lemma receipt_ok_mono rh rh' ph ph' k r : rh ⊆ rh' -> ph ⊆ ph' -> receipt_ok rh ph k r -> receipt_ok rh' ph' k r.
Proof.
  intros Hr Hp (Hc & H1 & H2). split; [done|split].
  - intros p E. eapply lookup_weaken; [by apply H1|done].
  - intros o E. destruct (H2 o E) as (? & ? & ?). split; [done|split; [done|]]. by eapply fst_lookup_mono.
Qed.
Lemma image_ok_mono rh rh' i : rh ⊆ rh' -> image_ok rh i -> image_ok rh' i.
Proof. apply fst_lookup_mono. Qed.
Lemma item_ok_mono rh rh' ch ch' i : rh ⊆ rh' -> ch ⊆ ch' -> item_ok rh ch i -> item_ok rh' ch' i.
Proof.
  intros Hr Hc (u & kind & E & H). exists u, kind. split; [by eapply lookup_weaken|].
  intros c Ec. destruct (H c Ec) as (side & E' & F). exists side. split; [by eapply lookup_weaken|done].
Qed.
Lemma link_ok_mono rh rh' ih ih' th th' l : rh ⊆ rh' -> ih ⊆ ih' -> th ⊆ th' -> link_ok rh ih th l -> link_ok rh' ih' th' l.
Proof.
  intros Hr Hi Ht (rid & u & E1 & E2 & E3). exists rid, u. split; [by eapply lookup_weaken|].
  split; [by eapply fst_lookup_mono|by eapply lookup_weaken].
Qed.

Lemma head_fresh {A B} (t : table A) (h : A -> B) : below t -> (h <$> rows t) !! seq t = None.
Proof. intros H. by rewrite lookup_fmap, below_fresh. Qed.
Lemma head_subset {A B} (t : table A) (h : A -> B) a : below t -> h <$> rows t ⊆ h <$> rows (insert_row a t).
Proof. intros H. cbn. rewrite fmap_insert. apply insert_subseteq. by apply head_fresh. Qed.
(** An update that keeps the head of the row. *)
Lemma head_same {A B} (t : table A) (h : A -> B) k a b :
  rows t !! k = Some a -> h b = h a -> h <$> rows (update_row k b t) = h <$> rows t.
Proof. intros E H. cbn. rewrite fmap_insert, H. apply insert_id. by rewrite lookup_fmap, E. Qed.

(** The item's owner is determined in a consistent database. *)
Lemma item_owner_mono (rh rh' : gmap Z (Z * string)) ch i : rh ⊆ rh' -> item_ok rh ch i ->
  fst <$> rh' !! it_receipt_id i = fst <$> rh !! it_receipt_id i.
Proof. intros H (u & kind & E & _). by rewrite E, (lookup_weaken _ _ _ _ E H). Qed.

(** ** What a step has to show, table by table *)

(** The rows of other users are the same in two item tables whose owners agree. *)
Lemma outside_items_ext U d d' :
  rows (items d') = rows (items d) ->
  (forall k i, rows (items d) !! k = Some i -> item_owner d' i = item_owner d i) ->
  outside U (item_owner d') (rows (items d')) = outside U (item_owner d) (rows (items d)).
Proof.
  intros E H. rewrite E. apply outside_ext. intros k i. split.
  - intros [Ei Ho]. by rewrite (H k i Ei) in Ho.
  - intros [Ei Ho]. split; [done|]. by rewrite (H k i Ei).
Qed.
Lemma filter_set_ext (P Q : Z * Z -> Prop) `{!forall l, Decision (P l), !forall l, Decision (Q l)} (s s' : gset (Z * Z)) :
  (forall l, (P l /\ l ∈ s) <-> (Q l /\ l ∈ s')) -> filter P s = filter Q s'.
Proof. intros Hext. apply set_eq. intros l. rewrite !elem_of_filter. apply Hext. Qed.
Lemma links_ext U d d' :
  item_tags d' = item_tags d -> (forall l, l ∈ item_tags d -> link_owner d' l = link_owner d l) ->
  filter (fun l => link_owner d' l <> Some U) (item_tags d') = filter (fun l => link_owner d l <> Some U) (item_tags d).
Proof.
  intros E H. rewrite E. apply filter_set_ext. intros l. split.
  - intros [Ho Hl]. by rewrite (H l Hl) in Ho.
  - intros [Ho Hl]. by rewrite (H l Hl).
Qed.
Lemma link_owner_ok d l : link_ok (rhead d) (ihead d) (thead d) l -> exists u, link_owner d l = Some u.
Proof. intros (rid & u & E1 & E2 & _). exists u. unfold link_owner. by rewrite E1. Qed.

Lemma link_owner_same d d' l : ihead d' = ihead d ->
  (forall rid, ihead d !! l.1 = Some rid -> fst <$> rhead d' !! rid = fst <$> rhead d !! rid) ->
  link_owner d' l = link_owner d l.
Proof. intros E H. unfold link_owner. rewrite E. destruct (ihead d !! l.1) as [rid|]; [by apply H|done]. Qed.

(** Name the parts of [db_ok d]. *)
Ltac ok_parts H :=
  let B := fresh "B" in let R := fresh "R" in let I := fresh "I" in let T := fresh "T" in let L := fresh "L" in
  destruct H as [B R I T L]; destruct B as (?B & ?B & ?B & ?B & ?B & ?B).
