(* ===== verification/Statements.v ===== *)
(** * What each SQL statement does to the invariant

    For every statement the services issue: on a consistent database, and under
    the ownership its WHERE clause or the caller's check established, the step
    [evolves] the database for that user. *)
From S2P Require Import Prelude CString Binary64 Json Kinds JsonInput LedgerInput TokenUtils Env Db World.
From S2P Require Import ItemService ReceiptService ReferenceData Invariant.

(** ** Statements on the reference tables *)

Lemma insert_category_evolves U row d :
  db_ok d -> c_user_id row = U -> evolves U d (d <| categories ::= insert_row row |>).
Proof.
  intros H HU. ok_parts H. split.
  - split; cbn; [auto 10 with db|done|done| |done].
    eapply all_mono; [exact T|]. intros k i _ Hi. eapply item_ok_mono; [done| |exact Hi]. by apply head_subset.
  - unfold others. f_equal. apply outside_fresh; [done|congruence].
  - unfold grows; cbn. lia.
  - by apply keeps_same.
Qed.
Lemma update_category_evolves U k c c' d :
  db_ok d -> rows (categories d) !! k = Some c -> c_user_id c = U -> c_user_id c' = U ->
  (forall j i u kind, rows (items d) !! j = Some i -> it_category_id i = Some k ->
     rhead d !! it_receipt_id i = Some (u, kind) -> fits (c_is_income c') kind) ->
  evolves U d (d <| categories ::= update_row k c' |>).
Proof.
  intros H E HU HU' Hfit. ok_parts H. split.
  - split; cbn; [|done|done| |done].
    + split; [by apply below_update|auto 10].
    + eapply all_mono; [exact T|]. intros j i Ei (u & kind & Er & Hc). exists u, kind. split; [done|].
      intros c0 Ec. destruct (Hc c0 Ec) as (side & Es & F). unfold chead in *. cbn. rewrite fmap_insert.
      destruct (decide (c0 = k)) as [->|N].
      * exists (c_is_income c'). rewrite lookup_insert_eq, HU'. split; [|by eapply Hfit].
        rewrite lookup_fmap, E in Es. cbn in Es. congruence.
      * exists side. by rewrite lookup_insert_ne.
  - unfold others. f_equal. eapply outside_update; [done|congruence..].
  - unfold grows; cbn. lia.
  - by apply keeps_same.
Qed.

Lemma clear_category_head id i : it_receipt_id (clear_category id i) = it_receipt_id i.
Proof. unfold clear_category. by case_bool_decide. Qed.
Lemma delete_category_evolves U id c d :
  db_ok d -> rows (categories d) !! id = Some c -> c_user_id c = U -> evolves U d (delete_category id d).
Proof.
  intros H E HU. ok_parts H.
  assert (Hih : ihead (delete_category id d) = ihead d).
  { unfold ihead, delete_category. cbn. rewrite <- map_fmap_compose. apply map_fmap_ext.
    intros k i _. apply clear_category_head. }
  split.
  - split; [cbn; auto 10 with db|done|done| |].
    + eapply all_fmap; [exact T|]. intros k i Ei (u & kind & Er & Hc). exists u, kind.
      rewrite clear_category_head. split; [done|]. intros c0. unfold clear_category.
      case_bool_decide as Hd; cbn; [done|]. intros Ec. destruct (Hc c0 Ec) as (side & Es & F).
      exists side. split; [|done]. unfold chead in *. cbn. rewrite fmap_delete, lookup_delete_ne; [done|].
      intros ->. done.
    + intros l Hl. rewrite Hih. by apply L.
  - unfold others. f_equal.
    + eapply outside_remove; [done|congruence].
    + apply outside_fmap; intros k i Ei; unfold item_owner, rhead; cbn; [by rewrite clear_category_head|].
      intros Ho. unfold clear_category. case_bool_decide as Hd; [|done]. exfalso. apply Ho.
      destruct (T k i Ei) as (u & kind & Er & Hc). fold (rhead d). rewrite Er. cbn.
      destruct (Hc id Hd) as (side & Es & _). unfold chead in Es. rewrite lookup_fmap, E in Es. cbn in Es. congruence.
    + apply links_ext; [done|]. intros l _. unfold link_owner. by rewrite Hih.
  - unfold grows; cbn. lia.
  - by apply keeps_same.
Qed.

Lemma insert_tag_evolves U row d :
  db_ok d -> t_user_id row = U -> evolves U d (d <| tags ::= insert_row row |>).
Proof.
  intros H HU. ok_parts H. split.
  - split; cbn; [auto 10 with db|done|done|done|]. intros l Hl. eapply link_ok_mono; [done|done| |by apply L].
    by apply head_subset.
  - unfold others. f_equal. apply outside_fresh; [done|congruence].
  - unfold grows; cbn. lia.
  - by apply keeps_same.
Qed.
Lemma update_tag_evolves U k t t' d :
  db_ok d -> rows (tags d) !! k = Some t -> t_user_id t = U -> t_user_id t' = U ->
  evolves U d (d <| tags ::= update_row k t' |>).
Proof.
  intros H E HU HU'. ok_parts H. split.
  - split; cbn; [|done|done|done|].
    + split; [done|split; [by apply below_update|auto 10]].
    + unfold thead. cbn [tags set_field]. intros l Hl. cbn. setoid_rewrite (head_same _ _ _ _ _ E); [by apply L|congruence].
  - unfold others. f_equal. eapply outside_update; [done|congruence..].
  - unfold grows; cbn. lia.
  - by apply keeps_same.
Qed.
Lemma delete_tag_evolves U id t d :
  db_ok d -> rows (tags d) !! id = Some t -> t_user_id t = U -> evolves U d (delete_tag id d).
Proof.
  intros H E HU. ok_parts H. split.
  - split; cbn; [auto 10 with db|done|done|done|]. intros l. rewrite elem_of_filter. intros [Hl Hin].
    destruct (L l Hin) as (rid & u & E1 & E2 & E3). exists rid, u. split; [done|split; [done|]].
    unfold thead in *. cbn. by rewrite fmap_delete, lookup_delete_ne.
  - unfold others. f_equal.
    + eapply outside_remove; [done|congruence].
    + apply filter_set_ext. intros l. cbn. rewrite elem_of_filter. split; [tauto|].
      intros [Ho Hin]. split; [done|]. split; [|done]. intros <-. apply Ho.
      destruct (L l Hin) as (rid & u & E1 & E2 & E3). unfold link_owner. rewrite E1. cbn. rewrite E2.
      unfold thead in E3. rewrite lookup_fmap, E in E3. cbn in E3. congruence.
  - unfold grows; cbn. lia.
  - by apply keeps_same.
Qed.

Lemma insert_payment_method_evolves U row d :
  db_ok d -> p_user_id row = U -> evolves U d (d <| payment_methods ::= insert_row row |>).
Proof.
  intros H HU. ok_parts H. split.
  - split; cbn; [auto 10 with db| |done|done|done].
    eapply all_mono; [exact R|]. intros k r _ Hr. eapply receipt_ok_mono; [done| |exact Hr]. by apply head_subset.
  - unfold others. f_equal. apply outside_fresh; [done|congruence].
  - unfold grows; cbn. lia.
  - by apply keeps_same.
Qed.
Lemma update_payment_method_evolves U k p p' d :
  db_ok d -> rows (payment_methods d) !! k = Some p -> p_user_id p = U -> p_user_id p' = U ->
  evolves U d (d <| payment_methods ::= update_row k p' |>).
Proof.
  intros H E HU HU'. ok_parts H. split.
  - split; cbn; [| |done|done|done].
    + split; [done|split; [done|split; [by apply below_update|auto 10]]].
    + unfold phead. cbn. setoid_rewrite (head_same _ _ _ _ _ E); [exact R|congruence].
  - unfold others. f_equal. eapply outside_update; [done|congruence..].
  - unfold grows; cbn. lia.
  - by apply keeps_same.
Qed.

Lemma clear_payment_id id r : rc_user_id (clear_payment id r) = rc_user_id r.
Proof. unfold clear_payment. by case_bool_decide. Qed.
Lemma clear_payment_kind id r : er_kind (rc_fields (clear_payment id r)) = er_kind (rc_fields r).
Proof. unfold clear_payment. by case_bool_decide. Qed.
Lemma clear_payment_offsets id r :
  er_offsetsReceiptId (rc_fields (clear_payment id r)) = er_offsetsReceiptId (rc_fields r).
Proof. unfold clear_payment. by case_bool_decide. Qed.
Lemma clear_payment_checks id r : receipt_checks (clear_payment id r) = receipt_checks r.
Proof. unfold clear_payment. by case_bool_decide. Qed.
Lemma rhead_clear_payment id d : rhead (delete_payment_method id d) = rhead d.
Proof.
  unfold rhead, delete_payment_method. cbn. rewrite <- map_fmap_compose. apply map_fmap_ext.
  intros k r _. cbn. by rewrite clear_payment_id, clear_payment_kind.
Qed.
Lemma delete_payment_method_evolves U id p d :
  db_ok d -> rows (payment_methods d) !! id = Some p -> p_user_id p = U -> evolves U d (delete_payment_method id d).
Proof.
  intros H E HU. ok_parts H. pose proof (rhead_clear_payment id d) as Hrh. split.
  - split; rewrite ?Hrh; [cbn; auto 10 with db| |done|done|done].
    eapply all_fmap; [exact R|]. intros k r Er (Hc & Hp & Ho). split; [by rewrite clear_payment_checks|split].
    + intros q. rewrite clear_payment_id. unfold clear_payment. case_bool_decide as Hd; cbn; [done|]. intros Eq.
      unfold phead. cbn. rewrite fmap_delete, lookup_delete_ne; [by apply Hp|]. intros ->. done.
    + intros o. rewrite clear_payment_offsets, clear_payment_id, clear_payment_kind. apply Ho.
  - unfold others. f_equal.
    + eapply outside_remove; [done|congruence].
    + apply outside_fmap; intros k r Er; [by rewrite clear_payment_id|]. intros Ho.
      unfold clear_payment. case_bool_decide as Hd; [|done]. exfalso. apply Ho. f_equal.
      destruct (R k r Er) as (_ & Hp & _). specialize (Hp id Hd). unfold phead in Hp.
      rewrite lookup_fmap, E in Hp. cbn in Hp. congruence.
    + apply outside_items_ext; [done|]. intros k i _. unfold item_owner. by rewrite Hrh.
    + apply links_ext; [done|]. intros l _. unfold link_owner. by rewrite Hrh.
  - unfold grows; cbn. lia.
  - intros k r' _ Er'. apply lookup_fmap_Some in Er' as (r0 & <- & E0). exists r0. split; [done|].
    unfold clear_payment. by case_bool_decide.
Qed.

(** ** Statements on images, items and tag links *)

Lemma insert_image_evolves U row d :
  db_ok d -> im_user_id row = U -> image_ok (rhead d) row -> evolves U d (d <| receipt_images ::= insert_row row |>).
Proof.
  intros H HU Hi. ok_parts H. split.
  - split; [cbn; auto 10 with db|done| |done|done]. apply all_insert; [exact I|done].
  - unfold others. f_equal. apply outside_fresh; [done|congruence].
  - unfold grows; cbn. lia.
  - by apply keeps_same.
Qed.

Lemma insert_item_evolves U row d kind :
  db_ok d -> rhead d !! it_receipt_id row = Some (U, kind) -> item_ok (rhead d) (chead d) row ->
  evolves U d (d <| items ::= insert_row row |>).
Proof.
  intros H HU Hi. ok_parts H.
  assert (Hih : ihead d ⊆ ihead (d <| items ::= insert_row row |>)) by by apply head_subset.
  split.
  - split; [cbn; auto 10 with db|done|done| |].
    + apply all_insert; [exact T|done].
    + intros l Hl. eapply link_ok_mono; [done|exact Hih|done|]. by apply L.
  - unfold others. f_equal.
    + apply outside_fresh; [done|]. unfold item_owner. change (rhead _) with (rhead d). by rewrite HU.
    + apply links_ext; [done|]. intros l Hl. destruct (L l Hl) as (rid & u & E1 & E2 & _).
      unfold link_owner. rewrite (lookup_weaken _ _ _ _ E1 Hih), E1. done.
  - unfold grows; cbn. lia.
  - by apply keeps_same.
Qed.
Lemma update_item_evolves U k i i' d kind :
  db_ok d -> rows (items d) !! k = Some i -> it_receipt_id i' = it_receipt_id i ->
  rhead d !! it_receipt_id i = Some (U, kind) -> item_ok (rhead d) (chead d) i' ->
  evolves U d (d <| items ::= update_row k i' |>).
Proof.
  intros H E Hr HU Hi. ok_parts H.
  assert (Hih : ihead (d <| items ::= update_row k i' |>) = ihead d) by by eapply head_same.
  split.
  - split; [|done|done| |].
    + cbn. do 5 (split; [done|]). by apply below_update.
    + apply all_update; [exact T|done].
    + intros l Hl. rewrite Hih. by apply L.
  - unfold others. f_equal.
    + eapply outside_update; [done|..]; unfold item_owner; change (rhead (d <| _ ::= _ |>)) with (rhead d);
        rewrite ?Hr; by rewrite HU.
    + apply links_ext; [done|]. intros l Hl. unfold link_owner. by rewrite Hih.
  - unfold grows; cbn. lia.
  - by apply keeps_same.
Qed.

(** Deleting some items of [U] with their links. *)
Definition drop_items (gone : Z -> bool) (d : Db) : Db :=
  d <| items ::= fun t => mkTable (filter (fun kv => gone kv.1 = false) (rows t)) (seq t) |>
    <| item_tags ::= fun s => filter (fun l => gone l.1 = false) s |>.
Lemma ihead_drop gone d k rid : ihead (drop_items gone d) !! k = Some rid <-> ihead d !! k = Some rid /\ gone k = false.
Proof.
  unfold ihead, drop_items. cbn. rewrite !lookup_fmap_Some. split.
  - intros (i & <- & Hi). apply map_lookup_filter_Some in Hi as [Hi Hg]. split; [by exists i|done].
  - intros [(i & <- & Hi) Hg]. exists i. split; [done|]. by apply map_lookup_filter_Some.
Qed.
Lemma drop_items_evolves U gone d :
  db_ok d -> (forall k i, rows (items d) !! k = Some i -> gone k = true -> item_owner d i = Some U) ->
  evolves U d (drop_items gone d).
Proof.
  intros H HU. ok_parts H. split.
  - split; [|done|done| |].
    + cbn. do 5 (split; [done|]). intros k i. cbn. rewrite map_lookup_filter_Some. intros [Ei _]. exact (B4 k i Ei).
    + intros k i. cbn. rewrite map_lookup_filter_Some. intros [Ei _]. exact (T k i Ei).
    + intros l. cbn. rewrite elem_of_filter. intros [Hg Hl]. destruct (L l Hl) as (rid & u & E1 & E2 & E3).
      exists rid, u. split; [by apply ihead_drop|done].
  - unfold others. f_equal.
    + apply outside_ext. intros k i. cbn. rewrite map_lookup_filter_Some. cbn. split; [tauto|].
      intros [Ei Ho]. repeat split; [done| |done]. destruct (gone k) eqn:G; [|done]. by rewrite (HU k i Ei G) in Ho.
    + apply filter_set_ext. intros l. cbn. rewrite elem_of_filter.
      assert (Hl : gone l.1 = false -> link_owner (drop_items gone d) l = link_owner d l).
      { intros G. unfold link_owner. change (rhead (drop_items gone d)) with (rhead d).
        destruct (ihead d !! l.1) as [rid|] eqn:E.
        - by rewrite (proj2 (ihead_drop gone d l.1 rid) (conj E G)).
        - destruct (ihead (drop_items gone d) !! l.1) as [rid|] eqn:E'; [|done].
          apply ihead_drop in E' as [E' _]. congruence. }
      split.
      * intros (Ho & G & Hin). by rewrite <- Hl.
      * intros [Ho Hin]. destruct (gone l.1) eqn:G; [|by rewrite Hl]. exfalso. apply Ho.
        destruct (L l Hin) as (rid & u & E1 & E2 & _). unfold ihead in E1. apply lookup_fmap_Some in E1 as (i & <- & Ei).
        pose proof (HU _ _ Ei G) as HUi. unfold link_owner, ihead, item_owner in *. by rewrite lookup_fmap, Ei.
  - unfold grows; cbn. lia.
  - by apply keeps_same.
Qed.

Lemma Db_eq_items (d : Db) t t' s s' : t = t' -> s = s' ->
  d <| items ::= fun _ => t |> <| item_tags ::= fun _ => s |> =
  d <| items ::= fun _ => t' |> <| item_tags ::= fun _ => s' |>.
Proof. by intros -> ->. Qed.
Lemma delete_item_drop id d : delete_item id d = drop_items (fun k => k =? id) d.
Proof.
  apply Db_eq_items.
  - unfold delete_row. f_equal. apply map_eq. intros k. apply option_eq. intros i.
    rewrite lookup_delete_Some, map_lookup_filter_Some. cbn. rewrite Z.eqb_neq. naive_solver.
  - apply set_eq. intros l. cbn. rewrite !elem_of_filter, Z.eqb_neq. done.
Qed.
Lemma delete_items_of_drop rid d : delete_items_of rid d = drop_items (fun k => bool_decide (ihead d !! k = Some rid)) d.
Proof.
  apply Db_eq_items.
  - unfold keep_rows. f_equal. apply map_filter_ext. intros k i Ei. cbn.
    unfold ihead. rewrite lookup_fmap, Ei, negb_true_iff, Z.eqb_neq, bool_decide_eq_false. cbn. split; congruence.
  - apply set_eq. intros l. cbn. rewrite !elem_of_filter, bool_decide_eq_false. unfold ihead. by rewrite lookup_fmap.
Qed.
Lemma delete_item_evolves U id i d :
  db_ok d -> rows (items d) !! id = Some i -> item_owner d i = Some U -> evolves U d (delete_item id d).
Proof.
  intros H E HU. rewrite delete_item_drop. apply drop_items_evolves; [done|].
  intros k i' Ei. rewrite Z.eqb_eq. intros ->. congruence.
Qed.
Lemma delete_items_of_evolves U rid d :
  db_ok d -> fst <$> rhead d !! rid = Some U -> evolves U d (delete_items_of rid d).
Proof.
  intros H HU. rewrite delete_items_of_drop. apply drop_items_evolves; [done|].
  intros k i Ei. rewrite bool_decide_eq_true. unfold ihead, item_owner. rewrite lookup_fmap, Ei. cbn. by intros [= ->].
Qed.

Lemma insert_link_evolves U l d :
  db_ok d -> link_ok (rhead d) (ihead d) (thead d) l -> link_owner d l = Some U ->
  evolves U d (d <| item_tags ::= fun s => {[l]} ∪ s |>).
Proof.
  intros H Hl HU. ok_parts H. split.
  - split; [cbn; auto 10|done..|]. intros l'. cbn. rewrite elem_of_union, elem_of_singleton.
    intros [->|Hl']; [exact Hl|by apply L].
  - unfold others. f_equal. apply filter_set_ext. intros l'. cbn. rewrite elem_of_union, elem_of_singleton.
    change (link_owner (d <| item_tags ::= _ |>)) with (link_owner d). split; [|tauto].
    intros [Ho [->|Hl']]; [by destruct (Ho HU)|done].
  - unfold grows; cbn. lia.
  - by apply keeps_same.
Qed.
Lemma clear_links_evolves U id i d :
  db_ok d -> rows (items d) !! id = Some i -> item_owner d i = Some U ->
  evolves U d (d <| item_tags ::= fun s => filter (fun it => it.1 <> id) s |>).
Proof.
  intros H E HU. ok_parts H. split.
  - split; [cbn; auto 10|done..|]. intros l. cbn. rewrite elem_of_filter. intros [_ Hl]. by apply L.
  - unfold others. f_equal. apply filter_set_ext. intros l. cbn. rewrite elem_of_filter.
    change (link_owner (d <| item_tags ::= _ |>)) with (link_owner d). split; [tauto|].
    intros [Ho Hl]. split; [done|split; [|done]]. intros <-. apply Ho.
    unfold link_owner, ihead. rewrite lookup_fmap, E. exact HU.
  - unfold grows; cbn. lia.
  - by apply keeps_same.
Qed.

(** ** Statements on receipts *)

Lemma keeps_insert r d : keeps d (d <| receipts ::= insert_row r |>).
Proof.
  intros k r' Hk. cbn. rewrite lookup_insert_Some. intros [[<- _]|[_ E]]; [lia|].
  exists r'. split; [done|apply row_kept_refl].
Qed.
Lemma keeps_update k r r' d : rows (receipts d) !! k = Some r -> row_kept r r' ->
  keeps d (d <| receipts ::= update_row k r' |>).
Proof.
  intros E K j r0 _. cbn. rewrite lookup_insert_Some. intros [[<- <-]|[_ E0]]; [by exists r|].
  exists r0. split; [done|apply row_kept_refl].
Qed.
Lemma rhead_owner d id r : rows (receipts d) !! id = Some r -> fst <$> rhead d !! id = Some (rc_user_id r).
Proof. intros E. unfold rhead. by rewrite lookup_fmap, E. Qed.

Lemma insert_receipt_evolves U r d id d' :
  db_ok d -> rc_user_id r = U -> receipt_ok (rhead d) (phead d) (seq (receipts d)) r ->
  insert_receipt r d = Ok (id, d') ->
  evolves U d d' /\ id = seq (receipts d) /\ rows (receipts d') !! id = Some r /\
  (forall k i, rows (items d') !! k = Some i -> it_receipt_id i <> id).
Proof.
  intros H HU Hr Hins. unfold insert_receipt in Hins. ok_inv. ok_parts H.
  assert (Hrh : rhead d ⊆ rhead (d <| receipts ::= insert_row r |>)) by by apply head_subset.
  split; [|split; [done|split]].
  - split.
    + split; [cbn; auto 10 with db| | | |].
      * apply all_insert; [|by eapply receipt_ok_mono]. eapply all_mono; [exact R|]. intros. by eapply receipt_ok_mono.
      * eapply all_mono; [exact I|]. intros. by eapply image_ok_mono.
      * eapply all_mono; [exact T|]. intros. by eapply item_ok_mono.
      * intros l Hl. eapply link_ok_mono; [exact Hrh|done|done|by apply L].
    + unfold others. f_equal.
      * apply outside_fresh; [done|congruence].
      * apply outside_items_ext; [done|]. intros k i Ei. eapply item_owner_mono; [done|exact (T k i Ei)].
      * apply links_ext; [done|]. intros l Hl. destruct (L l Hl) as (rid & u & E1 & E2 & _).
        apply link_owner_same; [done|]. intros rid' E'. assert (rid' = rid) as -> by congruence.
        exact (eq_trans (fst_lookup_mono _ _ _ _ Hrh E2) (eq_sym E2)).
    + unfold grows; cbn. lia.
    + apply keeps_insert.
  - cbn. by rewrite lookup_insert_eq.
  - cbn. intros k i Ei E. destruct (T k i Ei) as (u & kind & Er & _). rewrite E in Er.
    unfold rhead in Er. by rewrite lookup_fmap, below_fresh in Er.
Qed.

(** UPDATE of one receipt of [U]: its references still hold, and its items fit
    the new kind. *)
Lemma update_receipt_evolves U k r r' d :
  db_ok d -> rows (receipts d) !! k = Some r -> rc_user_id r = U -> rc_user_id r' = U ->
  row_kept r r' -> receipt_ok (rhead d) (phead d) k r' ->
  (forall j i c side, rows (items d) !! j = Some i -> it_receipt_id i = k -> it_category_id i = Some c ->
     chead d !! c = Some (U, side) -> fits side (er_kind (rc_fields r'))) ->
  evolves U d (d <| receipts ::= update_row k r' |>).
Proof.
  intros H E HU HU' Hkept Hr Hfit. ok_parts H.
  assert (Hfst : forall j, fst <$> rhead (d <| receipts ::= update_row k r' |>) !! j = fst <$> rhead d !! j).
  { intros j. unfold rhead. cbn. rewrite fmap_insert. destruct (decide (j = k)) as [->|N].
    - rewrite lookup_insert_eq, lookup_fmap, E. cbn. congruence.
    - by rewrite lookup_insert_ne. }
  assert (Hok : forall j r0, receipt_ok (rhead d) (phead d) j r0 ->
    receipt_ok (rhead (d <| receipts ::= update_row k r' |>)) (phead d) j r0).
  { intros j r0 (Hc & Hp & Ho). split; [done|split; [done|]]. intros o Eo. rewrite Hfst. by apply Ho. }
  split.
  - split.
    + cbn. do 3 (split; [done|]). split; [by apply below_update|done].
    + apply all_update; [|by apply Hok]. eapply all_mono; [exact R|]. intros j r0 _. apply Hok.
    + intros j i Ei. unfold image_ok. rewrite Hfst. exact (I j i Ei).
    + intros j i Ei. destruct (T j i Ei) as (u & kind & Er & Hc). unfold item_ok, rhead. cbn. rewrite fmap_insert.
      destruct (decide (it_receipt_id i = k)) as [Ek|N].
      * rewrite Ek, lookup_insert_eq. exists (rc_user_id r'), (er_kind (rc_fields r')). split; [done|].
        intros c Ec. destruct (Hc c Ec) as (side & Es & _). unfold rhead in Er. rewrite Ek, lookup_fmap, E in Er.
        cbn in Er. assert (u = U) as -> by congruence. exists side.
        split; [|by eapply Hfit]. rewrite HU'. exact Es.
      * rewrite lookup_insert_ne by done. by exists u, kind.
    + intros l Hl. destruct (L l Hl) as (rid & u & E1 & E2 & E3). exists rid, u. rewrite Hfst. done.
  - unfold others. f_equal.
    + eapply outside_update; [done|congruence..].
    + apply outside_items_ext; [done|]. intros j i _. apply Hfst.
    + apply links_ext; [done|]. intros l _. apply link_owner_same; [done|]. intros rid _. apply Hfst.
  - unfold grows; cbn. lia.
  - by eapply keeps_update.
Qed.

(** Columns no other table depends on, rewritten on any set of rows. *)
Lemma touch_receipts_evolves U (f : Z -> receipt_row -> receipt_row) d :
  db_ok d ->
  (forall k r, rows (receipts d) !! k = Some r -> row_kept r (f k r) /\ rc_fields (f k r) = rc_fields r /\
     (receipt_checks r = true -> receipt_checks (f k r) = true)) ->
  let d' := d <| receipts ::= map_rows (fun k r => Some (f k r)) |> in
  db_ok d' /\ grows d d' /\ keeps d d' /\
  ((forall k r, rows (receipts d) !! k = Some r -> rc_user_id r <> U -> f k r = r) -> evolves U d d').
Proof.
  intros H Hf d'. ok_parts H.
  assert (Hrh : rhead d' = rhead d).
  { unfold rhead, d'. cbn. apply map_eq. intros k. rewrite !lookup_fmap, map_lookup_imap.
    destruct (rows (receipts d) !! k) as [r|] eqn:E; [|done]. cbn. by destruct (Hf k r E) as ((-> & _) & -> & _). }
  assert (Hok : db_ok d').
  { split; rewrite ?Hrh; [|..|done|].
    - cbn. do 3 (split; [done|]). split; [|done]. intros k r. cbn. rewrite map_lookup_imap, bind_Some.
      intros (r0 & E & _). exact (B2 k r0 E).
    - intros k r. cbn. rewrite map_lookup_imap, bind_Some. intros (r0 & E & [= <-]).
      destruct (Hf k r0 E) as ((Hu & _) & Hfi & Hc). destruct (R k r0 E) as (Hc0 & Hp & Ho).
      unfold receipt_ok. rewrite Hu, Hfi. auto.
    - done.
    - intros l Hl. exact (L l Hl). }
  assert (Hk : keeps d d').
  { intros k r' _. cbn. rewrite map_lookup_imap, bind_Some. intros (r & E & [= <-]). exists r.
    split; [done|]. by apply (Hf k r E). }
  split; [done|]. split; [unfold grows; cbn; lia|]. split; [done|].
  intros Hsame. split; [done| |unfold grows; cbn; lia|done].
  unfold others. f_equal.
  - apply outside_ext. intros k r. cbn. rewrite map_lookup_imap, bind_Some. split.
    + intros [(r0 & E & [= <-]) Ho]. destruct (Hf k r0 E) as ((Hu & _) & _). rewrite Hu in Ho.
      rewrite (Hsame k r0 E) by congruence. by split.
    + intros [E Ho]. split; [|done]. exists r. split; [done|]. rewrite (Hsame k r E) by congruence. done.
  - apply outside_items_ext; [done|]. intros k i _. unfold item_owner. by rewrite Hrh.
  - apply links_ext; [done|]. intros l _. unfold link_owner. by rewrite Hrh.
Qed.

Lemma clear_offset_user id r : rc_user_id (clear_offset id r) = rc_user_id r.
Proof. unfold clear_offset. by case_bool_decide. Qed.
Lemma clear_offset_kind id r : er_kind (rc_fields (clear_offset id r)) = er_kind (rc_fields r).
Proof. unfold clear_offset. by case_bool_decide. Qed.
Lemma clear_offset_payment id r :
  er_paymentMethodId (rc_fields (clear_offset id r)) = er_paymentMethodId (rc_fields r).
Proof. unfold clear_offset. by case_bool_decide. Qed.
Lemma clear_offset_checks id r : receipt_checks (clear_offset id r) = receipt_checks r.
Proof. unfold clear_offset. by case_bool_decide. Qed.

Lemma clear_offset_Some id r o : er_offsetsReceiptId (rc_fields (clear_offset id r)) = Some o ->
  er_offsetsReceiptId (rc_fields r) = Some o /\ o <> id.
Proof.
  unfold clear_offset. case_bool_decide as Hd; cbn; [done|]. intros E. split; [done|]. intros ->. done.
Qed.

Definition drop_receipt (id : Z) (d : Db) : Db :=
  d <| receipts ::= fun t => mkTable (clear_offset id <$> delete id (rows t)) (seq t) |>
    <| receipt_images ::= keep_rows (fun i => negb (im_receipt_id i =? id)) |>.
Lemma drop_receipt_rhead id d : rhead (drop_receipt id d) = delete id (rhead d).
Proof.
  unfold rhead, drop_receipt. cbn. rewrite <- map_fmap_compose, <- fmap_delete. apply map_fmap_ext.
  intros k r _. cbn. by rewrite clear_offset_user, clear_offset_kind.
Qed.
Lemma drop_receipt_lookup id d k r0 : rows (receipts (drop_receipt id d)) !! k = Some r0 <->
  exists r1, clear_offset id r1 = r0 /\ rows (receipts d) !! k = Some r1 /\ id <> k.
Proof. cbn. rewrite lookup_fmap_Some. setoid_rewrite lookup_delete_Some. naive_solver. Qed.
Lemma drop_receipt_fst id d k : k <> id -> fst <$> rhead (drop_receipt id d) !! k = fst <$> rhead d !! k.
Proof. intros N. by rewrite drop_receipt_rhead, lookup_delete_ne. Qed.
Lemma drop_receipt_evolves U id r d :
  db_ok d -> rows (receipts d) !! id = Some r -> rc_user_id r = U ->
  (forall k i, rows (items d) !! k = Some i -> it_receipt_id i <> id) -> evolves U d (drop_receipt id d).
Proof.
  intros H E HU Hno. ok_parts H.
  assert (Hit : forall rid k, ihead d !! k = Some rid -> rid <> id).
  { intros rid k. unfold ihead. rewrite lookup_fmap_Some. intros (i & <- & Ei). by eapply Hno. }
  split.
  - split.
    + do 3 (split; [done|]). split; [|split; [by apply below_keep|done]].
      intros k r0 (r1 & _ & E1 & _)%drop_receipt_lookup. exact (B2 k r1 E1).
    + intros k r0 (r1 & <- & E1 & N)%drop_receipt_lookup. destruct (R k r1 E1) as (Hc & Hp & Ho).
      unfold receipt_ok. rewrite clear_offset_user, clear_offset_payment, clear_offset_checks, clear_offset_kind.
      split; [done|split; [exact Hp|]]. intros o [Eo No]%clear_offset_Some.
      destruct (Ho o Eo) as (? & ? & ?). rewrite drop_receipt_fst by done. auto.
    + intros k i [Ei Hn]%map_lookup_filter_Some. cbn in Hn. apply negb_true_iff, Z.eqb_neq in Hn.
      unfold image_ok. rewrite drop_receipt_fst by done. exact (I k i Ei).
    + intros k i Ei. destruct (T k i Ei) as (u & kind & Er & Hc). exists u, kind. split; [|exact Hc].
      rewrite drop_receipt_rhead, lookup_delete_ne; [done|]. intros Eid. by eapply Hno, eq_sym.
    + intros l Hl. destruct (L l Hl) as (rid & u & E1 & E2 & E3). exists rid, u. split; [done|split; [|done]].
      rewrite drop_receipt_fst; [done|]. by eapply Hit.
  - unfold others. f_equal.
    + apply outside_ext. intros k r0. rewrite drop_receipt_lookup. split.
      * intros [(r1 & <- & E1 & N) Ho]. rewrite clear_offset_user in Ho.
        split; [|by rewrite clear_offset_user]. unfold clear_offset. case_bool_decide as Hd; [|done].
        exfalso. apply Ho. destruct (R k r1 E1) as (_ & _ & Hof). destruct (Hof id Hd) as (_ & _ & Hf).
        rewrite (rhead_owner _ _ _ E) in Hf. congruence.
      * intros [E1 Ho]. split; [|done]. exists r0. split.
        -- unfold clear_offset. case_bool_decide as Hd; [|done].
           exfalso. apply Ho. destruct (R k r0 E1) as (_ & _ & Hof). destruct (Hof id Hd) as (_ & _ & Hf).
           rewrite (rhead_owner _ _ _ E) in Hf. congruence.
        -- split; [done|]. intros ->. apply Ho. congruence.
    + apply outside_keep. intros k i Ei. rewrite negb_false_iff, Z.eqb_eq. intros Eid.
      pose proof (I k i Ei) as Hi. unfold image_ok in Hi. rewrite Eid, (rhead_owner _ _ _ E) in Hi. congruence.
    + apply outside_items_ext; [done|]. intros k i Ei. apply drop_receipt_fst. by eapply Hno.
    + apply links_ext; [done|]. intros l _. apply link_owner_same; [done|]. intros rid Eh.
      apply drop_receipt_fst. by eapply Hit.
  - unfold grows; cbn. lia.
  - intros k r' _ (r0 & <- & E0 & _)%drop_receipt_lookup. exists r0. split; [done|].
    unfold clear_offset. by case_bool_decide.
Qed.
Lemma delete_receipt_evolves U id r d :
  db_ok d -> rows (receipts d) !! id = Some r -> rc_user_id r = U -> evolves U d (delete_receipt id d).
Proof.
  intros H E HU. pose proof (delete_items_of_evolves U id d H) as H1.
  rewrite (rhead_owner _ _ _ E), HU in H1. specialize (H1 eq_refl).
  eapply evolves_trans; [exact H1|]. apply (drop_receipt_evolves U id r); [apply H1|done..|].
  intros k i. unfold delete_items_of. cbn. rewrite map_lookup_filter_Some. cbn.
  rewrite negb_true_iff, Z.eqb_neq. tauto.
Qed.

(** ** Rollback *)

Lemma rollback_evolves U d d' : db_ok d -> grows d d' -> users d' = users d -> sessions d' = sessions d ->
  auth_tokens d' = auth_tokens d -> evolves U d (rollback_db d d').
Proof.
  intros H G Eu Es Ea. ok_parts H. unfold grows in G. split.
  - split; [|done..]. cbn. split; [|split; [|split; [|split; [|split]]]]; apply below_keep_seq; (done || lia).
  - unfold others. f_equal. cbn. rewrite Eu, Es, Ea. by destruct (users d), (sessions d), (auth_tokens d).
  - unfold grows in *; cbn. lia.
  - by apply keeps_same.
Qed.
Lemma rollback_of U d d' : db_ok d -> evolves U d d' -> evolves U d (rollback_db d d').
Proof.
  intros H [_ E G _]. pose proof (f_equal vw_accounts E) as Ea. injection Ea as Eu Es Et.
  by apply rollback_evolves.
Qed.
