(* ===== verification/Safety.v ===== *)
(** * Every service call keeps the invariant and the other users' rows

    [holds U d0 P w]: the database has evolved from [d0] for user [U] and
    satisfies [P].  The lemmas follow the calls of the services, from
    [ItemService.insert] up. *)
From S2P Require Import Prelude CString Binary64 Json Kinds JsonInput LedgerInput TokenUtils Env Db World.
From S2P Require Import ItemService ReceiptService ReferenceData Invariant Statements.

Section Safety.
Context `{PG : Postgres} `{IS : ImageStore} `{SO : Sodium} `{EN : Environment} `{VI : Vips} `{PL : Platform}.

Definition holds (U : Z) (d0 : Db) (P : Db -> Prop) (w : World) : Prop := evolves U d0 (w_db w) /\ P (w_db w).
(** A call that evolves the database for [U], however it ends. *)
Definition safe (U : Z) {A} (m : M A) : Prop :=
  forall w, db_ok (w_db w) -> wp m (fun _ w' => evolves U (w_db w) (w_db w')) w.

Lemma step_evolves U d0 d d' : evolves U d0 d -> (db_ok d -> evolves U d d') -> evolves U d0 d'.
Proof. intros H1 H2. eapply evolves_trans; [exact H1|]. apply H2, H1. Qed.
Lemma wp_transaction_safe {A} U d0 (body : M A) w :
  evolves U d0 (w_db w) ->
  wp body (fun _ w' => evolves U (w_db w) (w_db w')) w ->
  wp (transaction body) (fun _ w' => evolves U d0 (w_db w')) w.
Proof.
  intros H0 H. apply wp_transaction. eapply wp_mono; [exact H|]. intros r w' E.
  assert (evolves U d0 (w_db w')) by (eapply evolves_trans; eassumption).
  destruct r; [done|..]; cbn; eapply evolves_trans; try exact H0; apply rollback_of; try done; apply H0.
Qed.
Lemma wp_transactionE_safe {A} U d0 (body : M (ending A)) w :
  evolves U d0 (w_db w) ->
  wp body (fun _ w' => evolves U (w_db w) (w_db w')) w ->
  wp (transactionE body) (fun _ w' => evolves U d0 (w_db w')) w.
Proof.
  intros H0 H. unfold wp, transactionE in *. destruct (body w) as [r w']. cbn in *.
  assert (evolves U (w_db w) (rollback_db (w_db w) (w_db w'))) by (apply rollback_of; [apply H0|done]).
  destruct r as [[]| |]; cbn; (eapply evolves_trans; [exact H0|done]).
Qed.

(** Reads of the caller's own rows. *)
Lemma owned_receipt_Some U id d r : owned_receipt U id d = Some r ->
  rows (receipts d) !! id = Some r /\ rc_user_id r = U.
Proof.
  unfold owned_receipt. destruct (rows (receipts d) !! id); [|done]. destruct (Z.eqb_spec (rc_user_id r0) U); [|done].
  by intros [= ->].
Qed.
Lemma owned_category_Some U id d c : owned_category U id d = Some c ->
  rows (categories d) !! id = Some c /\ c_user_id c = U.
Proof.
  unfold owned_category. destruct (rows (categories d) !! id); [|done]. destruct (Z.eqb_spec (c_user_id c0) U); [|done].
  by intros [= ->].
Qed.
Lemma owned_tag_Some U id d t : owned_tag U id d = Some t -> rows (tags d) !! id = Some t /\ t_user_id t = U.
Proof.
  unfold owned_tag. destruct (rows (tags d) !! id); [|done]. destruct (Z.eqb_spec (t_user_id t0) U); [|done].
  by intros [= ->].
Qed.
Lemma owned_payment_method_Some U id d p : owned_payment_method U id d = Some p ->
  rows (payment_methods d) !! id = Some p /\ p_user_id p = U.
Proof.
  unfold owned_payment_method. destruct (rows (payment_methods d) !! id); [|done].
  destruct (Z.eqb_spec (p_user_id p0) U); [|done]. by intros [= ->].
Qed.
Lemma owned_receipt_head U id d r : owned_receipt U id d = Some r ->
  rhead d !! id = Some (U, er_kind (rc_fields r)).
Proof. intros [E <-]%owned_receipt_Some. unfold rhead. by rewrite lookup_fmap, E. Qed.
Lemma rhead_Some d id U kind : rhead d !! id = Some (U, kind) ->
  exists r, rows (receipts d) !! id = Some r /\ rc_user_id r = U /\ er_kind (rc_fields r) = kind.
Proof. unfold rhead. rewrite lookup_fmap_Some. intros (r & [= <- <-] & E). by exists r. Qed.

(** ** Items *)

(** An item of a receipt of [U], while its links are rewritten. *)
Definition own_item (U rid itemId : Z) (kind : string) (d : Db) : Prop :=
  rhead d !! rid = Some (U, kind) /\ ihead d !! itemId = Some rid.
Lemma own_item_owner U rid itemId kind d : own_item U rid itemId kind d ->
  exists i, rows (items d) !! itemId = Some i /\ it_receipt_id i = rid /\ item_owner d i = Some U.
Proof.
  intros [Hr Hi]. unfold ihead in Hi. apply lookup_fmap_Some in Hi as (i & <- & E). exists i.
  split; [done|split; [done|]]. unfold item_owner. by rewrite Hr.
Qed.

Lemma add_tag_safe U d0 rid itemId kind tagId w :
  holds U d0 (own_item U rid itemId kind) w ->
  wp (ItemService.add_tag U itemId tagId) (fun _ => holds U d0 (own_item U rid itemId kind)) w.
Proof.
  intros H. pose proof H as [He Ho]. unfold ItemService.add_tag. wp_steps. destruct (owned_tag U tagId (w_db w)) as [t|] eqn:E; wp_steps; [|done].
  destruct (sql_insert_item_tag _ _ _) as [d'| |] eqn:Es; [|done..]. unfold sql_insert_item_tag in Es. ok_inv.
  split; [|exact Ho]. apply (step_evolves _ _ _ _ He). intros Hok. apply (insert_link_evolves U (itemId, tagId)); [done|..].
  - apply owned_tag_Some in E as [E HU]. destruct Ho as [Hr Hi]. exists rid, U. split; [done|].
    rewrite Hr. split; [done|]. unfold thead. cbn [snd]. rewrite lookup_fmap, E. cbn. congruence.
  - destruct Ho as [Hr Hi]. unfold link_owner. cbn [fst]. rewrite Hi. cbn. by rewrite Hr.
Qed.
Lemma replaceTags_safe U d0 rid itemId kind tagIds w :
  holds U d0 (own_item U rid itemId kind) w ->
  wp (ItemService.replaceTags U itemId tagIds) (fun _ => holds U d0 (own_item U rid itemId kind)) w.
Proof.
  intros H. pose proof H as [He Ho]. unfold ItemService.replaceTags. wp_steps. cbn. apply wp_for_each.
  - intros tagId w' _. apply add_tag_safe.
  - split; [|exact Ho]. apply (step_evolves _ _ _ _ He). intros Hok.
    destruct (own_item_owner _ _ _ _ _ Ho) as (i & E & _ & HU). by eapply clear_links_evolves.
Qed.

(** The category an item is about to get fits the kind it was checked against. *)
Definition cat_ok (U : Z) (kind : string) (c : option Z) (d : Db) : Prop :=
  forall k, c = Some k -> exists side, chead d !! k = Some (U, side) /\ fits side kind.
Lemma requireCategoryFitsKind_safe U categoryId kind w :
  wp (ItemService.requireCategoryFitsKind U categoryId kind)
     (fun r w' => w' = w /\ (r = Ok () -> cat_ok U kind (Some categoryId) (w_db w))) w.
Proof.
  unfold ItemService.requireCategoryFitsKind. wp_steps.
  destruct (owned_category U categoryId (w_db w)) as [c|] eqn:E; wp_steps; [|done].
  destruct (categoryFitsKind (c_is_income c) kind) as [[]| |] eqn:F; cbn [after]; wp_steps; [| |done..].
  - split; [done|]. intros _ k [= <-]. apply owned_category_Some in E as [E HU]. exists (c_is_income c).
    unfold chead. rewrite lookup_fmap, E. cbn. by rewrite HU.
  - destruct (rulesFor kind); cbn [after]; wp_steps; done.
Qed.
Lemma input_row_ok U d rid kind i :
  rhead d !! rid = Some (U, kind) -> cat_ok U kind (ii_categoryId i) d ->
  item_ok (rhead d) (chead d) (ItemService.input_row rid i).
Proof. intros Hr Hc. exists U, kind. split; [done|exact Hc]. Qed.

(** [insert] leaves the receipt with the new item on it. *)
Lemma insert_spec U d0 rid kind item w :
  holds U d0 (fun d => rhead d !! rid = Some (U, kind)) w ->
  wp (ItemService.insert U rid kind item)
     (fun r w' => holds U d0 (fun d => rhead d !! rid = Some (U, kind)) w' /\
        forall itemId, r = Ok itemId -> own_item U rid itemId kind (w_db w')) w.
Proof.
  intros H. pose proof H as [He Hr]. unfold ItemService.insert. apply wp_bind.
  apply (wp_mono _ (fun r w' => w' = w /\ (r = Ok () -> cat_ok U kind (ii_categoryId item) (w_db w)))).
  { destruct (ii_categoryId item) as [c|]; [apply requireCategoryFitsKind_safe|]. by apply wp_ret. }
  intros r w' [-> Hc]. destruct r as [[]| |]; cbn [after]; [|done..]. specialize (Hc eq_refl).
  wp_steps. destruct (sql_insert_item _ _) as [[itemId d']| |] eqn:Es; [|done..]. unfold sql_insert_item in Es. ok_inv.
  wp_steps.
  eapply wp_mono; [apply (replaceTags_safe U d0 rid _ kind)|].
  - split; [|split; [exact Hr|]].
    + apply (step_evolves _ _ _ _ He). intros Hok. eapply insert_item_evolves; [done|exact Hr|].
      by eapply input_row_ok.
    + unfold ihead. cbn. by rewrite fmap_insert, lookup_insert_eq.
  - intros r w' [He' Ho]. pose proof Ho as [Hr' _]. destruct r; cbn [after]; [|done..]. apply wp_ret.
    split; [done|]. by intros k [= <-].
Qed.
Lemma insert_safe U d0 rid kind item w :
  holds U d0 (fun d => rhead d !! rid = Some (U, kind)) w ->
  wp (ItemService.insert U rid kind item)
     (fun _ => holds U d0 (fun d => rhead d !! rid = Some (U, kind))) w.
Proof. intros H. eapply wp_mono; [by apply insert_spec|]. by intros r w' [? _]. Qed.

Lemma fetchItem_same itemId w : wp (ItemService.fetchItem itemId) (fun _ w' => w' = w) w.
Proof. unfold ItemService.fetchItem, ItemService.tagIdsFor. wp_steps. by destruct (rows (items (w_db w)) !! itemId); wp_steps. Qed.

Lemma item_create_safe U rid body : safe U (ItemService.create U rid body).
Proof.
  intros w Hok. unfold ItemService.create. wp_steps. destruct (parseNewItem body) as [input| |]; cbn [after];
    [|by apply evolves_refl..].
  apply wp_transaction_safe; [by apply evolves_refl|]. unfold ItemService.ownedReceiptKind. wp_steps.
  destruct (owned_receipt U rid (w_db w)) as [r|] eqn:E; wp_steps; [|by apply evolves_refl].
  eapply wp_mono; [apply (insert_safe U (w_db w) rid (er_kind (rc_fields r)))|].
  { split; [by apply evolves_refl|]. by eapply owned_receipt_head. }
  intros [itemId| |] w' [He _]; cbn [after]; [|exact He..].
  eapply wp_mono; [apply fetchItem_same|]. by intros r' w'' ->.
Qed.

Lemma applyItemPatch_category i body i' given : applyItemPatch i body = Ok (i', given) ->
  has "category_id" body = false -> ii_categoryId i' = ii_categoryId i.
Proof.
  unfold applyItemPatch. intros H Hb. ok_inv. apply applyItemFields_Ok in Ha1 as [_ _ _ _ Hc _ _].
  unfold patched, has in *. by destruct (find "category_id" body).
Qed.

(** The category check of an item's PATCH: named and checked, or the one it had. *)
Lemma patched_category_ok U rid itemId row r body item given w :
  db_ok (w_db w) -> rows (items (w_db w)) !! itemId = Some row -> it_receipt_id row = rid ->
  rhead (w_db w) !! rid = Some (U, er_kind (rc_fields r)) ->
  applyItemPatch (ItemService.itemToInput (mkItem itemId row [])) body = Ok (item, given) ->
  wp match ii_categoryId item with
     | Some c => if has "category_id" body then ItemService.requireCategoryFitsKind U c (er_kind (rc_fields r)) else mret ()
     | None => mret ()
     end (fun res w' => w' = w /\ (res = Ok () -> cat_ok U (er_kind (rc_fields r)) (ii_categoryId item) (w_db w))) w.
Proof.
  intros Hok Ei Er Hr Ep. destruct (has "category_id" body) eqn:Hc.
  - destruct (ii_categoryId item) as [c|]; [apply requireCategoryFitsKind_safe|by apply wp_ret].
  - assert (cat_ok U (er_kind (rc_fields r)) (ii_categoryId item) (w_db w)) as Hcat.
    { rewrite (applyItemPatch_category _ _ _ _ Ep Hc). cbn.
      destruct (ok_items _ Hok itemId row Ei) as (u & kind & Eh & Hfit). rewrite Er, Hr in Eh.
      injection Eh as <- <-. exact Hfit. }
    destruct (ii_categoryId item); by apply wp_ret.
Qed.
Lemma item_update_safe U rid itemId body : safe U (ItemService.update U rid itemId body).
Proof.
  intros w Hok. unfold ItemService.update. apply wp_transaction_safe; [by apply evolves_refl|].
  pose proof (evolves_refl U _ Hok) as Hrefl.
  unfold ItemService.ownedReceiptKind. wp_steps.
  destruct (owned_receipt U rid (w_db w)) as [r|] eqn:E; wp_steps; [|done].
  destruct (rows (items (w_db w)) !! itemId) as [row|] eqn:Ei; wp_steps; [|done].
  destruct (Z.eqb_spec (it_receipt_id row) rid) as [Er|]; cbn [negb]; wp_steps; [|done].
  destruct (applyItemPatch _ body) as [[item given]| |] eqn:Ep; cbn [after]; [|done..]. wp_steps.
  pose proof (owned_receipt_head _ _ _ _ E) as Hr.
  apply (wp_mono _ (fun res w' => w' = w /\ (res = Ok () -> cat_ok U (er_kind (rc_fields r)) (ii_categoryId item) (w_db w)))).
  { by eapply patched_category_ok. }
  intros res w' [-> Hcat]. destruct res as [[]| |]; cbn [after]; [|done..]. specialize (Hcat eq_refl).
  wp_steps. destruct (sql_update_item _ _ _) as [d'| |] eqn:Es; [|done..].
  assert (d' = (w_db w) <| items ::= update_row itemId (ItemService.input_row rid item) |>) as ->
    by by unfold sql_update_item in Es; ok_inv.
  set (kind := er_kind (rc_fields r)) in *.
  assert (Hev : evolves U (w_db w) ((w_db w) <| items ::= update_row itemId (ItemService.input_row rid item) |>)).
  { eapply update_item_evolves; [done|done|done|by rewrite Er|]. by eapply input_row_ok. }
  wp_steps. apply (wp_mono _ (fun _ w' => evolves U (w_db w) (w_db w'))).
  - destruct given; wp_steps; [|done]. eapply wp_mono; [apply (replaceTags_safe U (w_db w) rid itemId kind)|].
    + split; [done|]. split; [exact Hr|]. unfold ihead. cbn. by rewrite fmap_insert, lookup_insert_eq.
    + by intros ? ? [].
  - intros [[]| |] w' He; cbn [after]; [|done..]. wp_steps.
    eapply wp_mono; [apply fetchItem_same|]. by intros r' w'' ->.
Qed.

Lemma item_remove_safe U rid itemId : safe U (ItemService.remove U rid itemId).
Proof.
  intros w Hok. unfold ItemService.remove, ItemService.ownedReceiptKind. pose proof (evolves_refl U _ Hok) as Hrefl. wp_steps.
  destruct (owned_receipt U rid (w_db w)) as [r|] eqn:E; wp_steps; [|done].
  destruct (rows (items (w_db w)) !! itemId) as [row|] eqn:Ei; wp_steps; [|done].
  destruct (Z.eqb_spec (it_receipt_id row) rid) as [Er|]; wp_steps; [|done].
  eapply delete_item_evolves; [done|done|]. unfold item_owner. by rewrite Er, (owned_receipt_head _ _ _ _ E).
Qed.

(** ** Categories, tags and payment methods *)

Lemma removed_same noun b w : wp (removed noun b) (fun _ w' => w' = w) w.
Proof. unfold removed. by destruct b; wp_steps. Qed.
(** A guarded call: on an exception the world is as it was. *)
Lemma wp_renamed {A} U d0 (m : M A) (f : exn -> exn) w :
  wp m (fun _ w' => evolves U d0 (w_db w')) w ->
  wp (mcatch m (fun e => mthrow (f e))) (fun _ w' => evolves U d0 (w_db w')) w.
Proof. intros H. apply wp_catch. eapply wp_mono; [exact H|]. intros [] w' He; [done|by apply wp_throw|done]. Qed.
Lemma wp_exec_safe {A} U d0 (f : Db -> outcome (A * Db)) w :
  evolves U d0 (w_db w) -> (forall a d', f (w_db w) = Ok (a, d') -> evolves U d0 d') ->
  wp (exec f) (fun _ w' => evolves U d0 (w_db w')) w.
Proof. intros H Hf. apply wp_exec. destruct (f (w_db w)) as [[a d']| |] eqn:E; [|done..]. by eapply Hf. Qed.

Lemma insert_unique_Ok {A} same owner (f : Db -> table A) `{!Setter f} row d id d' :
  insert_unique same owner f row d = Ok (id, d') -> d' = set_field f (insert_row row) d.
Proof. unfold insert_unique. intros H. by ok_inv. Qed.
Lemma update_unique_Ok {A} same (f : Db -> table A) `{!Setter f} id row d d' :
  update_unique same f id row d = Ok d' -> d' = set_field f (update_row id row) d.
Proof. unfold update_unique. intros H. by ok_inv. Qed.

Lemma wp_lift_bind {A B} (m : outcome A) (k : A -> M B) U w :
  db_ok (w_db w) -> (forall a, m = Ok a -> wp (k a) (fun _ w' => evolves U (w_db w) (w_db w')) w) ->
  wp (mbind k (lift m)) (fun _ w' => evolves U (w_db w) (w_db w')) w.
Proof. intros H Hk. wp_steps. destruct m; cbn [after]; [by apply Hk|by apply evolves_refl..]. Qed.

Lemma category_create_safe U body : safe U (CategoryService.create U body).
Proof.
  intros w Hok. unfold CategoryService.create. do 4 (apply wp_lift_bind; [done|intros ? _]).
  apply wp_renamed, wp_bind. eapply wp_mono; [apply (wp_exec_safe U (w_db w))|].
  - by apply evolves_refl.
  - intros id d' ->%insert_unique_Ok. by apply insert_category_evolves.
  - intros [id| |] w' He; cbn [after]; [by apply wp_ret|done..].
Qed.
Lemma tag_create_safe U body : safe U (TagService.create U body).
Proof.
  intros w Hok. unfold TagService.create. do 3 (apply wp_lift_bind; [done|intros ? _]).
  apply wp_renamed, wp_bind. eapply wp_mono; [apply (wp_exec_safe U (w_db w))|].
  - by apply evolves_refl.
  - intros id d' ->%insert_unique_Ok. by apply insert_tag_evolves.
  - intros [id| |] w' He; cbn [after]; [by apply wp_ret|done..].
Qed.
Lemma payment_method_create_safe U body : safe U (PaymentMethodService.create U body).
Proof.
  intros w Hok. unfold PaymentMethodService.create. do 4 (apply wp_lift_bind; [done|intros ? _]).
  apply wp_renamed, wp_bind. eapply wp_mono; [apply (wp_exec_safe U (w_db w))|].
  - by apply evolves_refl.
  - intros id d' ->%insert_unique_Ok. by apply insert_payment_method_evolves.
  - intros [id| |] w' He; cbn [after]; [by apply wp_ret|done..].
Qed.

Lemma existsb_false {A} (p : A -> bool) l x : existsb p l = false -> x ∈ l -> p x = false.
Proof.
  intros H Hx. destruct (p x) eqn:E; [|done]. rewrite (proj2 (existsb_exists p l)) in H; [done|].
  exists x. by rewrite <- list_elem_of_In.
Qed.
Lemma select_spec {A} (p : A -> bool) (t : table A) k a : rows t !! k = Some a -> p a = true -> (k, a) ∈ select p t.
Proof. intros E H. unfold select. apply elem_of_map_to_list, map_lookup_filter_Some. by split. Qed.

(** Flipping a category's side without a clash leaves every item fitting. *)
Lemma kind_side kind : is_Some (findKind kind) ->
  forall side, bool_decide (kind ∈ income_kinds) = side -> fits side kind.
Proof.
  intros [rules Hk] side Hs. unfold fits, categoryFitsKind, rulesFor. rewrite Hk. cbn. f_equal.
  destruct_kind Hk; subst; vm_compute; reflexivity.
Qed.
Lemma item_kind_known d i u kind : db_ok d -> rhead d !! it_receipt_id i = Some (u, kind) -> is_Some (findKind kind).
Proof.
  intros Hok (r & E & _ & <-)%rhead_Some. destruct (ok_receipts _ Hok _ _ E) as (Hc & _).
  unfold receipt_checks in Hc. rewrite !andb_true_iff in Hc. destruct Hc as [[[[[[[Hk _] _] _] _] _] _] _].
  apply bool_decide_eq_true in Hk. unfold findKind, find_rules, kKinds. cbn [name purchase_rules refund_rules
    reimbursement_rules income_rules transfer_rules].
  repeat (apply elem_of_cons in Hk as [->|Hk]; [repeat case_decide; done|]). by apply elem_of_nil in Hk.
Qed.
Lemma category_clash_false d k side : db_ok d -> category_clash k side d = false ->
  forall j i u kind, rows (items d) !! j = Some i -> it_category_id i = Some k ->
    rhead d !! it_receipt_id i = Some (u, kind) -> fits side kind.
Proof.
  intros Hok Hcl j i u kind Ei Ec Er. apply kind_side; [by eapply item_kind_known|].
  apply rhead_Some in Er as (r & E & _ & <-).
  pose proof (existsb_false _ _ (j, i) Hcl (select_spec _ _ j i Ei (bool_decide_eq_true_2 _ Ec))) as Hb.
  cbv beta iota in Hb. cbn [snd] in Hb. rewrite E in Hb. by apply negb_false_iff, eqb_prop in Hb.
Qed.

Lemma category_update_safe U id body : safe U (CategoryService.update U id body).
Proof.
  intros w Hok. unfold CategoryService.update. do 4 (apply wp_lift_bind; [done|intros ? _]).
  apply wp_renamed. pose proof (evolves_refl U _ Hok) as Hrefl. apply wp_transaction_safe; [done|]. wp_steps.
  destruct (owned_category U id (w_db w)) as [c|] eqn:E; wp_steps; [|done].
  apply owned_category_Some in E as [E HU].
  set (side := default (c_is_income c) a2).
  apply (wp_mono _ (fun r w' => w' = w /\ (r = Ok () -> forall j i u kind, rows (items (w_db w)) !! j = Some i ->
     it_category_id i = Some id -> rhead (w_db w) !! it_receipt_id i = Some (u, kind) -> fits side kind))).
  { assert (Hsame : forall j i u kind, rows (items (w_db w)) !! j = Some i ->
      it_category_id i = Some id -> rhead (w_db w) !! it_receipt_id i = Some (u, kind) -> fits (c_is_income c) kind).
    { intros j i u kind Ei Ec Er. destruct (ok_items _ Hok j i Ei) as (u' & kind' & Er' & Hc).
      rewrite Er in Er'. injection Er' as <- <-. destruct (Hc id Ec) as (s & Es & F).
      unfold chead in Es. rewrite lookup_fmap, E in Es. cbn in Es. by injection Es as _ <-. }
    subst side. destruct a2 as [s|]; cbn [default]; [|by apply wp_ret].
    destruct (eqb s (c_is_income c)) eqn:Eb; [apply eqb_prop in Eb as ->; by apply wp_ret|]. wp_steps.
    destruct (category_clash id s (w_db w)) eqn:Hcl; wp_steps; [done|]. split; [done|]. intros _.
    by apply category_clash_false. }
  intros [[]| |] w' [-> Hfit]; cbn [after]; [|done..]. specialize (Hfit eq_refl). wp_steps.
  destruct (update_unique _ _ _ _ _) as [d'| |] eqn:Eu; [|done..]. apply update_unique_Ok in Eu as ->. wp_steps.
  by eapply update_category_evolves.
Qed.

Lemma tag_update_safe U id body : safe U (TagService.update U id body).
Proof.
  intros w Hok. unfold TagService.update. do 3 (apply wp_lift_bind; [done|intros ? _]). apply wp_bind.
  eapply wp_mono; [apply wp_renamed, (wp_exec_safe U (w_db w)); [by apply evolves_refl|]|].
  - intros b d'. destruct (owned_tag U id (w_db w)) as [t|] eqn:E; [|intros [= <- <-]; by apply evolves_refl].
    intros H. apply obind_Ok in H as (d1 & ->%update_unique_Ok & [= <- <-]).
    apply owned_tag_Some in E as [E HU]. by eapply update_tag_evolves.
  - intros [[]| |] w' He; cbn [after]; wp_steps; done.
Qed.
Lemma payment_method_update_safe U id body : safe U (PaymentMethodService.update U id body).
Proof.
  intros w Hok. unfold PaymentMethodService.update. do 4 (apply wp_lift_bind; [done|intros ? _]). apply wp_bind.
  eapply wp_mono; [apply wp_renamed, (wp_exec_safe U (w_db w)); [by apply evolves_refl|]|].
  - intros b d'. destruct (owned_payment_method U id (w_db w)) as [t|] eqn:E; [|intros [= <- <-]; by apply evolves_refl].
    intros H. apply obind_Ok in H as (d1 & ->%update_unique_Ok & [= <- <-]).
    apply owned_payment_method_Some in E as [E HU]. by eapply update_payment_method_evolves.
  - intros [[]| |] w' He; cbn [after]; wp_steps; done.
Qed.

Lemma remove_safe {A} U noun (own : Db -> option A) del w :
  db_ok (w_db w) -> (forall a, own (w_db w) = Some a -> evolves U (w_db w) (del (w_db w))) ->
  wp (mbind (fun result => removed noun result) (exec (fun d => delete_owned (own d) (del) d)))
     (fun _ w' => evolves U (w_db w) (w_db w')) w.
Proof.
  intros Hok H. apply wp_bind. eapply wp_mono; [apply (wp_exec_safe U (w_db w)); [by apply evolves_refl|]|].
  - intros b d'. unfold delete_owned. destruct (own (w_db w)) as [a|] eqn:E; intros [= <- <-]; [by eapply H|by apply evolves_refl].
  - intros [b| |] w' He; cbn [after]; [|done..]. eapply wp_mono; [apply removed_same|]. by intros ? ? ->.
Qed.
Lemma category_remove_safe U id : safe U (CategoryService.remove U id).
Proof.
  intros w Hok. apply (remove_safe U "category" (owned_category U id) (delete_category id)); [done|].
  intros c [E HU]%owned_category_Some. by eapply delete_category_evolves.
Qed.
Lemma tag_remove_safe U id : safe U (TagService.remove U id).
Proof.
  intros w Hok. apply (remove_safe U "tag" (owned_tag U id) (delete_tag id)); [done|].
  intros c [E HU]%owned_tag_Some. by eapply delete_tag_evolves.
Qed.
Lemma payment_method_remove_safe U id : safe U (PaymentMethodService.remove U id).
Proof.
  intros w Hok. apply (remove_safe U "payment method" (owned_payment_method U id) (delete_payment_method id)); [done|].
  intros c [E HU]%owned_payment_method_Some. by eapply delete_payment_method_evolves.
Qed.

(** ** Images *)

Lemma generateImageKey_db U rid w : wp (generateImageKey U rid) (fun _ w' => w_db w' = w_db w) w.
Proof. done. Qed.
Lemma store_put_db key ct b w : wp (store_put key ct b) (fun _ w' => w_db w' = w_db w) w.
Proof. unfold wp, store_put. by destruct (put key ct b (w_store w)). Qed.
Lemma store_remove_db key w : wp (store_remove key) (fun _ w' => w_db w' = w_db w) w.
Proof. unfold wp, store_remove. by destruct (remove key (w_store w)). Qed.

Definition owns_receipt (U rid : Z) (d : Db) : Prop := fst <$> rhead d !! rid = Some U.
Lemma store_image_safe U d0 rid prep w :
  holds U d0 (owns_receipt U rid) w ->
  wp (store_image U rid prep) (fun _ => holds U d0 (owns_receipt U rid)) w.
Proof.
  intros H. unfold store_image. apply wp_bind. eapply wp_mono; [apply generateImageKey_db|].
  intros r w1 E1. assert (H1 : holds U d0 (owns_receipt U rid) w1) by (unfold holds in *; by rewrite E1).
  destruct r as [key| |]; cbn [after]; [|done..].
  apply wp_bind. eapply wp_mono; [apply store_put_db|].
  intros r w2 E2. assert (H2 : holds U d0 (owns_receipt U rid) w2) by (unfold holds in *; by rewrite E2).
  destruct r as [u| |]; cbn [after]; [|done..].
  wp_steps. destruct (sql_insert_image _ _) as [d'| |] eqn:Es; [|done..].
  unfold sql_insert_image in Es. ok_inv. destruct H2 as [He Ho]. split; [|exact Ho].
  apply (step_evolves _ _ _ _ He). intros Hok. by apply insert_image_evolves.
Qed.
Lemma storeImages_safe U d0 rid prepared w :
  holds U d0 (owns_receipt U rid) w ->
  wp (storeImages U rid prepared) (fun _ => holds U d0 (owns_receipt U rid)) w.
Proof. intros H. apply wp_for_each; [|done]. intros prep w' _. apply store_image_safe. Qed.

(** A row of known kind, its direction and state in range. *)
Lemma put_receipt_Ok id r d d' : put_receipt id r d = Ok d' ->
  d' = d <| receipts ::= update_row id r |> /\ receipt_checks r = true.
Proof.
  unfold put_receipt. intros H. ok_inv. split; [done|]. unfold guard in Ha. by destruct (receipt_checks r).
Qed.
Lemma insert_receipt_checks r d x : insert_receipt r d = Ok x -> receipt_checks r = true.
Proof. unfold insert_receipt. intros H. ok_inv. unfold guard in Ha. by destruct (receipt_checks r). Qed.
(** An update of a row's own columns: same references, same kind. *)
Lemma update_own_receipt U id r f d d' :
  db_ok d -> rows (receipts d) !! id = Some r -> rc_user_id r = U ->
  sql_update_receipt id f d = Ok d' -> row_kept r (f r) ->
  er_kind (rc_fields (f r)) = er_kind (rc_fields r) ->
  er_paymentMethodId (rc_fields (f r)) = er_paymentMethodId (rc_fields r) ->
  er_offsetsReceiptId (rc_fields (f r)) = er_offsetsReceiptId (rc_fields r) ->
  evolves U d d' /\ rows (receipts d') !! id = Some (f r).
Proof.
  intros Hok E HU Hs Hkept Hk Hp Ho. assert (HU' : rc_user_id (f r) = U) by (destruct Hkept; congruence). unfold sql_update_receipt in Hs. rewrite E in Hs.
  apply put_receipt_Ok in Hs as [-> Hc]. split; [|cbn; by rewrite lookup_insert_eq].
  destruct (ok_receipts _ Hok _ _ E) as (_ & Hpm & Hoff).
  eapply update_receipt_evolves; [done..| |].
  - split; [done|]. rewrite HU', <- HU, Hk, Hp, Ho. done.
  - intros j i c side Ei Er Ec Es. destruct (ok_items _ Hok j i Ei) as (u & kind & Eh & Hfit).
    destruct (Hfit c Ec) as (side' & Es' & F). rewrite Es in Es'. injection Es' as <- <-.
    rewrite Er in Eh. unfold rhead in Eh. rewrite lookup_fmap, E in Eh. cbn in Eh. rewrite Hk. congruence.
Qed.

Lemma upload_safe U images force : safe U (uploadReceipt U images force).
Proof.
  intros w Hok. unfold uploadReceipt. pose proof (evolves_refl U _ Hok) as Hrefl.
  apply wp_lift_bind; [done|intros cap _]. destruct (cap <? _); [by apply wp_throw|].
  apply wp_lift_bind; [done|intros prepared _]. apply wp_lift_bind; [done|intros rules _].
  destruct (canonicalDirection rules) as [dir|]; [|by apply wp_lift]. apply wp_transactionE_safe; [done|].
  apply wp_bind. apply (wp_mono _ (fun _ w' => w' = w)); [by destruct force|].
  intros [[c|]| |] w' ->; cbn [after]; wp_steps; [done| |done..].
  destruct (insert_receipt _ _) as [[rid d']| |] eqn:Ei; [|done..].
  assert (receipt_ok (rhead (w_db w)) (phead (w_db w)) (seq (receipts (w_db w)))
            (scanned_row U kDefaultKind dir (w_clock w))) as Hr.
  { split; [by eapply insert_receipt_checks|by split]. }
  destruct (insert_receipt_evolves _ _ _ _ _ Hok eq_refl Hr Ei) as (He & -> & Erow & _).
  wp_steps. eapply wp_mono; [apply (storeImages_safe U (w_db w))|].
  - split; [exact He|]. unfold owns_receipt. cbn. by rewrite (rhead_owner _ _ _ Erow).
  - intros r w' [He' _]. destruct r; cbn [after]; [by apply wp_ret|done..].
Qed.

Lemma add_images_safe U rid images force : safe U (addImages U rid images force).
Proof.
  intros w Hok. unfold addImages. pose proof (evolves_refl U _ Hok) as Hrefl. wp_steps.
  destruct (owned_receipt U rid (w_db w)) as [r0|] eqn:E; [|by apply wp_throw].
  apply wp_lift_bind; [done|intros prepared _]. apply wp_transactionE_safe; [done|]. wp_steps.
  destruct maxImagesPerReceipt; cbn [after]; [|done..]. destruct (_ <? _); [by apply wp_throw|].
  apply wp_bind. apply (wp_mono _ (fun _ w' => w' = w)); [by destruct force|].
  intros [[c|]| |] w' ->; cbn [after]; wp_steps; [done| |done..].
  eapply wp_mono; [apply (storeImages_safe U (w_db w))|].
  { split; [done|]. unfold owns_receipt. by rewrite (owned_receipt_head _ _ _ _ E). }
  intros r w' [He Ho]. destruct r; cbn [after]; [|done..]. wp_steps.
  destruct (sql_update_receipt _ _ _) as [d'| |] eqn:Es; [|done..]. wp_steps.
  unfold owns_receipt in Ho. apply fmap_Some in Ho as ([u kind] & Hh & [= <-]).
  apply rhead_Some in Hh as (row & Er & HU & _).
  eapply evolves_trans; [exact He|]. by eapply update_own_receipt; try apply He.
Qed.

Lemma validateReferences_same U rid r w :
  wp (validateReferences U rid r) (fun res w' => w' = w /\ (res = Ok () ->
    (forall p, er_paymentMethodId r = Some p -> phead (w_db w) !! p = Some U) /\
    (forall o, er_offsetsReceiptId r = Some o -> rid <> Some o /\ fst <$> rhead (w_db w) !! o = Some U))) w.
Proof.
  unfold validateReferences. apply wp_bind.
  apply (wp_mono _ (fun res w' => w' = w /\ (res = Ok () ->
    forall p, er_paymentMethodId r = Some p -> phead (w_db w) !! p = Some U))).
  { destruct (er_paymentMethodId r) as [p|]; [|by apply wp_ret]. wp_steps.
    destruct (owned_payment_method U p (w_db w)) as [row|] eqn:E; wp_steps; [|done]. split; [done|].
    intros _ p' [= <-]. apply owned_payment_method_Some in E as [E <-]. unfold phead. by rewrite lookup_fmap, E. }
  intros [[]| |] w' [-> Hp]; cbn [after]; [|done..]. specialize (Hp eq_refl).
  destruct (er_offsetsReceiptId r) as [o|]; [|by apply wp_ret]. case_bool_decide as Hs; wp_steps; [done|].
  destruct (owned_receipt U o (w_db w)) as [t|] eqn:E; wp_steps; [|done].
  destruct (rulesFor _) as [rules| |]; cbn [after]; [|done..].
  destruct (isOffsetTarget rules); wp_steps; [|done]. split; [done|]. intros _. split; [done|].
  intros o' [= <-]. split; [done|]. by rewrite (owned_receipt_head _ _ _ _ E).
Qed.
Lemma validateReceipt_offset r : validateReceipt r = Ok () -> forall o, er_offsetsReceiptId r = Some o ->
  can_offset (er_kind r) = true.
Proof.
  unfold validateReceipt, can_offset, rulesFor. intros H o Ho. rewrite Ho in H.
  destruct (findKind (er_kind r)) as [rules|]; [|done]. cbn in H.
  destruct (canOffset rules); [done|]. repeat case_in H; done.
Qed.

Lemma insert_items_safe U d0 rid kind items w :
  holds U d0 (fun d => rhead d !! rid = Some (U, kind)) w ->
  wp (insert_items U rid kind items) (fun _ => holds U d0 (fun d => rhead d !! rid = Some (U, kind))) w.
Proof.
  intros H. apply wp_for_each; [|done]. intros i w' _ H'. apply wp_bind.
  eapply wp_mono; [by apply (insert_safe U d0)|]. intros [] w'' H''; cbn [after]; [by apply wp_ret|done..].
Qed.

(** The INSERT of a manual entry whose references were checked. *)
Lemma manual_row_evolves U input date w rid d' :
  db_ok (w_db w) -> validateReceipt (me_receipt input) = Ok () ->
  (forall p, er_paymentMethodId (me_receipt input) = Some p -> phead (w_db w) !! p = Some U) ->
  (forall o, er_offsetsReceiptId (me_receipt input) = Some o -> fst <$> rhead (w_db w) !! o = Some U) ->
  insert_receipt (manual_row U (me_receipt input) date (w_clock w)) (w_db w) = Ok (rid, d') ->
  evolves U (w_db w) d' /\ rows (receipts d') !! rid = Some (manual_row U (me_receipt input) date (w_clock w)).
Proof.
  intros Hok Hv Hp Ho Ei. set (r := manual_row U (me_receipt input) date (w_clock w)) in *.
  assert (receipt_ok (rhead (w_db w)) (phead (w_db w)) (seq (receipts (w_db w))) r) as Hr.
  { split; [by eapply insert_receipt_checks|]. split; [exact Hp|]. intros o Eo.
    pose proof (Ho o Eo) as Hh. split; [|split; [exact (validateReceipt_offset (me_receipt input) Hv o Eo)|exact Hh]].
    intros ->. pose proof (ok_below _ Hok) as (_ & _ & _ & Hb & _). unfold rhead in Hh.
    rewrite lookup_fmap, below_fresh in Hh; done. }
  destruct (insert_receipt_evolves _ _ _ _ _ Hok eq_refl Hr Ei) as (He & _ & Erow & _). done.
Qed.
Lemma create_manual_safe U body : safe U (createManual U body).
Proof.
  intros w Hok. unfold createManual. pose proof (evolves_refl U _ Hok) as Hrefl.
  apply wp_lift_bind; [done|intros input Hin]. destruct (parseManualEntry_inv _ _ Hin) as (_ & _ & Hv & _).
  apply wp_transaction_safe; [done|]. apply wp_bind. eapply wp_mono; [apply validateReferences_same|].
  intros [[]| |] w' [-> Hrefs]; cbn [after]; [|done..]. destruct (Hrefs eq_refl) as [Hp Ho]. wp_steps.
  destruct (sql_date _) as [date| |]; cbn [after]; [|done..]. wp_steps.
  destruct (insert_receipt _ _) as [[rid d']| |] eqn:Ei; [|done..].
  destruct (manual_row_evolves U input date w rid d' Hok Hv Hp (fun o Eo => proj2 (Ho o Eo)) Ei) as [He Erow].
  assert (holds U (w_db w) (fun d => rhead d !! rid = Some (U, er_kind (me_receipt input))) (w <| w_db := d' |>)) as H'.
  { split; [exact He|]. cbn. unfold rhead. by rewrite lookup_fmap, Erow. }
  wp_steps. apply (wp_mono _ (fun _ => holds U (w_db w) (fun d => rhead d !! rid = Some (U, er_kind (me_receipt input))))).
  { case_bool_decide; by apply insert_items_safe. }
  intros [] w' [He' _]; cbn [after]; [by apply wp_ret|done..].
Qed.

(** The clash check of [updateReceipt]: every categorised item fits the new side. *)
Lemma sides_ok d rid side : existsb (fun s => negb (eqb s side)) (item_category_sides rid d) = false ->
  forall j i c u s, rows (items d) !! j = Some i -> it_receipt_id i = rid -> it_category_id i = Some c ->
    chead d !! c = Some (u, s) -> s = side.
Proof.
  intros H j i c u s Ei Er Ec Es. apply lookup_fmap_Some in Es as (row & [= _ <-] & E).
  eapply (existsb_false _ _ (c_is_income row)) in H; [by apply negb_false_iff, eqb_prop in H|].
  unfold item_category_sides. apply list_elem_of_omap. exists (j, i).
  split; [apply select_spec; [done|by apply Z.eqb_eq]|]. cbn. by rewrite Ec, E.
Qed.
Lemma kind_fits kind rules side : findKind kind = Some rules -> side = usesIncomeCategories rules -> fits side kind.
Proof. intros Hk ->. unfold fits, categoryFitsKind, rulesFor. rewrite Hk. cbn. by rewrite eqb_reflx. Qed.
Lemma fits_inv kind rules side : findKind kind = Some rules -> fits side kind -> side = usesIncomeCategories rules.
Proof. intros Hk. unfold fits, categoryFitsKind, rulesFor. rewrite Hk. cbn. intros [= H]. by apply eqb_prop. Qed.

Lemma update_receipt_safe U rid body : safe U (updateReceipt U rid body).
Proof.
  intros w Hok. unfold updateReceipt. pose proof (evolves_refl U _ Hok) as Hrefl.
  apply wp_transaction_safe; [done|]. wp_steps.
  destruct (owned_receipt U rid (w_db w)) as [row|] eqn:E; [|by apply wp_throw].
  pose proof (owned_receipt_Some _ _ _ _ E) as [Erow HU].
  apply wp_lift_bind; [done|intros before Hb%rulesFor_Ok].
  apply wp_lift_bind; [done|intros [r m] Hpatch].
  apply wp_bind. eapply wp_mono; [apply validateReferences_same|].
  intros [[]| |] w' [-> Hrefs]; cbn [after]; [|done..]. destruct (Hrefs eq_refl) as [Hp Ho].
  apply wp_lift_bind; [done|intros rules Hk%rulesFor_Ok].
  apply wp_bind. apply (wp_mono _ (fun res w' => w' = w /\ (res = Ok () ->
    forall j i c side, rows (items (w_db w)) !! j = Some i -> it_receipt_id i = rid -> it_category_id i = Some c ->
      chead (w_db w) !! c = Some (U, side) -> fits side (er_kind r)))).
  { destruct (eqb _ _) eqn:Eside.
    - apply wp_ret. split; [done|]. intros _ j i c side Ei Er Ec Es. apply eqb_prop in Eside.
      apply (kind_fits _ rules); [done|]. rewrite Eside.
      destruct (ok_items _ Hok j i Ei) as (u & kind & Eh & Hfit). destruct (Hfit c Ec) as (s & Es' & F).
      rewrite Es in Es'. injection Es' as <- <-. rewrite Er, (owned_receipt_head _ _ _ _ E) in Eh.
      injection Eh as <-. by eapply fits_inv.
    - wp_steps. destruct (existsb _ _) eqn:Ex; wp_steps; [done|]. split; [done|].
      intros _ j i c side Ei Er Ec Es. apply (kind_fits _ rules); [done|]. by eapply sides_ok. }
  intros [[]| |] w' [-> Hfit]; cbn [after]; [|done..]. specialize (Hfit eq_refl). wp_steps.
  destruct (sql_date _) as [date| |]; cbn [after]; [|done..]. wp_steps.
  destruct (sql_update_receipt _ _ _) as [d'| |] eqn:Es; [|done..].
  assert (evolves U (w_db w) d') as He.
  { unfold sql_update_receipt in Es. rewrite Erow in Es. apply put_receipt_Ok in Es as [-> Hc].
    eapply update_receipt_evolves; [done..| | |].
    - repeat split. cbn. by destruct m.
    - split; [done|]. cbn. rewrite HU. split; [exact Hp|]. intros o Eo. destruct (Ho o Eo) as [No Hh].
      split; [congruence|split; [|exact Hh]]. apply applyReceiptPatch_Ok in Hpatch. eapply validateReceipt_offset; [apply Hpatch|done].
    - exact Hfit. }
  wp_steps. cbn. by destruct (rows (receipts d') !! rid).
Qed.

Lemma retry_safe U rid : safe U (retryScan U rid).
Proof.
  intros w Hok. unfold retryScan. pose proof (evolves_refl U _ Hok) as Hrefl. wp_steps.
  assert (forall b w', evolves U (w_db w) (w_db w') ->
    wp (let! receipt := getReceipt U rid in
        match receipt with
        | Some receipt0 => if (b : bool) then mret receipt0 else mthrow (ConflictError "only a receipt in scan_failed can be retried")
        | None => mthrow ReceiptNotFoundError end) (fun _ w' => evolves U (w_db w) (w_db w')) w') as Hend.
  { intros b w' He. unfold getReceipt. wp_steps. destruct (owned_receipt U rid (w_db w')); cbn; wp_steps; [|done].
    destruct b; by wp_steps. }
  unfold sql_requeue. destruct (owned_receipt U rid (w_db w)) as [r|] eqn:E; [|by apply (Hend false (w <| w_db := w_db w |>))].
  case_bool_decide; [|by apply (Hend false (w <| w_db := w_db w |>))]. destruct (put_receipt _ _ _) as [d'| |] eqn:Es; cbn [obind]; [|done..].
  apply (Hend true (w <| w_db := d' |>)). apply owned_receipt_Some in E as [E HU].
  eapply (update_own_receipt U rid r (fun r => r <| rc_scan_state := scan_state.kUploaded |> <| rc_scan_attempts := 0 |>
    <| rc_reclaim_count := 0 |> <| rc_updated_at := w_clock w |>)); try done.
  unfold sql_update_receipt. rewrite E. exact Es.
Qed.

Lemma delete_safe U rid : safe U (deleteReceipt U rid).
Proof.
  intros w Hok. unfold deleteReceipt. pose proof (evolves_refl U _ Hok) as Hrefl. wp_steps.
  unfold sql_delete_receipt. destruct (owned_receipt U rid (w_db w)) as [r|] eqn:E; wp_steps; [|done].
  apply owned_receipt_Some in E as [E HU].
  eapply wp_mono; [apply (wp_for_each (fun w' => evolves U (w_db w) (w_db w')))|].
  - intros key w' _ He. apply wp_catch. eapply wp_mono; [apply store_remove_db|].
    intros [] w'' Ed; cbn; try apply wp_ret; by rewrite Ed.
  - by eapply delete_receipt_evolves.
  - intros [] w' He; cbn [after]; [by apply wp_ret|done..].
Qed.

(** ** Requests *)

(** The calls an authenticated user can make, each with the controller's
    arguments; reads keep the state and are left out. *)
Inductive request :=
| ItemCreate (rid : Z) (body : json)
| ItemUpdate (rid itemId : Z) (body : json)
| ItemRemove (rid itemId : Z)
| Upload (images : list string) (force : bool)
| AddImages (rid : Z) (images : list string) (force : bool)
| CreateManual (body : json)
| UpdateReceipt (rid : Z) (body : json)
| RetryScan (rid : Z)
| DeleteReceipt (rid : Z)
| CategoryCreate (body : json)
| CategoryUpdate (id : Z) (body : json)
| CategoryRemove (id : Z)
| TagCreate (body : json)
| TagUpdate (id : Z) (body : json)
| TagRemove (id : Z)
| PaymentMethodCreate (body : json)
| PaymentMethodUpdate (id : Z) (body : json)
| PaymentMethodRemove (id : Z).

Definition discard {A} (m : M A) : M () := mbind (fun _ => mret ()) m.
Definition serve (U : Z) (q : request) : M () :=
  match q with
  | ItemCreate rid body => discard (ItemService.create U rid body)
  | ItemUpdate rid itemId body => discard (ItemService.update U rid itemId body)
  | ItemRemove rid itemId => discard (ItemService.remove U rid itemId)
  | Upload images force => discard (uploadReceipt U images force)
  | AddImages rid images force => discard (addImages U rid images force)
  | CreateManual body => discard (createManual U body)
  | UpdateReceipt rid body => discard (updateReceipt U rid body)
  | RetryScan rid => discard (retryScan U rid)
  | DeleteReceipt rid => discard (deleteReceipt U rid)
  | CategoryCreate body => discard (CategoryService.create U body)
  | CategoryUpdate id body => discard (CategoryService.update U id body)
  | CategoryRemove id => discard (CategoryService.remove U id)
  | TagCreate body => discard (TagService.create U body)
  | TagUpdate id body => discard (TagService.update U id body)
  | TagRemove id => discard (TagService.remove U id)
  | PaymentMethodCreate body => discard (PaymentMethodService.create U body)
  | PaymentMethodUpdate id body => discard (PaymentMethodService.update U id body)
  | PaymentMethodRemove id => discard (PaymentMethodService.remove U id)
  end.
Lemma discard_safe {A} U (m : M A) : safe U m -> safe U (discard m).
Proof.
  intros H w Hok. apply wp_bind. eapply wp_mono; [by apply H|]. intros [] w' He; cbn [after]; [by apply wp_ret|done..].
Qed.
Lemma serve_safe U q : safe U (serve U q).
Proof.
  destruct q; apply discard_safe; auto using item_create_safe, item_update_safe, item_remove_safe, upload_safe,
    add_images_safe, create_manual_safe, update_receipt_safe, retry_safe, delete_safe, category_create_safe,
    category_update_safe, category_remove_safe, tag_create_safe, tag_update_safe, tag_remove_safe,
    payment_method_create_safe, payment_method_update_safe, payment_method_remove_safe.
Qed.
End Safety.
