(* ===== verification/OwnRows.v ===== *)
(** * One user's part of the database

    [own_rows U d]: the rows of [d] that belong to [U], every other user's removed,
    the sequences as they are.  Each read of U's rows gives the same answer on
    [own_rows U d] as on [d], and each statement on U's rows commutes with
    [own_rows U]; where a statement joins tables, the consistency of the database
    ([db_ok]) is what keeps the join within one user. *)
From stdpp Require Import sorting.
From S2P Require Import Prelude CString Binary64 Json Kinds JsonInput LedgerInput TokenUtils Env Db World.
From S2P Require Import ItemService ReceiptService ReferenceData AuthService Invariant Statements Safety.

(** ** Restricting a table *)

Definition mine {A} (U : Z) (owner : A -> option Z) (m : gmap Z A) : gmap Z A :=
  filter (fun kv => owner kv.2 = Some U) m.
Definition own {A} (U : Z) (owner : A -> option Z) (t : table A) : table A :=
  mkTable (mine U owner (rows t)) (seq t).

Definition own_rows (U : Z) (d : Db) : Db :=
  mkDb (mkTable (filter (fun kv => kv.1 = U) (rows (users d))) (seq (users d)))
    (own U (fun s => Some (s_user_id s)) (sessions d))
    (own U (fun a => Some (a_user_id a)) (auth_tokens d))
    (own U (fun c => Some (c_user_id c)) (categories d))
    (own U (fun t => Some (t_user_id t)) (tags d))
    (own U (fun p => Some (p_user_id p)) (payment_methods d))
    (own U (fun r => Some (rc_user_id r)) (receipts d))
    (own U (fun i => Some (im_user_id i)) (receipt_images d))
    (own U (item_owner d) (items d))
    (filter (fun l => link_owner d l = Some U) (item_tags d)).

(** The result of a statement, restricted. *)
Definition on_own {A} (U : Z) (r : outcome (A * Db)) : outcome (A * Db) :=
  match r with
  | Ok (a, d) => Ok (a, own_rows U d)
  | Throw e => Throw e
  | UB u => UB u
  end.
Definition on_own_ (U : Z) (r : outcome Db) : outcome Db :=
  match r with
  | Ok d => Ok (own_rows U d)
  | Throw e => Throw e
  | UB u => UB u
  end.

Section Restrict.
Context {A : Type}.
Implicit Types (o : A -> option Z) (t : table A) (m : gmap Z A) (a : A).

Lemma mine_lookup U o m k a : mine U o m !! k = Some a <-> m !! k = Some a /\ o a = Some U.
Proof. unfold mine. by rewrite map_lookup_filter_Some. Qed.
Lemma mine_ext U o o' m : (forall k a, m !! k = Some a -> o a = Some U <-> o' a = Some U) -> mine U o m = mine U o' m.
Proof. intros H. apply map_filter_ext. intros k a E. by apply (H k). Qed.
Lemma own_insert U o t a : o a = Some U -> own U o (insert_row a t) = insert_row a (own U o t).
Proof. intros H. unfold own, insert_row, mine. cbn. f_equal. by apply map_filter_insert_True. Qed.
Lemma own_update U o t k a : o a = Some U -> own U o (update_row k a t) = update_row k a (own U o t).
Proof. intros H. unfold own, update_row, mine. cbn. f_equal. by apply map_filter_insert_True. Qed.
Lemma own_delete U o t k : own U o (delete_row k t) = delete_row k (own U o t).
Proof. unfold own, delete_row, mine. cbn. f_equal. apply map_filter_delete. Qed.
Lemma own_keep U o (p q : A -> bool) t :
  (forall k a, rows t !! k = Some a -> o a = Some U -> p a = q a) -> own U o (keep_rows p t) = keep_rows q (own U o t).
Proof.
  intros H. unfold own, keep_rows, mine. cbn. f_equal. apply map_eq. intros k. apply option_eq. intros a.
  rewrite !map_lookup_filter_Some. cbn. split; intros [[E E1] E2]; pose proof (H k a E); intuition congruence.
Qed.
Lemma own_fmap U o o' (f : A -> A) t s : (forall k a, rows t !! k = Some a -> o' (f a) = o a) ->
  own U o' (mkTable (f <$> rows t) s) = mkTable (f <$> rows (own U o t)) s.
Proof.
  intros H. unfold own, mine. cbn. f_equal. apply map_eq. intros k. apply option_eq. intros a.
  rewrite map_lookup_filter_Some, !lookup_fmap_Some. cbn. split.
  - intros [(b & <- & E) Ho]. exists b. split; [done|]. apply map_lookup_filter_Some. split; [done|]. cbn. by rewrite <- (H k b E).
  - intros (b & <- & [E Ho]%map_lookup_filter_Some). split; [by exists b|]. by rewrite (H k b E).
Qed.

(** A SELECT whose rows are all U's. *)
Lemma select_own U o (p : A -> bool) t :
  (forall k a, rows t !! k = Some a -> p a = true -> o a = Some U) -> select p (own U o t) = select p t.
Proof.
  intros H. unfold select, own, mine. cbn. f_equal. apply map_eq. intros k. apply option_eq. intros a.
  rewrite !map_lookup_filter_Some. cbn. split; [tauto|]. intros [E Hp]. by split; [split; [|by apply (H k)]|].
Qed.
Lemma name_taken_own U o (same : A -> bool) except t :
  (forall k a, rows t !! k = Some a -> same a = true -> o a = Some U) ->
  name_taken same except (own U o t) = name_taken same except t.
Proof.
  intros H. unfold name_taken, own, mine. cbn. apply bool_decide_ext.
  replace (filter _ (filter _ (rows t))) with (filter (fun kv : Z * A => same kv.2 = true /\ Some kv.1 <> except) (rows t)); [done|].
  apply map_eq. intros k. apply option_eq. intros a. rewrite !map_lookup_filter_Some. cbn. split; [|tauto].
  intros (E & Hs & He). repeat split; try done. by apply (H k).
Qed.
Lemma fk_own U o t k : (forall a, rows t !! k = Some a -> o a = Some U) -> fk (Some k) (own U o t) = fk (Some k) t.
Proof.
  intros H. unfold fk. apply bool_decide_ext. cbn. unfold is_Some. setoid_rewrite mine_lookup.
  split; intros (a & E); [exists a; tauto|]. exists a. auto.
Qed.
End Restrict.

(** ** Restricting the joins *)

Section Joins.
Context (U : Z).
Implicit Types d : Db.

Lemma own_receipt_lookup d k r :
  rows (receipts (own_rows U d)) !! k = Some r <-> rows (receipts d) !! k = Some r /\ rc_user_id r = U.
Proof. cbn. rewrite mine_lookup. intuition congruence. Qed.
Lemma rhead_own d k u kind :
  rhead (own_rows U d) !! k = Some (u, kind) <-> rhead d !! k = Some (u, kind) /\ u = U.
Proof.
  unfold rhead. rewrite !lookup_fmap_Some. split.
  - intros (r & [= <- <-] & [E HU]%own_receipt_lookup). split; [by exists r|done].
  - intros [(r & [= <- <-] & E) HU]. exists r. split; [done|]. by apply own_receipt_lookup.
Qed.
Lemma rowner_own d k u : fst <$> rhead (own_rows U d) !! k = Some u <-> fst <$> rhead d !! k = Some u /\ u = U.
Proof.
  rewrite !fmap_Some. split.
  - intros ([u' kind] & [E ->]%rhead_own & ->). split; [by exists (U, kind)|done].
  - intros [([u' kind] & E & ->) HU]. cbn in HU. subst u'. exists (U, kind). split; [by apply rhead_own|done].
Qed.
(** Rows whose owner is found through the receipts. *)
Lemma item_owner_own d i : item_owner (own_rows U d) i = Some U <-> item_owner d i = Some U.
Proof. unfold item_owner. rewrite rowner_own. tauto. Qed.
Lemma own_item_lookup d k i :
  rows (items (own_rows U d)) !! k = Some i <-> rows (items d) !! k = Some i /\ item_owner d i = Some U.
Proof. cbn. apply mine_lookup. Qed.
Lemma link_owner_item d l i : rows (items d) !! l.1 = Some i -> link_owner d l = item_owner d i.
Proof. intros E. unfold link_owner, ihead, item_owner. by rewrite lookup_fmap, E. Qed.
Lemma link_owner_inv d l u : link_owner d l = Some u -> exists i, rows (items d) !! l.1 = Some i /\ item_owner d i = Some u.
Proof.
  unfold link_owner, ihead, item_owner. rewrite lookup_fmap. destruct (rows (items d) !! l.1) as [i|]; [|done].
  intros H. by exists i.
Qed.
Lemma link_owner_own d l : link_owner (own_rows U d) l = Some U <-> link_owner d l = Some U.
Proof.
  split; intros (i & E & Ho)%link_owner_inv.
  - apply own_item_lookup in E as [E E']. by rewrite (link_owner_item _ _ i).
  - assert (rows (items (own_rows U d)) !! l.1 = Some i) as E' by by apply own_item_lookup.
    rewrite (link_owner_item _ _ i E'). by apply item_owner_own.
Qed.

(** Two databases in which everything reached through [receipts] and [items] has the
    same owner. *)
Lemma own_items_same d d' : items d' = items d ->
  (forall k i, rows (items d) !! k = Some i -> item_owner d' i = item_owner d i) ->
  own U (item_owner d') (items d') = own U (item_owner d) (items d).
Proof. intros -> H. unfold own. f_equal. apply mine_ext. intros k i E. by rewrite (H k i E). Qed.
Lemma own_links_same d d' : item_tags d' = item_tags d ->
  (forall l, l ∈ item_tags d -> link_owner d' l = link_owner d l) ->
  filter (fun l => link_owner d' l = Some U) (item_tags d') = filter (fun l => link_owner d l = Some U) (item_tags d).
Proof. intros -> H. apply filter_set_ext. intros l. split; intros [Ho Hl]; [rewrite <- (H l Hl)|rewrite (H l Hl)]; done. Qed.
End Joins.

(** ** Reads *)

Section Reads.
Context `{PG : Postgres} (U : Z).
Implicit Types d : Db.

Lemma mine_guarded {A} (o : A -> Z) (m : gmap Z A) k :
  match mine U (fun a => Some (o a)) m !! k with Some a => if o a =? U then Some a else None | None => None end =
  match m !! k with Some a => if o a =? U then Some a else None | None => None end.
Proof.
  destruct (m !! k) as [a|] eqn:E.
  - destruct (Z.eqb_spec (o a) U) as [HU|HU].
    + rewrite (proj2 (mine_lookup U _ m k a)); [|by split; [|congruence]]. by rewrite (proj2 (Z.eqb_eq _ _) HU).
    + destruct (mine _ _ _ !! k) as [b|] eqn:Eb; [|done]. apply mine_lookup in Eb. destruct Eb. congruence.
  - destruct (mine _ _ _ !! k) as [b|] eqn:Eb; [|done]. apply mine_lookup in Eb. destruct Eb. congruence.
Qed.
Lemma owned_receipt_own d id : owned_receipt U id (own_rows U d) = owned_receipt U id d.
Proof. apply (mine_guarded rc_user_id). Qed.
Lemma owned_category_own d id : owned_category U id (own_rows U d) = owned_category U id d.
Proof. apply (mine_guarded c_user_id). Qed.
Lemma owned_tag_own d id : owned_tag U id (own_rows U d) = owned_tag U id d.
Proof. apply (mine_guarded t_user_id). Qed.
Lemma owned_payment_method_own d id : owned_payment_method U id (own_rows U d) = owned_payment_method U id d.
Proof. apply (mine_guarded p_user_id). Qed.

(** References to rows of U. *)
Lemma fk_user_own d : fk (Some U) (users (own_rows U d)) = fk (Some U) (users d).
Proof.
  apply bool_decide_ext. cbn. unfold is_Some. setoid_rewrite map_lookup_filter_Some. cbn.
  split; intros (u & E); exists u; tauto.
Qed.
Lemma fk_receipt_own d o : (forall k, o = Some k -> fst <$> rhead d !! k = Some U) ->
  fk o (receipts (own_rows U d)) = fk o (receipts d).
Proof.
  intros H. destruct o as [k|]; [|done]. apply fk_own. intros r E. specialize (H k eq_refl).
  unfold rhead in H. rewrite lookup_fmap, E in H. exact H.
Qed.
Lemma fk_payment_own d o : (forall k, o = Some k -> phead d !! k = Some U) ->
  fk o (payment_methods (own_rows U d)) = fk o (payment_methods d).
Proof.
  intros H. destruct o as [k|]; [|done]. apply fk_own. intros r E. specialize (H k eq_refl).
  unfold phead in H. rewrite lookup_fmap, E in H. exact H.
Qed.
Lemma fk_category_own d o : (forall k, o = Some k -> fst <$> chead d !! k = Some U) ->
  fk o (categories (own_rows U d)) = fk o (categories d).
Proof.
  intros H. destruct o as [k|]; [|done]. apply fk_own. intros r E. specialize (H k eq_refl).
  unfold chead in H. rewrite lookup_fmap, E in H. exact H.
Qed.
Lemma fk_tag_own d k : owned_tag U k d <> None -> fk (Some k) (tags (own_rows U d)) = fk (Some k) (tags d).
Proof.
  intros H. apply fk_own. intros t E. unfold owned_tag in H. rewrite E in H.
  destruct (Z.eqb_spec (t_user_id t) U); congruence.
Qed.
Lemma fk_item_own d k : fst <$> (rid ← ihead d !! k; rhead d !! rid) = Some U ->
  fk (Some k) (items (own_rows U d)) = fk (Some k) (items d).
Proof.
  intros H. apply fk_own. intros i E. unfold ihead in H. rewrite lookup_fmap, E in H. exact H.
Qed.

(** The items and images of a receipt of U. *)
Lemma items_of_own d rid : fst <$> rhead d !! rid = Some U ->
  select (fun i => it_receipt_id i =? rid) (items (own_rows U d)) = select (fun i => it_receipt_id i =? rid) (items d).
Proof. intros H. apply select_own. intros k i _ Hi%Z.eqb_eq. unfold item_owner. by rewrite Hi. Qed.
Lemma images_of_own d rid : db_ok d -> fst <$> rhead d !! rid = Some U ->
  select (fun i => im_receipt_id i =? rid) (receipt_images (own_rows U d)) =
  select (fun i => im_receipt_id i =? rid) (receipt_images d).
Proof.
  intros Hok H. apply select_own. intros k i E Hi%Z.eqb_eq. pose proof (ok_images _ Hok k i E) as Ho.
  unfold image_ok in Ho. rewrite Hi, H in Ho. congruence.
Qed.

(** Sorted lists with the same members are equal. *)
Lemma merge_sort_le_perm (l l' : list Z) : l ≡ₚ l' -> merge_sort Z.le l = merge_sort Z.le l'.
Proof.
  intros H. assert (Htot : Total Z.le) by exact Z.le_ge_cases.
  apply (Sorted_unique Z.le); [by apply (Sorted_merge_sort Z.le)..|]. by rewrite !merge_sort_Permutation.
Qed.
Lemma tags_of_own d k : (forall l, l ∈ item_tags d -> l.1 = k -> link_owner d l = Some U) ->
  tags_of k (own_rows U d) = tags_of k d.
Proof.
  intros H. unfold tags_of. apply merge_sort_le_perm, fmap_Permutation, NoDup_Permutation.
  - apply NoDup_filter, NoDup_elements.
  - apply NoDup_filter, NoDup_elements.
  - intros l. rewrite !list_elem_of_filter, !elem_of_elements. cbn. rewrite elem_of_filter. naive_solver.
Qed.
End Reads.

(** ** Writes *)

Section Writes.
Context `{PG : Postgres} (U : Z).
Implicit Types d : Db.

Lemma Db_ext d d' : users d = users d' -> sessions d = sessions d' -> auth_tokens d = auth_tokens d' ->
  categories d = categories d' -> tags d = tags d' -> payment_methods d = payment_methods d' ->
  receipts d = receipts d' -> receipt_images d = receipt_images d' -> items d = items d' -> item_tags d = item_tags d' ->
  d = d'.
Proof. destruct d, d'. cbn. congruence. Qed.

Lemma own_insert_category d row : c_user_id row = U ->
  own_rows U (d <| categories ::= insert_row row |>) = (own_rows U d) <| categories ::= insert_row row |>.
Proof. intros H. apply Db_ext; try done. apply own_insert. congruence. Qed.
Lemma own_update_category d k row : c_user_id row = U ->
  own_rows U (d <| categories ::= update_row k row |>) = (own_rows U d) <| categories ::= update_row k row |>.
Proof. intros H. apply Db_ext; try done. apply own_update. congruence. Qed.
Lemma own_insert_tag d row : t_user_id row = U ->
  own_rows U (d <| tags ::= insert_row row |>) = (own_rows U d) <| tags ::= insert_row row |>.
Proof. intros H. apply Db_ext; try done. apply own_insert. congruence. Qed.
Lemma own_update_tag d k row : t_user_id row = U ->
  own_rows U (d <| tags ::= update_row k row |>) = (own_rows U d) <| tags ::= update_row k row |>.
Proof. intros H. apply Db_ext; try done. apply own_update. congruence. Qed.
Lemma own_insert_payment_method d row : p_user_id row = U ->
  own_rows U (d <| payment_methods ::= insert_row row |>) = (own_rows U d) <| payment_methods ::= insert_row row |>.
Proof. intros H. apply Db_ext; try done. apply own_insert. congruence. Qed.
Lemma own_update_payment_method d k row : p_user_id row = U ->
  own_rows U (d <| payment_methods ::= update_row k row |>) = (own_rows U d) <| payment_methods ::= update_row k row |>.
Proof. intros H. apply Db_ext; try done. apply own_update. congruence. Qed.
Lemma own_insert_image d row : im_user_id row = U ->
  own_rows U (d <| receipt_images ::= insert_row row |>) = (own_rows U d) <| receipt_images ::= insert_row row |>.
Proof. intros H. apply Db_ext; try done. apply own_insert. congruence. Qed.

(** The unique indexes are per user. *)
Lemma insert_unique_own {A} (same : A -> A -> bool) (owner : A -> Z) (f : Db -> table A) `{!Setter f} row d :
  f (own_rows U d) = own U (fun a => Some (owner a)) (f d) -> owner row = U ->
  (forall other, same row other = true -> owner other = owner row) ->
  own_rows U (set_field f (insert_row row) d) = set_field f (insert_row row) (own_rows U d) ->
  insert_unique same owner f row (own_rows U d) = on_own U (insert_unique same owner f row d).
Proof.
  intros Hf HU Hs Hi. unfold insert_unique. rewrite HU, fk_user_own, Hf, name_taken_own.
  - destruct (guard (negb (name_taken _ _ _)) _); [|done..]. destruct (guard (fk _ _) _); [|done..]. cbn [obind on_own on_own_]. by rewrite Hi.
  - intros k a _ Hsa. rewrite (Hs a Hsa). congruence.
Qed.
Lemma update_unique_own {A} (same : A -> A -> bool) (owner : A -> Z) (f : Db -> table A) `{!Setter f} k row d :
  f (own_rows U d) = own U (fun a => Some (owner a)) (f d) -> owner row = U ->
  (forall other, same row other = true -> owner other = owner row) ->
  own_rows U (set_field f (update_row k row) d) = set_field f (update_row k row) (own_rows U d) ->
  update_unique same f k row (own_rows U d) = on_own_ U (update_unique same f k row d).
Proof.
  intros Hf HU Hs Hi. unfold update_unique. rewrite Hf, name_taken_own.
  - destruct (guard (negb (name_taken _ _ _)) _); [|done..]. cbn [obind on_own on_own_]. by rewrite Hi.
  - intros j a _ Hsa. rewrite (Hs a Hsa). congruence.
Qed.
Lemma same_category_owner row other : same_category row other = true -> c_user_id other = c_user_id row.
Proof. unfold same_category. rewrite !andb_true_iff, Z.eqb_eq. tauto. Qed.
Lemma same_tag_owner row other : same_tag row other = true -> t_user_id other = t_user_id row.
Proof. unfold same_tag. rewrite andb_true_iff, Z.eqb_eq. tauto. Qed.
Lemma same_payment_method_owner row other : same_payment_method row other = true -> p_user_id other = p_user_id row.
Proof. unfold same_payment_method. rewrite andb_true_iff, Z.eqb_eq. tauto. Qed.

(** Receipts with the same owners, items mapped by [f] on the same receipts. *)
Lemma own_items_map d d' f : rows (items d') = f <$> rows (items d) ->
  (forall k, fst <$> rhead d' !! k = fst <$> rhead d !! k) -> (forall i, it_receipt_id (f i) = it_receipt_id i) ->
  mine U (item_owner d') (rows (items d')) = f <$> mine U (item_owner d) (rows (items d)).
Proof.
  intros Ei Hr Hf. assert (Ho : forall i, item_owner d' (f i) = item_owner d i).
  { intros i. unfold item_owner. by rewrite Hr, Hf. }
  rewrite Ei. pose proof (own_fmap U (item_owner d) (item_owner d') f (items d) 0 (fun k a _ => Ho a)) as H. by injection H.
Qed.
Lemma link_owner_map d d' f l : rows (items d') = f <$> rows (items d) ->
  (forall k, fst <$> rhead d' !! k = fst <$> rhead d !! k) -> (forall i, it_receipt_id (f i) = it_receipt_id i) ->
  link_owner d' l = link_owner d l.
Proof.
  intros Ei Hr Hf. unfold link_owner, ihead. rewrite Ei, <- map_fmap_compose. unfold compose. rewrite !lookup_fmap.
  destruct (rows (items d) !! l.1) as [i|]; [|done]. cbn. by rewrite Hf, Hr.
Qed.
Lemma filter_set_comm (P Q : Z * Z -> Prop) `{!forall l, Decision (P l), !forall l, Decision (Q l)} (s : gset (Z * Z)) :
  filter P (filter Q s) = filter Q (filter P s).
Proof. apply set_eq. intros l. rewrite !elem_of_filter. tauto. Qed.

Lemma own_delete_category d id : own_rows U (delete_category id d) = delete_category id (own_rows U d).
Proof.
  apply Db_ext; try done.
  - apply own_delete.
  - unfold own_rows at 1. cbn [items]. unfold own.
    rewrite (own_items_map d (delete_category id d) (clear_category id)); [done|done|done|apply clear_category_head].
  - apply own_links_same; [done|]. intros l _. apply (link_owner_map _ _ (clear_category id)); [done|done|apply clear_category_head].
Qed.
Lemma own_delete_tag d id : own_rows U (delete_tag id d) = delete_tag id (own_rows U d).
Proof.
  apply Db_ext; try done.
  - apply own_delete.
  - apply filter_set_comm.
Qed.
Lemma own_delete_payment_method d id : own_rows U (delete_payment_method id d) = delete_payment_method id (own_rows U d).
Proof.
  pose proof (rhead_clear_payment id d) as Hr.
  apply Db_ext; try done.
  - apply own_delete.
  - apply (own_fmap U (fun r => Some (rc_user_id r))). intros k r _. by rewrite clear_payment_id.
  - apply own_items_same; [done|]. intros k i _. unfold item_owner. by rewrite Hr.
  - apply own_links_same; [done|]. intros l _. unfold link_owner. by rewrite Hr.
Qed.

(** Items and links removed together. *)
Lemma own_drop_items d gone : own_rows U (drop_items gone d) = drop_items gone (own_rows U d).
Proof.
  apply Db_ext; try done.
  - unfold own_rows, drop_items. cbn. unfold own, mine. cbn. f_equal. apply map_filter_comm.
  - change (filter (fun l => link_owner (drop_items gone d) l = Some U) (filter (fun l => gone l.1 = false) (item_tags d)) =
      filter (fun l => gone l.1 = false) (filter (fun l => link_owner d l = Some U) (item_tags d))).
    apply set_eq. intros l. rewrite !elem_of_filter.
    enough (gone l.1 = false -> link_owner (drop_items gone d) l = link_owner d l) as Hl.
    { split; [intros (Ho & Hg & Hin); rewrite Hl in Ho by done|intros (Hg & Ho & Hin); rewrite Hl by done]; done. }
    intros Hg. unfold link_owner. change (rhead (drop_items gone d)) with (rhead d).
    destruct (ihead d !! l.1) as [rid|] eqn:E.
    + by rewrite (proj2 (ihead_drop gone d l.1 rid) (conj E Hg)).
    + destruct (ihead (drop_items gone d) !! l.1) as [rid|] eqn:E'; [|done]. apply ihead_drop in E' as [E' _]. congruence.
Qed.
Lemma own_delete_item d id : own_rows U (delete_item id d) = delete_item id (own_rows U d).
Proof. rewrite !delete_item_drop. apply own_drop_items. Qed.
Lemma own_delete_items_of d rid : fst <$> rhead d !! rid = Some U ->
  own_rows U (delete_items_of rid d) = delete_items_of rid (own_rows U d).
Proof.
  intros H. rewrite !delete_items_of_drop, own_drop_items. apply Db_ext; try done.
  - unfold drop_items. cbn. f_equal. apply map_filter_ext. intros k i E. cbn.
    apply own_item_lookup in E as E'. rewrite !bool_decide_eq_false. unfold ihead. cbn [items own_rows].
    unfold own. cbn [rows]. rewrite !lookup_fmap. by rewrite E, (proj1 E').
  - unfold drop_items. cbn [item_tags set_field]. apply filter_set_ext. intros l. rewrite !bool_decide_eq_false.
    change (item_tags (own_rows U d)) with (filter (fun l => link_owner d l = Some U) (item_tags d)). rewrite elem_of_filter.
    enough (link_owner d l = Some U -> ihead (own_rows U d) !! l.1 = ihead d !! l.1) as Hl.
    { split; intros (Hne & Ho & Hin); rewrite Hl in * by done; done. }
    intros (i & E & Ho)%link_owner_inv. unfold ihead. rewrite !lookup_fmap, E.
    by rewrite (proj2 (own_item_lookup U d l.1 i) (conj E Ho)).
Qed.
Lemma clear_offset_id id r : rc_user_id (clear_offset id r) = rc_user_id r.
Proof. unfold clear_offset. by case_bool_decide. Qed.
Lemma rhead_delete_receipt id d k : k <> id -> fst <$> rhead (delete_receipt id d) !! k = fst <$> rhead d !! k.
Proof.
  intros Hk. unfold rhead, delete_receipt. cbn. rewrite !lookup_fmap, lookup_delete_ne by done.
  destruct (rows (receipts d) !! k) as [r|]; [|done]. cbn. by rewrite clear_offset_id.
Qed.
(** No item is left on the deleted receipt. *)
Lemma items_left id d k i : rows (items (delete_receipt id d)) !! k = Some i ->
  rows (items d) !! k = Some i /\ it_receipt_id i <> id.
Proof.
  unfold delete_receipt, delete_items_of. cbn. rewrite map_lookup_filter_Some. cbn.
  by rewrite negb_true_iff, Z.eqb_neq.
Qed.
Lemma own_delete_receipt d id r : db_ok d -> rows (receipts d) !! id = Some r -> rc_user_id r = U ->
  own_rows U (delete_receipt id d) = delete_receipt id (own_rows U d).
Proof.
  intros Hok E HU. assert (Hd : fst <$> rhead d !! id = Some U).
  { unfold rhead. rewrite lookup_fmap, E. cbn. congruence. }
  pose proof (own_delete_items_of d id Hd) as Hi.
  assert (Hown : forall k i, rows (items (delete_items_of id d)) !! k = Some i -> item_owner (delete_receipt id d) i = item_owner d i).
  { intros k i Ei. apply (items_left id d k i) in Ei as [_ Hne]. unfold item_owner. by apply rhead_delete_receipt. }
  apply Db_ext; try done.
  - change (own U (fun r => Some (rc_user_id r)) (mkTable (clear_offset id <$> delete id (rows (receipts d))) (seq (receipts d))) =
      mkTable (clear_offset id <$> delete id (rows (receipts (own_rows U d)))) (seq (receipts d))).
    rewrite (own_fmap U (fun r => Some (rc_user_id r)) _ (clear_offset id) (delete_row id (receipts d))).
    + by rewrite own_delete.
    + intros k x _. by rewrite clear_offset_id.
  - apply (own_keep U (fun i => Some (im_user_id i)) (fun i => negb (im_receipt_id i =? id))). done.
  - change (items (delete_receipt id (own_rows U d))) with (items (delete_items_of id (own_rows U d))). rewrite <- Hi.
    apply (own_items_same U (delete_items_of id d) (delete_receipt id d)); [done|]. intros k i Ei. by apply (Hown k).
  - change (item_tags (delete_receipt id (own_rows U d))) with (item_tags (delete_items_of id (own_rows U d))). rewrite <- Hi.
    apply (own_links_same U (delete_items_of id d) (delete_receipt id d)); [done|]. intros l _.
    unfold link_owner. change (ihead (delete_receipt id d)) with (ihead (delete_items_of id d)).
    destruct (ihead (delete_items_of id d) !! l.1) as [rid|] eqn:El; [|done]. cbn.
    unfold ihead in El. apply lookup_fmap_Some in El as (i & <- & Ei). exact (Hown _ _ Ei).
Qed.

(** One row of receipts. *)
Lemma rhead_update d k r r' j : rows (receipts d) !! k = Some r -> rc_user_id r' = rc_user_id r ->
  fst <$> rhead (d <| receipts ::= update_row k r' |>) !! j = fst <$> rhead d !! j.
Proof.
  intros E HU. unfold rhead. cbn. rewrite !lookup_fmap. destruct (decide (j = k)) as [->|N].
  - rewrite lookup_insert_eq, E. cbn. congruence.
  - by rewrite lookup_insert_ne.
Qed.
Lemma own_update_receipt d k r r' : rows (receipts d) !! k = Some r -> rc_user_id r = U -> rc_user_id r' = U ->
  own_rows U (d <| receipts ::= update_row k r' |>) = (own_rows U d) <| receipts ::= update_row k r' |>.
Proof.
  intros E HU HU'. assert (Hr : forall j, fst <$> rhead (d <| receipts ::= update_row k r' |>) !! j = fst <$> rhead d !! j).
  { intros j. apply (rhead_update d k r); congruence. }
  apply Db_ext; try done.
  - apply own_update. congruence.
  - apply own_items_same; [done|]. intros j i _. apply Hr.
  - apply own_links_same; [done|]. intros l _. unfold link_owner.
    change (ihead (d <| receipts ::= update_row k r' |>)) with (ihead d). destruct (ihead d !! l.1) as [rid|]; [apply Hr|done].
Qed.
Lemma own_insert_receipt d r : db_ok d -> rc_user_id r = U ->
  own_rows U (d <| receipts ::= insert_row r |>) = (own_rows U d) <| receipts ::= insert_row r |>.
Proof.
  intros Hok HU. pose proof (ok_below _ Hok) as (_ & _ & _ & B & _).
  assert (Hsub : rhead d ⊆ rhead (d <| receipts ::= insert_row r |>)) by by apply head_subset.
  apply Db_ext; try done.
  - apply own_insert. congruence.
  - apply own_items_same; [done|]. intros k i E. eapply item_owner_mono; [done|]. exact (ok_items _ Hok k i E).
  - apply own_links_same; [done|]. intros l Hl. destruct (ok_links _ Hok l Hl) as (rid & u & E1 & E2 & _).
    unfold link_owner. change (ihead (d <| receipts ::= insert_row r |>)) with (ihead d). rewrite E1. cbn.
    rewrite E2. by apply (fst_lookup_mono _ _ _ _ Hsub).
Qed.
End Writes.
