(* ===== verification/OwnStatements.v ===== *)
(** * The services' statements on one user's rows

    For the statements of ItemService, ReceiptService and ReferenceData, with the
    ownership their WHERE clause or the caller's check established: run on
    [own_rows U d], a statement of U succeeds or fails as it does on [d], returns
    the same, and leaves the U rows of what it leaves on [d]. *)
From S2P Require Import Prelude CString Binary64 Json Kinds JsonInput LedgerInput TokenUtils Env Db World.
From S2P Require Import ItemService ReceiptService ReferenceData AuthService Invariant Statements Safety OwnRows.

Section OwnStatements.
Context `{PG : Postgres} (U : Z).
Implicit Types d : Db.

(** ** Receipts *)

(** Every row the receipt refers to is U's. *)
Definition refs_mine (r : receipt_row) (d : Db) : Prop :=
  rc_user_id r = U /\ (forall p, er_paymentMethodId (rc_fields r) = Some p -> phead d !! p = Some U) /\
  (forall o, er_offsetsReceiptId (rc_fields r) = Some o -> fst <$> rhead d !! o = Some U).
Lemma receipt_refs_mine d k r : db_ok d -> rows (receipts d) !! k = Some r -> rc_user_id r = U -> refs_mine r d.
Proof.
  intros Hok E HU. destruct (ok_receipts _ Hok k r E) as (_ & Hp & Ho). rewrite HU in *.
  split; [done|split; [done|]]. intros o Eo. by apply Ho.
Qed.
Lemma receipt_fks_own d r : refs_mine r d -> receipt_fks r (own_rows U d) = receipt_fks r d.
Proof.
  intros (HU & Hp & Ho). unfold receipt_fks. by rewrite HU, fk_user_own, fk_payment_own, fk_receipt_own.
Qed.
Lemma put_receipt_own d k r r' : rows (receipts d) !! k = Some r -> rc_user_id r = U -> refs_mine r' d ->
  put_receipt k r' (own_rows U d) = on_own_ U (put_receipt k r' d).
Proof.
  intros E HU Hr. unfold put_receipt. rewrite (receipt_fks_own _ _ Hr). destruct (guard (receipt_checks r') _); [|done..].
  destruct (guard (receipt_fks r' d) _); [|done..]. cbn [obind on_own_]. rewrite (own_update_receipt U d k r); [done|done|done|apply Hr].
Qed.
Lemma insert_receipt_own d r : db_ok d -> refs_mine r d ->
  insert_receipt r (own_rows U d) = on_own U (insert_receipt r d).
Proof.
  intros Hok Hr. unfold insert_receipt. rewrite (receipt_fks_own _ _ Hr). destruct (guard (receipt_checks r) _); [|done..].
  destruct (guard (receipt_fks r d) _); [|done..]. cbn [obind on_own]. by rewrite (own_insert_receipt U d r Hok (proj1 Hr)).
Qed.
Lemma sql_update_receipt_own d k r f : rows (receipts d) !! k = Some r -> rc_user_id r = U -> refs_mine (f r) d ->
  sql_update_receipt k f (own_rows U d) = on_own_ U (sql_update_receipt k f d).
Proof.
  intros E HU Hr. unfold sql_update_receipt. rewrite E.
  rewrite (proj2 (own_receipt_lookup U d k r) (conj E HU)). by eapply put_receipt_own.
Qed.
Lemma sql_insert_image_own d row : fst <$> rhead d !! im_receipt_id row = Some U -> im_user_id row = U ->
  sql_insert_image row (own_rows U d) = on_own_ U (sql_insert_image row d).
Proof.
  intros Hr HU. unfold sql_insert_image. rewrite HU, fk_user_own, fk_receipt_own by by intros ? [= <-].
  destruct (guard _ _); [|done..]. cbn [obind on_own_]. by rewrite own_insert_image.
Qed.
Lemma sql_requeue_own d id t : db_ok d -> sql_requeue U id t (own_rows U d) = on_own U (sql_requeue U id t d).
Proof.
  intros Hok. unfold sql_requeue. rewrite owned_receipt_own. destruct (owned_receipt U id d) as [r|] eqn:E; [|done].
  case_bool_decide; [|done]. apply owned_receipt_Some in E as [E HU].
  rewrite (put_receipt_own d id r); [by destruct (put_receipt _ _ d)|done|done|exact (receipt_refs_mine d id r Hok E HU)].
Qed.
Lemma sql_delete_receipt_own d id : db_ok d -> sql_delete_receipt U id (own_rows U d) = on_own U (sql_delete_receipt U id d).
Proof.
  intros Hok. unfold sql_delete_receipt. rewrite owned_receipt_own. destruct (owned_receipt U id d) as [r|] eqn:E; [|done].
  apply owned_receipt_Some in E as [E HU]. cbn [on_own]. by rewrite (own_delete_receipt U d id r Hok E HU).
Qed.
Lemma image_keys_own d id : db_ok d -> image_keys U id (own_rows U d) = image_keys U id d.
Proof.
  intros Hok. unfold image_keys. rewrite owned_receipt_own. destruct (owned_receipt U id d) as [r|] eqn:E; [|done].
  rewrite images_of_own; [done|done|]. by rewrite (owned_receipt_head _ _ _ _ E).
Qed.
Lemma findConflict_own d prepared : findConflict U prepared (own_rows U d) = findConflict U prepared d.
Proof.
  induction prepared as [|prep prepared IH]; [done|]. cbn [findConflict]. rewrite IH.
  unfold own_rows at 1. cbn [receipt_images]. rewrite select_own; [done|].
  intros k i _ [HU _]%andb_true_iff. apply Z.eqb_eq in HU. congruence.
Qed.
Lemma item_category_sides_own d id : db_ok d -> fst <$> rhead d !! id = Some U ->
  item_category_sides id (own_rows U d) = item_category_sides id d.
Proof.
  intros Hok H. unfold item_category_sides. rewrite items_of_own by done. apply list_omap_ext, Forall_Forall2_diag, Forall_forall. intros [k i] Hin%elem_of_map_to_list.
  apply map_lookup_filter_Some in Hin as [E Hi%Z.eqb_eq]. cbn [snd] in *. destruct (it_category_id i) as [c|] eqn:Ec; [|done].
  destruct (ok_items _ Hok k i E) as (u & kind & Er & Hc). rewrite Hi in Er. rewrite Er in H. injection H as ->.
  destruct (Hc c Ec) as (side & (row & [= HU _] & Es)%lookup_fmap_Some & _).
  rewrite Es. cbn. by rewrite (proj2 (mine_lookup U _ (rows (categories d)) c row) (conj Es (f_equal Some HU))).
Qed.

(** ** Items and their tags *)

(** The item is on a receipt of U. *)
Definition item_mine (k : Z) (d : Db) : Prop := exists i, rows (items d) !! k = Some i /\ item_owner d i = Some U.
Lemma own_item_mine rid k kind d : own_item U rid k kind d -> item_mine k d.
Proof. intros (i & E & _ & HU)%own_item_owner. by exists i. Qed.
Lemma item_mine_links k d l : item_mine k d -> l.1 = k -> link_owner d l = Some U.
Proof. intros (i & E & HU) <-. by rewrite (link_owner_item _ _ i). Qed.
Lemma own_item_row k d : item_mine k d -> rows (items (own_rows U d)) !! k = rows (items d) !! k.
Proof. intros (i & E & HU). rewrite E. by apply own_item_lookup. Qed.

Definition item_refs_mine (row : item_row) (d : Db) : Prop :=
  item_owner d row = Some U /\ forall c, it_category_id row = Some c -> fst <$> chead d !! c = Some U.
Lemma own_insert_item d row : db_ok d -> item_owner d row = Some U ->
  own_rows U (d <| items ::= insert_row row |>) = (own_rows U d) <| items ::= insert_row row |>.
Proof.
  intros Hok HU. pose proof (ok_below _ Hok) as (_ & _ & _ & _ & _ & B). apply Db_ext; try done.
  - by apply (own_insert U (item_owner d)).
  - apply own_links_same; [done|]. intros l Hl. destruct (ok_links _ Hok l Hl) as (rid & u & E1 & _).
    unfold link_owner, ihead in *. cbn. rewrite fmap_insert, lookup_insert_ne; [done|].
    intros Es. rewrite <- Es, lookup_fmap, (below_fresh _ B) in E1. done.
Qed.
Lemma sql_insert_item_own d row : db_ok d -> item_refs_mine row d ->
  sql_insert_item row (own_rows U d) = on_own U (sql_insert_item row d).
Proof.
  intros Hok [HU Hc]. unfold sql_insert_item. rewrite fk_receipt_own, fk_category_own by (by intros ? [= <-] || done).
  destruct (guard _ _); [|done..]. cbn [obind on_own]. by rewrite own_insert_item.
Qed.
Lemma sql_update_item_own d k i row : rows (items d) !! k = Some i -> it_receipt_id row = it_receipt_id i ->
  item_refs_mine row d -> sql_update_item k row (own_rows U d) = on_own_ U (sql_update_item k row d).
Proof.
  intros E Er [HU Hc]. unfold sql_update_item. rewrite fk_category_own by done. destruct (guard _ _); [|done..].
  cbn [obind on_own_]. f_equal. symmetry. apply Db_ext; try done.
  - by apply (own_update U (item_owner d)).
  - apply own_links_same; [done|]. intros l _. unfold link_owner, ihead. cbn.
    rewrite fmap_insert, Er. rewrite insert_id; [done|]. by rewrite lookup_fmap, E.
Qed.
Lemma own_add_link d l : link_owner d l = Some U ->
  own_rows U (d <| item_tags ::= fun s => {[l]} ∪ s |>) = (own_rows U d) <| item_tags ::= fun s => {[l]} ∪ s |>.
Proof.
  intros HU. apply Db_ext; try done.
  change (filter (fun l => link_owner d l = Some U) ({[l]} ∪ item_tags d) = {[l]} ∪ filter (fun l => link_owner d l = Some U) (item_tags d)).
  apply set_eq. intros x. rewrite elem_of_union, !elem_of_filter, elem_of_union, elem_of_singleton. naive_solver.
Qed.
Lemma sql_insert_item_tag_own d k t : item_mine k d -> owned_tag U t d <> None ->
  sql_insert_item_tag k t (own_rows U d) = on_own_ U (sql_insert_item_tag k t d).
Proof.
  intros Hi Ht. pose proof Hi as (i & E & HU). pose proof (item_mine_links k d (k, t) Hi eq_refl) as Hl.
  unfold sql_insert_item_tag. rewrite (fk_tag_own U d t Ht), fk_item_own.
  - destruct (guard (fk _ _ && _) _); [|done..]. cbn [obind].
    assert (bool_decide ((k, t) ∈ item_tags (own_rows U d)) = bool_decide ((k, t) ∈ item_tags d)) as ->.
    { apply bool_decide_ext. cbn. rewrite elem_of_filter. tauto. }
    destruct (guard _ _); [|done..]. cbn [obind on_own_]. by rewrite own_add_link.
  - unfold ihead. rewrite lookup_fmap, E. exact HU.
Qed.
Lemma sql_clear_item_tags_own d k : sql_clear_item_tags k (own_rows U d) = on_own_ U (sql_clear_item_tags k d).
Proof. unfold sql_clear_item_tags. cbn [on_own_]. f_equal. apply Db_ext; try done. apply filter_set_comm. Qed.
Lemma tags_of_mine d k : item_mine k d -> tags_of k (own_rows U d) = tags_of k d.
Proof. intros H. apply tags_of_own. intros l _. by apply item_mine_links. Qed.

(** ** Categories, and the image route's join *)

Lemma existsb_ext_in {A} (p q : A -> bool) l : (forall x, x ∈ l -> p x = q x) -> existsb p l = existsb q l.
Proof.
  intros H. induction l as [|x l IH]; [done|]. cbn. rewrite (H x) by left. f_equal. apply IH. intros y Hy. apply H. by right.
Qed.
Lemma category_clash_own d id side c : db_ok d -> rows (categories d) !! id = Some c -> c_user_id c = U ->
  category_clash id side (own_rows U d) = category_clash id side d.
Proof.
  intros Hok E HU. assert (Hmine : forall k i, rows (items d) !! k = Some i -> it_category_id i = Some id -> item_owner d i = Some U).
  { intros k i Ei Ec. destruct (ok_items _ Hok k i Ei) as (u & kind & Er & Hc). unfold item_owner. rewrite Er. cbn.
    destruct (Hc id Ec) as (s & Es & _). unfold chead in Es. rewrite lookup_fmap, E in Es. cbn in Es. congruence. }
  unfold category_clash. change (items (own_rows U d)) with (own U (item_owner d) (items d)). rewrite select_own.
  - apply existsb_ext_in. intros [k i] Hin%elem_of_map_to_list. cbn [snd].
    apply map_lookup_filter_Some in Hin as [Ei Ec%bool_decide_eq_true]. pose proof (Hmine k i Ei Ec) as Ho.
    unfold item_owner in Ho. apply fmap_Some in Ho as ([u kind] & Er & [= ->]).
    apply rhead_Some in Er as (r & Er & HUr & _). by rewrite Er, (proj2 (own_receipt_lookup _ d _ r) (conj Er HUr)).
  - intros k i Ei Ec%bool_decide_eq_true. by apply (Hmine k).
Qed.
(** What the image route does with the join's answer. *)
Definition visible_key (location : option ImageLocation) : option string :=
  match location with
  | Some l => if il_ownerUserId l =? U then Some (il_imageKey l) else None
  | None => None
  end.
Definition image_location (id : Z) (d : Db) : option ImageLocation :=
  match rows (receipt_images d) !! id with
  | Some ri =>
      match rows (receipts d) !! im_receipt_id ri with
      | Some r => Some (mkImageLocation (rc_user_id r) (im_image_key ri))
      | None => None
      end
  | None => None
  end.
Lemma visible_key_own d id : db_ok d -> visible_key (image_location id (own_rows U d)) = visible_key (image_location id d).
Proof.
  intros Hok. unfold image_location, visible_key.
  destruct (rows (receipt_images d) !! id) as [ri|] eqn:E.
  - pose proof (ok_images _ Hok id ri E) as Ho. unfold image_ok, rhead in Ho. rewrite lookup_fmap in Ho.
    destruct (rows (receipts d) !! im_receipt_id ri) as [r|] eqn:Er; [|done]. cbn in Ho. injection Ho as Ho.
    destruct (Z.eqb_spec (rc_user_id r) U) as [HU|HU]; cbn [il_ownerUserId il_imageKey].
    + assert (rows (receipt_images (own_rows U d)) !! id = Some ri) as -> by (apply mine_lookup; split; [done|congruence]).
      rewrite (proj2 (own_receipt_lookup _ d _ r) (conj Er HU)). cbn. by rewrite HU, Z.eqb_refl.
    + destruct (rows (receipt_images (own_rows U d)) !! id) as [ri'|] eqn:E'; [|by rewrite (proj2 (Z.eqb_neq _ _) HU)].
      apply mine_lookup in E' as [E' HU']. rewrite E in E'. injection E' as <-. congruence.
  - destruct (rows (receipt_images (own_rows U d)) !! id) as [ri'|] eqn:E'; [|done]. apply mine_lookup in E'. destruct E'. congruence.
Qed.
End OwnStatements.
