(* ===== verification/Blind.v ===== *)
(** * Calls that see one user's data only

    [alone U w]: the world with every other user's rows and notifications removed.
    [blind U m w]: run from [alone U w], [m] returns or throws what it does from
    [w], and leaves what [w]'s run leaves of U's data.  There is one rule for each
    construct of the service monad; Confidential.v follows the services with them. *)
From S2P Require Import Prelude CString Binary64 Json Kinds JsonInput LedgerInput TokenUtils Env Db World.
From S2P Require Import ItemService ReceiptService ReferenceData AuthService Invariant OwnRows.

Section Blind.
Context `{PG : Postgres} `{IS : ImageStore} `{SO : Sodium} `{EN : Environment} `{VI : Vips} `{PL : Platform} (U : Z).

Definition alone (w : World) : World :=
  w <| w_db ::= own_rows U |> <| w_notes ::= filter (fun note => note.1.1 = U) |>.
Definition blind {A} (m : M A) (w : World) : Prop := m (alone w) = ((m w).1, alone (m w).2).

(** ** Rules *)

Lemma blind_ret {A} (a : A) w : blind (mret a) w.
Proof. done. Qed.
Lemma blind_throw {A} e w : blind (mthrow (A := A) e) w.
Proof. done. Qed.
Lemma blind_lift {A} (m : outcome A) w : blind (lift m) w.
Proof. done. Qed.
Lemma blind_now w : blind now w.
Proof. done. Qed.
Lemma blind_draw n w : blind (draw_token n) w.
Proof. done. Qed.
Lemma blind_put key ct b w : blind (store_put key ct b) w.
Proof. unfold blind, store_put. cbn. by destruct (put key ct b (w_store w)). Qed.
Lemma blind_get key w : blind (store_get key) w.
Proof. unfold blind, store_get. cbn. by destruct (get key (w_store w)). Qed.
Lemma blind_remove key w : blind (store_remove key) w.
Proof. unfold blind, store_remove. cbn. by destruct (remove key (w_store w)). Qed.
Lemma blind_query {A} (f : Db -> A) w : f (own_rows U (w_db w)) = f (w_db w) -> blind (query f) w.
Proof. unfold blind, query. cbn. by intros ->. Qed.
Lemma blind_exec {A} (f : Db -> outcome (A * Db)) w : f (own_rows U (w_db w)) = on_own U (f (w_db w)) -> blind (exec f) w.
Proof. unfold blind, exec. cbn. intros ->. by destruct (f (w_db w)) as [[]| |]. Qed.
Lemma blind_exec_ (f : Db -> outcome Db) w : f (own_rows U (w_db w)) = on_own_ U (f (w_db w)) -> blind (exec_ f) w.
Proof. intros H. apply blind_exec. rewrite H. by destruct (f (w_db w)). Qed.
Lemma blind_bind {A B} (m : M A) (k : A -> M B) w :
  blind m w -> wp m (fun r w' => forall a, r = Ok a -> blind (k a) w') w -> blind (mbind k m) w.
Proof.
  unfold blind, wp, mbind. intros -> H. destruct (m w) as [[a| |] w']; cbn in *; [|done..]. by apply H.
Qed.
Lemma blind_catch {A} (m : M A) (h : exn -> M A) w :
  blind m w -> wp m (fun r w' => forall e, r = Throw e -> blind (h e) w') w -> blind (mcatch m h) w.
Proof.
  unfold blind, wp, mcatch. intros -> H. destruct (m w) as [[|e|] w']; cbn in *; [done| |done]. by apply H.
Qed.
Lemma own_rollback d d' : own_rows U (rollback_db d d') = rollback_db (own_rows U d) (own_rows U d').
Proof. done. Qed.
Lemma blind_transactionE {A} (body : M (ending A)) w : blind body w -> blind (transactionE body) w.
Proof. unfold blind, transactionE. intros ->. by destruct (body w) as [[[]| |] w']. Qed.
Lemma blind_transaction {A} (body : M A) w : blind body w -> blind (transaction body) w.
Proof.
  intros H. apply blind_transactionE, blind_bind; [done|]. unfold wp. intros a _. apply blind_ret.
Qed.
Lemma blind_for_each {A} (I : World -> Prop) (body : A -> M ()) xs w :
  (forall x w', I w' -> blind (body x) w') -> (forall x w', I w' -> wp (body x) (fun _ => I) w') -> I w ->
  blind (for_each body xs) w.
Proof.
  intros Hb HI. revert w. induction xs as [|x xs IH]; intros w Hw; [done|]. cbn [for_each].
  apply blind_bind; [by apply Hb|]. eapply wp_mono; [by apply HI|]. intros r w' Hw' a _. by apply IH.
Qed.

(** The rules for one step followed by the rest. *)
Lemma blind_query_bind {A B} (f : Db -> A) (k : A -> M B) w :
  f (own_rows U (w_db w)) = f (w_db w) -> blind (k (f (w_db w))) w -> blind (mbind k (query f)) w.
Proof. intros Hf Hk. apply blind_bind; [by apply blind_query|]. apply wp_query. by intros a [= <-]. Qed.
Lemma blind_lift_bind {A B} (m : outcome A) (k : A -> M B) w :
  (forall a, m = Ok a -> blind (k a) w) -> blind (mbind k (lift m)) w.
Proof. intros Hk. by apply blind_bind; [apply blind_lift|apply wp_lift]. Qed.
Lemma blind_now_bind {B} (k : Z -> M B) w : blind (k (w_clock w)) w -> blind (mbind k now) w.
Proof. intros Hk. apply blind_bind; [apply blind_now|]. apply wp_now. by intros a [= <-]. Qed.
Lemma blind_exec_bind {A B} (f : Db -> outcome (A * Db)) (k : A -> M B) w :
  f (own_rows U (w_db w)) = on_own U (f (w_db w)) ->
  (forall a d, f (w_db w) = Ok (a, d) -> blind (k a) (w <| w_db := d |>)) -> blind (mbind k (exec f)) w.
Proof.
  intros Hf Hk. apply blind_bind; [by apply blind_exec|]. apply wp_exec.
  destruct (f (w_db w)) as [[a d]| |]; [|done..]. intros b [= <-]. by apply Hk.
Qed.
Lemma blind_exec_bind_ {B} (f : Db -> outcome Db) (k : () -> M B) w :
  f (own_rows U (w_db w)) = on_own_ U (f (w_db w)) ->
  (forall d, f (w_db w) = Ok d -> blind (k ()) (w <| w_db := d |>)) -> blind (mbind k (exec_ f)) w.
Proof.
  intros Hf Hk. apply blind_exec_bind; [rewrite Hf; by destruct (f (w_db w))|].
  intros [] d H. apply Hk. by destruct (f (w_db w)); [injection H as ->|..].
Qed.
End Blind.

Create HintDb blind.
#[export] Hint Resolve blind_ret blind_throw blind_lift blind_now blind_draw blind_put blind_get blind_remove : blind.
(** One step of the rules; a branch of the program is a branch of the proof. *)
Ltac blind_step :=
  first
    [ solve [eauto with blind]
    | apply blind_lift_bind; intros ? ?
    | apply blind_now_bind
    | match goal with
      | |- blind _ (mbind _ (query _)) _ => apply blind_query_bind; [|cbn beta]
      | |- blind _ (transaction _) _ => apply blind_transaction
      | |- blind _ (transactionE _) _ => apply blind_transactionE
      | |- blind _ (exec _) _ => apply blind_exec
      | |- blind _ (exec_ _) _ => apply blind_exec_
      | |- blind _ (query _) _ => apply blind_query
      end ].
