(* ===== verification/Confidential.v ===== *)
(** * No call depends on another user's data

    The calls of the services, one by one: an answer to U, and what becomes of U's
    rows, is the same with every other user's rows removed.  What holds between the
    statements of a call comes from Safety.v. *)
From stdpp Require Import sorting.
From S2P Require Import Prelude CString Binary64 Json Kinds JsonInput LedgerInput TokenUtils Env Db World.
From S2P Require Import ItemService ReceiptService ReferenceData AuthService Invariant Statements Safety OwnRows OwnStatements Blind.

Section Confidential.
Context `{PG : Postgres} `{IS : ImageStore} `{SO : Sodium} `{EN : Environment} `{VI : Vips} `{PL : Platform} (U : Z).

(** ** Items *)

Lemma ownedReceiptKind_blind rid w : blind U (ItemService.ownedReceiptKind U rid) w.
Proof.
  unfold ItemService.ownedReceiptKind. apply blind_query_bind; [apply owned_receipt_own|].
  destruct (owned_receipt U rid (w_db w)); auto with blind.
Qed.
Lemma fetchItem_blind k w : item_mine U k (w_db w) -> blind U (ItemService.fetchItem k) w.
Proof.
  intros H. unfold ItemService.fetchItem, ItemService.tagIdsFor. apply blind_query_bind; [by apply own_item_row|].
  destruct (rows (items (w_db w)) !! k); [|auto with blind]. apply blind_query_bind; [by apply tags_of_mine|auto with blind].
Qed.
Lemma requireCategoryFitsKind_blind c kind w : blind U (ItemService.requireCategoryFitsKind U c kind) w.
Proof.
  unfold ItemService.requireCategoryFitsKind. apply blind_query_bind; [apply owned_category_own|].
  destruct (owned_category U c (w_db w)) as [row|]; [|auto with blind].
  apply blind_lift_bind. intros [] _; [auto with blind|]. apply blind_lift_bind. auto with blind.
Qed.
Lemma replaceTags_blind d0 rid k kind tagIds w :
  holds U d0 (own_item U rid k kind) w -> blind U (ItemService.replaceTags U k tagIds) w.
Proof.
  intros H. unfold ItemService.replaceTags. apply blind_exec_bind_; [apply sql_clear_item_tags_own|].
  intros d [= <-]. apply (blind_for_each U (holds U d0 (own_item U rid k kind))).
  - intros t w' [_ Hi]. unfold ItemService.add_tag. apply blind_query_bind; [apply owned_tag_own|].
    destruct (owned_tag U t (w_db w')) eqn:E; [|auto with blind]. apply blind_exec_.
    apply sql_insert_item_tag_own; [by eapply own_item_mine|congruence].
  - intros t w'. apply add_tag_safe.
  - pose proof H as [He Ho]. split; [|exact Ho]. apply (step_evolves _ _ _ _ He). intros Hok.
    destruct (own_item_owner _ _ _ _ _ Ho) as (i & E & _ & HU). by eapply clear_links_evolves.
Qed.

(** What [ItemService.insert] needs of the receipt. *)
Definition on_receipt (d0 : Db) (rid : Z) (kind : string) : World -> Prop :=
  holds U d0 (fun d => rhead d !! rid = Some (U, kind)).
Lemma cat_ok_mine kind c d : cat_ok U kind c d -> forall k, c = Some k -> fst <$> chead d !! k = Some U.
Proof. intros H k E. destruct (H k E) as (side & -> & _). done. Qed.
Lemma insert_blind d0 rid kind item w : on_receipt d0 rid kind w -> blind U (ItemService.insert U rid kind item) w.
Proof.
  intros H. pose proof H as [He Hr]. unfold ItemService.insert. apply blind_bind.
  { destruct (ii_categoryId item); [apply requireCategoryFitsKind_blind|auto with blind]. }
  apply (wp_mono _ (fun r w' => w' = w /\ (r = Ok () -> cat_ok U kind (ii_categoryId item) (w_db w)))).
  { destruct (ii_categoryId item) as [c|]; [apply requireCategoryFitsKind_safe|]. by apply wp_ret. }
  intros r w' [-> Hc] [] ->. specialize (Hc eq_refl).
  assert (Hrow : item_refs_mine U (ItemService.input_row rid item) (w_db w)).
  { split; [unfold item_owner; cbn; by rewrite Hr|]. exact (cat_ok_mine _ _ _ Hc). }
  apply blind_exec_bind; [apply sql_insert_item_own; [apply He|done]|].
  intros k d Es. unfold sql_insert_item in Es. ok_inv. apply blind_bind.
  - apply (replaceTags_blind d0 rid _ kind). split; [|split; [exact Hr|]].
    + apply (step_evolves _ _ _ _ He). intros Hok. eapply insert_item_evolves; [done|exact Hr|]. by eapply input_row_ok.
    + unfold ihead. cbn. by rewrite fmap_insert, lookup_insert_eq.
  - unfold wp. auto with blind.
Qed.
Lemma insert_items_blind d0 rid kind items w : on_receipt d0 rid kind w -> blind U (insert_items U rid kind items) w.
Proof.
  apply (blind_for_each U (on_receipt d0 rid kind)).
  - intros i w' H. apply blind_bind; [by eapply insert_blind|]. unfold wp. auto with blind.
  - intros i w' H. apply wp_bind. eapply wp_mono; [by apply (insert_safe U d0)|].
    intros [] w'' H''; cbn [after]; [by apply wp_ret|done..].
Qed.


Lemma item_list_blind rid w : blind U (ItemService.list U rid) w.
Proof.
  unfold ItemService.list. apply blind_bind; [apply ownedReceiptKind_blind|].
  unfold ItemService.ownedReceiptKind. wp_steps. destruct (owned_receipt U rid (w_db w)) as [r|] eqn:E; wp_steps; [|done].
  intros kind _. pose proof (owned_receipt_head _ _ _ _ E) as Hr.
  assert (Ho : fst <$> rhead (w_db w) !! rid = Some U) by by rewrite Hr.
  apply blind_query_bind; [by rewrite items_of_own|]. apply blind_query. apply map_ext_in. intros [k i] Hin.
  apply list_elem_of_In in Hin. rewrite merge_sort_Permutation in Hin. apply elem_of_map_to_list in Hin.
  apply map_lookup_filter_Some in Hin as [Ei Hi%Z.eqb_eq]. cbn [fst snd] in *. f_equal. apply tags_of_mine.
  exists i. split; [done|]. unfold item_owner. by rewrite Hi.
Qed.
Lemma item_create_blind rid body w : db_ok (w_db w) -> blind U (ItemService.create U rid body) w.
Proof.
  intros Hok. unfold ItemService.create. apply blind_lift_bind. intros input _. apply blind_transaction.
  apply blind_bind; [apply ownedReceiptKind_blind|]. unfold ItemService.ownedReceiptKind. wp_steps.
  destruct (owned_receipt U rid (w_db w)) as [r|] eqn:E; wp_steps; [|done]. intros kind [= <-].
  assert (H : on_receipt (w_db w) rid (er_kind (rc_fields r)) w).
  { split; [by apply evolves_refl|]. by eapply owned_receipt_head. }
  apply blind_bind; [by eapply insert_blind|]. eapply wp_mono; [by apply insert_spec|].
  intros res w' [_ Ho] k ->. apply fetchItem_blind. by eapply own_item_mine, Ho.
Qed.
(** A read of an item by its id, of use only on the given receipt of U. *)
Lemma blind_item {B} rid k (body : item_row -> M B) e w : fst <$> rhead (w_db w) !! rid = Some U ->
  (forall i, rows (items (w_db w)) !! k = Some i -> it_receipt_id i = rid -> blind U (body i) w) ->
  blind U (let! current := query (fun d => rows (items d) !! k) in
           match current with
           | Some row => if negb (it_receipt_id row =? rid) then mthrow e else body row
           | None => mthrow e
           end) w.
Proof.
  intros Hr Hb. destruct (rows (items (w_db w)) !! k) as [i|] eqn:E.
  - destruct (Z.eqb_spec (it_receipt_id i) rid) as [Ei|Ni].
    + apply blind_query_bind; [apply own_item_row; exists i; split; [done|]; unfold item_owner; by rewrite Ei|].
      rewrite E, (proj2 (Z.eqb_eq _ _) Ei). by apply Hb.
    + unfold blind, mbind, query. rewrite E, (proj2 (Z.eqb_neq _ _) Ni).
      destruct (rows (items (w_db (alone U w))) !! k) as [i'|] eqn:E'; [|done].
      apply own_item_lookup in E' as [E' _]. rewrite E in E'. injection E' as <-. by rewrite (proj2 (Z.eqb_neq _ _) Ni).
  - unfold blind, mbind, query. rewrite E. destruct (rows (items (w_db (alone U w))) !! k) as [i'|] eqn:E'; [|done].
    apply own_item_lookup in E' as [E' _]. congruence.
Qed.
Lemma item_update_blind rid k body w : db_ok (w_db w) -> blind U (ItemService.update U rid k body) w.
Proof.
  intros Hok. unfold ItemService.update. apply blind_transaction. apply blind_bind; [apply ownedReceiptKind_blind|].
  unfold ItemService.ownedReceiptKind. wp_steps. destruct (owned_receipt U rid (w_db w)) as [r|] eqn:E; wp_steps; [|done].
  intros kind [= <-]. pose proof (owned_receipt_head _ _ _ _ E) as Hr.
  apply blind_item; [by rewrite Hr|]. intros i Ei Er.
  apply blind_lift_bind. intros [item given] Ep. apply blind_bind.
  { destruct (ii_categoryId item); [|auto with blind]. destruct (has _ body); [apply requireCategoryFitsKind_blind|auto with blind]. }
  apply (wp_mono _ (fun res w' => w' = w /\ (res = Ok () -> cat_ok U (er_kind (rc_fields r)) (ii_categoryId item) (w_db w)))).
  { by eapply patched_category_ok. }
  intros res w' [-> Hcat] [] ->. specialize (Hcat eq_refl).
  assert (Hrow : item_refs_mine U (ItemService.input_row rid item) (w_db w)).
  { split; [unfold item_owner; cbn; by rewrite Hr|]. exact (cat_ok_mine _ _ _ Hcat). }
  apply blind_exec_bind_; [by eapply sql_update_item_own|]. intros d Es.
  set (d' := (w_db w) <| items ::= update_row k (ItemService.input_row rid item) |>).
  assert (d = d') as -> by by unfold sql_update_item in Es; ok_inv.
  assert (Ho : own_item U rid k (er_kind (rc_fields r)) d').
  { split; [exact Hr|]. unfold ihead. cbn. by rewrite fmap_insert, lookup_insert_eq. }
  assert (Hev : evolves U (w_db w) d').
  { eapply update_item_evolves; [done|done|done|by rewrite Er|]. by eapply input_row_ok. }
  apply blind_bind.
  - destruct given; [|auto with blind]. apply (replaceTags_blind (w_db w) rid k (er_kind (rc_fields r))). by split.
  - apply (wp_mono _ (fun _ w' => own_item U rid k (er_kind (rc_fields r)) (w_db w'))).
    + destruct given; [|by apply wp_ret]. eapply wp_mono; [by apply (replaceTags_safe U (w_db w))|]. by intros ? ? [].
    + intros res w' Hi [] _. apply fetchItem_blind. by eapply own_item_mine.
Qed.
Lemma item_remove_blind rid k w : blind U (ItemService.remove U rid k) w.
Proof.
  unfold ItemService.remove. apply blind_bind; [apply ownedReceiptKind_blind|].
  unfold ItemService.ownedReceiptKind. wp_steps. destruct (owned_receipt U rid (w_db w)) as [r|] eqn:E; wp_steps; [|done].
  intros kind _. pose proof (owned_receipt_head _ _ _ _ E) as Hr. apply blind_exec_bind.
  - destruct (rows (items (w_db w)) !! k) as [i|] eqn:Ei.
    + destruct (Z.eqb_spec (it_receipt_id i) rid) as [Ek|Nk].
      * rewrite (proj2 (own_item_lookup U (w_db w) k i)); [|split; [done|unfold item_owner; by rewrite Ek, Hr]].
        rewrite (proj2 (Z.eqb_eq _ _) Ek). cbn [on_own]. by rewrite own_delete_item.
      * destruct (rows (items (own_rows U (w_db w))) !! k) as [i'|] eqn:E'; [|done].
        apply own_item_lookup in E' as [E' _]. rewrite Ei in E'. injection E' as <-. by rewrite (proj2 (Z.eqb_neq _ _) Nk).
    + destruct (rows (items (own_rows U (w_db w))) !! k) as [i'|] eqn:E'; [|done].
      apply own_item_lookup in E' as [E' _]. congruence.
  - intros [] d _; auto with blind.
Qed.

(** ** Categories, tags and payment methods *)

Lemma blind_renamed {A} (m : M A) (f : exn -> exn) w : blind U m w -> blind U (mcatch m (fun e => mthrow (f e))) w.
Proof. intros H. apply blind_catch; [done|]. unfold wp. auto with blind. Qed.
Lemma removed_blind noun b w : blind U (removed noun b) w.
Proof. unfold removed. destruct b; auto with blind. Qed.
(** INSERT of a new row, in a call that renames the conflict. *)
Lemma create_blind {A R} (same : A -> A -> bool) (owner : A -> Z) (f : Db -> table A) `{!Setter f} row (r : Z -> R) g w :
  insert_unique same owner f row (own_rows U (w_db w)) = on_own U (insert_unique same owner f row (w_db w)) ->
  blind U (mcatch (let! id := exec (insert_unique same owner f row) in mret (r id)) (fun e => mthrow (g e))) w.
Proof. intros H. apply blind_renamed, blind_exec_bind; [exact H|auto with blind]. Qed.
(** DELETE of an owned row. *)
Lemma remove_blind {A} noun (own_of : Db -> option A) del w :
  own_of (own_rows U (w_db w)) = own_of (w_db w) -> own_rows U (del (w_db w)) = del (own_rows U (w_db w)) ->
  blind U (let! result := exec (fun d => delete_owned (own_of d) del d) in removed noun result) w.
Proof.
  intros Ho Hd. apply blind_exec_bind; [|intros; apply removed_blind].
  unfold delete_owned. rewrite Ho. destruct (own_of (w_db w)); [|done]. cbn [on_own]. by rewrite Hd.
Qed.

Lemma insert_category_own row d : c_user_id row = U ->
  insert_unique same_category c_user_id categories row (own_rows U d) =
  on_own U (insert_unique same_category c_user_id categories row d).
Proof. intros H. apply insert_unique_own; [done|done|apply same_category_owner|by apply own_insert_category]. Qed.
Lemma insert_tag_own row d : t_user_id row = U ->
  insert_unique same_tag t_user_id tags row (own_rows U d) = on_own U (insert_unique same_tag t_user_id tags row d).
Proof. intros H. apply insert_unique_own; [done|done|apply same_tag_owner|by apply own_insert_tag]. Qed.
Lemma insert_payment_method_own row d : p_user_id row = U ->
  insert_unique same_payment_method p_user_id payment_methods row (own_rows U d) =
  on_own U (insert_unique same_payment_method p_user_id payment_methods row d).
Proof. intros H. apply insert_unique_own; [done|done|apply same_payment_method_owner|by apply own_insert_payment_method]. Qed.

Lemma category_list_blind w : blind U (CategoryService.list U) w.
Proof.
  apply blind_query. cbn. rewrite select_own; [done|]. intros k c _ H%Z.eqb_eq. congruence.
Qed.
Lemma tag_list_blind w : blind U (TagService.list U) w.
Proof. apply blind_query. cbn. rewrite select_own; [done|]. intros k t _ H%Z.eqb_eq. congruence. Qed.
Lemma payment_method_list_blind w : blind U (PaymentMethodService.list U) w.
Proof. apply blind_query. cbn. rewrite select_own; [done|]. intros k p _ H%Z.eqb_eq. congruence. Qed.

Lemma category_create_blind body w : blind U (CategoryService.create U body) w.
Proof. unfold CategoryService.create. do 4 (apply blind_lift_bind; intros ? _). apply create_blind, insert_category_own. done. Qed.
Lemma tag_create_blind body w : blind U (TagService.create U body) w.
Proof. unfold TagService.create. do 3 (apply blind_lift_bind; intros ? _). apply create_blind, insert_tag_own. done. Qed.
Lemma payment_method_create_blind body w : blind U (PaymentMethodService.create U body) w.
Proof.
  unfold PaymentMethodService.create. do 4 (apply blind_lift_bind; intros ? _). apply create_blind, insert_payment_method_own. done.
Qed.

Lemma category_remove_blind id w : blind U (CategoryService.remove U id) w.
Proof. apply (remove_blind "category" (owned_category U id)); [apply owned_category_own|apply own_delete_category]. Qed.
Lemma tag_remove_blind id w : blind U (TagService.remove U id) w.
Proof. apply (remove_blind "tag" (owned_tag U id)); [apply owned_tag_own|apply own_delete_tag]. Qed.
Lemma payment_method_remove_blind id w : blind U (PaymentMethodService.remove U id) w.
Proof. apply (remove_blind "payment method" (owned_payment_method U id)); [apply owned_payment_method_own|apply own_delete_payment_method]. Qed.

Lemma category_update_blind id body w : db_ok (w_db w) -> blind U (CategoryService.update U id body) w.
Proof.
  intros Hok. unfold CategoryService.update. do 4 (apply blind_lift_bind; intros ? _).
  apply blind_renamed, blind_transaction, blind_query_bind; [apply owned_category_own|].
  destruct (owned_category U id (w_db w)) as [c|] eqn:E; [|auto with blind]. apply owned_category_Some in E as [E HU].
  assert (Hend : forall w' (c' : category_row), c_user_id c' = U ->
    blind U (exec_ (update_unique same_category categories id c') ;! mret (category_of id c')) w').
  { intros w' c' HU'. apply blind_exec_bind_; [|auto with blind].
    apply (update_unique_own U same_category c_user_id); [done|done|apply same_category_owner|by apply own_update_category]. }
  destruct a2 as [side|].
  - destruct (eqb side (c_is_income c)); [apply blind_bind; [auto with blind|]; intros ? _; by apply Hend|].
    apply blind_bind.
    + apply blind_query_bind; [by eapply category_clash_own|]. destruct (category_clash _ _ _); auto with blind.
    + unfold wp. intros; by apply Hend.
  - apply blind_bind; [auto with blind|]. unfold wp. intros; by apply Hend.
Qed.
Lemma tag_update_blind id body w : blind U (TagService.update U id body) w.
Proof.
  unfold TagService.update. do 3 (apply blind_lift_bind; intros ? _). apply blind_bind.
  - apply blind_renamed, blind_exec. rewrite owned_tag_own. destruct (owned_tag U id (w_db w)); [|done].
    rewrite (update_unique_own U same_tag t_user_id); [|done|done|apply same_tag_owner|by apply own_update_tag].
    by destruct (update_unique _ _ _ _ _).
  - unfold wp. intros [] _; auto with blind.
Qed.
Lemma payment_method_update_blind id body w : blind U (PaymentMethodService.update U id body) w.
Proof.
  unfold PaymentMethodService.update. do 4 (apply blind_lift_bind; intros ? _). apply blind_bind.
  - apply blind_renamed, blind_exec. rewrite owned_payment_method_own.
    destruct (owned_payment_method U id (w_db w)) as [p|] eqn:E; [|done]. apply owned_payment_method_Some in E as [_ HU].
    rewrite (update_unique_own U same_payment_method p_user_id); [|done|done|apply same_payment_method_owner|by apply own_update_payment_method].
    by destruct (update_unique _ _ _ _ _).
  - unfold wp. intros [] _; auto with blind.
Qed.

(** ** Receipts and their images *)

Lemma store_image_blind rid prep w : owns_receipt U rid (w_db w) -> blind U (store_image U rid prep) w.
Proof.
  intros Ho. unfold store_image. apply blind_bind; [unfold generateImageKey; apply blind_bind; [auto with blind|unfold wp; auto with blind]|].
  eapply wp_mono; [apply generateImageKey_db|]. intros r w1 E1 key _. apply blind_bind; [auto with blind|].
  eapply wp_mono; [apply store_put_db|]. intros r2 w2 E2 [] _. apply blind_now_bind, blind_exec_, sql_insert_image_own; [|done].
  cbn. by rewrite E2, E1.
Qed.
Lemma storeImages_blind d0 rid prepared w : holds U d0 (owns_receipt U rid) w -> blind U (storeImages U rid prepared) w.
Proof.
  apply (blind_for_each U (holds U d0 (owns_receipt U rid))).
  - intros prep w' [_ H]. by apply store_image_blind.
  - intros prep w'. apply store_image_safe.
Qed.
Lemma conflict_blind {B} (force : bool) prepared (k : option ImageConflict -> M B) w :
  (forall c, blind U (k c) w) ->
  blind U (mbind k (if force then mret None else query (findConflict U prepared))) w.
Proof.
  intros Hk. destruct force.
  - apply blind_bind; [auto with blind|]. unfold wp. by intros.
  - apply blind_query_bind; [apply findConflict_own|done].
Qed.
Lemma upload_blind images force w : db_ok (w_db w) -> blind U (uploadReceipt U images force) w.
Proof.
  intros Hok. unfold uploadReceipt. apply blind_lift_bind. intros cap _. destruct (cap <? _); [auto with blind|].
  apply blind_lift_bind. intros prepared _. apply blind_lift_bind. intros rules _.
  destruct (canonicalDirection rules) as [dir|]; [|auto with blind]. apply blind_transactionE, conflict_blind.
  intros [c|]; [auto with blind|]. apply blind_now_bind.
  set (r := scanned_row U kDefaultKind dir (w_clock w)). apply blind_exec_bind; [by apply insert_receipt_own|].
  intros rid d' Ei. assert (Hr : receipt_ok (rhead (w_db w)) (phead (w_db w)) (seq (receipts (w_db w))) r).
  { split; [by eapply insert_receipt_checks|by split]. }
  destruct (insert_receipt_evolves _ _ _ _ _ Hok eq_refl Hr Ei) as (He & -> & Erow & _).
  apply blind_bind; [|unfold wp; auto with blind]. apply (storeImages_blind (w_db w)). split; [exact He|].
  unfold owns_receipt. cbn. by rewrite (rhead_owner _ _ _ Erow).
Qed.
Lemma add_images_blind rid images force w : db_ok (w_db w) -> blind U (addImages U rid images force) w.
Proof.
  intros Hok. unfold addImages. apply blind_query_bind; [apply owned_receipt_own|].
  destruct (owned_receipt U rid (w_db w)) as [r0|] eqn:E; [|auto with blind].
  pose proof (owned_receipt_head _ _ _ _ E) as Hr. apply blind_lift_bind. intros prepared _. apply blind_transactionE.
  apply blind_query_bind; [unfold image_count; rewrite images_of_own; [done|done|by rewrite Hr]|].
  apply blind_lift_bind. intros cap _. destruct (cap <? _); [auto with blind|]. apply conflict_blind.
  intros [c|]; [auto with blind|]. assert (H : holds U (w_db w) (owns_receipt U rid) w).
  { split; [by apply evolves_refl|]. unfold owns_receipt. by rewrite Hr. }
  apply blind_bind; [by eapply storeImages_blind|]. eapply wp_mono; [by apply (storeImages_safe U (w_db w))|].
  intros res w' [He Ho] [] _. unfold owns_receipt in Ho. apply fmap_Some in Ho as ([u kind] & Hh & [= <-]).
  apply rhead_Some in Hh as (row & Er & HU & _). apply blind_exec_bind_; [|auto with blind].
  eapply sql_update_receipt_own; [done|done|]. exact (receipt_refs_mine U (w_db w') rid row (ev_ok _ _ _ He) Er HU).
Qed.

(** ** Manual entry, edits, reads, deletion *)

Lemma validateReferences_blind rid r w : blind U (validateReferences U rid r) w.
Proof.
  unfold validateReferences. apply blind_bind.
  { destruct (er_paymentMethodId r); [|auto with blind]. apply blind_query_bind; [apply owned_payment_method_own|].
    destruct (owned_payment_method _ _ _); auto with blind. }
  assert (H : forall w', blind U (match er_offsetsReceiptId r with
      | None => mret ()
      | Some o =>
          if bool_decide (rid = Some o) then mthrow (ValidationError "a receipt cannot offset itself") else
          let! target := query (owned_receipt U o) in
          match target with
          | None => mthrow (ValidationError "offsets_receipt_id does not exist")
          | Some t =>
              let targetKind := er_kind (rc_fields t) in
              let! rules := lift (rulesFor targetKind) in
              if isOffsetTarget rules then mret ()
              else mthrow (ValidationError ("offsets_receipt_id can't point at a " +:+ targetKind))
          end
      end) w').
  { intros w'. destruct (er_offsetsReceiptId r) as [o|]; [|auto with blind]. case_bool_decide; [auto with blind|].
    apply blind_query_bind; [apply owned_receipt_own|]. destruct (owned_receipt U o (w_db w')); [|auto with blind].
    apply blind_lift_bind. intros rules _. destruct (isOffsetTarget rules); auto with blind. }
  unfold wp. intros [] _. apply H.
Qed.
Lemma create_manual_blind body w : db_ok (w_db w) -> blind U (createManual U body) w.
Proof.
  intros Hok. unfold createManual. apply blind_lift_bind. intros input Hin.
  destruct (parseManualEntry_inv _ _ Hin) as (_ & _ & Hv & _). apply blind_transaction.
  apply blind_bind; [apply validateReferences_blind|]. eapply wp_mono; [apply validateReferences_same|].
  intros res w' [-> Hrefs] [] ->. destruct (Hrefs eq_refl) as [Hp Ho]. apply blind_now_bind, blind_lift_bind.
  intros date _. set (r := manual_row U (me_receipt input) date (w_clock w)).
  apply blind_exec_bind. { apply insert_receipt_own; [done|]. split; [done|split; [exact Hp|]]. intros o Eo. by apply Ho. }
  intros rid d' Ei. destruct (manual_row_evolves U input date w rid d' Hok Hv Hp (fun o Eo => proj2 (Ho o Eo)) Ei) as [He Erow].
  assert (H : on_receipt (w_db w) rid (er_kind (me_receipt input)) (w <| w_db := d' |>)).
  { split; [exact He|]. cbn. unfold rhead. by rewrite lookup_fmap, Erow. }
  apply blind_bind; [case_bool_decide; by eapply insert_items_blind|]. unfold wp. auto with blind.
Qed.
Lemma update_receipt_blind rid body w : db_ok (w_db w) -> blind U (updateReceipt U rid body) w.
Proof.
  intros Hok. unfold updateReceipt. apply blind_transaction, blind_query_bind; [apply owned_receipt_own|].
  destruct (owned_receipt U rid (w_db w)) as [row|] eqn:E; [|auto with blind].
  pose proof (owned_receipt_Some _ _ _ _ E) as [Erow HU]. pose proof (owned_receipt_head _ _ _ _ E) as Hr.
  apply blind_lift_bind. intros before _. apply blind_lift_bind. intros [r m] _.
  apply blind_bind; [apply validateReferences_blind|]. eapply wp_mono; [apply validateReferences_same|].
  intros res w' [-> Hrefs] [] ->. destruct (Hrefs eq_refl) as [Hp Ho]. apply blind_lift_bind. intros rules _.
  assert (Hend : blind U (let! t := now in
    let! date := lift (sql_date (er_purchaseDate r)) in
    exec_ (sql_update_receipt rid (edited_row r date m t)) ;!
    let! updated := query (fun d => rows (receipts d) !! rid) in
    match updated with
    | Some row' => mret (summary_of rid row')
    | None => lift (UB "updated[0] of an empty result")
    end) w).
  { apply blind_now_bind, blind_lift_bind. intros date _. apply blind_exec_bind_.
    - eapply sql_update_receipt_own; [done|done|]. split; [exact HU|]. split; [exact Hp|]. intros o Eo. by apply Ho.
    - intros d Es. unfold sql_update_receipt in Es. rewrite Erow in Es. apply put_receipt_Ok in Es as [-> _].
      assert (Enew : rows (receipts ((w_db w) <| receipts ::= update_row rid (edited_row r date m (w_clock w) row) |>)) !! rid =
        Some (edited_row r date m (w_clock w) row)) by (cbn; by rewrite lookup_insert_eq).
      apply blind_query_bind.
      + etransitivity; [apply own_receipt_lookup; by split|by symmetry].
      + change (rows (receipts (w_db _)) !! rid) with (rows (receipts ((w_db w) <| receipts ::= update_row rid (edited_row r date m (w_clock w) row) |>)) !! rid).
        rewrite Enew. auto with blind. }
  apply blind_bind.
  - destruct (eqb _ _); [auto with blind|]. apply blind_query_bind; [apply item_category_sides_own; [done|by rewrite Hr]|].
    destruct (existsb _ _); auto with blind.
  - apply (wp_mono _ (fun _ w' => w' = w)); [|by intros ? ? ->]. destruct (eqb _ _); [by apply wp_ret|]. wp_steps.
    by destruct (existsb _ _).
Qed.
Lemma get_receipt_blind rid w : blind U (getReceipt U rid) w.
Proof. apply blind_query_bind; [apply owned_receipt_own|auto with blind]. Qed.
Lemma retry_blind rid w : db_ok (w_db w) -> blind U (retryScan U rid) w.
Proof.
  intros Hok. unfold retryScan. apply blind_now_bind, blind_exec_bind; [by apply sql_requeue_own|].
  intros b d' _. apply blind_bind; [apply get_receipt_blind|]. unfold wp. intros [receipt|] _; [destruct b|]; auto with blind.
Qed.
Lemma list_receipts_blind limit offset w : blind U (listReceipts U limit offset) w.
Proof.
  unfold listReceipts. destruct (limit <? 0); [auto with blind|]. destruct (offset <? 0); [auto with blind|].
  apply blind_query. cbn. rewrite select_own; [done|]. intros k r _ H%Z.eqb_eq. congruence.
Qed.
Lemma list_images_blind rid w : db_ok (w_db w) -> blind U (listImages U rid) w.
Proof.
  intros Hok. unfold listImages. apply blind_query_bind; [apply owned_receipt_own|].
  destruct (owned_receipt U rid (w_db w)) as [r|] eqn:E; [|auto with blind]. apply blind_query.
  rewrite images_of_own; [done|done|]. by rewrite (owned_receipt_head _ _ _ _ E).
Qed.
Lemma delete_blind rid w : db_ok (w_db w) -> blind U (deleteReceipt U rid) w.
Proof.
  intros Hok. unfold deleteReceipt. apply blind_query_bind; [by apply image_keys_own|].
  apply blind_exec_bind; [by apply sql_delete_receipt_own|]. intros [] d' _; [|auto with blind].
  apply blind_bind; [|unfold wp; auto with blind]. apply (blind_for_each U (fun _ => True)); [|done|done].
  intros key w' _. apply blind_catch; [auto with blind|]. unfold wp. auto with blind.
Qed.
End Confidential.
