(* ===== verification/ScanSafety.v ===== *)
(** * What the scan worker writes

    The same guarantees as Safety.v for the worker's statements: they keep the
    invariant, only touch the rows of the claim's user, and never write for a
    claim that has gone stale. *)
From S2P Require Import Prelude CString Binary64 Json Kinds JsonInput LedgerInput TokenUtils Env Db World.
From S2P Require Import ItemService ReceiptService ReferenceData ScanWorker Invariant Statements Safety.

Section ScanSafety.
Context `{PG : Postgres} `{IS : ImageStore} `{SO : Sodium} `{JT : JsonText}.
Context `{SP : ScanProvider} `{MM : MerchantMatcher} `{NO : Notifier}.
Context (config_ : ScanWorkerConfig).

(** The receipt a claim names, if it still exists, is its user's. *)
Definition claim_owned (claim : Claim) (d : Db) : Prop :=
  forall r, rows (receipts d) !! cl_receiptId claim = Some r -> rc_user_id r = cl_userId claim.

Lemma insert_scanned_safe claim U d0 kind taxonomy scanned w :
  cl_userId claim = U ->
  holds U d0 (fun d => rhead d !! cl_receiptId claim = Some (U, kind)) w ->
  wp (insertScannedItems claim kind scanned taxonomy)
     (fun _ => holds U d0 (fun d => rhead d !! cl_receiptId claim = Some (U, kind))) w.
Proof.
  intros <- H. apply wp_for_each; [|done]. intros i w' _ H'. unfold insert_scanned. apply wp_bind. apply wp_lift.
  destruct (toItemInput i kind taxonomy); cbn [after]; [|done..]. apply wp_bind.
  eapply wp_mono; [by apply (insert_safe _ d0)|]. intros [] w'' H''; cbn [after]; [by apply wp_ret|done..].
Qed.

Lemma readSnapshot_Some claim d s : readSnapshot claim d = Some s ->
  exists r, rows (receipts d) !! cl_receiptId claim = Some r /\ claimed claim r = true /\
    s = snapshot_of (cl_receiptId claim) r d.
Proof.
  unfold readSnapshot. destruct (rows (receipts d) !! cl_receiptId claim) as [r|]; [|done].
  destruct (claimed claim r) eqn:E; [|done]. intros [= <-]. by exists r.
Qed.

Lemma writeVerify_safe claim result taxonomy allMatch r w :
  db_ok (w_db w) -> rows (receipts (w_db w)) !! cl_receiptId claim = Some r -> rc_user_id r = cl_userId claim ->
  wp (writeVerify claim result taxonomy (snapshot_of (cl_receiptId claim) r (w_db w)) allMatch)
     (fun _ w' => evolves (cl_userId claim) (w_db w) (w_db w')) w.
Proof.
  intros Hok E HU. pose proof (evolves_refl (cl_userId claim) _ Hok) as Hrefl. unfold writeVerify. wp_steps.
  destruct (raw_column result) as [raw| |]; cbn [after]; [|done..]. wp_steps.
  destruct (sql_date _) as [date| |]; cbn [after]; [|done..]. wp_steps.
  destruct (sql_update_receipt _ _ _) as [d'| |] eqn:Es; [|done..].
  destruct (update_own_receipt (cl_userId claim) _ _ _ _ _ Hok E HU Es) as [He Er]; [|done..|].
  { repeat split. cbn. by destruct allMatch. }
  wp_steps. destruct (_ =? 0); [|by apply wp_ret].
  eapply wp_mono; [apply (insert_scanned_safe claim (cl_userId claim) (w_db w)); [done|]|by intros ? ? []].
  split; [exact He|]. unfold rhead. cbn. rewrite lookup_fmap, Er. cbn. by rewrite HU.
Qed.

Lemma snapshot_offsets id r d k rh ph : receipt_ok rh ph k r ->
  forall o, sn_offsetsReceiptId (snapshot_of id r d) = Some o -> o <> k /\ fst <$> rh !! o = Some (rc_user_id r).
Proof. intros (_ & _ & Ho) o Eo. by destruct (Ho o Eo) as (? & _ & ?). Qed.
Lemma writeExtraction_safe claim result taxonomy r w :
  db_ok (w_db w) -> rows (receipts (w_db w)) !! cl_receiptId claim = Some r -> rc_user_id r = cl_userId claim ->
  wp (writeExtraction claim result taxonomy (snapshot_of (cl_receiptId claim) r (w_db w)))
     (fun _ w' => evolves (cl_userId claim) (w_db w) (w_db w')) w.
Proof.
  intros Hok E HU. pose proof (evolves_refl (cl_userId claim) _ Hok) as Hrefl. unfold writeExtraction.
  apply wp_lift_bind; [done|intros rules Hk%rulesFor_Ok].
  destruct (canonicalDirection rules) as [dir|]; [|by apply wp_lift]. wp_steps.
  destruct (raw_column result) as [raw| |]; cbn [after]; [|done..]. wp_steps.
  destruct (sql_date _) as [date| |]; cbn [after]; [|done..]. wp_steps.
  destruct (sql_update_receipt _ _ _) as [d'| |] eqn:Es; [|done..].
  unfold sql_update_receipt in Es. rewrite E in Es. apply put_receipt_Ok in Es as [-> Hc].
  set (r' := extracted_row _ _ _ _ _ _ _ r) in *. set (id := cl_receiptId claim) in *. set (U := cl_userId claim) in *.
  (* the two statements commute: delete the items first *)
  assert (H1 : evolves U (w_db w) (delete_items_of id (w_db w))).
  { apply delete_items_of_evolves; [done|]. by rewrite (rhead_owner _ _ _ E), HU. }
  assert (H2 : evolves U (delete_items_of id (w_db w)) (delete_items_of id (w_db w) <| receipts ::= update_row id r' |>)).
  { apply (update_receipt_evolves U id r r'); [apply H1|exact E|exact HU|exact HU|done| |].
    - destruct (ok_receipts _ Hok _ _ E) as (Hc0 & Hp & Ho). split; [exact Hc|]. split; [exact Hp|].
      cbn. destruct (canOffset rules) eqn:Hco; [|done]. intros o Eo. destruct (Ho o Eo) as (? & _ & ?).
      split; [done|split; [|done]]. unfold can_offset. by rewrite Hk.
    - intros j i c side Ei Er. exfalso. revert Er. unfold delete_items_of in Ei. cbn in Ei.
      apply map_lookup_filter_Some in Ei as [_ Ei]. cbn in Ei. by apply negb_true_iff, Z.eqb_neq in Ei. }
  pose proof (evolves_trans _ _ _ _ H1 H2) as H3. wp_steps.
  eapply wp_mono; [apply (insert_scanned_safe claim U (w_db w)); [done|]|by intros ? ? []].
  split; [exact H3|]. unfold rhead. cbn. rewrite lookup_fmap, lookup_insert_eq. cbn. fold id. by rewrite HU.
Qed.

Lemma write_attempt_safe claim result taxonomy before allMatch w :
  db_ok (w_db w) -> claim_owned claim (w_db w) ->
  wp (write_attempt claim result taxonomy before allMatch)
     (fun _ w' => evolves (cl_userId claim) (w_db w) (w_db w')) w.
Proof.
  intros Hok HU. pose proof (evolves_refl (cl_userId claim) _ Hok) as Hrefl. apply wp_transactionE_safe; [done|]. wp_steps.
  destruct (readSnapshot claim (w_db w)) as [l|] eqn:El; [|by apply wp_ret].
  apply readSnapshot_Some in El as (r & E & _ & ->). destruct (unchanged _ _); [|by apply wp_ret].
  apply wp_bind. eapply wp_mono.
  - destruct (sn_reviewed _); [eapply writeVerify_safe|eapply writeExtraction_safe]; try done; by apply HU.
  - intros [] w' He; cbn [after]; [by apply wp_ret|done..].
Qed.

(** ** The queue columns *)

(** [d'] is [d] with at most the queue columns of receipts rewritten. *)
Definition queue_columns (r r' : receipt_row) : Prop :=
  r' = r <| rc_scan_state := rc_scan_state r' |> <| rc_scan_attempts := rc_scan_attempts r' |>
         <| rc_reclaim_count := rc_reclaim_count r' |> <| rc_scan_started_at := rc_scan_started_at r' |>.
Definition queue_only (d d' : Db) : Prop :=
  exists t, d' = d <| receipts := t |> /\ seq t = seq (receipts d) /\
    (forall k : Z, option_relation queue_columns (fun _ => False) (fun _ => False) (rows (receipts d) !! k) (rows t !! k)).

Lemma queue_columns_refl r : queue_columns r r.
Proof. by destruct r. Qed.
Lemma queue_only_map d (f : Z -> receipt_row -> receipt_row) :
  (forall k r, rows (receipts d) !! k = Some r -> queue_columns r (f k r)) ->
  queue_only d (d <| receipts ::= map_rows (fun k r => Some (f k r)) |>).
Proof.
  intros H. exists (map_rows (fun k r => Some (f k r)) (receipts d)). split; [done|split; [done|]].
  intros k. cbn. rewrite map_lookup_imap. destruct (rows (receipts d) !! k) as [r|] eqn:E; [|done].
  cbn. by apply H.
Qed.
Lemma map_rows_update {A} k (a b : A) (t : table A) : rows t !! k = Some a ->
  update_row k b t = map_rows (fun j x => Some (if decide (j = k) then b else x)) t.
Proof.
  intros E. unfold update_row, map_rows. f_equal. apply map_eq. intros j. rewrite map_lookup_imap.
  destruct (decide (j = k)) as [->|N]; [rewrite lookup_insert_eq, E|rewrite lookup_insert_ne by done];
    unfold mbind, option_bind; [done|]. by destruct (rows t !! j).
Qed.

(** The states the queue writes are in the schema's domain. *)
Lemma receipt_checks_state r s : s ∈ scan_state.kAll -> receipt_checks r = true ->
  forall r', queue_columns r r' -> rc_scan_state r' = s -> receipt_checks r' = true.
Proof.
  intros Hs Hc r' Hq Hr. unfold queue_columns in Hq. rewrite Hq. unfold receipt_checks in *. cbn in *.
  rewrite Hr. rewrite !andb_true_iff in *. destruct Hc as [[[[[[[? ?] ?] ?] _] ?] ?] ?].
  repeat split; try done. by apply bool_decide_eq_true.
Qed.
Lemma spent_state_known n cap : spent_state n cap ∈ scan_state.kAll.
Proof. unfold spent_state. destruct (cap <=? n + 1); vm_compute; repeat constructor. Qed.
Lemma queue_map_safe U d (f : Z -> receipt_row -> receipt_row) :
  db_ok d ->
  (forall k r, rows (receipts d) !! k = Some r -> f k r = r \/ (queue_columns r (f k r) /\ rc_scan_state (f k r) ∈ scan_state.kAll)) ->
  let d' := d <| receipts ::= map_rows (fun k r => Some (f k r)) |> in
  db_ok d' /\ grows d d' /\ keeps d d' /\ queue_only d d' /\
  ((forall k r, rows (receipts d) !! k = Some r -> rc_user_id r <> U -> f k r = r) -> evolves U d d').
Proof.
  intros Hok Hf d'. destruct (touch_receipts_evolves U f d Hok) as (H1 & H2 & Hk & H3).
  - intros k r E. destruct (Hf k r E) as [->|[Hq Hs]]; [by split; [apply row_kept_refl|]|].
    rewrite Hq. split; [done|split; [done|]].
    intros Hc. rewrite <- Hq. by eapply receipt_checks_state.
  - split; [done|split; [done|split; [done|split; [|done]]]]. apply queue_only_map. intros k r E.
    destruct (Hf k r E) as [->|[Hq _]]; [apply queue_columns_refl|done].
Qed.

(** One UPDATE per statement of the queue: which rows, and to what. *)
Lemma reclaimed_columns r : queue_columns r (reclaimed_row config_ r).
Proof. by destruct r. Qed.
Lemma claimed_columns t r : queue_columns r (claimed_row t r).
Proof. by destruct r. Qed.
Lemma failed_columns scanError cap r : queue_columns r (failed_row scanError cap r).
Proof. by destruct r, scanError. Qed.
Lemma failed_state scanError cap r : rc_scan_state (failed_row scanError cap r) ∈ scan_state.kAll.
Proof. destruct scanError; apply spent_state_known. Qed.

Lemma sql_reclaim_safe t d x d' : db_ok d -> sql_reclaim config_ t d = Ok (x, d') ->
  db_ok d' /\ grows d d' /\ keeps d d' /\ queue_only d d'.
Proof.
  intros Hok [= _ <-].
  destruct (queue_map_safe 0 d (fun _ r => if stuck config_ t r then reclaimed_row config_ r else r) Hok) as (H1 & H2 & H3 & H4 & _); [|done].
  intros k r _. destruct (stuck _ _ _); [|by left]. right. split; [apply reclaimed_columns|apply spent_state_known].
Qed.
Lemma sql_claim_safe t d x d' : db_ok d -> sql_claim config_ t d = Ok (x, d') ->
  db_ok d' /\ grows d d' /\ keeps d d' /\ queue_only d d'.
Proof.
  intros Hok [= _ <-].
  destruct (queue_map_safe 0 d (fun id r => if bool_decide (id ∈ map fst (claimable config_ d)) then claimed_row (pg_clock_timestamp t id) r else r) Hok)
    as (H1 & H2 & H3 & H4 & _); [|done].
  intros k r _. case_bool_decide; [|by left]. right. split; [apply claimed_columns|]. vm_compute. repeat constructor.
Qed.
Lemma sql_fail_safe claim scanError cap d x d' :
  db_ok d -> claim_owned claim d -> sql_fail claim scanError cap d = Ok (x, d') ->
  evolves (cl_userId claim) d d' /\ queue_only d d'.
Proof.
  intros Hok HU. unfold sql_fail. 
  assert (Hsame : evolves (cl_userId claim) d d /\ queue_only d d).
  { split; [by apply evolves_refl|]. exists (receipts d). split; [by destruct d|split; [done|]].
    intros k. destruct (rows (receipts d) !! k); [apply queue_columns_refl|done]. }
  destruct (rows (receipts d) !! cl_receiptId claim) as [r|] eqn:E; [|by intros [= _ <-]].
  destruct (claimed claim r); [|by intros [= _ <-]]. intros [= _ <-].
  cbn [set_field]. erewrite map_rows_update by exact E.
  destruct (queue_map_safe (cl_userId claim) d
    (fun j x => if decide (j = cl_receiptId claim) then failed_row scanError cap r else x) Hok) as (H1 & H2 & _ & H3 & H4).
  - intros k r0 E0. case_decide as Hk; [|by left]. subst k. right. assert (r0 = r) as -> by congruence.
    split; [apply failed_columns|apply failed_state].
  - split; [|exact H3]. apply H4. intros k r0 E0 Hn. case_decide as Hk; [|done]. subst k. exfalso. apply Hn.
    by apply HU.
Qed.
End ScanSafety.
