(* ===== verification/ScanQueue.v ===== *)
(** * The scan queue: claims, budgets and stale claims

    Functional facts about the queue statements of ScanWorker.v. *)
From stdpp Require Import sorting.
From S2P Require Import Prelude CString Binary64 Json Kinds JsonInput LedgerInput TokenUtils Env Db World.
From S2P Require Import ItemService ReceiptService ReferenceData ScanWorker Invariant Statements Safety.
From S2P Require Import ScanSafety.

(** ** Budgets

    What one failed or abandoned scan does to the row, and how often that can
    happen before it is terminal. *)
Definition budget (config : ScanWorkerConfig) (r : receipt_row) : Z :=
  Z.max 0 (maxScanAttempts config - rc_scan_attempts r) + Z.max 0 (maxReclaims config - rc_reclaim_count r).
Inductive spends (config : ScanWorkerConfig) : receipt_row -> receipt_row -> Prop :=
| spend_reclaim r : spends config r (reclaimed_row config r)
| spend_failure r scanError : spends config r (failed_row scanError (if scanError then maxScanAttempts config else maxReclaims config) r)
| spend_terminal r scanError : spends config r (failed_row scanError 0 r).

(** A scan that failed and was re-queued, [n] times in a row, with the row's next
    claim in between. *)
Inductive retried (config : ScanWorkerConfig) : nat -> receipt_row -> receipt_row -> Prop :=
| retried_0 r : retried config 0 r r
| retried_S n r t r1 r2 : spends config (claimed_row t r) r1 -> rc_scan_state r1 = scan_state.kUploaded ->
    retried config n r1 r2 -> retried config (S n) r r2.

Lemma spent_state_uploaded n cap : spent_state n cap = scan_state.kUploaded -> n + 1 < cap.
Proof. unfold spent_state. destruct (Z.leb_spec cap (n + 1)); [done|lia]. Qed.
Lemma spends_budget config r r' : 0 <= rc_scan_attempts r -> 0 <= rc_reclaim_count r -> spends config r r' ->
  0 <= rc_scan_attempts r' /\ 0 <= rc_reclaim_count r' /\
  (rc_scan_state r' = scan_state.kUploaded -> budget config r' = budget config r - 1 /\ 1 <= budget config r').
Proof.
  intros Ha Hr H. unfold budget.
  destruct H as [r|r []|r []]; cbn; (split; [lia|split; [lia|]]); intros H%spent_state_uploaded; lia.
Qed.
Lemma retried_budget config n r r' : 0 <= rc_scan_attempts r -> 0 <= rc_reclaim_count r -> retried config n r r' ->
  Z.of_nat n <= budget config r.
Proof.
  intros Ha Hr H. revert Ha Hr. induction H as [r|n r t r1 r2 Hs Hu _ IH]; intros Ha Hr; [unfold budget; lia|].
  destruct (spends_budget config (claimed_row t r) r1 Ha Hr Hs) as (Ha1 & Hr1 & Hb). destruct (Hb Hu) as [Eb _]. specialize (IH Ha1 Hr1).
  change (budget config (claimed_row t r)) with (budget config r) in Eb. lia.
Qed.

Section Queue.
Context `{PG : Postgres} `{IS : ImageStore} `{SO : Sodium} `{JT : JsonText}.
Context `{SP : ScanProvider} `{MM : MerchantMatcher} `{NO : Notifier}.
Context (config_ : ScanWorkerConfig).

(** ** Stale claims *)

(** The claim no longer holds the row: it was re-queued, claimed again or deleted. *)
Definition stale (c : Claim) (d : Db) : Prop :=
  forall r, rows (receipts d) !! cl_receiptId c = Some r -> claimed c r = false.
Lemma stale_snapshot c d : stale c d <-> readSnapshot c d = None.
Proof.
  unfold stale, readSnapshot. destruct (rows (receipts d) !! cl_receiptId c) as [r|].
  - split; [intros H; by rewrite (H r eq_refl)|]. destruct (claimed c r) eqn:E; [done|]. by intros _ r' [= <-].
  - by split.
Qed.
Lemma rollback_self d : rollback_db d d = d.
Proof. destruct d as [[] [] [] [] [] [] [] [] [] ?]. done. Qed.
Lemma stale_write c result tx b m w : stale c (w_db w) -> write_attempt c result tx b m w = (Ok true, w).
Proof.
  rewrite stale_snapshot. intros H. unfold write_attempt, transactionE, query. cbn. unfold mbind. rewrite H. cbn.
  rewrite rollback_self. by destruct w.
Qed.
Lemma stale_failure c scanError terminal error w : stale c (w_db w) ->
  recordFailure config_ c scanError terminal error w = (Ok (), w).
Proof.
  intros H. unfold recordFailure, exec, mbind, sql_fail.
  assert (Hw : w <| w_db := w_db w |> = w) by by destruct w.
  destruct (rows (receipts (w_db w)) !! cl_receiptId c) as [r|] eqn:E.
  - rewrite (H r E), Hw. by case_bool_decide.
  - rewrite Hw. by case_bool_decide.
Qed.
(** Re-queueing or claiming again at another time makes every older claim stale. *)
Lemma claimed_once c t r : pg_ts_in (cl_claimedAt c) <> Some t -> claimed c (claimed_row t r) = false.
Proof. intros H. unfold claimed. apply andb_false_iff. right. by apply bool_decide_eq_false. Qed.
Lemma claimed_fresh `{TT : !TimestampText} k u t r : claimed (mkClaim k u (pg_ts_out t)) (claimed_row t r) = true.
Proof. unfold claimed. apply andb_true_iff. split; [done|]. apply bool_decide_eq_true, ts_in_out. Qed.
Lemma claimed_queued c r : rc_scan_state r = scan_state.kUploaded -> claimed c r = false.
Proof. unfold claimed. intros ->. done. Qed.

(** ** Claims *)

Lemma select_elem {A} (p : A -> bool) (t : table A) k a : (k, a) ∈ select p t <-> rows t !! k = Some a /\ p a = true.
Proof. unfold select. rewrite elem_of_map_to_list, map_lookup_filter_Some. done. Qed.
Lemma select_NoDup {A} (p : A -> bool) (t : table A) : NoDup (select p t).*1.
Proof. apply NoDup_fst_map_to_list. Qed.

Definition scanning_count (d : Db) : Z := Z.of_nat (length (select (in_state scan_state.kScanning) (receipts d))).

Lemma claimable_elem d k r : (k, r) ∈ claimable config_ d ->
  rows (receipts d) !! k = Some r /\ rc_scan_state r = scan_state.kUploaded.
Proof.
  intros H. unfold claimable in H. apply elem_of_take in H as (i & Hi & _). apply list_elem_of_lookup_2 in Hi.
  rewrite merge_sort_Permutation in Hi. apply select_elem in Hi as [E Hs]. by apply bool_decide_eq_true in Hs.
Qed.
Lemma claimable_NoDup d : NoDup (claimable config_ d).*1.
Proof.
  unfold claimable. rewrite fmap_take. eapply sublist_NoDup; [|apply sublist_take].
  rewrite merge_sort_Permutation. apply select_NoDup.
Qed.
Lemma claimable_length d : Z.of_nat (length (claimable config_ d)) <= Z.max 0 (concurrency config_ - scanning_count d).
Proof. unfold claimable, scanning_count. rewrite length_take. lia. Qed.

(** Which rows a claim statement has moved. *)
Lemma claim_lookup t d claims d' k : sql_claim config_ t d = Ok (claims, d') ->
  rows (receipts d') !! k =
  (fun r => if bool_decide (k ∈ (claimable config_ d).*1) then claimed_row (pg_clock_timestamp t k) r else r) <$> rows (receipts d) !! k.
Proof.
  intros [= _ <-]. cbn. rewrite map_lookup_imap. destruct (rows (receipts d) !! k); done.
Qed.
Lemma claim_cap t d claims d' : sql_claim config_ t d = Ok (claims, d') ->
  scanning_count d' <= Z.max (concurrency config_) (scanning_count d).
Proof.
  intros H. pose proof (claimable_length d) as Hl. unfold scanning_count in *.
  assert (Hsub : (select (in_state scan_state.kScanning) (receipts d')).*1 ⊆+
                 (select (in_state scan_state.kScanning) (receipts d)).*1 ++ (claimable config_ d).*1).
  { apply NoDup_submseteq; [apply select_NoDup|]. intros k Hk.
    apply list_elem_of_fmap in Hk as ([k' r'] & -> & Hk). apply select_elem in Hk as [E Hs].
    cbn. rewrite (claim_lookup _ _ _ _ k' H) in E. apply fmap_Some in E as (r & E & ->). apply elem_of_app.
    case_bool_decide as Hin; [by right|]. left. apply list_elem_of_fmap. exists (k', r).
    split; [done|]. by apply select_elem. }
  apply submseteq_length in Hsub. rewrite length_app, !length_fmap in Hsub. lia.
Qed.

(** The queue is served in order: a row left behind is not older than one taken. *)
Lemma queue_total : Total queue_le.
Proof. intros [k1 r1] [k2 r2]. unfold queue_le. cbn. lia. Qed.
Lemma queue_trans : Transitive queue_le.
Proof. intros [k1 r1] [k2 r2] [k3 r3]. unfold queue_le. cbn. lia. Qed.
Lemma claimable_oldest d k r k' r' :
  (k, r) ∈ claimable config_ d -> rows (receipts d) !! k' = Some r' -> rc_scan_state r' = scan_state.kUploaded ->
  (k', r') ∉ claimable config_ d -> queue_le (k, r) (k', r').
Proof.
  intros Hin E' Hs Hout. unfold claimable in *. set (n := Z.to_nat _) in *.
  set (l := merge_sort queue_le _) in *.
  assert (Hl : StronglySorted queue_le l) by (apply StronglySorted_merge_sort; [apply queue_trans|apply queue_total]).
  assert ((k', r') ∈ drop n l) as Hd.
  { assert (Hm : (k', r') ∈ l).
    { unfold l. rewrite merge_sort_Permutation. apply select_elem. split; [done|]. by apply bool_decide_eq_true. }
    rewrite <- (take_drop n l) in Hm. apply elem_of_app in Hm as [Hm|Hm]; [by destruct Hout|done]. }
  rewrite <- (take_drop n l) in Hl. by eapply StronglySorted_app_1_elem_of.
Qed.
End Queue.
