(* ===== verification/ScanWrites.v ===== *)
(** * What a scan leaves in the database

    The functional behaviour of the two write modes of ScanWorker.cpp, as
    descriptions of the tables after a committed write. *)
From S2P Require Import Prelude CString Binary64 Json Kinds JsonInput LedgerInput TokenUtils Env Db World.
From S2P Require Import ItemService ReceiptService ReferenceData ScanWorker Invariant Statements Safety.
From S2P Require Import ScanSafety ScanQueue.

(** Rows inserted one after another. *)
Definition insert_rows {A} (l : list A) (t : table A) : table A := fold_left (fun t a => insert_row a t) l t.
Lemma insert_rows_below {A} (l : list A) (t : table A) : below t -> below (insert_rows l t).
Proof. revert t. induction l as [|a l IH]; intros t H; cbn; [done|]. by apply IH, below_insert. Qed.
Lemma insert_rows_old {A} (l : list A) (t : table A) k a : below t -> rows t !! k = Some a ->
  rows (insert_rows l t) !! k = Some a.
Proof.
  revert t. induction l as [|b l IH]; intros t H E; cbn; [done|]. apply IH; [by apply below_insert|].
  cbn. rewrite lookup_insert_ne; [done|]. intros <-. by rewrite below_fresh in E.
Qed.
(** The [n]-th inserted row has the [n]-th next id. *)
Lemma insert_rows_new {A} (l : list A) (t : table A) n a : below t -> l !! n = Some a ->
  rows (insert_rows l t) !! (seq t + Z.of_nat n) = Some a.
Proof.
  revert t n. induction l as [|b l IH]; intros t n H E; [done|]. cbn. destruct n as [|n].
  - injection E as ->. rewrite Z.add_0_r. apply insert_rows_old; [by apply below_insert|]. cbn. by rewrite lookup_insert_eq.
  - replace (seq t + Z.of_nat (S n)) with (seq (insert_row b t) + Z.of_nat n) by (cbn; lia).
    apply IH; [by apply below_insert|done].
Qed.

Lemma insert_rows_seq {A} (l : list A) (t : table A) : seq (insert_rows l t) = seq t + Z.of_nat (length l).
Proof.
  revert t. induction l as [|a l IH]; intros t; [cbn; lia|].
  change (insert_rows (a :: l) t) with (insert_rows l (insert_row a t)). rewrite IH. cbn [seq insert_row length]. lia.
Qed.
Lemma insert_rows_lookup {A} (l : list A) (t : table A) k : below t ->
  rows (insert_rows l t) !! k = if k <? seq t then rows t !! k else l !! Z.to_nat (k - seq t).
Proof.
  revert t. induction l as [|a l IH]; intros t H.
  - cbn. destruct (Z.ltb_spec k (seq t)); [done|]. destruct (rows t !! k) as [a|] eqn:E; [|done].
    pose proof (H k a E) as L. cbn in L. lia.
  - change (insert_rows (a :: l) t) with (insert_rows l (insert_row a t)).
    rewrite IH by by apply below_insert. cbn. destruct (Z.ltb_spec k (seq t + 1)), (Z.ltb_spec k (seq t)); try lia.
    + by rewrite lookup_insert_ne by lia.
    + replace k with (seq t) by lia. by rewrite lookup_insert_eq, Z.sub_diag.
    + replace (Z.to_nat (k - seq t)) with (S (Z.to_nat (k - (seq t + 1)))) by lia. done.
Qed.
Lemma keep_rows_lookup {A} (p : A -> bool) (t : table A) k :
  rows (keep_rows p t) !! k = (a ← rows t !! k; if p a then Some a else None).
Proof.
  apply option_eq. intros a. cbn. rewrite map_lookup_filter_Some. cbn. destruct (rows t !! k) as [b|]; cbn; [|naive_solver].
  destruct (p b) eqn:E; naive_solver congruence.
Qed.

Section Writes.
Context `{PG : Postgres} `{IS : ImageStore} `{SO : Sodium} `{JT : JsonText}.
Context `{SP : ScanProvider} `{MM : MerchantMatcher} `{NO : Notifier}.

(** Everything but the items and their links. *)
Definition same_but_items (d d' : Db) : Prop :=
  d' = d <| items := items d' |> <| item_tags := item_tags d' |>.
Lemma same_but_items_refl d : same_but_items d d.
Proof. by destruct d. Qed.
Lemma same_but_items_trans d1 d2 d3 : same_but_items d1 d2 -> same_but_items d2 d3 -> same_but_items d1 d3.
Proof. unfold same_but_items. intros H1 H2. rewrite H2 at 1. rewrite H1. done. Qed.

(** When it returns, [m] has made [P] of the database it started from. *)
Definition makes {A} (m : M A) (P : A -> Db -> Db -> Prop) : Prop :=
  forall w, wp m (fun r w' => forall a, r = Ok a -> P a (w_db w) (w_db w') /\ w_clock w' = w_clock w) w.
Lemma makes_bind {A B} (m : M A) (k : A -> M B) P Q R :
  makes m P -> (forall a, makes (k a) (Q a)) -> (forall a b d1 d2 d3, P a d1 d2 -> Q a b d2 d3 -> R b d1 d3) ->
  makes (mbind k m) R.
Proof.
  intros Hm Hk HR w. apply wp_bind. eapply wp_mono; [apply Hm|]. intros [a| |] w' H; cbn [after]; [|done..].
  destruct (H a eq_refl) as [HP Hc]. eapply wp_mono; [apply Hk|]. intros r w'' H' b Hb.
  destruct (H' b Hb) as [HQ Hc']. split; [by eapply HR|congruence].
Qed.
Lemma makes_ret {A} (a : A) : makes (mret a) (fun b d d' => b = a /\ d' = d).
Proof. intros w. by apply wp_ret; intros ? [= <-]. Qed.
Lemma makes_lift {A} (m : outcome A) : makes (lift m) (fun b d d' => m = Ok b /\ d' = d).
Proof. intros w. by apply wp_lift. Qed.
Lemma makes_query {A} (f : Db -> A) : makes (query f) (fun b d d' => b = f d /\ d' = d).
Proof. intros w. apply wp_query. by intros ? [= <-]. Qed.
Lemma makes_exec {A} (f : Db -> outcome (A * Db)) : makes (exec f) (fun a d d' => f d = Ok (a, d')).
Proof. intros w. apply wp_exec. destruct (f (w_db w)) as [[a d]| |]; [|done..]. by intros ? [= <-]. Qed.
Lemma makes_exec_ (f : Db -> outcome Db) : makes (exec_ f) (fun _ d d' => f d = Ok d').
Proof. intros w. apply wp_exec_. by destruct (f (w_db w)). Qed.
Lemma makes_weaken {A} (m : M A) (P Q : A -> Db -> Db -> Prop) :
  makes m P -> (forall a d d', P a d d' -> Q a d d') -> makes m Q.
Proof. intros H HPQ w. eapply wp_mono; [apply H|]. intros r w' H' a Ha. destruct (H' a Ha). auto. Qed.

(** Tag links: only the item's own are replaced. *)
Definition links_of (itemId : Z) (tagIds : list Z) : gset (Z * Z) := list_to_set (map (pair itemId) tagIds).
Lemma add_tags_makes U itemId tagIds :
  makes (for_each (ItemService.add_tag U itemId) tagIds)
    (fun _ d d' => d' = d <| item_tags ::= fun s => links_of itemId tagIds ∪ s |>).
Proof.
  induction tagIds as [|t ts IH]; cbn [for_each].
  - eapply makes_weaken; [apply makes_ret|]. intros a d d' [_ ->]. destruct d. unfold links_of. cbn. f_equal. set_solver.
  - eapply (makes_bind _ _ (fun _ d d' => d' = d <| item_tags ::= fun s => {[(itemId, t)]} ∪ s |>)); [|intros ?; exact IH|].
    + unfold ItemService.add_tag. eapply makes_bind; [apply makes_query| |].
      * intros o. instantiate (1 := fun o _ d d' => d' = d <| item_tags ::= fun s => {[(itemId, t)]} ∪ s |>).
        destruct o; [|by intros w; apply wp_throw]. eapply makes_weaken; [apply makes_exec_|].
        intros ? d d' H. unfold sql_insert_item_tag in H. by ok_inv.
      * by intros a b d1 d2 d3 [_ ->] ->.
    + intros _ _ d1 d2 d3 -> ->. destruct d1. unfold links_of. cbn. f_equal. set_solver.
Qed.
Lemma replaceTags_makes U itemId tagIds :
  makes (ItemService.replaceTags U itemId tagIds)
    (fun _ d d' => d' = d <| item_tags ::= fun s => links_of itemId tagIds ∪ filter (fun it => it.1 <> itemId) s |>).
Proof.
  unfold ItemService.replaceTags. eapply makes_bind; [apply makes_exec_|intros ?; apply add_tags_makes|].
  cbn beta. intros _ _ d1 d2 d3 [= <-] ->. by destruct d1.
Qed.
Lemma require_makes U c kind : makes (ItemService.requireCategoryFitsKind U c kind) (fun _ d d' => d' = d).
Proof.
  intros w. eapply wp_mono; [apply requireCategoryFitsKind_safe|]. by intros r w' [-> _] a _.
Qed.
(** [ItemService::insert]: one new item row under the next id, with its links. *)
Lemma insert_makes U rid kind item :
  makes (ItemService.insert U rid kind item) (fun id d d' =>
    id = seq (items d) /\ same_but_items d d' /\ items d' = insert_row (ItemService.input_row rid item) (items d) /\
    item_tags d' = links_of id (ii_tagIds item) ∪ filter (fun it => it.1 <> id) (item_tags d)).
Proof.
  unfold ItemService.insert. eapply (makes_bind _ _ (fun _ d d' => d' = d)).
  - destruct (ii_categoryId item); [apply require_makes|]. eapply makes_weaken; [apply makes_ret|]. by intros ? ? ? [].
  - intros ?. eapply makes_bind; [apply makes_exec| |].
    + intros id. instantiate (1 := fun id b d d' => b = id /\
        d' = d <| item_tags ::= fun s => links_of id (ii_tagIds item) ∪ filter (fun it => it.1 <> id) s |>).
      eapply makes_bind; [apply replaceTags_makes|intros ?; apply makes_ret|]. by intros _ b d1 d2 d3 -> [-> ->].
    + instantiate (1 := fun _ id d d' => id = seq (items d) /\ same_but_items d d' /\
        items d' = insert_row (ItemService.input_row rid item) (items d) /\
        item_tags d' = links_of id (ii_tagIds item) ∪ filter (fun it => it.1 <> id) (item_tags d)).
      cbn beta. intros id b d1 d2 d3 Hs [-> ->]. unfold sql_insert_item in Hs. ok_inv. done.
  - by intros _ id d1 d2 d3 -> H.
Qed.
Lemma insertScanned_makes c kind scanned tx :
  makes (insertScannedItems c kind scanned tx) (fun _ d d' => same_but_items d d' /\ exists inputs,
    Forall2 (fun s i => toItemInput s kind tx = Ok i) scanned inputs /\
    items d' = insert_rows (map (ItemService.input_row (cl_receiptId c)) inputs) (items d)).
Proof.
  unfold insertScannedItems. induction scanned as [|s ss IH]; cbn [for_each].
  - eapply makes_weaken; [apply makes_ret|]. intros _ d d' [_ ->]. split; [apply same_but_items_refl|]. by exists [].
  - eapply (makes_bind _ _ (fun _ d d' => same_but_items d d' /\ exists i, toItemInput s kind tx = Ok i /\
      items d' = insert_row (ItemService.input_row (cl_receiptId c) i) (items d))); [|intros ?; exact IH|].
    + unfold insert_scanned. eapply makes_bind; [apply makes_lift| |].
      * intros i. eapply (makes_bind _ _ _ _ (fun _ d d' => same_but_items d d' /\
          items d' = insert_row (ItemService.input_row (cl_receiptId c) i) (items d))); [apply insert_makes|intros ?; apply makes_ret|].
        by intros id _ d1 d2 d3 (_ & ? & ? & _) [_ ->].
      * intros i _ d1 d2 d3 [Hi ->] [? ?]. split; [done|]. by exists i.
    + intros _ _ d1 d2 d3 (S1 & i & Hi & E1) (S2 & inputs & Hf & E2). split; [by eapply same_but_items_trans|].
      exists (i :: inputs). split; [by constructor|]. by rewrite E2, E1.
Qed.

(** ** Committed writes *)

(** Extraction: the scan's fields and items replace the row's. *)
Record extracted (c : Claim) (result : ScanResult) (tx : Taxonomy) (r : receipt_row) (t : Z) (d d' : Db) : Prop := {
  ex_row : exists rules direction raw date,
    findKind (sr_kind result) = Some rules /\ canonicalDirection rules = Some direction /\
    raw_column result = Ok raw /\ sql_date (sr_purchaseDate result) = Ok date /\
    receipts d' = update_row (cl_receiptId c)
      (extracted_row result direction date raw (er_taxDeductible (rc_fields r) && allowsTaxDeductible rules)
         (if canOffset rules then er_offsetsReceiptId (rc_fields r) else None) t r) (receipts d);
  ex_items : exists inputs,
    Forall2 (fun s i => toItemInput s (sr_kind result) tx = Ok i) (sr_items result) inputs /\
    items d' = insert_rows (map (ItemService.input_row (cl_receiptId c)) inputs)
      (keep_rows (fun i => negb (it_receipt_id i =? cl_receiptId c)) (items d));
  ex_rest : categories d' = categories d /\ tags d' = tags d /\ payment_methods d' = payment_methods d /\
    receipt_images d' = receipt_images d
}.
(** Verify: empty fields are filled, and items only if there were none. *)
Record verified (c : Claim) (result : ScanResult) (tx : Taxonomy) (allMatch : bool) (r : receipt_row) (t : Z) (d d' : Db)
    : Prop := {
  ve_row : exists raw date,
    raw_column result = Ok raw /\ sql_date (sr_purchaseDate result) = Ok date /\
    receipts d' = update_row (cl_receiptId c) (verified_row result date raw allMatch t r) (receipts d);
  ve_items : exists inputs,
    items d' = insert_rows (map (ItemService.input_row (cl_receiptId c)) inputs) (items d) /\
    if item_count (cl_receiptId c) d =? 0
    then Forall2 (fun s i => toItemInput s (er_kind (rc_fields r)) tx = Ok i) (sr_items result) inputs
    else inputs = [] /\ item_tags d' = item_tags d;
  ve_rest : categories d' = categories d /\ tags d' = tags d /\ payment_methods d' = payment_methods d /\
    receipt_images d' = receipt_images d
}.

Lemma same_but_items_fields d d' : same_but_items d d' ->
  receipts d' = receipts d /\ categories d' = categories d /\ tags d' = tags d /\
  payment_methods d' = payment_methods d /\ receipt_images d' = receipt_images d.
Proof. intros ->. done. Qed.
Lemma sql_update_Ok id f r d d' : rows (receipts d) !! id = Some r -> sql_update_receipt id f d = Ok d' ->
  d' = d <| receipts ::= update_row id (f r) |>.
Proof. intros E H. unfold sql_update_receipt in H. rewrite E in H. by apply put_receipt_Ok in H as [-> _]. Qed.

Lemma writeExtraction_Ok c result tx r w :
  rows (receipts (w_db w)) !! cl_receiptId c = Some r ->
  wp (writeExtraction c result tx (snapshot_of (cl_receiptId c) r (w_db w)))
     (fun res w' => res = Ok () -> extracted c result tx r (w_clock w) (w_db w) (w_db w')) w.
Proof.
  intros E. unfold writeExtraction. wp_steps. destruct (rulesFor (sr_kind result)) as [rules| |] eqn:Hk; cbn [after]; [|done..].
  apply rulesFor_Ok in Hk. destruct (canonicalDirection rules) as [dir|] eqn:Hd; wp_steps; [|done].
  destruct (raw_column result) as [raw| |] eqn:Hraw; cbn [after]; [|done..]. wp_steps.
  destruct (sql_date _) as [date| |] eqn:Hdate; cbn [after]; [|done..]. wp_steps.
  destruct (sql_update_receipt _ _ _) as [d'| |] eqn:Es; [|done..]. apply (sql_update_Ok _ _ _ _ _ E) in Es as ->.
  wp_steps. eapply wp_mono; [apply insertScanned_makes|]. intros res w' H Hres.
  destruct (H () Hres) as [(Hs & inputs & Hf & Hi) _]. apply same_but_items_fields in Hs as (Hr & Hc & Ht & Hp & Him).
  split; [by exists rules, dir, raw, date|by exists inputs|done].
Qed.
Lemma writeVerify_Ok c result tx allMatch r w :
  rows (receipts (w_db w)) !! cl_receiptId c = Some r ->
  wp (writeVerify c result tx (snapshot_of (cl_receiptId c) r (w_db w)) allMatch)
     (fun res w' => res = Ok () -> verified c result tx allMatch r (w_clock w) (w_db w) (w_db w')) w.
Proof.
  intros E. unfold writeVerify. wp_steps.
  destruct (raw_column result) as [raw| |] eqn:Hraw; cbn [after]; [|done..]. wp_steps.
  destruct (sql_date _) as [date| |] eqn:Hdate; cbn [after]; [|done..]. wp_steps.
  destruct (sql_update_receipt _ _ _) as [d'| |] eqn:Es; [|done..]. apply (sql_update_Ok _ _ _ _ _ E) in Es as ->.
  wp_steps. change (sn_itemCount _) with (item_count (cl_receiptId c) (w_db w)).
  destruct (item_count (cl_receiptId c) (w_db w) =? 0) eqn:H0.
  - eapply wp_mono; [apply insertScanned_makes|]. intros res w' H Hres.
    destruct (H () Hres) as [(Hs & inputs & Hf & Hi) _]. apply same_but_items_fields in Hs as (Hr & Hc & Ht & Hp & Him).
    split; [by exists raw, date| |done]. exists inputs. by rewrite H0.
  - apply wp_ret. intros _. split; [by exists raw, date| |done]. exists []. by rewrite H0.
Qed.

Lemma attempt_commit c result tx b m w w' :
  write_attempt c result tx b m w = (Ok true, w') -> ~ stale c (w_db w) ->
  exists r, rows (receipts (w_db w)) !! cl_receiptId c = Some r /\ claimed c r = true /\
    unchanged b (snapshot_of (cl_receiptId c) r (w_db w)) = true /\
    if bool_decide (is_Some (rc_reviewed_at r)) then verified c result tx m r (w_clock w) (w_db w) (w_db w')
    else extracted c result tx r (w_clock w) (w_db w) (w_db w').
Proof.
  intros H Hstale. rewrite stale_snapshot in Hstale. destruct (readSnapshot c (w_db w)) as [l|] eqn:El; [|done].
  pose proof El as El'. apply readSnapshot_Some in El' as (r & E & Hc & ->). exists r. split; [done|split; [done|]].
  unfold write_attempt, transactionE, mbind, query in H. rewrite El in H.
  destruct (unchanged b _) eqn:Hu; [|by injection H]. split; [done|]. change (sn_reviewed _) with (bool_decide (is_Some (rc_reviewed_at r))) in H.
  destruct (bool_decide (is_Some (rc_reviewed_at r))).
  - pose proof (writeVerify_Ok c result tx m r w E) as Hw. unfold wp in Hw.
    destruct (writeVerify _ _ _ _ _ w) as [[[]| |] w1]; cbn in H; [|done..]. injection H as <-. by apply Hw.
  - pose proof (writeExtraction_Ok c result tx r w E) as Hw. unfold wp in Hw.
    destruct (writeExtraction _ _ _ _ w) as [[[]| |] w1]; cbn in H; [|done..]. injection H as <-. by apply Hw.
Qed.
End Writes.
