(* ===== verification/Constraints.v ===== *)
(** * The constraints of the schema that tie no two ledger rows together

    The unique indexes of db/migrations (e-mail addresses, token hashes, the names
    of categories, tags and payment methods), the references of every table to
    [users], the CHECK on the purpose of a one-time token, and the ids of the account
    tables below their sequences: [constraints_ok].  [db_ok] (Invariant.v) holds the
    other constraints.  [lawful P m]: from a database with [P], the computation [m]
    ends in one with [P] however it ends, and moves no sequence back; one rule per
    construct of the service monad, one lemma per statement, and every call of the
    ledger, of the accounts and of the worker follows. *)
From S2P Require Import Prelude CString Binary64 Json Kinds JsonInput LedgerInput TokenUtils Env Db World.
From S2P Require Import ItemService ReceiptService ReferenceData AuthService ScanWorker Invariant Statements Safety.

(** ** The constraints *)

(** A unique index: two rows that [same] identifies are one. *)
Definition unique {A} (same : A -> A -> bool) (t : table A) : Prop :=
  forall j k a b, rows t !! j = Some a -> rows t !! k = Some b -> same a b = true -> j = k.
(** [REFERENCES users(id)]. *)
Definition users_fk {A} (owner : A -> Z) (t : table A) (us : table user_row) : Prop :=
  all (fun _ a => is_Some (rows us !! owner a)) t.
Definition same_session (a b : session_row) : bool := bool_decide (s_token_hash b = s_token_hash a).
Definition same_token (a b : auth_token_row) : bool := bool_decide (a_token_hash b = a_token_hash a).

Section Constraints.
Context `{PG : Postgres}.

Definition same_user (a b : user_row) : bool := same_email (u_email a) b.

Record constraints_ok (d : Db) : Prop := {
  co_below : below (users d) /\ below (sessions d) /\ below (auth_tokens d);
  co_emails : unique same_user (users d);
  co_sessions : unique same_session (sessions d) /\ users_fk s_user_id (sessions d) (users d);
  co_tokens : unique same_token (auth_tokens d) /\ users_fk a_user_id (auth_tokens d) (users d);
  co_purposes : all (fun _ a => a_purpose a ∈ ["verify"; "reset"]%string) (auth_tokens d);
  co_categories : unique same_category (categories d) /\ users_fk c_user_id (categories d) (users d);
  co_tags : unique same_tag (tags d) /\ users_fk t_user_id (tags d) (users d);
  co_methods : unique same_payment_method (payment_methods d) /\ users_fk p_user_id (payment_methods d) (users d);
  co_receipts : users_fk rc_user_id (receipts d) (users d);
  co_images : users_fk im_user_id (receipt_images d) (users d)
}.

Definition sequences_grow (d d' : Db) : Prop :=
  grows d d' /\ seq (users d) <= seq (users d') /\ seq (sessions d) <= seq (sessions d') /\
  seq (auth_tokens d) <= seq (auth_tokens d').

(** ** Tables with a unique index *)

Section Unique.
Context {A : Type} (same : A -> A -> bool) (Hsym : forall a b, same a b = same b a).
Implicit Types (t : table A) (a : A).

Lemma name_free row except t : name_taken (same row) except t = false ->
  forall k a, rows t !! k = Some a -> Some k <> except -> same row a = false.
Proof.
  unfold name_taken. intros H%bool_decide_eq_false k a E N. destruct (same row a) eqn:Es; [|done].
  destruct H. intros X. apply (f_equal (lookup k)) in X. rewrite lookup_empty in X.
  apply eq_None_not_Some in X. apply X. exists a. by apply map_lookup_filter_Some.
Qed.
Lemma unique_insert row t : unique same t -> name_taken (same row) None t = false -> unique same (insert_row row t).
Proof.
  intros U F j k a b. cbn. pose proof (name_free _ _ _ F) as N.
  intros [[<- <-]|[? Ej]]%lookup_insert_Some [[<- <-]|[? Ek]]%lookup_insert_Some S; [done| | |by eapply U].
  - by rewrite (N k b Ek) in S.
  - by rewrite Hsym, (N j a Ej) in S.
Qed.
Lemma unique_update id row t : unique same t -> name_taken (same row) (Some id) t = false -> unique same (update_row id row t).
Proof.
  intros U F j k a b. cbn. pose proof (name_free _ _ _ F) as N.
  intros [[<- <-]|[? Ej]]%lookup_insert_Some [[<- <-]|[? Ek]]%lookup_insert_Some S; [done| | |by eapply U].
  - rewrite (N k b Ek) in S; [done|congruence].
  - rewrite Hsym, (N j a Ej) in S; [done|congruence].
Qed.
(** Fewer rows, each like the one that had its id. *)
Lemma unique_from t t' : unique same t ->
  (forall k a', rows t' !! k = Some a' -> exists a, rows t !! k = Some a /\ forall b, same a' b = same a b) ->
  unique same t'.
Proof.
  intros U F j k a' b' Ej Ek S. destruct (F j a' Ej) as (a & Ea & Sa), (F k b' Ek) as (b & Eb & Sb).
  apply (U j k a b Ea Eb). by rewrite Hsym, <- Sb, Hsym, <- Sa.
Qed.
End Unique.

Lemma users_fk_insert {A} (owner : A -> Z) a t us : users_fk owner t us -> fk (Some (owner a)) us = true ->
  users_fk owner (insert_row a t) us.
Proof. intros H F. apply all_insert; [done|]. by apply bool_decide_eq_true in F. Qed.
Lemma users_fk_update {A} (owner : A -> Z) k a t us : users_fk owner t us -> is_Some (rows us !! owner a) ->
  users_fk owner (update_row k a t) us.
Proof. intros H F. by apply all_update. Qed.
Lemma users_fk_from {A} (owner : A -> Z) t t' us : users_fk owner t us ->
  (forall k a', rows t' !! k = Some a' -> exists a, rows t !! k = Some a /\ owner a' = owner a) -> users_fk owner t' us.
Proof. intros H F k a' E. destruct (F k a' E) as (a & Ea & ->). by apply (H k). Qed.
Lemma users_fk_grow {A} (owner : A -> Z) t us us' : users_fk owner t us ->
  (forall k, is_Some (rows us !! k) -> is_Some (rows us' !! k)) -> users_fk owner t us'.
Proof. intros H F k a E. by apply F, (H k). Qed.

Lemma same_user_sym a b : same_user a b = same_user b a.
Proof. unfold same_user, same_email. by apply bool_decide_ext. Qed.
Lemma same_session_sym a b : same_session a b = same_session b a.
Proof. by apply bool_decide_ext. Qed.
Lemma same_token_sym a b : same_token a b = same_token b a.
Proof. by apply bool_decide_ext. Qed.
Lemma same_category_sym a b : same_category a b = same_category b a.
Proof.
  unfold same_category. rewrite Z.eqb_sym. f_equal; [|by apply bool_decide_ext]. by destruct (c_is_income a), (c_is_income b).
Qed.
Lemma same_tag_sym a b : same_tag a b = same_tag b a.
Proof. unfold same_tag. rewrite Z.eqb_sym. f_equal. by apply bool_decide_ext. Qed.
Lemma same_payment_method_sym a b : same_payment_method a b = same_payment_method b a.
Proof. unfold same_payment_method. rewrite Z.eqb_sym. f_equal. by apply bool_decide_ext. Qed.

(** ** Computations that keep a property and move no sequence back *)

Lemma sequences_refl d : sequences_grow d d.
Proof. unfold sequences_grow, grows. lia. Qed.
Lemma sequences_trans d1 d2 d3 : sequences_grow d1 d2 -> sequences_grow d2 d3 -> sequences_grow d1 d3.
Proof. unfold sequences_grow, grows. lia. Qed.

(** A rolled-back transaction keeps the property. *)
Class Law (P : Db -> Prop) := law_rollback old new : P old -> P new -> sequences_grow old new -> P (rollback_db old new).

#[export] Instance constraints_law : Law constraints_ok.
Proof.
  intros old new H _ (_ & Lu & Ls & La). destruct H as [(Bu & Bs & Ba) ? ? ? ? ? ? ? ? ?].
  assert (Hb : forall A (t t' : table A), below t -> seq t <= seq t' -> below (keep_seq t t')).
  { intros A t t' B L k a E. pose proof (B k a E) as Hk. cbn in Hk |- *. lia. }
  split; cbn; [|done..]. auto.
Qed.
Section Lawful.
Context `{IS : ImageStore} `{SO : Sodium} `{EN : Environment} `{VI : Vips} `{PL : Platform}.
Context (P : Db -> Prop) `{LP : !Law P}.

Definition lawful {A} (m : M A) : Prop :=
  forall w, P (w_db w) -> P (w_db (m w).2) /\ sequences_grow (w_db w) (w_db (m w).2).
(** The same of one statement. *)
Definition lawful_sql {A} (f : Db -> outcome (A * Db)) : Prop :=
  forall d a d', P d -> f d = Ok (a, d') -> P d' /\ sequences_grow d d'.
Definition lawful_sql_ (f : Db -> outcome Db) : Prop :=
  forall d d', P d -> f d = Ok d' -> P d' /\ sequences_grow d d'.

Lemma lawful_still {A} (m : M A) : (forall w, w_db (m w).2 = w_db w) -> lawful m.
Proof. intros H w HP. rewrite H. split; [done|apply sequences_refl]. Qed.
Lemma lawful_ret {A} (a : A) : lawful (mret a).
Proof. by apply lawful_still. Qed.
Lemma lawful_throw {A} e : lawful (mthrow (A := A) e).
Proof. by apply lawful_still. Qed.
Lemma lawful_lift {A} (m : outcome A) : lawful (lift m).
Proof. by apply lawful_still. Qed.
Lemma lawful_query {A} (f : Db -> A) : lawful (query f).
Proof. by apply lawful_still. Qed.
Lemma lawful_now : lawful now.
Proof. by apply lawful_still. Qed.
Lemma lawful_draw n : lawful (draw_token n).
Proof. by apply lawful_still. Qed.
Lemma lawful_put k ct b : lawful (store_put k ct b).
Proof. apply lawful_still. intros w. unfold store_put. by destruct (put _ _ _ _). Qed.
Lemma lawful_remove k : lawful (store_remove k).
Proof. apply lawful_still. intros w. unfold store_remove. by destruct (remove _ _). Qed.
Lemma lawful_hash pw : lawful (hash pw).
Proof. apply lawful_still. intros w. unfold hash. by destruct (crypto_pwhash_str _ _). Qed.
Lemma lawful_bind {A B} (m : M A) (k : A -> M B) : lawful m -> (forall a, lawful (k a)) -> lawful (mbind k m).
Proof.
  intros Hm Hk w HP. unfold mbind. specialize (Hm w HP). destruct (m w) as [[a|e|u] w']; [|done..]. cbn in Hm.
  destruct Hm as [HP' G]. destruct (Hk a w' HP') as [H2 G2]. split; [done|by eapply sequences_trans].
Qed.
Lemma lawful_catch {A} (m : M A) h : lawful m -> (forall e, lawful (h e)) -> lawful (mcatch m h).
Proof.
  intros Hm Hk w HP. unfold mcatch. specialize (Hm w HP). destruct (m w) as [[a|e|u] w']; [done| |done]. cbn in Hm.
  destruct Hm as [HP' G]. destruct (Hk e w' HP') as [H2 G2]. split; [done|by eapply sequences_trans].
Qed.
Lemma lawful_for_each {A} (body : A -> M ()) xs : (forall x, lawful (body x)) -> lawful (for_each body xs).
Proof. intros H. induction xs as [|x xs IH]; [apply lawful_ret|]. by apply lawful_bind. Qed.
Lemma lawful_exec {A} (f : Db -> outcome (A * Db)) : lawful_sql f -> lawful (exec f).
Proof.
  intros H w HP. unfold exec. destruct (f (w_db w)) as [[a d]|e|u] eqn:E; [by eapply H|split; [done|apply sequences_refl]..].
Qed.
Lemma lawful_exec_ (f : Db -> outcome Db) : lawful_sql_ f -> lawful (exec_ f).
Proof.
  intros H. apply lawful_exec. intros d [] d' HP E. destruct (f d) as [d1| |] eqn:E1; [|done..]. injection E as <-.
  by eapply H.
Qed.
Lemma lawful_transactionE {A} (body : M (ending A)) : lawful body -> lawful (transactionE body).
Proof.
  intros H w HP. unfold transactionE. specialize (H w HP).
  assert (R : forall w' : World, P (w_db w') /\ sequences_grow (w_db w) (w_db w') ->
    P (rollback_db (w_db w) (w_db w')) /\ sequences_grow (w_db w) (rollback_db (w_db w) (w_db w'))).
  { intros w' [HP' G]. split; [by apply law_rollback|exact G]. }
  destruct (body w) as [[[a|a]|e|u] w']; [done|by apply R..].
Qed.
Lemma lawful_transaction {A} (body : M A) : lawful body -> lawful (transaction body).
Proof. intros H. apply lawful_transactionE, lawful_bind; [done|]. intros a. apply lawful_ret. Qed.
End Lawful.

(** What a SELECT found may be kept in mind for what follows it. *)
Lemma lawful_found `{IS : ImageStore} (P : Db -> Prop) {A B} (f : Db -> A) (k : A -> M B) :
  (forall d, P d -> exists Q : Db -> Prop, Q d /\ (forall d', Q d' -> P d') /\ lawful Q (k (f d))) ->
  lawful P (mbind k (query f)).
Proof.
  intros H w HP. destruct (H (w_db w) HP) as (Q & HQ & HQP & Hk). destruct (Hk w HQ) as [H1 H2]. split; [by apply HQP|done].
Qed.

(** ** Statements *)

(** A guard that let a statement through. *)
Lemma guarded {A} b e (k : outcome A) x : (guard b e ;;; k)%outcome = Ok x -> b = true /\ k = Ok x.
Proof. by destruct b. Qed.
Lemma users_fk_guard u d : fk (Some u) (users d) = true -> is_Some (rows (users d) !! u).
Proof. by intros H%bool_decide_eq_true. Qed.

(** A statement on receipts that moves no row to another user. *)
Lemma constraints_receipts d t : constraints_ok d -> users_fk rc_user_id t (users d) ->
  seq (receipts d) <= seq t -> constraints_ok (d <| receipts := t |>) /\ sequences_grow d (d <| receipts := t |>).
Proof. intros [] F L. split; [by split|]. unfold sequences_grow, grows. cbn. lia. Qed.
Lemma receipt_user r d : receipt_fks r d = true -> is_Some (rows (users d) !! rc_user_id r).
Proof. intros [[Hu%users_fk_guard _]%andb_true_iff _]%andb_true_iff. done. Qed.
Lemma put_receipt_lawful id r d d' : constraints_ok d -> put_receipt id r d = Ok d' ->
  constraints_ok d' /\ sequences_grow d d'.
Proof.
  intros H [_ [Hu%receipt_user [= <-]]%guarded]%guarded.
  apply (constraints_receipts d (update_row id r (receipts d))); [done|apply users_fk_update; [apply H|done]|cbn; lia].
Qed.
Lemma insert_receipt_lawful r : lawful_sql constraints_ok (insert_receipt r).
Proof.
  intros d a d' H [_ [Hu%receipt_user [= <- <-]]%guarded]%guarded.
  apply (constraints_receipts d (insert_row r (receipts d))); [done|apply all_insert; [apply H|done]|cbn; lia].
Qed.
Lemma update_receipt_lawful id f : lawful_sql_ constraints_ok (sql_update_receipt id f).
Proof.
  intros d d' H E. unfold sql_update_receipt in E. destruct (rows (receipts d) !! id).
  - by eapply put_receipt_lawful.
  - injection E as <-. split; [done|apply sequences_refl].
Qed.
(** Receipts that keep their ids and owners. *)
Lemma receipts_kept d t : constraints_ok d -> seq (receipts d) <= seq t ->
  (forall k r', rows t !! k = Some r' -> exists r, rows (receipts d) !! k = Some r /\ rc_user_id r' = rc_user_id r) ->
  constraints_ok (d <| receipts := t |>) /\ sequences_grow d (d <| receipts := t |>).
Proof. intros H L F. apply constraints_receipts; [done| |done]. eapply users_fk_from; [apply H|exact F]. Qed.

Lemma requeue_lawful U rid t : lawful_sql constraints_ok (sql_requeue U rid t).
Proof.
  intros d a d' H. unfold sql_requeue. destruct (owned_receipt U rid d) as [r|].
  - case_bool_decide.
    + intros E. ok_inv. by eapply put_receipt_lawful.
    + intros [= <- <-]. split; [done|apply sequences_refl].
  - intros [= <- <-]. split; [done|apply sequences_refl].
Qed.

(** Statements on items and their tags. *)
Lemma constraints_items d its links : constraints_ok d -> seq (items d) <= seq its ->
  constraints_ok (d <| items := its |> <| item_tags := links |>) /\
  sequences_grow d (d <| items := its |> <| item_tags := links |>).
Proof. intros [] L. split; [by split|]. unfold sequences_grow, grows. cbn. lia. Qed.
Lemma insert_item_lawful row : lawful_sql constraints_ok (sql_insert_item row).
Proof.
  intros d a d' H [_ [= <- <-]]%guarded. apply (constraints_items d (insert_row row (items d)) (item_tags d) H). cbn. lia.
Qed.
Lemma update_item_lawful id row : lawful_sql_ constraints_ok (sql_update_item id row).
Proof.
  intros d d' H [_ [= <-]]%guarded. apply (constraints_items d (update_row id row (items d)) (item_tags d) H). cbn. lia.
Qed.
Lemma insert_item_tag_lawful i t : lawful_sql_ constraints_ok (sql_insert_item_tag i t).
Proof.
  intros d d' H [_ [_ [= <-]]%guarded]%guarded. apply (constraints_items d (items d) ({[(i, t)]} ∪ item_tags d) H). cbn. lia.
Qed.
Lemma clear_item_tags_lawful i : lawful_sql_ constraints_ok (sql_clear_item_tags i).
Proof.
  intros d d' H [= <-]. apply (constraints_items d (items d) (filter (fun it => it.1 <> i) (item_tags d)) H). cbn. lia.
Qed.
Lemma delete_item_lawful id d : constraints_ok d -> constraints_ok (delete_item id d) /\ sequences_grow d (delete_item id d).
Proof. intros H. apply (constraints_items d (delete_row id (items d)) _ H). cbn. lia. Qed.
Lemma delete_items_of_lawful id d : constraints_ok d ->
  constraints_ok (delete_items_of id d) /\ sequences_grow d (delete_items_of id d).
Proof. intros H. apply (constraints_items d (keep_rows _ (items d)) _ H). cbn. lia. Qed.

(** Photographs, and the deletion of a receipt with its own. *)
Lemma insert_image_lawful row : lawful_sql_ constraints_ok (sql_insert_image row).
Proof.
  intros d d' [] [[_ Hu%users_fk_guard]%andb_true_iff [= <-]]%guarded.
  split; [|unfold sequences_grow, grows; cbn; lia]. split; try done. by apply all_insert.
Qed.
Lemma delete_receipt_lawful id d : constraints_ok d ->
  constraints_ok (delete_receipt id d) /\ sequences_grow d (delete_receipt id d).
Proof.
  intros []. split; [|unfold sequences_grow, grows; cbn; lia]. split; try done; cbn.
  - intros k r'. cbn. rewrite lookup_fmap_Some. intros (r & <- & [_ E]%lookup_delete_Some).
    apply (co_receipts0 k r) in E. unfold clear_offset. by case_bool_decide.
  - by apply all_keep.
Qed.

(** Categories, tags and payment methods: the index refuses the double, the
    reference a user who is gone. *)
Lemma insert_category_lawful row : lawful_sql constraints_ok (insert_unique same_category c_user_id categories row).
Proof.
  intros d a d' [] [N%negb_true_iff [Hu%users_fk_guard [= <- <-]]%guarded]%guarded.
  split; [|unfold sequences_grow, grows; cbn; lia]. split; try done. destruct co_categories0 as [Hq Hf].
  split; [apply unique_insert; [apply same_category_sym|done..]|by apply all_insert].
Qed.
Lemma insert_tag_lawful row : lawful_sql constraints_ok (insert_unique same_tag t_user_id tags row).
Proof.
  intros d a d' [] [N%negb_true_iff [Hu%users_fk_guard [= <- <-]]%guarded]%guarded.
  split; [|unfold sequences_grow, grows; cbn; lia]. split; try done. destruct co_tags0 as [Hq Hf].
  split; [apply unique_insert; [apply same_tag_sym|done..]|by apply all_insert].
Qed.
Lemma insert_method_lawful row :
  lawful_sql constraints_ok (insert_unique same_payment_method p_user_id payment_methods row).
Proof.
  intros d a d' [] [N%negb_true_iff [Hu%users_fk_guard [= <- <-]]%guarded]%guarded.
  split; [|unfold sequences_grow, grows; cbn; lia]. split; try done. destruct co_methods0 as [Hq Hf].
  split; [apply unique_insert; [apply same_payment_method_sym|done..]|by apply all_insert].
Qed.
Lemma update_category_lawful id row d d' : constraints_ok d -> is_Some (rows (users d) !! c_user_id row) ->
  update_unique same_category categories id row d = Ok d' -> constraints_ok d' /\ sequences_grow d d'.
Proof.
  intros [] Hu [N%negb_true_iff [= <-]]%guarded. split; [|unfold sequences_grow, grows; cbn; lia]. split; try done.
  destruct co_categories0 as [Hq Hf]. split; [apply unique_update; [apply same_category_sym|done..]|by apply all_update].
Qed.
Lemma update_tag_lawful id row d d' : constraints_ok d -> is_Some (rows (users d) !! t_user_id row) ->
  update_unique same_tag tags id row d = Ok d' -> constraints_ok d' /\ sequences_grow d d'.
Proof.
  intros [] Hu [N%negb_true_iff [= <-]]%guarded. split; [|unfold sequences_grow, grows; cbn; lia]. split; try done.
  destruct co_tags0 as [Hq Hf]. split; [apply unique_update; [apply same_tag_sym|done..]|by apply all_update].
Qed.
Lemma update_method_lawful id row d d' : constraints_ok d -> is_Some (rows (users d) !! p_user_id row) ->
  update_unique same_payment_method payment_methods id row d = Ok d' -> constraints_ok d' /\ sequences_grow d d'.
Proof.
  intros [] Hu [N%negb_true_iff [= <-]]%guarded. split; [|unfold sequences_grow, grows; cbn; lia]. split; try done.
  destruct co_methods0 as [Hq Hf].
  split; [apply unique_update; [apply same_payment_method_sym|done..]|by apply all_update].
Qed.
(** Rows deleted from a table with a unique index. *)
Lemma unique_delete {A} (same : A -> A -> bool) k t : unique same t -> unique same (delete_row k t).
Proof. intros U i j a b. cbn. intros [_ Ei]%lookup_delete_Some [_ Ej]%lookup_delete_Some. by eapply U. Qed.
Lemma unique_keep {A} (same : A -> A -> bool) p t : unique same t -> unique same (keep_rows p t).
Proof. intros U i j a b. cbn. intros [Ei _]%map_lookup_filter_Some [Ej _]%map_lookup_filter_Some. by eapply U. Qed.
Lemma delete_category_lawful id d : constraints_ok d ->
  constraints_ok (delete_category id d) /\ sequences_grow d (delete_category id d).
Proof.
  intros []. split; [|unfold sequences_grow, grows; cbn; lia]. split; try done. destruct co_categories0 as [Hq Hf].
  split; [by apply unique_delete|by apply all_delete].
Qed.
Lemma delete_tag_lawful id d : constraints_ok d -> constraints_ok (delete_tag id d) /\ sequences_grow d (delete_tag id d).
Proof.
  intros []. split; [|unfold sequences_grow, grows; cbn; lia]. split; try done. destruct co_tags0 as [Hq Hf].
  split; [by apply unique_delete|by apply all_delete].
Qed.
Lemma delete_payment_method_lawful id d : constraints_ok d ->
  constraints_ok (delete_payment_method id d) /\ sequences_grow d (delete_payment_method id d).
Proof.
  intros []. split; [|unfold sequences_grow, grows; cbn; lia]. destruct co_methods0 as [Hq Hf].
  split; try done; cbn.
  - split; [by apply unique_delete|by apply all_delete].
  - intros k r'. cbn. rewrite lookup_fmap_Some. intros (r & <- & E). apply (co_receipts0 k r) in E.
    unfold clear_payment. by case_bool_decide.
Qed.

(** Accounts, sessions and one-time tokens. *)
Lemma insert_user_lawful email pw : lawful_sql constraints_ok (sql_insert_user email pw).
Proof.
  intros d a d' [(Bu & Bs & Ba) ? [] [] ? [] [] [] ? ?] [N%negb_true_iff [= <- <-]]%guarded.
  assert (F : forall A (owner : A -> Z) t, users_fk owner t (users d) ->
    users_fk owner t (insert_row (mkUser email pw None) (users d))).
  { intros A owner t Ht. eapply users_fk_grow; [exact Ht|]. intros k [x Ex]. cbn.
    destruct (decide (k = seq (users d))) as [->|]; [by rewrite lookup_insert_eq|by rewrite lookup_insert_ne, Ex]. }
  split; [|unfold sequences_grow, grows; cbn; lia]. split; cbn; auto.
  - split; [by apply below_insert|done].
  - apply unique_insert; [apply same_user_sym|done..].
Qed.
Lemma insert_session_lawful u h e : lawful_sql_ constraints_ok (sql_insert_session u h e).
Proof.
  intros d d' [(Bu & Bs & Ba) ? [] ? ? ? ? ? ? ?] [N%negb_true_iff [Hu%users_fk_guard [= <-]]%guarded]%guarded.
  split; [|unfold sequences_grow, grows; cbn; lia]. split; try done; cbn.
  - split; [done|split; [by apply below_insert|done]].
  - split; [apply unique_insert; [apply same_session_sym|done..]|by apply all_insert].
Qed.
Lemma insert_auth_token_lawful row : a_purpose row ∈ ["verify"; "reset"]%string ->
  lawful_sql_ constraints_ok (sql_insert_auth_token row).
Proof.
  intros Hp d d' [(Bu & Bs & Ba) ? ? [] ? ? ? ? ? ?] [N%negb_true_iff [Hu%users_fk_guard [= <-]]%guarded]%guarded.
  split; [|unfold sequences_grow, grows; cbn; lia]. split; try done; cbn.
  - split; [done|split; [done|by apply below_insert]].
  - split; [apply unique_insert; [apply same_token_sym|done..]|by apply all_insert].
  - by apply all_insert.
Qed.
Lemma set_user_lawful id f : (forall u, u_email (f u) = u_email u) -> lawful_sql_ constraints_ok (sql_set_user id f).
Proof.
  intros Hf d d' H [= <-]. destruct (rows (users d) !! id) as [u|] eqn:Eu; [|split; [done|apply sequences_refl]].
  destruct H as [(Bu & Bs & Ba) ? [] [] ? [] [] [] ? ?].
  assert (F : forall A (owner : A -> Z) t, users_fk owner t (users d) -> users_fk owner t (update_row id (f u) (users d))).
  { intros A owner t Ht. eapply users_fk_grow; [exact Ht|]. intros k [x Ex]. cbn.
    destruct (decide (k = id)) as [->|]; [by rewrite lookup_insert_eq|by rewrite lookup_insert_ne, Ex]. }
  split; [|unfold sequences_grow, grows; cbn; lia]. split; cbn; auto.
  - split; [|done]. apply all_update; [exact Bu|]. exact (Bu id u Eu).
  - eapply unique_from; [apply same_user_sym|done|]. intros k a'. cbn.
    intros [[<- <-]|[_ E]]%lookup_insert_Some; [|by exists a']. exists u. split; [done|]. intros b.
    unfold same_user. by rewrite Hf.
Qed.
(** Sessions that stay keep their id, their user and their token. *)
Lemma sessions_kept d t : constraints_ok d -> seq (sessions d) = seq t ->
  (forall k s', rows t !! k = Some s' ->
     exists s, rows (sessions d) !! k = Some s /\ s_user_id s' = s_user_id s /\ s_token_hash s' = s_token_hash s) ->
  constraints_ok (d <| sessions := t |>) /\ sequences_grow d (d <| sessions := t |>).
Proof.
  intros [(Bu & Bs & Ba) ? [] ? ? ? ? ? ? ?] L F. split; [|unfold sequences_grow, grows; cbn; lia].
  split; try done; cbn.
  - split; [done|split; [|done]]. intros k s' E. destruct (F k s' E) as (s & Es & _). rewrite <- L. by apply (Bs k s).
  - split.
    + eapply unique_from; [apply same_session_sym|done|]. intros k s' E. destruct (F k s' E) as (s & Es & _ & Et).
      exists s. split; [done|]. intros b. unfold same_session. by rewrite Et.
    + eapply users_fk_from; [done|]. intros k s' E. destruct (F k s' E) as (s & Es & Eu & _). by exists s.
Qed.
Lemma keep_sessions_lawful p : lawful_sql_ constraints_ok (fun d => Ok (d <| sessions ::= keep_rows p |>)).
Proof.
  intros d d' H [= <-]. apply (sessions_kept d (keep_rows p (sessions d)) H); [done|].
  intros k s'. cbn. intros [E _]%map_lookup_filter_Some. by exists s'.
Qed.
Lemma touch_sessions_lawful h below to : lawful_sql_ constraints_ok
  (fun d => Ok (d <| sessions ::= map_rows (fun _ s => Some (touch_session h below to s)) |>)).
Proof.
  intros d d' H [= <-]. apply (sessions_kept d (map_rows _ (sessions d)) H); [done|].
  intros k s' E. cbn in E. rewrite map_lookup_imap in E. destruct (rows (sessions d) !! k) as [s|]; [|done].
  injection E as <-. exists s. split; [done|]. unfold touch_session. by destruct (_ && _).
Qed.
Lemma drop_token_lawful h : lawful_sql_ constraints_ok (fun d => Ok (drop_token h d)).
Proof.
  intros d d' [(Bu & Bs & Ba) ? ? [] ? ? ? ? ? ?] [= <-]. split; [|unfold sequences_grow, grows; cbn; lia].
  split; try done; cbn.
  - split; [done|split; [done|]]. by apply all_keep.
  - split; [by apply unique_keep|by apply all_keep].
  - by apply all_keep.
Qed.

(** The statements written in place. *)
Lemma delete_owned_lawful {A} (own : Db -> option A) del :
  (forall d, constraints_ok d -> constraints_ok (del d) /\ sequences_grow d (del d)) ->
  lawful_sql constraints_ok (fun d => delete_owned (own d) del d).
Proof.
  intros H d a d' Hd. unfold delete_owned. destruct (own d); intros [= <- <-]; [by apply H|].
  split; [done|apply sequences_refl].
Qed.
Lemma remove_item_lawful rid itemId : lawful_sql constraints_ok (fun d =>
  match rows (items d) !! itemId with
  | Some row => if it_receipt_id row =? rid then Ok (true, delete_item itemId d) else Ok (false, d)
  | None => Ok (false, d)
  end).
Proof.
  intros d a d' H. destruct (rows (items d) !! itemId) as [row|]; [destruct (_ =? _)|]; intros [= <- <-];
    [by apply delete_item_lawful|split; [done|apply sequences_refl]..].
Qed.
Lemma rename_tag_lawful U id nm : lawful_sql constraints_ok (fun d =>
  match owned_tag U id d with
  | Some _ => (let* d' := update_unique same_tag tags id (mkTag U nm) d in Ok (true, d'))%outcome
  | None => Ok (false, d)
  end).
Proof.
  intros d a d' H. destruct (owned_tag U id d) as [t|] eqn:E; [|intros [= <- <-]; split; [done|apply sequences_refl]].
  intros E'. ok_inv. apply owned_tag_Some in E as [E HU]. eapply update_tag_lawful; [done| |done].
  pose proof (proj2 (co_tags _ H) id t E) as Hu. cbn in Hu. by rewrite HU in Hu.
Qed.
Lemma change_method_lawful U id nm sv : lawful_sql constraints_ok (fun d =>
  match owned_payment_method U id d with
  | Some p =>
      let row := mkPaymentMethod (p_user_id p) (default (p_name p) nm) (default (p_stored_value p) sv) in
      (let* d' := update_unique same_payment_method payment_methods id row d in Ok (Some row, d'))%outcome
  | None => Ok (None, d)
  end).
Proof.
  intros d a d' H. destruct (owned_payment_method U id d) as [p|] eqn:E;
    [|intros [= <- <-]; split; [done|apply sequences_refl]].
  cbn zeta. intros E'. ok_inv. apply owned_payment_method_Some in E as [E HU]. eapply update_method_lawful; [done| |done].
  exact (proj2 (co_methods _ H) id p E).
Qed.
Lemma delete_receipt_sql_lawful U rid : lawful_sql constraints_ok (sql_delete_receipt U rid).
Proof.
  intros d a d' H. unfold sql_delete_receipt. destruct (owned_receipt U rid d); intros [= <- <-];
    [by apply delete_receipt_lawful|split; [done|apply sequences_refl]].
Qed.

Create HintDb lawful.
#[local] Hint Resolve insert_receipt_lawful update_receipt_lawful requeue_lawful insert_item_lawful update_item_lawful
  insert_item_tag_lawful clear_item_tags_lawful insert_image_lawful insert_category_lawful insert_tag_lawful
  insert_method_lawful delete_owned_lawful delete_category_lawful delete_tag_lawful delete_payment_method_lawful
  remove_item_lawful rename_tag_lawful change_method_lawful delete_receipt_sql_lawful insert_user_lawful
  insert_session_lawful keep_sessions_lawful touch_sessions_lawful drop_token_lawful : lawful.

(** One rule of the monad, or a statement. *)
Ltac lawful_step :=
  first [ apply lawful_ret | apply lawful_throw | apply lawful_lift | apply lawful_query | apply lawful_now
        | apply lawful_draw | apply lawful_put | apply lawful_remove | apply lawful_hash
        | apply lawful_transaction; [apply _|] | apply lawful_transactionE; [apply _|] | apply lawful_for_each; intros ?
        | apply lawful_exec; solve [auto with lawful] | apply lawful_exec_; solve [auto with lawful]
        | apply lawful_catch; [|intros ?] | apply lawful_bind; [|intros ?]
        | case_match ].
Ltac lawful := repeat lawful_step; try done.

Section Calls.
Context `{IS : ImageStore} `{SO : Sodium} `{EN : Environment} `{VI : Vips} `{PL : Platform}.
Abbreviation kept := (lawful constraints_ok).

Lemma insert_kept U rid kind item : kept (ItemService.insert U rid kind item).
Proof. unfold ItemService.insert, ItemService.requireCategoryFitsKind, ItemService.replaceTags, ItemService.add_tag. lawful. Qed.
(** The owner found with the category is still there when it is updated. *)
Definition with_user (u : Z) (d : Db) : Prop := constraints_ok d /\ is_Some (rows (users d) !! u).
#[local] Instance with_user_law u : Law (with_user u).
Proof. intros old new [H Hu] [H' _] G. split; [by apply constraints_law|done]. Qed.
Lemma category_row_lawful id row : lawful_sql_ (with_user (c_user_id row)) (update_unique same_category categories id row).
Proof.
  intros d d' [H Hu] E. destruct (update_category_lawful _ _ _ _ H Hu E) as [H1 H2]. split; [split; [done|]|done].
  apply update_unique_Ok in E as ->. exact Hu.
Qed.
Lemma category_update_kept U id body : kept (CategoryService.update U id body).
Proof.
  unfold CategoryService.update. do 4 (apply lawful_bind; [lawful|intros ?]).
  apply lawful_catch; [|lawful]. apply lawful_transaction; [apply _|]. apply lawful_found. intros d H.
  destruct (owned_category U id d) as [c|] eqn:E.
  - exists (with_user (c_user_id c)). split; [|split; [by intros d' []|]].
    + split; [done|]. apply owned_category_Some in E as [E _]. exact (proj2 (co_categories _ H) id c E).
    + apply lawful_bind; [lawful|intros ?]. apply lawful_bind; [|lawful]. apply lawful_exec_.
      exact (category_row_lawful id (mkCategory (c_user_id c) _ _)).
  - exists constraints_ok. split; [done|split; [done|lawful]].
Qed.

(** Every call of the ledger. *)
Lemma serve_kept U q : kept (serve U q).
Proof.
  destruct q; cbn [serve]; (apply lawful_bind; [|lawful]).
  all: try apply category_update_kept.
  all: unfold ItemService.create, ItemService.update, ItemService.remove, ItemService.ownedReceiptKind, ItemService.fetchItem,
    ItemService.requireCategoryFitsKind, ItemService.replaceTags, ItemService.add_tag, uploadReceipt, addImages, storeImages,
    store_image, generateImageKey, createManual, insert_items, validateReferences, updateReceipt, retryScan, getReceipt,
    deleteReceipt, CategoryService.create, CategoryService.remove, TagService.create, TagService.update, TagService.remove,
    PaymentMethodService.create, PaymentMethodService.update, PaymentMethodService.remove, removed, ItemService.tagIdsFor.
  all: lawful.
Qed.

(** ** The calls of accounts *)

(** The calls of AuthController.cpp that reach AuthService. *)
Inductive account_call :=
| Register (email password : string)
| Login (email password : string)
| ValidateSession (rawToken : string)
| Logout (rawToken : string)
| RequestPasswordReset (email : string)
| ConfirmPasswordReset (rawToken newPassword : string)
| RequestEmailVerification (userId : Z)
| ConfirmEmailVerification (rawToken : string).
Definition serve_account (q : account_call) : M () :=
  match q with
  | Register email password => discard (registerUser email password)
  | Login email password => discard (login email password)
  | ValidateSession rawToken => discard (validateSession rawToken)
  | Logout rawToken => discard (logout rawToken)
  | RequestPasswordReset email => discard (requestPasswordReset email)
  | ConfirmPasswordReset rawToken newPassword => discard (confirmPasswordReset rawToken newPassword)
  | RequestEmailVerification userId => discard (requestEmailVerification userId)
  | ConfirmEmailVerification rawToken => discard (confirmEmailVerification rawToken)
  end.

Lemma reset_token_lawful u h e : lawful_sql_ constraints_ok (sql_insert_auth_token (mkAuthToken u h "reset" e)).
Proof. apply insert_auth_token_lawful. set_solver. Qed.
Lemma verify_token_lawful u h e : lawful_sql_ constraints_ok (sql_insert_auth_token (mkAuthToken u h "verify" e)).
Proof. apply insert_auth_token_lawful. set_solver. Qed.
Lemma new_password_lawful u h : lawful_sql_ constraints_ok (sql_set_user u (fun u => u <| u_password_hash := h |>)).
Proof. by apply set_user_lawful. Qed.
Lemma verified_lawful u t : lawful_sql_ constraints_ok (sql_set_user u (fun u => u <| u_email_verified_at := t |>)).
Proof. by apply set_user_lawful. Qed.
#[local] Hint Resolve reset_token_lawful verify_token_lawful new_password_lawful verified_lawful : lawful.

Lemma account_kept q : kept (serve_account q).
Proof.
  destruct q; cbn [serve_account]; (apply lawful_bind; [|lawful]); unfold registerUser, seed_category, login, validateSession,
    logout, requestPasswordReset, confirmPasswordReset, requestEmailVerification, confirmEmailVerification; lawful.
Qed.

(** The ledger's own invariant under the calls of accounts, which touch no receipt. *)
Definition ledger_ok (t : table receipt_row) (d : Db) : Prop := db_ok d /\ receipts d = t.
#[local] Instance ledger_law t : Law (ledger_ok t).
Proof.
  intros old new [H E] [_ E'] (G & _). split; [|cbn; rewrite E, E'; by destruct t].
  destruct H as [(B1 & B2 & B3 & B4 & B5 & B6) ? ? ? ?]. destruct G as (? & ? & ? & ? & ? & ?).
  assert (Hb : forall A (t t' : table A), below t -> seq t <= seq t' -> below (keep_seq t t')).
  { intros A t0 t' B L k a Ea. pose proof (B k a Ea) as Hk. cbn in Hk |- *. lia. }
  split; [cbn; auto 10|done..].
Qed.
Lemma accounts_ledger t us ss ats d : ledger_ok t d ->
  seq (users d) <= seq us -> seq (sessions d) <= seq ss -> seq (auth_tokens d) <= seq ats ->
  ledger_ok t (d <| users := us |> <| sessions := ss |> <| auth_tokens := ats |>) /\
  sequences_grow d (d <| users := us |> <| sessions := ss |> <| auth_tokens := ats |>).
Proof. intros [[] E] L1 L2 L3. split; [by split|]. unfold sequences_grow, grows. cbn. lia. Qed.
Section Ledger.
Context (t : table receipt_row).
Lemma insert_user_ledger email pw : lawful_sql (ledger_ok t) (sql_insert_user email pw).
Proof.
  intros d a d' H [_ [= <- <-]]%guarded.
  apply (accounts_ledger t (insert_row _ (users d)) (sessions d) (auth_tokens d) d H); cbn; lia.
Qed.
Lemma set_user_ledger id f : lawful_sql_ (ledger_ok t) (sql_set_user id f).
Proof.
  intros d d' H [= <-]. destruct (rows (users d) !! id) as [u|]; [|split; [done|apply sequences_refl]].
  apply (accounts_ledger t (update_row id (f u) (users d)) (sessions d) (auth_tokens d) d H); cbn; lia.
Qed.
Lemma insert_session_ledger u h e : lawful_sql_ (ledger_ok t) (sql_insert_session u h e).
Proof.
  intros d d' H [_ [_ [= <-]]%guarded]%guarded.
  apply (accounts_ledger t (users d) (insert_row _ (sessions d)) (auth_tokens d) d H); cbn; lia.
Qed.
Lemma insert_auth_token_ledger row : lawful_sql_ (ledger_ok t) (sql_insert_auth_token row).
Proof.
  intros d d' H [_ [_ [= <-]]%guarded]%guarded.
  apply (accounts_ledger t (users d) (sessions d) (insert_row _ (auth_tokens d)) d H); cbn; lia.
Qed.
Lemma keep_sessions_ledger p : lawful_sql_ (ledger_ok t) (fun d => Ok (d <| sessions ::= keep_rows p |>)).
Proof.
  intros d d' H [= <-]. apply (accounts_ledger t (users d) (keep_rows p (sessions d)) (auth_tokens d) d H); cbn; lia.
Qed.
Lemma touch_sessions_ledger f : lawful_sql_ (ledger_ok t) (fun d => Ok (d <| sessions ::= map_rows f |>)).
Proof.
  intros d d' H [= <-]. apply (accounts_ledger t (users d) (map_rows f (sessions d)) (auth_tokens d) d H); cbn; lia.
Qed.
Lemma drop_token_ledger h : lawful_sql_ (ledger_ok t) (fun d => Ok (drop_token h d)).
Proof.
  intros d d' H [= <-]. apply (accounts_ledger t (users d) (sessions d) (keep_rows _ (auth_tokens d)) d H); cbn; lia.
Qed.
Lemma insert_category_ledger row : lawful_sql (ledger_ok t) (insert_unique same_category c_user_id categories row).
Proof.
  intros d a d' [H E] ->%insert_unique_Ok. split; [|unfold sequences_grow, grows; cbn; lia].
  split; [|done]. apply (insert_category_evolves (c_user_id row) row d H eq_refl).
Qed.
Lemma insert_method_ledger row : lawful_sql (ledger_ok t) (insert_unique same_payment_method p_user_id payment_methods row).
Proof.
  intros d a d' [H E] ->%insert_unique_Ok. split; [|unfold sequences_grow, grows; cbn; lia].
  split; [|done]. apply (insert_payment_method_evolves (p_user_id row) row d H eq_refl).
Qed.
#[local] Hint Resolve insert_user_ledger set_user_ledger insert_session_ledger insert_auth_token_ledger keep_sessions_ledger
  touch_sessions_ledger drop_token_ledger insert_category_ledger insert_method_ledger : lawful.
Lemma account_ledger q : lawful (ledger_ok t) (serve_account q).
Proof.
  destruct q; cbn [serve_account]; (apply lawful_bind; [|lawful]); unfold registerUser, seed_category, login, validateSession,
    logout, requestPasswordReset, confirmPasswordReset, requestEmailVerification, confirmEmailVerification; lawful.
Qed.
End Ledger.

(** ** The worker *)

Context `{JT : JsonText} `{SP : ScanProvider} `{MM : MerchantMatcher} `{NO : Notifier}.
Context (config_ : ScanWorkerConfig).

Lemma write_attempt_kept c result tx b m : kept (write_attempt c result tx b m).
Proof.
  unfold write_attempt, writeVerify, writeExtraction, insertScannedItems, insert_scanned, ItemService.insert,
    ItemService.requireCategoryFitsKind, ItemService.replaceTags, ItemService.add_tag. lawful.
  apply lawful_exec_. intros d d' Hd [= <-]. by apply delete_items_of_lawful.
Qed.
(** The queue columns are all that changes: no receipt moves to another user. *)
Lemma map_receipts_lawful d f : constraints_ok d -> (forall k r, rc_user_id (f k r) = rc_user_id r) ->
  constraints_ok (d <| receipts ::= map_rows (fun k r => Some (f k r)) |>) /\
  sequences_grow d (d <| receipts ::= map_rows (fun k r => Some (f k r)) |>).
Proof.
  intros H Hf. apply (receipts_kept d (map_rows _ (receipts d)) H); [done|]. intros k r' E. cbn in E.
  rewrite map_lookup_imap in E. destruct (rows (receipts d) !! k) as [r|]; [|done]. injection E as <-. by exists r.
Qed.
Lemma notify_kept u rid why : kept (notifyScanFailed u rid why).
Proof. apply lawful_still. intros w. unfold notifyScanFailed. by destruct (notify _ _ _). Qed.
Lemma reclaim_kept : kept (reclaimStuck config_).
Proof.
  unfold reclaimStuck. apply lawful_bind; [lawful|intros t]. apply lawful_bind; [|intros rows].
  - apply lawful_exec. intros d a d' H [= <- <-].
    apply (map_receipts_lawful d (fun _ r => if stuck config_ t r then reclaimed_row config_ r else r) H).
    intros _ r. by destruct (stuck _ _ _).
  - apply lawful_for_each. intros x. case_match; [apply notify_kept|lawful].
Qed.
Lemma claim_kept : kept (claim config_).
Proof.
  unfold claim. apply lawful_bind; [lawful|intros t]. apply lawful_exec. intros d a d' H [= <- <-].
  apply (map_receipts_lawful d (fun id r => if bool_decide (id ∈ map fst (claimable config_ d)) then claimed_row (pg_clock_timestamp t id) r else r) H).
  intros k r. by case_bool_decide.
Qed.
Lemma failure_kept c scanError terminal error : kept (recordFailure config_ c scanError terminal error).
Proof.
  unfold recordFailure. apply lawful_bind; [|intros state; case_match; [apply notify_kept|lawful]].
  apply lawful_exec. intros d a d' H. unfold sql_fail.
  destruct (rows (receipts d) !! cl_receiptId c) as [r|] eqn:E; [destruct (claimed c r)|]; intros [= <- <-];
    [|split; [done|apply sequences_refl]..].
  apply (receipts_kept d (update_row (cl_receiptId c) _ (receipts d)) H); [done|]. intros k r'. cbn.
  intros [[<- <-]|[_ Ek]]%lookup_insert_Some; [|by exists r']. exists r. split; [done|].
  unfold failed_row. by destruct scanError.
Qed.
End Calls.
End Constraints.
