(* ===== verification/Pipeline.v ===== *)
(** * The running system

    Requests of any user, ticks of any number of workers and the passing of time,
    interleaved: [ScanWorker::tick] and [process] suspend at every statement outside a
    transaction, at every photograph fetched and at the provider's call, so between
    two of these anything else may run.  A job is one [process(claim)] in flight, its
    stage the point where it is suspended; a request, and the transaction that writes
    a result, run in one step.  Workers may die at any point and take their
    jobs with them. *)
From S2P Require Import Prelude CString Binary64 Json Kinds JsonInput LedgerInput TokenUtils Env Db World.
From S2P Require Import ItemService ReceiptService ReferenceData ScanWorker Invariant Statements Safety.
From S2P Require Import ScanSafety ScanQueue Constraints.

Section Pipeline.
Context `{PG : Postgres} `{IS : ImageStore} `{SO : Sodium} `{EN : Environment} `{VI : Vips} `{PL : Platform}.
Context `{JT : JsonText} `{SP : ScanProvider} `{MM : MerchantMatcher} `{NO : Notifier}.
Context (config_ : ScanWorkerConfig).

(** Where a [process(claim)] is suspended.  [reviewed] is the mode its result was
    validated for. *)
Inductive stage :=
| Claimed
| Reading (snapshot : Snapshot)
| Fetching (snapshot : Snapshot) (keys images : list string)
| Naming (snapshot : Snapshot) (images : list string) (categories : list CategoryRef)
| Asking (snapshot : Snapshot) (images : list string) (taxonomy : Taxonomy)
| Scanned (result : ScanResult) (reviewed : bool)
| Filing (result : ScanResult) (reviewed : bool) (categories : list CategoryRef)
| Applying (result : ScanResult) (reviewed : bool) (taxonomy : Taxonomy) (attempts : nat)
| Compared (result : ScanResult) (reviewed : bool) (taxonomy : Taxonomy) (before : Snapshot) (allMatch : bool)
    (attempts : nat)
| Failing (scanError terminal : bool) (error : string).

Definition failing (e : exn) : stage := Failing (failure_of e).1 false (failure_of e).2.

(** The two SELECTs of [loadTaxonomy]. *)
Definition load_categories (c : Claim) (d : Db) : list CategoryRef := tx_categories (loadTaxonomy (cl_userId c) d).
Definition load_tags (c : Claim) (d : Db) : list TagRef := tx_tags (loadTaxonomy (cl_userId c) d).
(** The provider's call, and the check of its answer. *)
Definition ask (s : Snapshot) (images : list string) (taxonomy : Taxonomy) : M ScanResult :=
  let knownKind := if sn_reviewed s then Some (sn_kind s) else None in
  let! call := next_call in
  let! result := lift (scanReceipt call images (makeContext taxonomy knownKind)) in
  lift (validateResult result (sn_reviewed s)).

(** One step of a job; [None] when it is over. *)
Inductive jstep (c : Claim) : World -> stage -> World -> option stage -> Prop :=
| js_gone w : readSnapshot c (w_db w) = None -> jstep c w Claimed w None
| js_begin w s : readSnapshot c (w_db w) = Some s -> jstep c w Claimed w (Some (Reading s))
| js_no_images w s : scan_keys (cl_receiptId c) (w_db w) = [] ->
    jstep c w (Reading s) w (Some (Failing true true "receipt has no images"))
| js_keys w s : scan_keys (cl_receiptId c) (w_db w) <> [] ->
    jstep c w (Reading s) w (Some (Fetching s (scan_keys (cl_receiptId c) (w_db w)) []))
| js_fetch w s key keys images bytes w' : store_get key w = (Ok bytes, w') ->
    jstep c w (Fetching s (key :: keys) images) w' (Some (Fetching s keys (images ++ [bytes])))
| js_fetch_throw w s key keys images e w' : store_get key w = (Throw e, w') ->
    jstep c w (Fetching s (key :: keys) images) w' (Some (failing e))
| js_categories w s images :
    jstep c w (Fetching s [] images) w (Some (Naming s images (load_categories c (w_db w))))
| js_tags w s images categories :
    jstep c w (Naming s images categories) w (Some (Asking s images (mkTaxonomy categories (load_tags c (w_db w)))))
| js_answer w s images tx result w' : ask s images tx w = (Ok result, w') ->
    jstep c w (Asking s images tx) w' (Some (Scanned result (sn_reviewed s)))
| js_answer_throw w s images tx e w' : ask s images tx w = (Throw e, w') ->
    jstep c w (Asking s images tx) w' (Some (failing e))
| js_file_categories w result v :
    jstep c w (Scanned result v) w (Some (Filing result v (load_categories c (w_db w))))
| js_file_tags w result v categories :
    jstep c w (Filing result v categories) w
      (Some (Applying result v (mkTaxonomy categories (load_tags c (w_db w))) 2))
| js_exhausted w result v tx :
    jstep c w (Applying result v tx 0) w
      (Some (failing (RuntimeError "receipt kept changing while its scan result was being written")))
| js_before_gone w result v tx n : readSnapshot c (w_db w) = None -> jstep c w (Applying result v tx (S n)) w None
| js_compare w result v tx n b m : readSnapshot c (w_db w) = Some b -> compare config_ b result = Ok m ->
    jstep c w (Applying result v tx (S n)) w (Some (Compared result v tx b m n))
| js_compare_throw w result v tx n b e : readSnapshot c (w_db w) = Some b -> compare config_ b result = Throw e ->
    jstep c w (Applying result v tx (S n)) w (Some (failing e))
| js_write w result v tx b m n w' : write_attempt c result tx b m w = (Ok true, w') ->
    jstep c w (Compared result v tx b m n) w' None
| js_again w result v tx b m n w' : write_attempt c result tx b m w = (Ok false, w') ->
    jstep c w (Compared result v tx b m n) w' (Some (Applying result v tx n))
| js_write_throw w result v tx b m n e w' : write_attempt c result tx b m w = (Throw e, w') ->
    jstep c w (Compared result v tx b m n) w' (Some (failing e))
| js_fail w scanError terminal error r w' : recordFailure config_ c scanError terminal error w = (r, w') ->
    jstep c w (Failing scanError terminal error) w' None.

Record sys := mkSys { sw : World; jobs : list (Claim * stage) }.

Definition option_job (c : Claim) (o : option stage) : list (Claim * stage) :=
  match o with Some st => [(c, st)] | None => [] end.

(** What goes on without a user: time, ticks, scans and crashes. *)
Inductive background : sys -> sys -> Prop :=
| st_time w js t : w_clock w <= t -> background (mkSys w js) (mkSys (w <| w_clock := t |>) js)
| st_reclaim w js : background (mkSys w js) (mkSys (reclaimStuck config_ w).2 js)
| st_claim w js claims w' : claim config_ w = (Ok claims, w') ->
    background (mkSys w js) (mkSys w' (js ++ map (fun c => (c, Claimed)) claims))
| st_job w js1 c st js2 w' o : jstep c w st w' o ->
    background (mkSys w (js1 ++ (c, st) :: js2)) (mkSys w' (js1 ++ option_job c o ++ js2))
| st_crash w js js' : js' ⊆ js -> background (mkSys w js) (mkSys w js').
Inductive step : sys -> sys -> Prop :=
| st_request w js U q : step (mkSys w js) (mkSys (serve U q w).2 js)
| st_background s s' : background s s' -> step s s'.

Inductive steps : sys -> sys -> Prop :=
| steps_refl s : steps s s
| steps_step s1 s2 s3 : steps s1 s2 -> step s2 s3 -> steps s1 s3.

(** A run from a consistent database with no scan in flight. *)
Definition reachable (s : sys) : Prop := exists w, db_ok (w_db w) /\ steps (mkSys w []) s.

(** The same system with its accounts: registrations, logins, password resets and
    e-mail verifications between the other steps. *)
Inductive full_step : sys -> sys -> Prop :=
| fs_step s s' : step s s' -> full_step s s'
| fs_account w js q : full_step (mkSys w js) (mkSys (serve_account q w).2 js).

(** ** Invariants of a run *)

Definition reviewed_now (c : Claim) (d : Db) : Prop :=
  forall r, rows (receipts d) !! cl_receiptId c = Some r -> is_Some (rc_reviewed_at r).
(** The mode of a result: verify only for a receipt that has been reviewed,
    extraction only with a kind the scanner may return. *)
Definition mode_ok (c : Claim) (result : ScanResult) (v : bool) (d : Db) : Prop :=
  if v then reviewed_now c d else unusable_kind (sr_kind result) = false.
Definition stage_ok (c : Claim) (st : stage) (d : Db) : Prop :=
  match st with
  | Reading s | Fetching s _ _ | Naming s _ _ | Asking s _ _ => sn_reviewed s = true -> reviewed_now c d
  | Scanned result v | Filing result v _ | Applying result v _ _ | Compared result v _ _ _ _ => mode_ok c result v d
  | Claimed | Failing _ _ _ => True
  end.
Definition job_ok (d : Db) (j : Claim * stage) : Prop :=
  cl_receiptId j.1 < seq (receipts d) /\ claim_owned j.1 d /\ stage_ok j.1 j.2 d.
Record sys_ok (s : sys) : Prop := {
  so_db : db_ok (w_db (sw s));
  so_jobs : Forall (job_ok (w_db (sw s))) (jobs s)
}.

(** What every step does to the database. *)
Definition onward (d d' : Db) : Prop := db_ok d' /\ grows d d' /\ keeps d d'.
Lemma onward_refl d : db_ok d -> onward d d.
Proof. intros H. destruct (evolves_refl 0 d H) as [? _ ? ?]. by split. Qed.
Lemma evolves_onward U d d' : evolves U d d' -> onward d d'.
Proof. intros [? _ ? ?]. by split. Qed.

Lemma reviewed_onward c d d' : cl_receiptId c < seq (receipts d) -> keeps d d' -> reviewed_now c d -> reviewed_now c d'.
Proof. intros L K H r' E. destruct (K _ _ L E) as (r & Er & _ & _ & _ & Hr). by apply Hr, H. Qed.
Lemma stage_onward c st d d' : cl_receiptId c < seq (receipts d) -> keeps d d' -> stage_ok c st d -> stage_ok c st d'.
Proof.
  intros L K. destruct st; cbn; try done; unfold mode_ok.
  1-4: intros H Hs; eapply reviewed_onward; eauto.
  all: destruct reviewed; [by apply reviewed_onward|done].
Qed.
Lemma job_onward d d' j : onward d d' -> job_ok d j -> job_ok d' j.
Proof.
  intros (_ & G & K) (L & O & S). unfold grows in G. split; [lia|split].
  - intros r' E. destruct (K _ _ L E) as (r & Er & Hu & _). rewrite Hu. by apply O.
  - by eapply stage_onward.
Qed.
Lemma sys_onward w js w' : sys_ok (mkSys w js) -> onward (w_db w) (w_db w') -> sys_ok (mkSys w' js).
Proof.
  intros [H J] O. split; [apply O|]. cbn in *. eapply Forall_impl; [exact J|]. intros j. by apply job_onward.
Qed.

(** Computations that leave the database alone. *)
Definition reads {A} (m : M A) : Prop := forall w, w_db (m w).2 = w_db w.
Lemma reads_bind {A B} (m : M A) (k : A -> M B) : reads m -> (forall a, reads (k a)) -> reads (mbind k m).
Proof. intros Hm Hk w. unfold mbind. specialize (Hm w). destruct (m w) as [[] w']; cbn in *; [by rewrite Hk|done..]. Qed.
Lemma reads_get key : reads (store_get key).
Proof. intros w. unfold store_get. by destruct (get key (w_store w)). Qed.
Lemma reads_fetch ks : reads (fetch_images ks).
Proof. induction ks as [|k ks IH]; [done|]. apply reads_bind; [apply reads_get|intros; by apply reads_bind]. Qed.
Lemma reads_ask s images tx : reads (ask s images tx).
Proof. by repeat (apply reads_bind; [done|intros ?]). Qed.
Lemma reads_notify U rid reason : reads (notifyScanFailed U rid reason).
Proof. intros w. unfold notifyScanFailed. by destruct (notify _ _ _). Qed.
Lemma reads_for_each {A} (body : A -> M ()) xs : (forall x, reads (body x)) -> reads (for_each body xs).
Proof. intros H. induction xs as [|x xs IH]; [done|]. by apply reads_bind. Qed.

Lemma reclaim_onward w : db_ok (w_db w) -> onward (w_db w) (w_db (reclaimStuck config_ w).2).
Proof.
  intros Hok.
  assert (H : wp (reclaimStuck config_) (fun _ w' => onward (w_db w) (w_db w')) w); [|exact H].
  unfold reclaimStuck. wp_steps. destruct (sql_reclaim _ _ _) as [[x d']| |] eqn:E; [|by apply onward_refl..].
  destruct (sql_reclaim_safe _ _ _ _ _ Hok E) as (H1 & H2 & H3 & _). unfold wp. rewrite reads_for_each; [by split|].
  intros [k r]. case_bool_decide; [apply reads_notify|done].
Qed.
Lemma claim_onward w claims w' : db_ok (w_db w) -> claim config_ w = (Ok claims, w') ->
  onward (w_db w) (w_db w') /\ Forall (fun c => job_ok (w_db w') (c, Claimed)) claims.
Proof.
  intros Hok [= <- <-]. cbn.
  destruct (sql_claim_safe config_ (w_clock w) (w_db w) _ _ Hok eq_refl) as (H1 & H2 & H3 & Hq).
  split; [by split|]. apply Forall_forall. intros c Hc. apply list_elem_of_fmap in Hc as ([k r] & -> & Hkr). cbn.
  assert (E : rows (receipts (w_db w)) !! k = Some r).
  { unfold claimable in Hkr. apply elem_of_take in Hkr as (i & Hi & _). apply list_elem_of_lookup_2 in Hi.
    rewrite sorting.merge_sort_Permutation in Hi. unfold select in Hi.
    apply elem_of_map_to_list, map_lookup_filter_Some in Hi. by destruct Hi. }
  split; [exact (proj1 (proj2 (proj2 (proj2 (ok_below _ Hok)))) k r E)|]. split; [|done].
  intros r' E'. cbn in E'. rewrite map_lookup_imap, E in E'. cbn in E'. injection E' as <-. by case_match.
Qed.

Lemma record_onward c scanError terminal error w : db_ok (w_db w) -> claim_owned c (w_db w) ->
  onward (w_db w) (w_db (recordFailure config_ c scanError terminal error w).2).
Proof.
  intros Hok HU.
  assert (H : wp (recordFailure config_ c scanError terminal error) (fun _ w' => onward (w_db w) (w_db w')) w); [|exact H].
  unfold recordFailure. wp_steps. destruct (sql_fail _ _ _ _) as [[x d']| |] eqn:E; [|by apply onward_refl..].
  destruct (sql_fail_safe _ _ _ _ _ _ Hok HU E) as [He _]. apply evolves_onward in He.
  unfold wp. case_bool_decide; [by rewrite reads_notify|exact He].
Qed.

Lemma validateResult_kind result v result' : validateResult result v = Ok result' ->
  v = false -> unusable_kind (sr_kind result') = false.
Proof.
  intros H ->. unfold validateResult in H. cbn [negb andb] in H.
  destruct (unusable_kind (sr_kind result)) eqn:E; [done|]. destruct (_ <? 0); [done|].
  destruct (existsb _ _); [done|]. unfold as_scan_error in H.
  match type of H with match ?m with _ => _ end = _ => destruct m as [x|[]|] eqn:Em end; try done.
  injection H as ->. ok_inv. destruct (sr_purchaseDate _); ok_inv; exact E.
Qed.
Lemma ask_kind s images tx w result w' : ask s images tx w = (Ok result, w') ->
  sn_reviewed s = false -> unusable_kind (sr_kind result) = false.
Proof.
  unfold ask, mbind, next_call, lift. intros H Hv. destruct (scanReceipt _ _ _) as [r| |]; [|done..].
  destruct (validateResult r (sn_reviewed s)) as [r'| |] eqn:E; [|done..]. injection H as <- <-. by eapply validateResult_kind.
Qed.

Lemma snapshot_reviewed c d s : readSnapshot c d = Some s -> sn_reviewed s = true -> reviewed_now c d.
Proof.
  intros (r & E & _ & ->)%readSnapshot_Some Hs r' E'. rewrite E in E'. injection E' as <-.
  by apply bool_decide_eq_true in Hs.
Qed.

Lemma write_onward c result tx b m w r w' :
  db_ok (w_db w) -> claim_owned c (w_db w) -> write_attempt c result tx b m w = (r, w') -> onward (w_db w) (w_db w').
Proof.
  intros Hok HU H. pose proof (write_attempt_safe c result tx b m w Hok HU) as He. unfold wp in He. rewrite H in He.
  by eapply evolves_onward.
Qed.

(** A job's step keeps the database invariant, and leads to a stage in order. *)
Lemma jstep_ok c w st w' o : db_ok (w_db w) -> job_ok (w_db w) (c, st) -> jstep c w st w' o ->
  onward (w_db w) (w_db w') /\ Forall (job_ok (w_db w')) (option_job c o).
Proof.
  intros Hok (L & HU & Hst) H.
  assert (Hret : forall st', stage_ok c st' (w_db w) -> onward (w_db w) (w_db w) /\
    Forall (job_ok (w_db w)) (option_job c (Some st'))).
  { intros st' S. split; [by apply onward_refl|]. by repeat constructor. }
  assert (Hdb : forall st' w1, w_db w1 = w_db w -> stage_ok c st' (w_db w) -> onward (w_db w) (w_db w1) /\
    Forall (job_ok (w_db w1)) (option_job c (Some st'))) by (intros st' w1 ->; apply Hret).
  assert (Hon : forall w1 o', onward (w_db w) (w_db w1) ->
    (forall st', o' = Some st' -> stage_ok c st' (w_db w)) ->
    onward (w_db w) (w_db w1) /\ Forall (job_ok (w_db w1)) (option_job c o')).
  { intros w1 o' O S. split; [done|]. destruct o' as [st'|]; [|constructor]. constructor; [|constructor].
    eapply job_onward; [exact O|]. split; [done|split; [done|by apply S]]. }
  cbn [fst snd] in *.
  destruct H; try (by apply Hret); try (by apply (Hon w None); [apply onward_refl|]); cbn [stage_ok] in Hst.
  - apply Hret. cbn. by apply snapshot_reviewed.
  - by apply Hdb; [by rewrite <- (reads_get key w), H|].
  - by apply Hdb; [by rewrite <- (reads_get key w), H|].
  - apply Hdb; [by rewrite <- (reads_ask s images tx w), H|]. cbn. unfold mode_ok.
    destruct (sn_reviewed s) eqn:E; [by apply Hst|by eapply ask_kind].
  - by apply Hdb; [by rewrite <- (reads_ask s images tx w), H|].
  - by apply (Hon w' None); [by eapply write_onward|].
  - apply (Hon w' (Some _)); [by eapply write_onward|]. by intros st' [= <-].
  - apply (Hon w' (Some _)); [by eapply write_onward|]. by intros st' [= <-].
  - apply (Hon w' None); [|done]. pose proof (record_onward c scanError terminal error w Hok HU) as O. by rewrite H in O.
Qed.

Lemma background_ok s s' : sys_ok s -> background s s' -> sys_ok s'.
Proof.
  intros Hs Hstep. pose proof (so_db _ Hs) as Hok. destruct Hstep; cbn in Hok.
  - eapply sys_onward; [exact Hs|]. by apply onward_refl.
  - eapply sys_onward; [exact Hs|]. by apply reclaim_onward.
  - destruct (claim_onward _ _ _ Hok H) as [O F]. split; [apply O|]. cbn. apply Forall_app. split.
    + by apply (sys_onward _ _ _ Hs O).
    + by apply Forall_fmap.
  - pose proof (so_jobs _ Hs) as J. cbn in J. apply Forall_app in J as [J1 J]. apply Forall_cons in J as [Jc J2].
    destruct (jstep_ok _ _ _ _ _ Hok Jc H) as [O F]. split; [apply O|]. cbn.
    repeat (apply Forall_app; split); [|exact F|]; (eapply Forall_impl; [eassumption|]); intros j; by apply job_onward.
  - split; [exact Hok|]. cbn. pose proof (so_jobs _ Hs) as J. rewrite Forall_forall in J |- *.
    intros j Hj. apply J. by apply H.
Qed.
Lemma step_ok s s' : sys_ok s -> step s s' -> sys_ok s'.
Proof.
  intros Hs Hstep. pose proof (so_db _ Hs) as Hok. destruct Hstep as [w js U q|s s' H]; [|by eapply background_ok].
  eapply sys_onward; [exact Hs|]. exact (evolves_onward U _ _ (serve_safe U q w Hok)).
Qed.
Lemma reachable_ok s : reachable s -> sys_ok s.
Proof.
  intros (w & Hok & Hr). remember (mkSys w []) as s0. assert (H0 : sys_ok s0) by (subst; by split).
  clear Heqs0. induction Hr; [done|]. eapply step_ok; [by apply IHHr|done].
Qed.

(** ** [process] is a run of its steps *)

Lemma steps_trans s1 s2 s3 : steps s1 s2 -> steps s2 s3 -> steps s1 s3.
Proof. intros H1 H2. induction H2 as [|s2 s3 s4 _ IH Hs]; [done|]. eapply steps_step; [by apply IH|exact Hs]. Qed.
Lemma job_steps c st o w w' js1 js2 : jstep c w st w' o ->
  steps (mkSys w (js1 ++ (c, st) :: js2)) (mkSys w' (js1 ++ option_job c o ++ js2)).
Proof. intros H. eapply steps_step; [apply steps_refl|by apply st_background, st_job]. Qed.
(** [js1 ++ (c, st) :: js2] runs to [o] in the same place. *)
Definition job_run (c : Claim) (w : World) (st : stage) (w' : World) (o : option stage) : Prop :=
  forall js1 js2, steps (mkSys w (js1 ++ (c, st) :: js2)) (mkSys w' (js1 ++ option_job c o ++ js2)).
Lemma job_run_step c w st w1 st1 w' o : jstep c w st w1 (Some st1) -> job_run c w1 st1 w' o -> job_run c w st w' o.
Proof. intros H1 H2 js1 js2. eapply steps_trans; [exact (job_steps _ _ _ _ _ js1 js2 H1)|apply H2]. Qed.
Lemma job_run_last c w st w' o : jstep c w st w' o -> job_run c w st w' o.
Proof. intros H js1 js2. by apply job_steps. Qed.

Definition loop_end (r : outcome ()) : option stage :=
  match r with Throw e => Some (failing e) | _ => None end.
Lemma apply_loop_run c result v tx n w r w' : apply_loop config_ c result tx n w = (r, w') -> (forall u, r <> UB u) ->
  job_run c w (Applying result v tx n) w' (loop_end r).
Proof.
  revert w. induction n as [|n IH]; intros w H Hub; cbn [apply_loop] in H.
  { injection H as <- <-. apply job_run_last, js_exhausted. }
  unfold mbind, query, lift in H. destruct (readSnapshot c (w_db w)) as [b|] eqn:Eb.
  2: { injection H as <- <-. by apply job_run_last, js_before_gone. }
  destruct (compare config_ b result) as [m|e|u] eqn:Em.
  - eapply job_run_step; [by apply js_compare|].
    destruct (write_attempt c result tx b m w) as [[[]|e|u] w1] eqn:Ew; unfold mret in H; try injection H as <- <-.
    + by apply job_run_last, js_write.
    + eapply job_run_step; [by apply js_again|]. by apply IH.
    + by apply job_run_last, js_write_throw.
    + by destruct (Hub u).
  - injection H as <- <-. by apply job_run_last, (js_compare_throw _ _ _ _ _ _ b).
  - injection H as <- <-. by destruct (Hub u).
Qed.

Lemma recordFailure_ends c scanError terminal error w r w' :
  recordFailure config_ c scanError terminal error w = (r, w') -> job_run c w (Failing scanError terminal error) w' None.
Proof. intros H. by eapply job_run_last, js_fail. Qed.
(** The photographs one after the other, from the [done] ones on. *)
Lemma fetch_run c s keys images w r w1 : fetch_images keys w = (r, w1) -> (forall u, r <> UB u) ->
  job_run c w (Fetching s keys images) w1
    (Some match r with Ok rest => Fetching s [] (images ++ rest) | Throw e => failing e | UB _ => Claimed end).
Proof.
  revert images w r. induction keys as [|key keys IH]; intros images w r H Hub; cbn [fetch_images] in H.
  { injection H as <- <-. rewrite app_nil_r. intros js1 js2. apply steps_refl. }
  unfold mbind at 1 in H. destruct (store_get key w) as [[bytes|e|u] w2] eqn:Eg.
  - eapply job_run_step; [by apply js_fetch|]. unfold mbind, mret in H.
    destruct (fetch_images keys w2) as [[rest|e|u] w3] eqn:Ef; injection H as <- <-.
    + specialize (IH (images ++ [bytes]) w2 _ Ef). cbv iota in IH. rewrite <- app_assoc in IH. by apply IH.
    + by apply (IH _ _ _ Ef).
    + by destruct (Hub u).
  - injection H as <- <-. by apply job_run_last, js_fetch_throw.
  - injection H as <- <-. by destruct (Hub u).
Qed.
Lemma job_run_trans c w st w1 st1 w' o : job_run c w st w1 (Some st1) -> job_run c w1 st1 w' o -> job_run c w st w' o.
Proof. intros H1 H2 js1 js2. eapply steps_trans; [exact (H1 js1 js2)|apply H2]. Qed.
(** Up to the validated result, or to the failure. *)
Lemma scan_run c s w r w1 : scan_images c s w = (r, w1) -> (forall u, r <> UB u) ->
  job_run c w (Reading s) w1
    (Some match r with
          | Ok (Some result) => Scanned result (sn_reviewed s)
          | Ok None => Failing true true "receipt has no images"
          | Throw e => failing e
          | UB _ => Claimed
          end).
Proof.
  unfold scan_images, mbind at 1, query at 1. intros H Hub. case_bool_decide as Hk.
  { injection H as <- <-. by apply job_run_last, js_no_images. }
  eapply job_run_step; [by apply js_keys|]. unfold mbind at 1 in H.
  destruct (fetch_images _ w) as [[images|e|u] w2] eqn:Ef.
  3: { injection H as <- <-. by destruct (Hub u). }
  2: { injection H as <- <-. by apply (fetch_run _ s _ [] _ _ _ Ef). }
  eapply job_run_trans; [by apply (fetch_run _ s _ [] _ _ _ Ef)|]. cbn [app].
  eapply job_run_step; [apply js_categories|]. eapply job_run_step; [apply js_tags|].
  change (mkTaxonomy _ _) with (loadTaxonomy (cl_userId c) (w_db w2)). unfold mbind, query, next_call, lift, mret in H.
  destruct (scanReceipt _ _ _) as [result|e|u] eqn:Es; [destruct (validateResult _ _) as [result'|e|u] eqn:Ev|..];
    injection H as <- <-; try (by destruct (Hub u)).
  - apply job_run_last, js_answer. unfold ask, mbind, next_call, lift. by rewrite Es, Ev.
  - apply job_run_last, (js_answer_throw c w2 s images _ e). unfold ask, mbind, next_call, lift. by rewrite Es, Ev.
  - apply job_run_last, (js_answer_throw c w2 s images _ e). unfold ask, mbind, next_call, lift. by rewrite Es.
Qed.
Lemma process_run c w w' : process config_ c w = (Ok (), w') -> job_run c w Claimed w' None.
Proof.
  unfold process. intros H.
  assert (Hrec : forall se t err w1, (match recordFailure config_ c se t err w1 with
      | (Throw _, w'') => (Ok (), w'') | r => r end) = (Ok (), w') -> job_run c w1 (Failing se t err) w' None).
  { intros se t err w1 Hr. destruct (recordFailure config_ c se t err w1) as [[]] eqn:Er; try done;
      injection Hr; intros; subst; exact (recordFailure_ends _ _ _ _ _ _ _ Er). }
  unfold scan_body, mbind at 1, query at 1 in H.
  destruct (readSnapshot c (w_db w)) as [s|] eqn:Es.
  2: { injection H as <-. by apply job_run_last, js_gone. }
  eapply job_run_step; [by apply js_begin|]. unfold mbind at 1 in H.
  destruct (scan_images c s w) as [r w1] eqn:Ei.
  assert (Hi : forall u, r <> UB u) by (intros u ->; discriminate H).
  eapply job_run_trans; [exact (scan_run c s w r w1 Ei Hi)|]. destruct r as [[result|]|e|u]; [| | |by destruct (Hi u)].
  - eapply job_run_step; [apply js_file_categories|]. eapply job_run_step; [apply js_file_tags|].
    change (mkTaxonomy _ _) with (loadTaxonomy (cl_userId c) (w_db w1)). unfold applyResult, mbind, query in H.
    destruct (apply_loop config_ c result (loadTaxonomy (cl_userId c) (w_db w1)) 2 w1) as [r w2] eqn:Ea.
    assert (Hl : forall u, r <> UB u) by (intros u ->; discriminate H).
    pose proof (apply_loop_run c result (sn_reviewed s) _ _ _ _ _ Ea Hl) as Hrun.
    destruct r as [u|e|u]; [injection H as <-; exact Hrun| |by destruct (Hl u)].
    intros js1 js2. eapply steps_trans; [apply Hrun|]. by apply Hrec.
  - by apply Hrec.
  - by apply Hrec.
Qed.

(** ** No undefined behaviour in a write *)

Definition defined {A} (m : M A) : Prop := forall w u, (m w).1 <> UB u.
Lemma defined_bind {A B} (m : M A) (k : A -> M B) : defined m -> (forall a, defined (k a)) -> defined (mbind k m).
Proof. intros Hm Hk w u. unfold mbind. specialize (Hm w u). destruct (m w) as [[] w']; cbn in *; [apply Hk|congruence..]. Qed.
Lemma defined_for_each {A} (body : A -> M ()) xs : (forall x, defined (body x)) -> defined (for_each body xs).
Proof. intros H. induction xs as [|x xs IH]; [done|]. by apply defined_bind. Qed.
Lemma defined_lift {A} (m : outcome A) : (forall u, m <> UB u) -> defined (lift m).
Proof. intros H w u. apply H. Qed.
Lemma defined_exec_ (f : Db -> outcome Db) : (forall d u, f d <> UB u) -> defined (exec_ f).
Proof. intros H w u. unfold exec_, exec. specialize (H (w_db w) u). destruct (f (w_db w)); cbn; congruence. Qed.
Lemma defined_exec {A} (f : Db -> outcome (A * Db)) : (forall d u, f d <> UB u) -> defined (exec f).
Proof. intros H w u. unfold exec. specialize (H (w_db w) u). destruct (f (w_db w)) as [[]| |]; cbn; congruence. Qed.
Lemma guard_defined b e u : guard b e <> UB u.
Proof. by destruct b. Qed.
Lemma obind_defined {A B} (m : outcome A) (k : A -> outcome B) :
  (forall u, m <> UB u) -> (forall a u, k a <> UB u) -> forall u, obind k m <> UB u.
Proof. intros Hm Hk u. specialize (Hm u). destruct m; cbn; [apply Hk|congruence..]. Qed.
Lemma rulesFor_defined k u : rulesFor k <> UB u.
Proof. unfold rulesFor. by destruct (findKind k). Qed.
Lemma put_receipt_defined id r d u : put_receipt id r d <> UB u.
Proof. unfold put_receipt. revert u. repeat (apply obind_defined; [intros; apply guard_defined|intros _]). done. Qed.
Create HintDb defined.
#[local] Hint Resolve defined_bind defined_for_each defined_lift defined_exec_ defined_exec guard_defined
  rulesFor_defined put_receipt_defined : defined.

Lemma insert_defined U rid kind i : defined (ItemService.insert U rid kind i).
Proof.
  unfold ItemService.insert. apply defined_bind.
  - destruct (ii_categoryId i); [|done]. unfold ItemService.requireCategoryFitsKind. apply defined_bind; [done|].
    intros [row|]; [|done]. apply defined_bind.
    + apply defined_lift. unfold categoryFitsKind. apply obind_defined; [apply rulesFor_defined|done].
    + intros []; [done|]. apply defined_bind; [apply defined_lift, rulesFor_defined|done].
  - intros _. apply defined_bind.
    + apply defined_exec. intros d. unfold sql_insert_item. apply obind_defined; [apply guard_defined|done].
    + intros itemId. apply defined_bind; [|done]. apply defined_bind; [by apply defined_exec_|].
      intros _. apply defined_for_each. intros t. apply defined_bind; [done|]. intros [row|]; [|done].
      apply defined_exec_. intros d. unfold sql_insert_item_tag.
      apply obind_defined; [apply guard_defined|intros _]. apply obind_defined; [apply guard_defined|done].
Qed.
Lemma insertScanned_defined c kind items tx : defined (insertScannedItems c kind items tx).
Proof.
  apply defined_for_each. intros s. apply defined_bind; [|intros i; apply defined_bind; [apply insert_defined|done]].
  apply defined_lift. unfold toItemInput. apply obind_defined; [|done].
  destruct (si_category s); [|done]. apply obind_defined; [apply rulesFor_defined|done].
Qed.
Lemma sql_update_defined id f d u : sql_update_receipt id f d <> UB u.
Proof. unfold sql_update_receipt. destruct (rows (receipts d) !! id); [apply put_receipt_defined|done]. Qed.
Lemma sql_date_defined s u : sql_date s <> UB u.
Proof. unfold sql_date. destruct s as [s|]; [|done]. by destruct (pg_date_in s). Qed.

Section Dump.
Hypothesis dump_defined : forall v u, json_dump v <> UB u.
Lemma raw_defined result u : raw_column result <> UB u.
Proof. revert u. apply obind_defined; [apply dump_defined|]. intros t u. by destruct (pg_jsonb t). Qed.
Lemma writeVerify_defined c result tx s m : defined (writeVerify c result tx s m).
Proof.
  unfold writeVerify. apply defined_bind; [done|]. intros t. apply defined_bind; [apply defined_lift, raw_defined|].
  intros raw. apply defined_bind; [apply defined_lift, sql_date_defined|]. intros date.
  apply defined_bind; [apply defined_exec_, sql_update_defined|]. intros _.
  destruct (_ =? 0); [apply insertScanned_defined|done].
Qed.
Lemma writeExtraction_defined c result tx s : unusable_kind (sr_kind result) = false ->
  defined (writeExtraction c result tx s).
Proof.
  intros Hk w u. unfold writeExtraction, unusable_kind in *.
  destruct (findKind (sr_kind result)) as [rules|] eqn:Ek; [|done]. apply negb_false_iff in Hk.
  assert (Er : rulesFor (sr_kind result) = Ok rules) by by apply rulesFor_Ok.
  destruct (scannable_has_direction _ _ Ek Hk) as [dir Ed]. rewrite Er. change (mbind ?k (lift (Ok ?a))) with (k a). cbv beta. rewrite Ed.
  revert w u. apply defined_bind; [done|]. intros t. apply defined_bind; [apply defined_lift, raw_defined|].
  intros raw. apply defined_bind; [apply defined_lift, sql_date_defined|]. intros date.
  apply defined_bind; [apply defined_exec_, sql_update_defined|]. intros _.
  apply defined_bind; [by apply defined_exec_|]. intros _. apply insertScanned_defined.
Qed.
Lemma write_defined c result v tx b m w u : mode_ok c result v (w_db w) -> (write_attempt c result tx b m w).1 <> UB u.
Proof.
  intros Hm. unfold write_attempt, transactionE, mbind, query.
  destruct (readSnapshot c (w_db w)) as [l|] eqn:El; [|done]. destruct (unchanged b l); [|done].
  assert (Hw : forall u, ((if sn_reviewed l then writeVerify c result tx l m else writeExtraction c result tx l) w).1 <> UB u).
  { intros u'. destruct (sn_reviewed l) eqn:Ev; [apply writeVerify_defined|]. apply writeExtraction_defined.
    unfold mode_ok in Hm. destruct v; [|done]. exfalso. apply readSnapshot_Some in El as (r & E & _ & ->).
    apply bool_decide_eq_false in Ev. by apply Ev, Hm. }
  specialize (Hw u). revert Hw.
  destruct ((if sn_reviewed l then writeVerify c result tx l m else writeExtraction c result tx l) w) as [[] w1];
    cbn; congruence.
Qed.
End Dump.
End Pipeline.
