(* ===== verification/Examples.v ===== *)
(** * Concrete parameters and a small run

    One concrete choice for each class that stands for code outside the source, and
    the worlds the witnesses of the theorems evaluate on.  Nothing in the theorems
    depends on this file. *)
From Stdlib Require Import Ascii.
From S2P Require Import Prelude CString Binary64 Json Kinds JsonInput LedgerInput TokenUtils RateLimiter Env Db World.
From S2P Require Import ItemService ReceiptService ReferenceData AuthService Http ScanWorker.
From S2P Require Import Invariant Safety Pipeline.

(** Close an equation between closed terms by one evaluation in the kernel. *)
Ltac by_vm := lazymatch goal with
  | |- _ = ?b => vm_cast_no_check (eq_refl b)
  | |- _ < _ => vm_cast_no_check (eq_refl Lt)
  end.

(** ** Postgres *)

Fixpoint pos_text (p : positive) : string :=
  match p with
  | xH => "1"
  | xO p => String "0" (pos_text p)
  | xI p => String "1" (pos_text p)
  end.
(** The text of an instant, and back: a sign, then binary digits from the lowest. *)
Definition ts_text (t : Z) : string :=
  match t with
  | Z0 => "0"
  | Zpos p => String "+" (pos_text p)
  | Zneg p => String "-" (pos_text p)
  end.
Fixpoint text_pos (s : string) : option positive :=
  match s with
  | String "1" "" => Some xH
  | String "0" s => xO <$> text_pos s
  | String "1" s => xI <$> text_pos s
  | _ => None
  end.
Definition text_ts (s : string) : option Z :=
  match s with
  | "0"%string => Some 0
  | String "+" s => Zpos <$> text_pos s
  | String "-" s => Zneg <$> text_pos s
  | _ => None
  end.
Lemma text_pos_text p : text_pos (pos_text p) = Some p.
Proof. induction p as [p IH|p IH|]; [|cbn; by rewrite IH|done]. destruct p; cbn in *; by rewrite ?IH. Qed.
Lemma text_ts_text t : text_ts (ts_text t) = Some t.
Proof. destruct t; [done|..]; cbn; by rewrite text_pos_text. Qed.

#[export] Instance ex_postgres : Postgres := {|
  pg_lower := map_chars tolower;
  pg_date_in := Some;
  pg_sydney_date := fun _ => "2026-01-01"%string;
  pg_numeric := fun d => d;
  pg_jsonb := fun _ => Some (JObject []);
  pg_similarity := fun a b => if decide (a = b) then of_int 1 else dzero;
  pg_ts_out := ts_text;
  pg_ts_in := text_ts;
  pg_iso_utc := to_string;
  pg_clock_timestamp := fun t _ => t
|}.
#[export] Instance ex_timestamps : TimestampText.
Proof. exact text_ts_text. Defined.

(** ** Object store, libsodium, libvips, environment, JSON text *)

#[export] Instance ex_store : ImageStore := {|
  store := gmap string string;
  put := fun key _ bytes s => (Ok (), <[key := bytes]> s);
  get := fun key s => (match s !! key with Some b => Ok b | None => Throw (RuntimeError "no such object") end, s);
  remove := fun key s => (Ok (), delete key s)
|}.

(** The first 32 bytes, padded with zeros. *)
Definition pad32 (s : string) : list ascii := take 32 (chars s ++ repeat "000"%char 32).
Lemma pad32_length s : length (pad32 s) = 32%nat.
Proof. unfold pad32. rewrite length_take, length_app, repeat_length. lia. Qed.
#[export, program] Instance ex_sodium : Sodium := {|
  randombytes_buf := fun i n => repeat (ascii_of_nat i) n;
  crypto_hash_sha256 := pad32;
  crypto_auth_hmacsha256 := fun k s => pad32 (k +:+ s);
  crypto_pwhash_str := fun _ p => Some p;
  crypto_pwhash_str_verify := String.eqb
|}.
Next Obligation. intros. apply repeat_length. Defined.
Next Obligation. apply pad32_length. Defined.
Next Obligation. intros. apply pad32_length. Defined.

#[export] Instance ex_vips : Vips := {|
  vimage := string;
  thumbnail_buffer := fun bytes _ _ _ => if decide (bytes = ""%string) then inl "empty"%string else inr bytes;
  webpsave_buffer := fun image _ _ => inr image;
  vwidth := fun _ => 1;
  vheight := fun _ => 1
|}.
#[export] Instance ex_environment : Environment := fun _ => None.
#[export] Instance ex_platform : Platform := x86_platform.
#[export] Instance ex_json_text : JsonText := {|
  json_dump := fun _ => Ok "{}"%string;
  json_parse := fun _ => Ok (JObject [])
|}.

(** ** The scan *)

Definition ex_scanned_item : ScannedItem := mkScannedItem (Some "milk"%string) None None 450 (Some "Food"%string) false [].
Definition ex_result : ScanResult :=
  mkScanResult "purchase" "aud" 450 (Some "Corner shop"%string) None (Some "2026-02-03"%string) [ex_scanned_item] JNull.
#[export] Instance ex_provider : ScanProvider := fun _ _ _ => Ok ex_result.
#[export] Instance ex_matcher : MerchantMatcher := PgTrgmMerchantMatcher.
#[export] Instance ex_notifier : Notifier := NoopNotifier.

(** ** A world: one user with a category, and nothing else *)

Definition no_rows {A} : table A := mkTable ∅ 1.
Definition ex_user : user_row := mkUser "ann@example.com" "secret" None.
Definition ex_category : category_row := mkCategory 1 "food" false.
Definition ex_db : Db :=
  mkDb (insert_row ex_user no_rows) no_rows no_rows (insert_row ex_category no_rows) no_rows no_rows no_rows no_rows
    no_rows ∅.
Definition no_limits : Limits := mkLimits ∅ ∅ ∅ ∅.
Definition ex_world : World := mkWorld ex_db (∅ : gmap string string) 0 1000 [] no_limits.
Definition ex_manual : json :=
  JObject [("category_id", JUnsigned 1); ("kind", JString "purchase"); ("total_cents", JUnsigned 1250)]%string.

Lemma all_none {A} (P : Z -> A -> Prop) : all P no_rows.
Proof. apply map_Forall_empty. Qed.
Lemma all_one {A} (P : Z -> A -> Prop) a : P 1 a -> all P (insert_row a no_rows).
Proof. intros H. by apply map_Forall_insert_2; [|apply map_Forall_empty]. Qed.
Lemma ex_db_ok : db_ok ex_db.
Proof.
  split; cbn; try apply all_none; [|set_solver].
  unfold below. repeat split; try apply all_none. by apply all_one.
Qed.

(** A manual entry, an upload, the claim of the uploaded receipt, and its scan. *)
Definition ex_manual_world : World := Eval vm_compute in (serve 1 (CreateManual ex_manual) ex_world).2.
Definition ex_uploaded : World := Eval vm_compute in (serve 1 (Upload ["pixels"%string] false) ex_manual_world).2.
Definition ex_claim : Claim := mkClaim 2 1 (ts_text 1000).
Definition ex_claimed : World := Eval vm_compute in (claim default_config ex_uploaded).2.
(** ... after the provider's answer. *)
Definition ex_answered : World := Eval vm_compute in ex_claimed <| w_rand ::= S |>.
Definition ex_scanned : World := Eval vm_compute in (process default_config ex_claim ex_claimed).2.

Lemma ex_manual_eq : ex_manual_world = (serve 1 (CreateManual ex_manual) ex_world).2.
Proof. by_vm. Qed.
Lemma ex_uploaded_eq : ex_uploaded = (serve 1 (Upload ["pixels"%string] false) ex_manual_world).2.
Proof. by_vm. Qed.
Lemma ex_claimed_eq : claim default_config ex_uploaded = (Ok [ex_claim], ex_claimed).
Proof. by_vm. Qed.
Lemma ex_manual_ok : db_ok (w_db ex_manual_world).
Proof. rewrite ex_manual_eq. exact (ev_ok _ _ _ (serve_safe 1 (CreateManual ex_manual) ex_world ex_db_ok)). Qed.
Lemma ex_uploaded_ok : db_ok (w_db ex_uploaded).
Proof. rewrite ex_uploaded_eq. exact (ev_ok _ _ _ (serve_safe 1 (Upload ["pixels"%string] false) ex_manual_world ex_manual_ok)). Qed.
Lemma ex_claimed_ok : db_ok (w_db ex_claimed).
Proof. apply (claim_onward default_config ex_uploaded [ex_claim] ex_claimed); [exact ex_uploaded_ok|exact ex_claimed_eq]. Qed.
