(* ===== verification/RowTheorems.v ===== *)
(** * Rows read back

    The readers of file Rows, applied to what the queries' SELECT lists send for a stored
    row, give the records of the services' definitions. *)
From Stdlib Require Import SpecFloat.
From S2P Require Import Prelude CString Binary64 Json Kinds JsonInput LedgerInput TokenUtils Env Db World.
From S2P Require Import ItemService ReceiptService ReferenceData Rows Examples.
#[local] Open Scope string_scope.

(** ** Reading a selected row *)

(** Every integer of the row fits a BIGINT column. *)
Definition ints_fit (row : Stored) : bool :=
  forallb (fun kv => match kv.2 with Some (VInt z) => int64_ok z | _ => true end) row.
Fixpoint pick (l : list Expr) (field : string) : option Expr :=
  match l with
  | [] => None
  | e :: l' => if decide (expr_name e = field) then Some e else pick l' field
  end.

Section Read.
Context `{PG : Postgres} `{RT : RowText} `{RL : !RowTextLaws}.

Lemma column_select l row field e : pick l field = Some e -> column (select_row l row) field = Ok (evaluate row e).
Proof. induction l as [|e' l IH]; [done|]. cbn. case_decide; [by intros [= ->]|exact IH]. Qed.
Lemma pick_name l field e : pick l field = Some e -> expr_name e = field.
Proof. induction l as [|e' l IH]; [done|]. cbn. case_decide; [by intros [= <-]|exact IH]. Qed.
Lemma stored_fits row field z : ints_fit row = true -> stored row field = Some (VInt z) -> int64_ok z = true.
Proof.
  induction row as [|[name v] row IH]; [done|]. intros [Hv Hrow]%andb_true_iff. cbn. case_decide; [|by apply IH].
  intros ->. exact Hv.
Qed.
(** A column that is not an instant is sent as its value's text. *)
Lemma evaluate_plain l field e row : pick l field = Some e -> (forall t, stored row field <> Some (VTime t)) ->
  evaluate row e = value_text <$> stored row field.
Proof.
  intros He%pick_name Ht. destruct e; cbn in He; subst; unfold evaluate; cbn [expr_name];
    destruct (stored row _) as [[]|]; try done; by destruct (Ht t).
Qed.
Lemma evaluate_iso l field row t : pick l field = Some (IsoUtc field) -> stored row field = VTime <$> t ->
  evaluate row (IsoUtc field) = pg_iso_utc <$> t.
Proof. intros _ H. unfold evaluate. cbn [expr_name]. rewrite H. by destruct t. Qed.

Section Reader.
Context (l : list Expr) (row : Stored) (field : string) (e : Expr) (He : pick l field = Some e).
Lemma int_read z : ints_fit row = true -> stored row field = Some (VInt z) -> int (select_row l row) field = Ok z.
Proof.
  intros Hf H. unfold int. rewrite (column_select _ _ _ _ He), (evaluate_plain l field) by congruence. rewrite H. cbn.
  by rewrite as_int64_text by by eapply stored_fits.
Qed.
Lemma text_read s : stored row field = Some (VText s) -> text (select_row l row) field = Ok s.
Proof.
  intros H. unfold text. rewrite (column_select _ _ _ _ He), (evaluate_plain l field) by congruence. rewrite H. cbn.
  by rewrite as_string_text.
Qed.
Lemma flag_read b : stored row field = Some (VBool b) -> flag (select_row l row) field = Ok b.
Proof.
  intros H. unfold flag. rewrite (column_select _ _ _ _ He), (evaluate_plain l field) by congruence. rewrite H. cbn.
  by rewrite as_bool_text.
Qed.
Lemma optInt_read z : ints_fit row = true -> stored row field = VInt <$> z -> optInt (select_row l row) field = Ok z.
Proof.
  intros Hf H. unfold optInt. rewrite (column_select _ _ _ _ He), (evaluate_plain l field) by (done || (rewrite H; by destruct z)).
  pose proof (stored_fits row field) as Hz. rewrite H in *. destruct z as [z|]; [|done]. cbn. by rewrite as_int64_text by by apply Hz.
Qed.
Lemma optString_read s : stored row field = VText <$> s -> optString (select_row l row) field = Ok s.
Proof.
  intros H. unfold optString. rewrite (column_select _ _ _ _ He), (evaluate_plain l field) by (done || (rewrite H; by destruct s)).
  rewrite H. destruct s as [s|]; [|done]. cbn. by rewrite as_string_text.
Qed.
Lemma optDouble_read d : stored row field = VFloat <$> d -> optDouble (select_row l row) field = Ok d.
Proof.
  intros H. unfold optDouble. rewrite (column_select _ _ _ _ He), (evaluate_plain l field) by (done || (rewrite H; by destruct d)).
  rewrite H. destruct d as [d|]; [|done]. cbn. by rewrite as_double_text.
Qed.
End Reader.
(** Instants are read as the text of their [to_char]. *)
Lemma optTime_read l row field t : pick l field = Some (IsoUtc field) -> stored row field = VTime <$> t ->
  optString (select_row l row) field = Ok (pg_iso_utc <$> t).
Proof.
  intros He H. unfold optString. rewrite (column_select _ _ _ _ He), (evaluate_iso l field row t) by done.
  destruct t; [|done]. cbn. by rewrite as_string_text.
Qed.
Lemma time_read l row field t : pick l field = Some (IsoUtc field) -> stored row field = Some (VTime t) ->
  text (select_row l row) field = Ok (pg_iso_utc t).
Proof.
  intros He H. unfold text. rewrite (column_select _ _ _ _ He), (evaluate_iso l field row (Some t)) by done. cbn.
  by rewrite as_string_text.
Qed.

(** Read the next column of the goal: find its entry in the list and its value in the
    row as they are written. *)
Ltac entry l f :=
  let l := eval red in l in
  match l with
  | context [Col f] => constr:(Col f)
  | context [Float8 f] => constr:(Float8 f)
  | context [AsText f] => constr:(AsText f)
  | context [IsoUtc f] => constr:(IsoUtc f)
  end.
Ltac value row f :=
  let row := eval cbv beta zeta delta [item_stored receipt_stored category_stored tag_stored payment_method_stored] in row in
  match row with context [(f, ?v)] => v end.
Ltac look := match goal with |- _ = ?b => vm_cast_no_check (eq_refl b) end.
Ltac read l row f :=
  let e := entry l f in
  let v := value row f in
  match v with
  | Some (VInt ?z) => rewrite (int_read l row f e ltac:(look) z ltac:(eassumption) ltac:(look))
  | Some (VText ?x) => rewrite (text_read l row f e ltac:(look) x ltac:(look))
  | Some (VBool ?b) => rewrite (flag_read l row f e ltac:(look) b ltac:(look))
  | Some (VTime ?t) => rewrite (time_read l row f t ltac:(look) ltac:(look))
  | VInt <$> ?z => rewrite (optInt_read l row f e ltac:(look) z ltac:(eassumption) ltac:(look))
  | VText <$> ?x => rewrite (optString_read l row f e ltac:(look) x ltac:(look))
  | VFloat <$> ?d => rewrite (optDouble_read l row f e ltac:(look) d ltac:(look))
  | VTime <$> ?t => rewrite (optTime_read l row f t ltac:(look) ltac:(look))
  end.
Ltac read_all :=
  repeat match goal with
  | |- obind _ (_ (select_row ?l ?row) ?f) = _ => read l row f; cbn [obind]
  end.

(** C32: Nothing is lost or mixed up on the way from the tables: reading a row selected
    with the lists of the program's queries gives exactly the item, summary, editable
    fields, category, tag and payment method the services work with, whatever is NULL. *)
Theorem rows_read_back (id : Z) (i : item_row) (r : receipt_row) (c : category_row) (t : tag_row) (p : payment_method_row) :
  ints_fit (item_stored id i) = true -> ints_fit (receipt_stored id r) = true -> ints_fit (category_stored id c) = true ->
  ints_fit (tag_stored id t) = true -> ints_fit (payment_method_stored id p) = true ->
  rowToItem (select_row item_list (item_stored id i)) = Ok (mkItem id i []) /\
  rowToSummary (select_row receipt_list (receipt_stored id r)) = Ok (summary_of id r) /\
  rowToEditable (select_row editable_list (receipt_stored id r)) = Ok (editable_of r) /\
  rowToCategory (select_row category_list (category_stored id c)) = Ok (category_of id c) /\
  rowToTag (select_row tag_list (tag_stored id t)) = Ok (tag_of id t) /\
  rowToPaymentMethod (select_row payment_method_list (payment_method_stored id p)) = Ok (payment_method_of id p).
Proof.
  intros Hi Hr Hc Ht Hp. split; [|split; [|split; [|split; [|split]]]].
  - unfold rowToItem. read_all. by destruct i.
  - unfold rowToSummary. read_all. reflexivity.
  - unfold rowToEditable. read_all. by destruct r as [? [] ? ? ? ? ? ? ? ? ? ? ?].
  - unfold rowToCategory. read_all. reflexivity.
  - unfold rowToTag. read_all. reflexivity.
  - unfold rowToPaymentMethod. read_all. reflexivity.
Qed.
End Read.

(** ** At a concrete row *)

(** Doubles written as numbers. *)
Definition float_parts (d : double) : bool + bool + (unit + bool * positive * Z) :=
  match d with
  | S754_zero s => inl (inl s)
  | S754_infinity s => inl (inr s)
  | S754_nan => inr (inl ())
  | S754_finite s m e => inr (inr (s, m, e))
  end.
Definition parts_float (p : bool + bool + (unit + bool * positive * Z)) : double :=
  match p with
  | inl (inl s) => S754_zero s
  | inl (inr s) => S754_infinity s
  | inr (inl _) => S754_nan
  | inr (inr (s, m, e)) => S754_finite s m e
  end.
Definition ex_number (v : option string) : Z :=
  match v with Some s => default 0 (text_ts s) | None => 0 end.
#[export] Instance ex_row_text : RowText := {|
  int_text := ts_text;
  float_text := fun d => ts_text (encode_Z (float_parts d));
  bool_text := fun b => if b then "t" else "f";
  as_int64 := ex_number;
  as_double := fun v => default dzero (parts_float <$> decode_Z (ex_number v));
  as_bool := fun v => bool_decide (v = Some "t");
  as_string := default ""
|}.
Lemma ex_number_text z : ex_number (Some (ts_text z)) = z.
Proof. unfold ex_number. by rewrite text_ts_text. Qed.
#[export] Instance ex_row_text_laws : RowTextLaws.
Proof.
  split; [intros z _; apply ex_number_text| |intros []; reflexivity|done].
  intros d. cbn [as_double float_text ex_row_text]. rewrite ex_number_text, decode_encode_Z. by destruct d.
Qed.
Definition ex_stored_receipt : receipt_row :=
  mkReceipt 1 (mkEditable "purchase" "outflow" 1250 "NZD" (Some "Corner Shop") None (Some "2026-02-03") (Some 4) true None (Some 7)
    (Some (of_int 2))) (Some 2500) "idle" 1 0 None None (Some 1000) "scanned" None 10 20.
Definition ex_stored_item : item_row := mkItemRow 7 None (Some (of_int 3)) None 1250 (Some 1) false.
Lemma rows_read_back_witness :
  rowToSummary (select_row receipt_list (receipt_stored 9 ex_stored_receipt)) = Ok (summary_of 9 ex_stored_receipt) /\
  rowToItem (select_row item_list (item_stored 9 ex_stored_item)) = Ok (mkItem 9 ex_stored_item []).
Proof.
  destruct (rows_read_back 9 ex_stored_item ex_stored_receipt (mkCategory 1 "food" false) (mkTag 1 "home") (mkPaymentMethod 1 "card" true)
    eq_refl eq_refl eq_refl eq_refl eq_refl) as (Hi & Hr & _).
  split; assumption.
Defined.
