(* ===== verification/SystemTheorems.v ===== *)
(** * The running system: invariant, isolation, definedness, refinement

    Theorems about every run of Pipeline.v's step relation, with their witnesses on
    the run of Examples.v. *)
From S2P Require Import Prelude CString Binary64 Json Kinds JsonInput LedgerInput TokenUtils Env Db World.
From S2P Require Import ItemService ReceiptService ReferenceData ScanWorker Invariant Statements Safety ScanSafety.
From S2P Require Import ScanQueue Constraints Pipeline Examples.

Section System.
Context `{PG : Postgres} `{IS : ImageStore} `{SO : Sodium} `{EN : Environment} `{VI : Vips} `{PL : Platform}.
Context `{JT : JsonText} `{SP : ScanProvider} `{MM : MerchantMatcher} `{NO : Notifier}.
Context (config_ : ScanWorkerConfig).

(** A step of a job changes the tables as its own user would. *)
Lemma jstep_evolves c w st w' o : db_ok (w_db w) -> claim_owned c (w_db w) -> jstep config_ c w st w' o ->
  evolves (cl_userId c) (w_db w) (w_db w').
Proof.
  intros Hok HU H. pose proof (evolves_refl (cl_userId c) _ Hok) as Hr.
  assert (Hs : forall A (m : M A) x, reads m -> m w = (x, w') -> evolves (cl_userId c) (w_db w) (w_db w')).
  { intros A m x Hd E. specialize (Hd w). rewrite E in Hd. cbn in Hd. by rewrite Hd. }
  assert (Hw : forall result tx b m x, write_attempt c result tx b m w = (x, w') ->
    evolves (cl_userId c) (w_db w) (w_db w')).
  { intros result tx b m x E. pose proof (write_attempt_safe c result tx b m w Hok HU) as Hw. unfold wp in Hw. by rewrite E in Hw. }
  destruct H as [| | | | | | | | | | | | | | | | | | |? ? ? ? ? ? Hf]; eauto using reads_get, reads_ask.
  unfold recordFailure, mbind, exec in Hf. destruct (sql_fail _ _ _ _) as [[x d']| |] eqn:E; [|by injection Hf as <- <-..].
  destruct (sql_fail_safe _ _ _ _ _ _ Hok HU E) as [He _]. revert Hf. case_bool_decide; [|by intros [= <- <-]].
  intros Hf. match type of Hf with ?m ?w1 = _ => pose proof (reads_notify (cl_userId c) (cl_receiptId c) error w1) as Hn end.
  rewrite Hf in Hn. cbn in Hn. by rewrite Hn.
Qed.
Lemma job_of s c st : reachable config_ s -> (c, st) ∈ jobs s -> db_ok (w_db (sw s)) /\ job_ok (w_db (sw s)) (c, st).
Proof.
  intros [Hok J]%reachable_ok Hj. split; [done|]. rewrite Forall_forall in J. by apply J.
Qed.

(** The constraints and the invariant of a run, one step at a time. *)
Lemma kept_step {A} (m : M A) w : lawful constraints_ok m -> constraints_ok (w_db w) -> constraints_ok (w_db (m w).2).
Proof. intros Hm H. by apply Hm. Qed.
Lemma jstep_constraints c w st w' o : constraints_ok (w_db w) -> jstep config_ c w st w' o -> constraints_ok (w_db w').
Proof.
  intros H Hj. assert (Hs : forall A (m : M A) x, reads m -> m w = (x, w') -> constraints_ok (w_db w')).
  { intros A m x Hd E. specialize (Hd w). rewrite E in Hd. cbn in Hd. by rewrite Hd. }
  destruct Hj as [| | | | | | | | | | | | | | | |? ? ? ? ? ? ? ? E|? ? ? ? ? ? ? ? E|? ? ? ? ? ? ? ? ? E|? ? ? ? ? ? E]; eauto using reads_get, reads_ask.
  all: first [pose proof (kept_step _ w (write_attempt_kept c result tx b m) H) as Hw
             |pose proof (kept_step _ w (failure_kept config_ c scanError terminal error) H) as Hw]; by rewrite E in Hw.
Qed.
Lemma full_step_constraints s s' : constraints_ok (w_db (sw s)) -> full_step config_ s s' -> constraints_ok (w_db (sw s')).
Proof.
  intros H Hs. destruct Hs as [s s' [w js U q|s1 s2 Hb]|w js q]; cbn [sw] in *.
  - exact (kept_step _ w (serve_kept U q) H).
  - destruct Hb as [| |w js claims w' E|w js1 c st js2 w' o Hj|]; cbn [sw] in *; [done| | | |done].
    + exact (kept_step _ w (reclaim_kept config_) H).
    + pose proof (kept_step _ w (claim_kept config_) H) as Hw. by rewrite E in Hw.
    + by eapply jstep_constraints.
  - exact (kept_step _ w (account_kept q) H).
Qed.
Lemma account_onward q w : db_ok (w_db w) -> onward (w_db w) (w_db (serve_account q w).2).
Proof.
  intros H. destruct (account_ledger (receipts (w_db w)) q w) as [[Hok E] [G _]]; [done|].
  split; [done|split; [done|]]. apply keeps_same. by rewrite E.
Qed.
Lemma full_step_ok s s' : sys_ok s -> full_step config_ s s' -> sys_ok s'.
Proof.
  intros Hs H. destruct H as [s s' H|w js q]; [by eapply step_ok|]. eapply sys_onward; [exact Hs|]. exact (account_onward q w (so_db _ Hs)).
Qed.

(** C1: From tables that satisfy it, every run keeps the schema.  A run interleaves the
    ledger calls and the account calls of any users, the ticks of the workers, the
    steps of the scans in flight and crashes; a request, a claim, a re-queueing and a
    write of a scan's result are one step each, so it is their order that is
    arbitrary, not that of the statements inside them.  At every point: e-mail
    addresses, token hashes and the names of one user's categories, tags and payment
    methods are unique; every row that names a user names one that exists; one-time
    tokens have a known purpose and ids are below their sequences
    ([constraints_ok]); every CHECK of receipts holds, and the references between
    ledger rows stay within one user, items' categories are on their receipt's side,
    offsets point from a kind that can offset to another receipt ([db_ok]). *)
Theorem system_invariant (w : World) (s : sys) :
  db_ok (w_db w) -> constraints_ok (w_db w) -> rtc (full_step config_) (mkSys w []) s ->
  db_ok (w_db (sw s)) /\ constraints_ok (w_db (sw s)).
Proof.
  intros Hok Hc Hr. cut (sys_ok s /\ constraints_ok (w_db (sw s))); [by intros [[] ?]|].
  revert s Hr. apply (rtc_ind_r (fun s => sys_ok s /\ constraints_ok (w_db (sw s))) (mkSys w [])); [|intros s1 s2 _ Hs []].
  - split; [|done]. by split; [|constructor].
  - split; [by eapply full_step_ok|by eapply full_step_constraints].
Qed.

(** C2: No call of one user changes a row of another: categories, tags,
    payment methods, receipts, images, items, item tags and accounts of all others
    are the same before and after, whether the call returns or throws. *)
Theorem tenant_isolation (U : Z) (q : request) (w : World) :
  db_ok (w_db w) -> others U (w_db (serve U q w).2) = others U (w_db w).
Proof. intros H. apply (serve_safe U q w H). Qed.

(** C10: A scan in flight, at any point of a run, changes only rows of the user whose
    receipt it claimed. *)
Theorem scan_isolation (s : sys) (c : Claim) (st : stage) (w' : World) (o : option stage) :
  reachable config_ s -> (c, st) ∈ jobs s -> jstep config_ c (sw s) st w' o ->
  others (cl_userId c) (w_db w') = others (cl_userId c) (w_db (sw s)).
Proof. intros Hr Hj H. destruct (job_of s c st Hr Hj) as [Hok (_ & HU & _)]. by eapply jstep_evolves. Qed.

(** No write of a scan result runs into undefined behaviour, however the receipt
    changed since the result was validated: the direction is never taken from a kind
    without one. *)
Theorem writes_defined (s : sys) (c : Claim) (result : ScanResult) (v : bool) (tx : Taxonomy) (b : Snapshot) (m : bool)
    (n : nat) (why : string) :
  (forall j u, json_dump j <> UB u) -> reachable config_ s -> (c, Compared result v tx b m n) ∈ jobs s ->
  (write_attempt c result tx b m (sw s)).1 <> UB why.
Proof. intros Hd Hr Hj. destruct (job_of s c _ Hr Hj) as [_ (_ & _ & Hm)]. apply (write_defined Hd c result v tx b m (sw s) why Hm). Qed.

(** C18: [process] never throws, and run without interruption it is one of the runs of
    the step relation: from its claim to the job's end, in the same final world. *)
Theorem process_refines (c : Claim) (w w' : World) (r : outcome ()) :
  process config_ c w = (r, w') -> (forall why, r <> UB why) ->
  r = Ok () /\ forall js1 js2, steps config_ (mkSys w (js1 ++ (c, Claimed) :: js2)) (mkSys w' (js1 ++ js2)).
Proof.
  intros H Hub. assert (r = Ok ()) as ->.
  { assert (Hrec : forall m : outcome () * World, match m with (Throw _, w'') => (Ok (), w'') | (Ok a, w'') => (Ok a, w'') | (UB u, w'') => (UB u, w'') end = (r, w') -> r = Ok ()).
    { intros [[[]|e|u] w1] E; injection E as <- <-; [done..|by destruct (Hub u)]. }
    unfold process in H. destruct (scan_body config_ c w) as [[[]|e|u] w1]; [exact (Hrec (recordFailure config_ c _ _ _ w1) H)|by injection H as <- <-|exact (Hrec (recordFailure config_ c _ _ _ w1) H)|].
    injection H as <- <-. by destruct (Hub u). }
  split; [done|]. exact (process_run _ _ _ _ H).
Qed.

(** The worker's bookkeeping leaves the ledger alone: re-queueing the stuck and
    claiming the queued rewrite at most scan_state, scan_attempts, reclaim_count and
    scan_started_at of receipts, and nothing else in any table. *)
Theorem bookkeeping_only_queues (w : World) :
  db_ok (w_db w) ->
  queue_only (w_db w) (w_db (reclaimStuck config_ w).2) /\ queue_only (w_db w) (w_db (claim config_ w).2).
Proof.
  intros Hok. split.
  - unfold reclaimStuck, mbind, exec, now. destruct (sql_reclaim _ _ _) as [[x d']| |] eqn:E; [|done..].
    destruct (sql_reclaim_safe config_ _ _ _ _ Hok E) as (_ & _ & _ & Hq). rewrite reads_for_each; [done|].
    intros [k r]. case_bool_decide; [apply reads_notify|done].
  - destruct (sql_claim_safe config_ (w_clock w) (w_db w) _ _ Hok eq_refl) as (_ & _ & _ & Hq). exact Hq.
Qed.
End System.

(** ** Witnesses *)

Definition ex_snapshot : Snapshot := Eval vm_compute in
  mkSnapshot false "purchase" 0 "AUD" None None false None (ts_text 1000) 0.
Definition ex_taxonomy : Taxonomy := mkTaxonomy [mkCategoryRef 1 "food" false] [].
Definition ex_valid : ScanResult := Eval vm_compute in ex_result <| sr_currency := "AUD"%string |>.
Definition ex_sys (w : World) (st : stage) : sys := mkSys w [(ex_claim, st)].

Lemma ex_sys_claimed : reachable default_config (ex_sys ex_claimed Claimed).
Proof.
  exists ex_world. split; [exact ex_db_ok|]. eapply steps_step.
  - eapply steps_step; [eapply steps_step; [apply steps_refl|apply (st_request _ _ _ 1 (CreateManual ex_manual))]|].
    rewrite <- ex_manual_eq. apply (st_request _ _ _ 1 (Upload ["pixels"%string] false)).
  - rewrite <- ex_uploaded_eq. apply st_background. exact (st_claim _ ex_uploaded [] [ex_claim] _ ex_claimed_eq).
Qed.
(** The scan up to the provider's answer, statement by statement. *)
Lemma ex_job w st w' st' : jstep default_config ex_claim w st w' (Some st') ->
  background default_config (ex_sys w st) (ex_sys w' st').
Proof. exact (st_job default_config w [] ex_claim st [] w' (Some st')). Qed.
Definition ex_key : string := Eval vm_compute in hd ""%string (scan_keys 2 (w_db ex_claimed)).
Definition ex_bytes : string := Eval vm_compute in match store_get ex_key ex_claimed with (Ok b, _) => b | _ => ""%string end.
Lemma ex_scanning : rtc (background default_config) (ex_sys ex_claimed Claimed) (ex_sys ex_answered (Scanned ex_valid false)).
Proof.
  apply (rtc_l _ _ (ex_sys ex_claimed (Reading ex_snapshot))); [apply ex_job, js_begin; by_vm|].
  apply (rtc_l _ _ (ex_sys ex_claimed (Fetching ex_snapshot [ex_key] []))); [apply ex_job, js_keys; vm_compute; discriminate|].
  apply (rtc_l _ _ (ex_sys ex_claimed (Fetching ex_snapshot [] [ex_bytes]))).
  { apply ex_job, (js_fetch default_config ex_claim ex_claimed ex_snapshot ex_key [] []). by_vm. }
  apply (rtc_l _ _ (ex_sys ex_claimed (Naming ex_snapshot [ex_bytes] (tx_categories ex_taxonomy)))).
  { apply ex_job. exact (js_categories default_config ex_claim ex_claimed ex_snapshot [ex_bytes]). }
  apply (rtc_l _ _ (ex_sys ex_claimed (Asking ex_snapshot [ex_bytes] ex_taxonomy))).
  { apply ex_job. exact (js_tags default_config ex_claim ex_claimed ex_snapshot [ex_bytes] (tx_categories ex_taxonomy)). }
  apply rtc_once, ex_job, (js_answer default_config ex_claim ex_claimed ex_snapshot). by_vm.
Qed.
Lemma ex_reachable s s' : reachable default_config s -> rtc (background default_config) s s' -> reachable default_config s'.
Proof.
  intros (w0 & Hok & H) Hr. exists w0. split; [done|]. revert H. induction Hr as [|s1 s2 s3 Hb _ IH]; [done|].
  intros H. apply IH. eapply steps_step; [exact H|by apply st_background].
Qed.
Lemma ex_sys_compared : reachable default_config (ex_sys ex_answered (Compared ex_valid false ex_taxonomy ex_snapshot true 1)).
Proof.
  eapply ex_reachable; [exact (ex_reachable _ _ ex_sys_claimed ex_scanning)|].
  apply (rtc_l _ _ (ex_sys ex_answered (Filing ex_valid false (tx_categories ex_taxonomy)))).
  { apply ex_job. exact (js_file_categories default_config ex_claim ex_answered ex_valid false). }
  apply (rtc_l _ _ (ex_sys ex_answered (Applying ex_valid false ex_taxonomy 2))).
  { apply ex_job. exact (js_file_tags default_config ex_claim ex_answered ex_valid false (tx_categories ex_taxonomy)). }
  apply rtc_once, ex_job, js_compare; by_vm.
Qed.

Lemma ex_constraints_ok : constraints_ok (w_db ex_world).
Proof.
  assert (U : forall A (same : A -> A -> bool) a, unique same (insert_row a no_rows)).
  { intros A same a j k x y. cbn. by intros [[<- _]|[? ?]]%lookup_insert_Some [[<- _]|[? ?]]%lookup_insert_Some. }
  assert (N : forall A (same : A -> A -> bool), unique same no_rows) by (by intros A same j k).
  split; cbn; repeat split; try apply all_none; try apply U; try apply N; by apply all_one.
Qed.
(** A manual entry, an upload, a claim and a login. *)
Lemma system_invariant_witness :
  db_ok (w_db (serve_account (Login "ann@example.com" "secret") ex_claimed).2) /\
  constraints_ok (w_db (serve_account (Login "ann@example.com" "secret") ex_claimed).2).
Proof.
  apply (system_invariant default_config ex_world
           (mkSys (serve_account (Login "ann@example.com" "secret") ex_claimed).2 [(ex_claim, Claimed)])).
  - exact ex_db_ok.
  - exact ex_constraints_ok.
  - eapply rtc_l; [apply fs_step, (st_request _ _ _ 1 (CreateManual ex_manual))|]. rewrite <- ex_manual_eq.
    eapply rtc_l; [apply fs_step, (st_request _ _ _ 1 (Upload ["pixels"%string] false))|]. rewrite <- ex_uploaded_eq.
    eapply rtc_l; [apply fs_step, st_background; exact (st_claim _ ex_uploaded [] [ex_claim] _ ex_claimed_eq)|].
    apply rtc_once, (fs_account default_config ex_claimed [(ex_claim, Claimed)]).
Defined.
Lemma tenant_isolation_witness :
  others 1 (w_db (serve 1 (CreateManual ex_manual) ex_world).2) = others 1 (w_db ex_world).
Proof. apply (tenant_isolation 1 (CreateManual ex_manual) ex_world). exact ex_db_ok. Defined.
Lemma scan_isolation_witness :
  others 1 (w_db ex_scanned) = others 1 (w_db ex_answered).
Proof.
  apply (scan_isolation default_config (ex_sys ex_answered (Compared ex_valid false ex_taxonomy ex_snapshot true 1)) ex_claim
           (Compared ex_valid false ex_taxonomy ex_snapshot true 1) ex_scanned None).
  - exact ex_sys_compared.
  - left.
  - apply js_write. by_vm.
Defined.
Lemma writes_defined_witness :
  (write_attempt ex_claim ex_valid ex_taxonomy ex_snapshot true ex_answered).1 <> UB "dereference of an empty optional".
Proof.
  apply (writes_defined default_config (ex_sys ex_answered (Compared ex_valid false ex_taxonomy ex_snapshot true 1)) ex_claim
           ex_valid false ex_taxonomy ex_snapshot true 1).
  - discriminate.
  - exact ex_sys_compared.
  - left.
Defined.
Lemma process_refines_witness :
  Ok () = Ok () /\ forall js1 js2,
    steps default_config (mkSys ex_claimed (js1 ++ (ex_claim, Claimed) :: js2)) (mkSys ex_scanned (js1 ++ js2)).
Proof.
  apply (process_refines default_config ex_claim ex_claimed ex_scanned (Ok ())); [by_vm|discriminate].
Defined.
Lemma bookkeeping_only_queues_witness :
  queue_only ex_db (w_db (reclaimStuck default_config ex_world).2) /\ queue_only ex_db (w_db (claim default_config ex_world).2).
Proof. apply (bookkeeping_only_queues default_config ex_world). exact ex_db_ok. Defined.
