(* ===== verification/ScanTheorems.v ===== *)
(** * The scan pipeline: what a claim, a result and a failure do

    Theorems about ScanWorker.v: which receipts a tick takes, what the two write
    modes leave behind, that stale claims are inert and that failing scans end. *)
From stdpp Require Import sorting.
From S2P Require Import Prelude CString Binary64 Json Kinds JsonInput LedgerInput TokenUtils Env Db World.
From S2P Require Import ItemService ReceiptService ReferenceData ScanWorker Invariant Statements Safety ScanSafety.
From S2P Require Import ScanQueue ScanWrites Pipeline Examples.

Lemma claimed_not_stale `{PG : Postgres} c r d : rows (receipts d) !! cl_receiptId c = Some r -> claimed c r = true -> ~ stale c d.
Proof. intros E Hc H. specialize (H r E). congruence. Qed.

(** ** Taking receipts off the queue *)

Section Claims.
Context `{PG : Postgres}.
Context (config_ : ScanWorkerConfig).

(** C16: A tick takes receipts from the queue one worker each: no receipt twice, only
    queued ones, oldest first, as many as there are free slots and no more, so the
    number in [scanning] never passes the cap (or what it already was).  The row
    taken carries the claim's instant, the clock as read for that row, which is what
    the claim is checked against. *)
Theorem claim_takes_from_queue (t : Z) (d d' : Db) (claims : list Claim) :
  sql_claim config_ t d = Ok (claims, d') ->
  NoDup (map cl_receiptId claims) /\
  scanning_count d' <= Z.max (concurrency config_) (scanning_count d) /\
  Z.of_nat (length claims) =
    Z.min (Z.max 0 (concurrency config_ - scanning_count d))
          (Z.of_nat (length (select (in_state scan_state.kUploaded) (receipts d)))) /\
  (forall c, c ∈ claims -> exists r, rows (receipts d) !! cl_receiptId c = Some r /\
     rc_scan_state r = scan_state.kUploaded /\ rc_user_id r = cl_userId c /\ cl_claimedAt c = pg_ts_out (pg_clock_timestamp t (cl_receiptId c)) /\
     rows (receipts d') !! cl_receiptId c = Some (claimed_row (pg_clock_timestamp t (cl_receiptId c)) r)) /\
  (forall k r, rows (receipts d) !! k = Some r -> rc_scan_state r = scan_state.kUploaded -> k ∉ map cl_receiptId claims ->
     forall c r0, c ∈ claims -> rows (receipts d) !! cl_receiptId c = Some r0 -> queue_le (cl_receiptId c, r0) (k, r)).
Proof.
  intros H. pose proof (claim_cap config_ _ _ _ _ H) as Hcap. pose proof (fun k => claim_lookup config_ t d claims d' k H) as Hl.
  pose proof H as H'. injection H' as Hc _.
  assert (Hids : map cl_receiptId claims = (claimable config_ d).*1) by (rewrite <- Hc, map_map; done).
  assert (Hin : forall c, c ∈ claims -> exists r, (cl_receiptId c, r) ∈ claimable config_ d /\
    rc_user_id r = cl_userId c /\ cl_claimedAt c = pg_ts_out (pg_clock_timestamp t (cl_receiptId c))).
  { intros c. rewrite <- Hc, list_elem_of_fmap. intros ([k r] & -> & Hk). by exists r. }
  split; [rewrite Hids; apply claimable_NoDup|]. split; [exact Hcap|]. split; [|split].
  - rewrite <- Hc, length_map. unfold claimable. rewrite length_take, merge_sort_Permutation.
    change (Z.of_nat (length (select (in_state scan_state.kScanning) (receipts d)))) with (scanning_count d). lia.
  - intros c Hcc. destruct (Hin c Hcc) as (r & Hk & Hu & Ht). destruct (claimable_elem _ _ _ _ Hk) as [E Hs].
    exists r. rewrite Hl, E. cbn. rewrite bool_decide_true; [done|]. apply list_elem_of_fmap. by exists (cl_receiptId c, r).
  - intros k r E Hs Hn c r0 Hcc E0. destruct (Hin c Hcc) as (r1 & Hk & _). destruct (claimable_elem _ _ _ _ Hk) as [E1 _].
    assert (r1 = r0) as -> by congruence. eapply claimable_oldest; [exact Hk|exact E|exact Hs|].
    rewrite Hids in Hn. intros Hm. apply Hn, list_elem_of_fmap. by exists (k, r).
Qed.

(** A claim is the only one that holds its row: right after a tick has taken a
    receipt, its claim is live, and every earlier claim on that receipt (one with
    another instant) is stale.  A row back in the queue holds no claim at all. *)
Theorem claims_supersede `{TT : !TimestampText} (t : Z) (d d' : Db) (claims : list Claim) (c : Claim) :
  sql_claim config_ t d = Ok (claims, d') -> c ∈ claims ->
  ~ stale c d' /\ stale c d /\
  forall old, cl_receiptId old = cl_receiptId c -> pg_ts_in (cl_claimedAt old) <> Some (pg_clock_timestamp t (cl_receiptId c)) -> stale old d'.
Proof.
  intros H Hc. pose proof (claim_lookup config_ _ _ _ _ (cl_receiptId c) H) as Hl. injection H as <- _.
  apply list_elem_of_fmap in Hc as ([k r] & -> & Hk). cbn in *. destruct (claimable_elem _ _ _ _ Hk) as [E Hs].
  rewrite E in Hl. cbn in Hl. rewrite bool_decide_true in Hl by (apply list_elem_of_fmap; by exists (k, r)).
  split; [|split].
  - eapply claimed_not_stale; [exact Hl|]. apply claimed_fresh.
  - intros r' E'. cbn in E'. assert (r' = r) as -> by congruence. by apply claimed_queued.
  - intros old Ho Ht r' E'. rewrite Ho, Hl in E'. injection E' as <-. by apply claimed_once.
Qed.
End Claims.

(** ** Results and writes *)

Section Writes.
Context `{PG : Postgres} `{IS : ImageStore} `{SO : Sodium} `{JT : JsonText}.
Context `{SP : ScanProvider} `{MM : MerchantMatcher} `{NO : Notifier}.
Context (config_ : ScanWorkerConfig).

Lemma validated_currency result v result' : validateResult result v = Ok result' ->
  currency_code (sr_currency result') /\ 0 <= sr_totalCents result' /\
  sr_kind result' = sr_kind result /\ sr_items result' = sr_items result /\ Forall (fun i => bad_item i = false) (sr_items result').
Proof.
  intros H. unfold validateResult in H. destruct (_ && _); [done|]. destruct (Z.ltb_spec (sr_totalCents result) 0); [done|].
  destruct (existsb bad_item (sr_items result)) eqn:Eb; [done|].
  assert (Hi : Forall (fun i => bad_item i = false) (sr_items result)).
  { apply Forall_forall. intros i Hin. by apply (existsb_false bad_item _ i Eb). }
  unfold as_scan_error in H. match type of H with match ?m with _ => _ end = _ => destruct m as [x|[]|] eqn:Em end; try done.
  injection H as ->. ok_inv. apply currency_Ok in Ha. destruct (sr_purchaseDate _); ok_inv; done.
Qed.
Lemma extracted_checks result rules dir date raw taxDeductible offs t r :
  findKind (sr_kind result) = Some rules -> canonicalDirection rules = Some dir -> 0 <= sr_totalCents result ->
  (String.length (sr_currency result) <= 3)%nat -> receipt_checks r = true ->
  receipt_checks (extracted_row result dir date raw (taxDeductible && allowsTaxDeductible rules) offs t r) = true.
Proof.
  intros Hk Hd Ht Hc Hr. unfold receipt_checks in Hr.
  apply andb_true_iff in Hr as [Hr _]. apply andb_true_iff in Hr as [Hr _]. apply andb_true_iff in Hr as [_ Hs].
  set (r' := extracted_row _ _ _ _ _ _ _ _).
  assert (Ek : er_kind (rc_fields r') = sr_kind result) by reflexivity.
  assert (Ed : er_direction (rc_fields r') = dir) by reflexivity.
  assert (Et : er_totalCents (rc_fields r') = sr_totalCents result) by reflexivity.
  assert (Ec : er_currency (rc_fields r') = sr_currency result) by reflexivity.
  assert (Es : rc_scan_state r' = scan_state.kIdle) by reflexivity.
  assert (Eo : rc_source r' = rc_source r) by reflexivity.
  assert (Ex : er_taxDeductible (rc_fields r') = taxDeductible && allowsTaxDeductible rules) by reflexivity.
  clearbody r'. unfold receipt_checks. rewrite Ek, Ed, Et, Ec, Es, Eo, Ex, Hs.
  apply Z.leb_le in Ht. apply Nat.leb_le in Hc. rewrite Ht, Hc.
  apply findKind_cases in Hk as [[-> ->]|[[-> ->]|[[-> ->]|[[-> ->]|[-> ->]]]]]; cbn in Hd;
    try discriminate Hd; injection Hd as <-; by destruct taxDeductible.
Qed.

(** A validated result fits the table: whatever the provider returned, a row
    written from a result that passed [validateResult] violates no CHECK, in
    extraction and in verify mode, and none of its items is negative. *)
Theorem validated_results_fit (result result' : ScanResult) (verifying : bool) (r : receipt_row) (t : Z)
    (date : option string) (raw : json) :
  validateResult result verifying = Ok result' -> receipt_checks r = true ->
  (forall allMatch, receipt_checks (verified_row result' date raw allMatch t r) = true) /\
  Forall (fun i => bad_item i = false) (sr_items result') /\
  (verifying = false -> exists rules dir, findKind (sr_kind result') = Some rules /\ canonicalDirection rules = Some dir /\
     forall offs, receipt_checks
       (extracted_row result' dir date raw (er_taxDeductible (rc_fields r) && allowsTaxDeductible rules) offs t r) = true).
Proof.
  intros H Hr. destruct (validated_currency _ _ _ H) as ((Hlen & _) & Ht & _ & _ & Hi). split; [|split; [exact Hi|]].
  - intros allMatch. unfold receipt_checks in Hr |- *. apply andb_true_iff in Hr as [Hr Hx].
    apply andb_true_iff in Hr as [Hr Hd]. apply andb_true_iff in Hr as [Hr Hs]. apply andb_true_iff in Hr as [Hr _].
    cbn [rc_fields verified_row set_field er_kind er_direction er_totalCents er_currency er_taxDeductible rc_source].
    by rewrite Hr, Hs, Hd, Hx.
  - intros Hv. pose proof (validateResult_kind _ _ _ H Hv) as Hk. unfold unusable_kind in Hk.
    destruct (findKind (sr_kind result')) as [rules|] eqn:E; [|done]. apply negb_false_iff in Hk.
    destruct (scannable_has_direction _ _ E Hk) as [dir Hd]. exists rules, dir. split; [done|split; [done|]].
    intros offs. eapply extracted_checks; eauto. lia.
Qed.

(** When a scan matches what the user entered: the same total in the same currency, a
    date at most [matchDateDays] away where both have one, and, where the user named a
    merchant and the scan read a name, the read merchant's similarity reaching the
    threshold, or the raw store name's, when it is the closer of the two. *)
Definition scan_matches (b : Snapshot) (result : ScanResult) : Prop :=
  sr_totalCents result = sn_totalCents b /\ sr_currency result = sn_currency b /\
  (forall entered read, sn_purchaseDate b = Some entered -> sr_purchaseDate result = Some read ->
     exists days, daysBetween entered read = Ok days /\ Z.abs days <= matchDateDays config_) /\
  (forall entered, sn_merchant b = Some entered -> is_Some (sr_merchant result) \/ is_Some (sr_storeNameRaw result) ->
     exists s, match sr_merchant result with Some read => similarity entered read = Ok s | None => s = dzero end /\
       (dltb s (merchantMatchThreshold config_) = false \/
        exists store s', sr_storeNameRaw result = Some store /\ similarity entered store = Ok s' /\
          dltb s s' = true /\ dltb s' (merchantMatchThreshold config_) = false)).
Lemma dates_match_spec b result x : dates_match config_ b result = Ok x ->
  x = true <-> (forall entered read, sn_purchaseDate b = Some entered -> sr_purchaseDate result = Some read ->
     exists days, daysBetween entered read = Ok days /\ Z.abs days <= matchDateDays config_).
Proof.
  unfold dates_match. intros H. destruct (sn_purchaseDate b) as [e|], (sr_purchaseDate result) as [r|]; ok_inv;
    try (split; [by intros _ ? ? ? ?|done]).
  split.
  - intros Hx ? ? [= <-] [= <-]. eexists. split; [done|]. by apply negb_true_iff, Z.ltb_ge in Hx.
  - intros Hx. destruct (Hx _ _ eq_refl eq_refl) as (days & E & L). rewrite Ha in E. injection E as <-.
    by apply negb_true_iff, Z.ltb_ge.
Qed.
Lemma merchants_match_spec b result x : merchants_match config_ b result = Ok x ->
  x = true <-> (forall entered, sn_merchant b = Some entered -> is_Some (sr_merchant result) \/ is_Some (sr_storeNameRaw result) ->
     exists s, match sr_merchant result with Some read => similarity entered read = Ok s | None => s = dzero end /\
       (dltb s (merchantMatchThreshold config_) = false \/
        exists store s', sr_storeNameRaw result = Some store /\ similarity entered store = Ok s' /\
          dltb s s' = true /\ dltb s' (merchantMatchThreshold config_) = false)).
Proof.
  unfold merchants_match. intros H. destruct (sn_merchant b) as [e|]; [|split; [by intros _ ? ?|by injection H]].
  assert (Hn : (sr_merchant result = None /\ sr_storeNameRaw result = None /\ x = true) \/
    ((is_Some (sr_merchant result) \/ is_Some (sr_storeNameRaw result)) /\
    exists s, match sr_merchant result with Some read => similarity e read = Ok s | None => s = dzero end /\
      match sr_storeNameRaw result with
      | Some store => if dltb s (merchantMatchThreshold config_)
          then exists s', similarity e store = Ok s' /\ x = negb (dltb (dmax s s') (merchantMatchThreshold config_))
          else x = true
      | None => x = negb (dltb s (merchantMatchThreshold config_))
      end)).
  { destruct (sr_merchant result) as [rd|], (sr_storeNameRaw result) as [st|]; [right..|left; by injection H]; (split; [eauto|]);
      ok_inv; eexists; (split; [done|]); try (destruct (dltb _ (merchantMatchThreshold config_)) eqn:El); ok_inv; eauto;
      by rewrite ?El. }
  clear H. destruct Hn as [(-> & -> & ->)|(Hn & s & Hs & Hx)].
  { split; [intros _ ? _ [[? ?]|[? ?]]; discriminate|done]. }
  set (thr := merchantMatchThreshold config_) in *. split.
  - intros -> e' [= <-] _. exists s. split; [done|]. destruct (dltb s thr) eqn:El; [right|by left].
    destruct (sr_storeNameRaw result) as [st|]; [|done]. destruct Hx as (s' & E' & Hm). exists st, s'.
    unfold dmax in Hm. destruct (dltb s s') eqn:Es; [|by rewrite El in Hm]. repeat split; [done..|]. by destruct (dltb s' thr).
  - intros Hr. destruct (Hr e eq_refl Hn) as (s0 & Hs0 & Hr0).
    assert (s0 = s) as -> by (destruct (sr_merchant result); congruence). destruct Hr0 as [E|(st & s' & Est & E' & Es & Et)].
    + destruct (sr_storeNameRaw result) as [st|]; by rewrite E in Hx.
    + rewrite Est in Hx. destruct (dltb s thr); [|done]. destruct Hx as (s1 & E1 & ->). rewrite E' in E1. injection E1 as <-.
      unfold dmax. by rewrite Es, Et.
Qed.
Lemma compare_spec b result m : compare config_ b result = Ok m -> sn_reviewed b = true -> m = true <-> scan_matches b result.
Proof.
  unfold compare. intros H Hr. rewrite Hr in H. ok_inv. apply dates_match_spec in Ha. apply merchants_match_spec in Ha0.
  unfold scan_matches. rewrite <- Ha, <- Ha0, !andb_true_iff, Z.eqb_eq, bool_decide_eq_true. tauto.
Qed.

(** C13: A verify scan never overwrites the user: on a reviewed receipt a committed
    write leaves kind, direction, total, currency, payment method, note, offset, tax
    flag and exchange rate as they are, and merchant, store name and date unless they
    were empty; existing items stay.  The receipt ends idle.  The flag the write was
    given is the comparison of the snapshot taken before, whose update time, review
    state and item count the write found unchanged: it is set exactly when
    [scan_matches] holds of that snapshot, and, the clock having moved past the last
    review, the receipt is confirmed afterwards exactly when it is set, and up for
    review when not. *)
Theorem verify_never_overwrites (c : Claim) (result : ScanResult) (tx : Taxonomy) (b : Snapshot) (m : bool)
    (r : receipt_row) (t0 : Z) (w w' : World) :
  write_attempt c result tx b m w = (Ok true, w') -> compare config_ b result = Ok m ->
  rows (receipts (w_db w)) !! cl_receiptId c = Some r -> claimed c r = true -> rc_reviewed_at r = Some t0 -> t0 < w_clock w ->
  exists r', rows (receipts (w_db w')) !! cl_receiptId c = Some r' /\ rc_scan_state r' = scan_state.kIdle /\
    (exists merchant store date, rc_fields r' =
       (rc_fields r) <| er_merchant := merchant |> <| er_storeNameRaw := store |> <| er_purchaseDate := date |> /\
       (is_Some (er_merchant (rc_fields r)) -> merchant = er_merchant (rc_fields r)) /\
       (is_Some (er_storeNameRaw (rc_fields r)) -> store = er_storeNameRaw (rc_fields r)) /\
       (is_Some (er_purchaseDate (rc_fields r)) -> date = er_purchaseDate (rc_fields r))) /\
    (sn_updatedAt b = pg_ts_out (rc_updated_at r) /\ sn_reviewed b = true /\
     sn_itemCount b = item_count (cl_receiptId c) (w_db w)) /\
    (m = true <-> scan_matches b result) /\
    is_confirmed (rc_proposed_at r') (rc_reviewed_at r') = m /\
    needs_review (rc_proposed_at r') (rc_reviewed_at r') = negb m /\
    (item_count (cl_receiptId c) (w_db w) <> 0 -> items (w_db w') = items (w_db w) /\ item_tags (w_db w') = item_tags (w_db w)).
Proof.
  intros H Hm E Hc Hrev Hlt. destruct (attempt_commit _ _ _ _ _ _ _ H) as (r0 & E0 & _ & Hu & Hw).
  { by eapply claimed_not_stale. }
  assert (r0 = r) as -> by congruence. rewrite Hrev, bool_decide_true in Hw by done.
  unfold unchanged in Hu. apply andb_true_iff in Hu as [[Ht Hv]%andb_true_iff Hn]. apply bool_decide_eq_true in Ht.
  apply eqb_prop in Hv. apply Z.eqb_eq in Hn. cbn in Ht, Hv, Hn. rewrite Hrev, bool_decide_true in Hv by done.
  destruct Hw as [(raw & date & _ & _ & Er) (inputs & Hitems & Hin) _]. rewrite Er. cbn [rows update_row].
  rewrite lookup_insert_eq. eexists; split; [reflexivity|]. split; [done|]. split.
  { eexists _, _, _. split; [reflexivity|]. cbn. repeat split; by intros [x ->]. }
  split; [done|]. split; [by apply compare_spec|]. split; [|split].
  - cbn. rewrite Hrev. destruct m; [by apply Z.leb_refl|]. by apply Z.leb_gt.
  - cbn. rewrite Hrev. destruct m; [by apply Z.ltb_irrefl|]. by apply Z.ltb_lt.
  - intros Hi. apply Z.eqb_neq in Hi. rewrite Hi in Hin. destruct Hin as [-> ->]. by rewrite Hitems.
Qed.

(** C14: An extraction scan replaces what was never reviewed: a committed write on an
    unreviewed receipt gives it the scan's kind, that kind's direction, total,
    currency, merchant and store name, drops a tax flag or offset the kind does not
    allow, leaves payment method, note and exchange rate, and puts it up for review;
    its items are exactly the scan's, in order under fresh ids, and the items of other
    receipts stay. *)
Theorem extraction_replaces (c : Claim) (result : ScanResult) (tx : Taxonomy) (b : Snapshot) (m : bool)
    (r : receipt_row) (w w' : World) :
  db_ok (w_db w) -> write_attempt c result tx b m w = (Ok true, w') ->
  rows (receipts (w_db w)) !! cl_receiptId c = Some r -> claimed c r = true -> rc_reviewed_at r = None ->
  exists rules dir r' inputs, findKind (sr_kind result) = Some rules /\ canonicalDirection rules = Some dir /\
    rows (receipts (w_db w')) !! cl_receiptId c = Some r' /\
    rc_fields r' = mkEditable (sr_kind result) dir (sr_totalCents result) (sr_currency result) (sr_merchant result)
      (sr_storeNameRaw result) (er_purchaseDate (rc_fields r')) (er_paymentMethodId (rc_fields r))
      (er_taxDeductible (rc_fields r) && allowsTaxDeductible rules) (er_note (rc_fields r))
      (if canOffset rules then er_offsetsReceiptId (rc_fields r) else None) (er_fxRateToAud (rc_fields r)) /\
    sql_date (sr_purchaseDate result) = Ok (er_purchaseDate (rc_fields r')) /\
    rc_scan_state r' = scan_state.kIdle /\ needs_review (rc_proposed_at r') (rc_reviewed_at r') = true /\
    Forall2 (fun s i => toItemInput s (sr_kind result) tx = Ok i) (sr_items result) inputs /\
    forall k, rows (items (w_db w')) !! k =
      if k <? seq (items (w_db w))
      then (i ← rows (items (w_db w)) !! k; if negb (it_receipt_id i =? cl_receiptId c) then Some i else None)
      else ItemService.input_row (cl_receiptId c) <$> inputs !! Z.to_nat (k - seq (items (w_db w))).
Proof.
  intros Hok H E Hc Hrev. destruct (attempt_commit _ _ _ _ _ _ _ H) as (r0 & E0 & _ & _ & Hw).
  { by eapply claimed_not_stale. }
  assert (r0 = r) as -> by congruence. rewrite Hrev, bool_decide_false in Hw by by intros [? ?].
  destruct Hw as [(rules & dir & raw & date & Hk & Hd & _ & Hdate & Er) (inputs & Hf & Hi) _].
  eexists rules, dir, _, inputs. split; [done|split; [done|]]. rewrite Er. cbn [rows update_row]. rewrite lookup_insert_eq.
  split; [reflexivity|]. split; [done|]. split; [exact Hdate|]. split; [done|]. split; [cbn; by rewrite Hrev|].
  split; [exact Hf|]. intros k. rewrite Hi, insert_rows_lookup by apply below_keep, (ok_below _ Hok).
  cbn [seq keep_rows]. destruct (k <? _); [apply keep_rows_lookup|]. by rewrite <- list_lookup_fmap.
Qed.
End Writes.

(** ** Failures, time-outs and stale claims *)

Section Failures.
Context `{PG : Postgres} `{IS : ImageStore} `{SO : Sodium} `{JT : JsonText}.
Context `{SP : ScanProvider} `{MM : MerchantMatcher} `{NO : Notifier}.
Context (config_ : ScanWorkerConfig).

(** C17: A claim that lost its row (re-queued, claimed again, deleted) is inert: the
    scan's result is dropped and its failure not recorded, the whole state untouched
    and nobody notified. *)
Theorem stale_claim_inert (c : Claim) (w : World) :
  stale c (w_db w) ->
  (forall result tx b m, write_attempt c result tx b m w = (Ok true, w)) /\
  (forall result, applyResult config_ c result w = (Ok (), w)) /\
  (forall scanError terminal error, recordFailure config_ c scanError terminal error w = (Ok (), w)).
Proof.
  intros H. split; [|split]; intros.
  - by apply stale_write.
  - unfold applyResult, mbind, query. cbn [apply_loop]. unfold mbind, query. rewrite (proj1 (stale_snapshot _ _) H). done.
  - by apply stale_failure.
Qed.

(** C19: A failed scan spends one unit of one budget: on a live claim the provider's
    errors count against scan_attempts and everything else against reclaim_count, the
    receipt goes back to the queue or, with the budget spent or at once when
    [terminal], to scan_failed with one notification; its ledger fields and both
    review timestamps stay. *)
Theorem failure_accounting (c : Claim) (scanError terminal : bool) (error : string) (r : receipt_row) (w w' : World)
    (x : outcome ()) :
  recordFailure config_ c scanError terminal error w = (x, w') ->
  rows (receipts (w_db w)) !! cl_receiptId c = Some r -> claimed c r = true ->
  exists r', w_db w' = (w_db w) <| receipts ::= update_row (cl_receiptId c) r' |> /\
    r' = r <| rc_scan_state := rc_scan_state r' |> <| rc_scan_started_at := None |>
           <| rc_scan_attempts ::= fun n => if scanError then n + 1 else n |>
           <| rc_reclaim_count ::= fun n => if scanError then n else n + 1 |> /\
    let spent := if scanError then rc_scan_attempts r' else rc_reclaim_count r' in
    let cap := if terminal then 0 else if scanError then maxScanAttempts config_ else maxReclaims config_ in
    if cap <=? spent
    then rc_scan_state r' = scan_state.kScanFailed /\
         w_notes w' = w_notes w ++ [(cl_userId c, "scan_failed"%string,
           JObject [("reason", JString error); ("receipt_id", JInteger (cl_receiptId c))]%string)]
    else rc_scan_state r' = scan_state.kUploaded /\ w_notes w' = w_notes w.
Proof.
  intros H E Hc. unfold recordFailure, mbind, exec, sql_fail in H. rewrite E, Hc in H.
  set (cap := if terminal then 0 else if scanError then maxScanAttempts config_ else maxReclaims config_) in *.
  exists (failed_row scanError cap r).
  assert (Hst : rc_scan_state (failed_row scanError cap r) =
    if cap <=? (if scanError then rc_scan_attempts (failed_row scanError cap r) else rc_reclaim_count (failed_row scanError cap r))
    then scan_state.kScanFailed else scan_state.kUploaded) by by destruct scanError.
  assert (Hrow : failed_row scanError cap r = r <| rc_scan_state := rc_scan_state (failed_row scanError cap r) |>
     <| rc_scan_started_at := None |> <| rc_scan_attempts ::= fun n => if scanError then n + 1 else n |>
     <| rc_reclaim_count ::= fun n => if scanError then n else n + 1 |>) by by destruct r, scanError.
  rewrite Hst in H. cbv zeta. destruct (cap <=? _); rewrite Hst in *.
  - rewrite bool_decide_true in H by done. unfold notifyScanFailed in H.
    destruct (notify _ _ _); injection H as <- <-; by split.
  - rewrite bool_decide_false in H by done. injection H as <- <-. by split.
Qed.

(** Scanning ends: a receipt can go round (taken, failed or timed out, re-queued)
    at most as often as its two budgets allow, at most 13 times under the default
    configuration, before it is terminal and waits for the user. *)
Theorem retries_bounded (config : ScanWorkerConfig) (n : nat) (r r' : receipt_row) :
  0 <= rc_scan_attempts r -> 0 <= rc_reclaim_count r -> retried config n r r' ->
  Z.of_nat n <= budget config r /\ (config = default_config -> (n <= 13)%nat).
Proof.
  intros Ha Hr H. pose proof (retried_budget _ _ _ _ Ha Hr H) as Hb. split; [exact Hb|]. intros ->.
  unfold budget in Hb. cbn in Hb. lia.
Qed.

Definition timeout_note (kv : Z * receipt_row) : Z * string * json :=
  (rc_user_id kv.2, "scan_failed"%string,
   JObject [("reason", JString "the scan kept timing out"); ("receipt_id", JInteger kv.1)]%string).
Lemma notes_for_each l w : (forall U ty p u, notify U ty p <> UB u) ->
  for_each (fun kv : Z * receipt_row => if bool_decide (rc_scan_state kv.2 = scan_state.kScanFailed)
    then notifyScanFailed (rc_user_id kv.2) kv.1 "the scan kept timing out" else mret ()) l w =
  (Ok (), w <| w_notes := w_notes w ++ map timeout_note (filter (fun kv => rc_scan_state kv.2 = scan_state.kScanFailed) l) |>).
Proof.
  intros Hn. revert w. induction l as [|kv l IH]; intros w; cbn [for_each].
  - cbn. rewrite app_nil_r. by destruct w.
  - rewrite filter_cons. unfold mbind at 1. case_bool_decide as Hf; [rewrite decide_True by done|rewrite decide_False by done].
    + unfold notifyScanFailed. specialize (Hn (rc_user_id kv.2) "scan_failed"%string).
      match goal with |- context [notify _ _ ?p] => specialize (Hn p); destruct (notify (rc_user_id kv.2) "scan_failed" p) as [| |u] end;
        [..|by destruct (Hn u)]; rewrite IH; cbn; by rewrite <- app_assoc.
    + unfold mret at 1. by rewrite IH.
Qed.

(** A scan past the time-out. *)
Definition timed_out (t : Z) (r : receipt_row) : Prop :=
  rc_scan_state r = scan_state.kScanning /\
  exists started, rc_scan_started_at r = Some started /\ started < t - reclaimAfterSeconds config_ * 1000000.
Lemma stuck_timed_out t r : stuck config_ t r = true <-> timed_out t r.
Proof.
  unfold stuck, timed_out. rewrite andb_true_iff, bool_decide_eq_true. apply and_iff_compat_l.
  destruct (rc_scan_started_at r) as [s|].
  - rewrite Z.ltb_lt. split; [by exists s|]. by intros (? & [= <-] & ?).
  - split; [done|]. by intros (? & ? & _).
Qed.

Lemma reclaim_rows t d x d' : sql_reclaim config_ t d = Ok (x, d') ->
  d' = d <| receipts := receipts d' |> /\ seq (receipts d') = seq (receipts d) /\
  x = map (fun kv => (kv.1, reclaimed_row config_ kv.2)) (select (stuck config_ t) (receipts d)) /\
  forall k, rows (receipts d') !! k = (fun r => if stuck config_ t r then reclaimed_row config_ r else r) <$> rows (receipts d) !! k.
Proof.
  intros [= <- <-]. split; [done|split; [done|split; [done|]]]. intros k. cbn. rewrite map_lookup_imap.
  by destruct (rows (receipts d) !! k).
Qed.
(** The rows a time-out sends to scan_failed. *)
Definition spent (r : receipt_row) : Prop := maxReclaims config_ <= rc_reclaim_count r + 1.
Lemma reclaimed_state r : rc_scan_state (reclaimed_row config_ r) =
  if maxReclaims config_ <=? rc_reclaim_count r + 1 then "scan_failed"%string else "uploaded"%string.
Proof. done. Qed.
Lemma timed_out_notes l : filter (fun kv : Z * receipt_row => rc_scan_state kv.2 = scan_state.kScanFailed)
    (map (fun kv => (kv.1, reclaimed_row config_ kv.2)) l) =
  map (fun kv => (kv.1, reclaimed_row config_ kv.2)) (filter (fun kv => spent kv.2) l).
Proof.
  induction l as [|kv l IH]; [done|]. cbn [map]. rewrite !filter_cons, IH. cbn [snd]. rewrite reclaimed_state. unfold spent.
  destruct (Z.leb_spec (maxReclaims config_) (rc_reclaim_count kv.2 + 1)).
  - by rewrite !decide_True.
  - by rewrite !decide_False by (done || lia).
Qed.

(** C20: No scan hangs for good: [reclaimStuck] returns.  Each receipt in [scanning]
    past the time-out has then spent one unit of reclaim_count and left [scanning],
    for the queue or, with the budget spent, for scan_failed, its start time cleared
    and everything else as it was; no other receipt and no other table changed; none
    is left past the time-out; and the owners of the failed ones, and nobody else,
    are notified, once each. *)
Theorem reclaim_frees_stuck (w : World) :
  (forall U ty p u, notify U ty p <> UB u) ->
  exists w', reclaimStuck config_ w = (Ok (), w') /\
    w_db w' = (w_db w) <| receipts := receipts (w_db w') |> /\ seq (receipts (w_db w')) = seq (receipts (w_db w)) /\
    (forall k, rows (receipts (w_db w)) !! k = None -> rows (receipts (w_db w')) !! k = None) /\
    (forall k r, rows (receipts (w_db w)) !! k = Some r -> ~ timed_out (w_clock w) r ->
       rows (receipts (w_db w')) !! k = Some r) /\
    (forall k r, rows (receipts (w_db w)) !! k = Some r -> timed_out (w_clock w) r ->
       rows (receipts (w_db w')) !! k = Some
         (r <| rc_scan_state := (if maxReclaims config_ <=? rc_reclaim_count r + 1 then "scan_failed"%string else "uploaded"%string) |>
            <| rc_reclaim_count := rc_reclaim_count r + 1 |> <| rc_scan_started_at := None |>)) /\
    (forall k r', rows (receipts (w_db w')) !! k = Some r' -> ~ timed_out (w_clock w) r') /\
    exists failed, NoDup (map fst failed) /\
      (forall k r, (k, r) ∈ failed <-> rows (receipts (w_db w)) !! k = Some r /\ timed_out (w_clock w) r /\
         maxReclaims config_ <= rc_reclaim_count r + 1) /\
      w_notes w' = w_notes w ++ map timeout_note failed.
Proof.
  intros Hn. unfold reclaimStuck, mbind, now, exec.
  destruct (sql_reclaim config_ (w_clock w) (w_db w)) as [[x d']| |] eqn:Es; [|done..].
  destruct (reclaim_rows _ _ _ _ Es) as (Hd & Hq & -> & Hl). rewrite notes_for_each by done.
  eexists. split; [reflexivity|]. cbn [w_db w_notes set_field]. split; [exact Hd|split; [exact Hq|]].
  split; [intros k E; by rewrite Hl, E|]. split.
  { intros k r E Ht. rewrite <- stuck_timed_out in Ht. apply not_true_is_false in Ht. rewrite Hl, E. cbn. by rewrite Ht. }
  split.
  { intros k r E Ht%stuck_timed_out. rewrite Hl, E. cbn. by rewrite Ht. }
  split.
  { intros k r'. rewrite Hl, fmap_Some. intros (r & _ & ->) Ht. apply stuck_timed_out in Ht.
    destruct (stuck config_ (w_clock w) r) eqn:E; [|by rewrite E in Ht].
    apply stuck_timed_out in Ht as (_ & ? & [=] & _). }
  exists (filter (fun kv => spent kv.2) (select (stuck config_ (w_clock w)) (receipts (w_db w)))). split; [|split].
  - eapply sublist_NoDup; [apply (select_NoDup (stuck config_ (w_clock w)) (receipts (w_db w)))|]. exact (fmap_sublist fst _ _ (sublist_filter _ _)).
  - intros k r. rewrite list_elem_of_filter, select_elem, stuck_timed_out. unfold spent. cbn. naive_solver.
  - by rewrite timed_out_notes, map_map.
Qed.
End Failures.

(** ** Matching names *)

Lemma find_category_Some side nm cs id : find_category side nm cs = Some id ->
  exists c, c ∈ cs /\ cr_id c = id /\ cr_isIncome c = side /\ lower (cr_name c) = lower nm.
Proof.
  induction cs as [|c cs IH]; cbn; [done|]. destruct (category_matches side nm c) eqn:E.
  - intros [= <-]. exists c. split; [left|]. unfold category_matches in E. apply andb_true_iff in E as [Es En].
    apply eqb_prop in Es. apply bool_decide_eq_true in En. done.
  - intros H. destruct (IH H) as (c' & Hin & Hc). exists c'. split; [by right|done].
Qed.
Lemma find_category_None side nm cs c : find_category side nm cs = None -> c ∈ cs -> cr_isIncome c = side ->
  lower (cr_name c) <> lower nm.
Proof.
  induction cs as [|c' cs IH]; cbn; [by intros _ ?%elem_of_nil|]. destruct (category_matches side nm c') eqn:E; [done|].
  intros H [->|Hin]%elem_of_cons Hs; [|by apply IH]. unfold category_matches in E. rewrite Hs, eqb_reflx in E. cbn in E.
  by apply bool_decide_eq_false in E.
Qed.
Lemma add_tag_id_spec nm tags ids : NoDup ids ->
  NoDup (fold_left (add_tag_id nm) tags ids) /\
  forall id, id ∈ fold_left (add_tag_id nm) tags ids <->
    id ∈ ids \/ exists t, t ∈ tags /\ tr_id t = id /\ lower (tr_name t) = lower nm.
Proof.
  revert ids. induction tags as [|t tags IH]; intros ids Hnd; cbn.
  - split; [done|]. intros id. split; [by left|]. intros [H|(t & Ht%elem_of_nil & _)]; done.
  - assert (Hs : NoDup (add_tag_id nm ids t) /\ forall id, id ∈ add_tag_id nm ids t <->
      id ∈ ids \/ (tr_id t = id /\ lower (tr_name t) = lower nm)).
    { unfold add_tag_id. case_bool_decide as Hl; cbn; [case_bool_decide as Hi; cbn|].
      - split; [done|]. intros id. split; [by left|]. intros [H|[<- _]]; done.
      - split; [apply NoDup_app; repeat split; [done| |apply NoDup_singleton]; set_solver|]. set_solver.
      - split; [done|]. intros id. split; [by left|]. intros [H|[_ H]]; done. }
    destruct Hs as [H1 H2]. destruct (IH _ H1) as [H3 H4]. split; [exact H3|]. intros id. rewrite H4, H2. set_solver.
Qed.
Lemma tag_ids_spec names tags : NoDup (tag_ids names tags) /\
  forall id, id ∈ tag_ids names tags <-> exists nm t, nm ∈ names /\ t ∈ tags /\ tr_id t = id /\ lower (tr_name t) = lower nm.
Proof.
  unfold tag_ids. assert (H : forall ids, NoDup ids ->
    NoDup (fold_left (fun ids nm => fold_left (add_tag_id nm) tags ids) names ids) /\
    forall id, id ∈ fold_left (fun ids nm => fold_left (add_tag_id nm) tags ids) names ids <->
      id ∈ ids \/ exists nm t, nm ∈ names /\ t ∈ tags /\ tr_id t = id /\ lower (tr_name t) = lower nm).
  { induction names as [|nm names IH]; intros ids Hnd; cbn; [split; [done|]; set_solver|].
    destruct (add_tag_id_spec nm tags ids Hnd) as [H1 H2]. destruct (IH _ H1) as [H3 H4]. split; [exact H3|].
    intros id. rewrite H4, H2. split.
    - intros [[?|(t & ?)]|(nm' & t & ? & ?)]; [by left|right; exists nm, t; set_solver|right; exists nm', t; set_solver].
    - intros [?|(nm' & t & [->|Hn]%elem_of_cons & ?)]; [by left; left|left; right; by exists t|right; by exists nm', t]. }
  destruct (H [] (NoDup_nil_2)) as [H1 H2]. split; [done|]. intros id. rewrite H2. set_solver.
Qed.

(** Names are resolved against the user's own lists, ignoring ASCII case: an item
    gets a category of that name on the kind's side if there is one and none
    otherwise, and exactly the tags whose name was given, each once; the amounts and
    the name go through unchanged. *)
Theorem item_names_resolved (s : ScannedItem) (kind : string) (tx : Taxonomy) (rules : KindRules) :
  findKind kind = Some rules ->
  exists i, toItemInput s kind tx = Ok i /\
    ii_name i = si_name s /\ ii_quantity i = si_quantity s /\ ii_unitPriceCents i = si_unitPriceCents s /\
    ii_amountCents i = si_amountCents s /\ ii_informational i = si_informational s /\
    (forall id, ii_categoryId i = Some id -> exists c nm, c ∈ tx_categories tx /\ si_category s = Some nm /\
       cr_id c = id /\ lower (cr_name c) = lower nm /\ cr_isIncome c = usesIncomeCategories rules) /\
    (ii_categoryId i = None -> forall c nm, c ∈ tx_categories tx -> si_category s = Some nm ->
       cr_isIncome c = usesIncomeCategories rules -> lower (cr_name c) <> lower nm) /\
    NoDup (ii_tagIds i) /\
    (forall id, id ∈ ii_tagIds i <-> exists nm t, nm ∈ si_tags s /\ t ∈ tx_tags tx /\ tr_id t = id /\ lower (tr_name t) = lower nm).
Proof.
  intros Hk. unfold toItemInput. apply rulesFor_Ok in Hk. destruct (tag_ids_spec (si_tags s) (tx_tags tx)) as [Hn Ht].
  destruct (si_category s) as [nm|]; [rewrite Hk|]; cbn [obind]; eexists; (split; [reflexivity|]); cbn;
    do 5 (split; [done|]); (split; [|split; [|done]]).
  - intros id Hf. destruct (find_category_Some _ _ _ _ Hf) as (c & Hin & ? & ? & ?). by exists c, nm.
  - intros Hf c nm' Hin [= <-] Hs. by eapply find_category_None.
  - done.
  - done.
Qed.

(** ** Witnesses *)

Definition ex_snapshot_of (w : World) : Snapshot :=
  default (mkSnapshot false "" 0 "" None None false None "" 0) (readSnapshot ex_claim (w_db w)).
Definition ex_row (w : World) : receipt_row :=
  default (scanned_row 0 "" "" 0) (rows (receipts (w_db w)) !! 2).
Definition ex_tx : Taxonomy := mkTaxonomy [mkCategoryRef 1 "food" false] [].
Definition ex_ok : ScanResult := Eval vm_compute in ex_result <| sr_currency := "AUD"%string |>.
(** The user reviews the receipt while it is being scanned. *)
Definition ex_reviewed : World := Eval vm_compute in
  (serve 1 (UpdateReceipt 2 (JObject [("reviewed", JBool true)]%string)) ex_claimed).2 <| w_clock := 2000 |>.

(** ... and the scan's result is written. *)
Definition ex_verified : World := Eval vm_compute in (write_attempt ex_claim ex_ok ex_tx (ex_snapshot_of ex_reviewed) false ex_reviewed).2.

Lemma claim_takes_from_queue_witness :
  NoDup (map cl_receiptId [ex_claim]) /\
  scanning_count (w_db ex_claimed) <= Z.max 2 (scanning_count (w_db ex_uploaded)) /\
  Z.of_nat 1 = Z.min (Z.max 0 (2 - scanning_count (w_db ex_uploaded)))
                     (Z.of_nat (length (select (in_state scan_state.kUploaded) (receipts (w_db ex_uploaded))))) /\
  (forall c, c ∈ [ex_claim] -> exists r, rows (receipts (w_db ex_uploaded)) !! cl_receiptId c = Some r /\
     rc_scan_state r = scan_state.kUploaded /\ rc_user_id r = cl_userId c /\ cl_claimedAt c = pg_ts_out (pg_clock_timestamp 1000 (cl_receiptId c)) /\
     rows (receipts (w_db ex_claimed)) !! cl_receiptId c = Some (claimed_row (pg_clock_timestamp 1000 (cl_receiptId c)) r)) /\
  (forall k r, rows (receipts (w_db ex_uploaded)) !! k = Some r -> rc_scan_state r = scan_state.kUploaded ->
     k ∉ map cl_receiptId [ex_claim] -> forall c r0, c ∈ [ex_claim] ->
     rows (receipts (w_db ex_uploaded)) !! cl_receiptId c = Some r0 -> queue_le (cl_receiptId c, r0) (k, r)).
Proof. apply (claim_takes_from_queue default_config 1000). by_vm. Defined.
Lemma claims_supersede_witness :
  ~ stale ex_claim (w_db ex_claimed) /\ stale ex_claim (w_db ex_uploaded) /\
  forall old, cl_receiptId old = 2 -> pg_ts_in (cl_claimedAt old) <> Some (pg_clock_timestamp 1000 2) -> stale old (w_db ex_claimed).
Proof.
  apply (claims_supersede default_config 1000 (w_db ex_uploaded) (w_db ex_claimed) [ex_claim] ex_claim);
    [by_vm|left].
Defined.
Lemma validated_results_fit_witness :
  (forall allMatch, receipt_checks (verified_row ex_ok None JNull allMatch 5 (ex_row ex_claimed)) = true) /\
  Forall (fun i => bad_item i = false) (sr_items ex_ok) /\
  (false = false -> exists rules dir, findKind (sr_kind ex_ok) = Some rules /\ canonicalDirection rules = Some dir /\
     forall offs, receipt_checks (extracted_row ex_ok dir None JNull
       (er_taxDeductible (rc_fields (ex_row ex_claimed)) && allowsTaxDeductible rules) offs 5 (ex_row ex_claimed)) = true).
Proof. apply (validated_results_fit ex_result ex_ok false); by_vm. Defined.
Lemma verify_never_overwrites_witness :
  exists r', rows (receipts (w_db ex_verified)) !! 2 =
      Some r' /\ rc_scan_state r' = scan_state.kIdle /\
    (exists merchant store date, rc_fields r' =
       (rc_fields (ex_row ex_reviewed)) <| er_merchant := merchant |> <| er_storeNameRaw := store |> <| er_purchaseDate := date |> /\
       (is_Some (er_merchant (rc_fields (ex_row ex_reviewed))) -> merchant = er_merchant (rc_fields (ex_row ex_reviewed))) /\
       (is_Some (er_storeNameRaw (rc_fields (ex_row ex_reviewed))) -> store = er_storeNameRaw (rc_fields (ex_row ex_reviewed))) /\
       (is_Some (er_purchaseDate (rc_fields (ex_row ex_reviewed))) -> date = er_purchaseDate (rc_fields (ex_row ex_reviewed)))) /\
    (sn_updatedAt (ex_snapshot_of ex_reviewed) = pg_ts_out (rc_updated_at (ex_row ex_reviewed)) /\
     sn_reviewed (ex_snapshot_of ex_reviewed) = true /\
     sn_itemCount (ex_snapshot_of ex_reviewed) = item_count 2 (w_db ex_reviewed)) /\
    (false = true <-> scan_matches default_config (ex_snapshot_of ex_reviewed) ex_ok) /\
    is_confirmed (rc_proposed_at r') (rc_reviewed_at r') = false /\
    needs_review (rc_proposed_at r') (rc_reviewed_at r') = negb false /\
    (item_count 2 (w_db ex_reviewed) <> 0 ->
     items (w_db ex_verified) = items (w_db ex_reviewed) /\
     item_tags (w_db ex_verified) = item_tags (w_db ex_reviewed)).
Proof.
  apply (verify_never_overwrites default_config ex_claim ex_ok ex_tx (ex_snapshot_of ex_reviewed) false (ex_row ex_reviewed) 1000
           ex_reviewed ex_verified); by_vm.
Defined.
Lemma extraction_replaces_witness :
  exists rules dir r' inputs, findKind "purchase" = Some rules /\ canonicalDirection rules = Some dir /\
    rows (receipts (w_db ex_scanned)) !! 2 = Some r' /\
    rc_fields r' = mkEditable "purchase" dir 450 "AUD" (Some "Corner shop"%string) None (er_purchaseDate (rc_fields r'))
      (er_paymentMethodId (rc_fields (ex_row ex_answered)))
      (er_taxDeductible (rc_fields (ex_row ex_answered)) && allowsTaxDeductible rules) (er_note (rc_fields (ex_row ex_answered)))
      (if canOffset rules then er_offsetsReceiptId (rc_fields (ex_row ex_answered)) else None)
      (er_fxRateToAud (rc_fields (ex_row ex_answered))) /\
    sql_date (Some "2026-02-03"%string) = Ok (er_purchaseDate (rc_fields r')) /\
    rc_scan_state r' = scan_state.kIdle /\ needs_review (rc_proposed_at r') (rc_reviewed_at r') = true /\
    Forall2 (fun s i => toItemInput s "purchase" ex_tx = Ok i) [ex_scanned_item] inputs /\
    forall k, rows (items (w_db ex_scanned)) !! k =
      if k <? seq (items (w_db ex_answered))
      then (i ← rows (items (w_db ex_answered)) !! k; if negb (it_receipt_id i =? 2) then Some i else None)
      else ItemService.input_row 2 <$> inputs !! Z.to_nat (k - seq (items (w_db ex_answered))).
Proof.
  apply (extraction_replaces ex_claim ex_ok ex_tx (ex_snapshot_of ex_answered) true (ex_row ex_answered) ex_answered ex_scanned);
    [exact ex_claimed_ok|by_vm..].
Defined.
Lemma ex_claim_stale : stale ex_claim (w_db ex_scanned).
Proof. apply stale_snapshot. by_vm. Qed.
Lemma stale_claim_inert_witness :
  (forall result tx b m, write_attempt ex_claim result tx b m ex_scanned = (Ok true, ex_scanned)) /\
  (forall result, applyResult default_config ex_claim result ex_scanned = (Ok (), ex_scanned)) /\
  (forall scanError terminal error, recordFailure default_config ex_claim scanError terminal error ex_scanned = (Ok (), ex_scanned)).
Proof. apply (stale_claim_inert default_config). exact ex_claim_stale. Defined.
Definition ex_failed : outcome () * World := Eval vm_compute in recordFailure default_config ex_claim true true "no images" ex_claimed.
Lemma failure_accounting_witness :
  exists r', w_db ex_failed.2 = (w_db ex_claimed) <| receipts ::= update_row 2 r' |> /\
    r' = (ex_row ex_claimed) <| rc_scan_state := rc_scan_state r' |> <| rc_scan_started_at := None |>
           <| rc_scan_attempts ::= fun n => n + 1 |> <| rc_reclaim_count ::= fun n => n |> /\
    if 0 <=? rc_scan_attempts r'
    then rc_scan_state r' = scan_state.kScanFailed /\
         w_notes ex_failed.2 = w_notes ex_claimed ++ [(1, "scan_failed"%string,
           JObject [("reason", JString "no images"); ("receipt_id", JInteger 2)]%string)]
    else rc_scan_state r' = scan_state.kUploaded /\ w_notes ex_failed.2 = w_notes ex_claimed.
Proof.
  apply (failure_accounting default_config ex_claim true true "no images" (ex_row ex_claimed) ex_claimed ex_failed.2 ex_failed.1);
    by_vm.
Defined.
Lemma retries_bounded_witness :
  Z.of_nat 1 <= budget default_config (ex_row ex_claimed) /\ (default_config = default_config -> (1 <= 13)%nat).
Proof.
  apply (retries_bounded default_config 1 (ex_row ex_claimed) (reclaimed_row default_config (claimed_row 7 (ex_row ex_claimed)))).
  - vm_compute. discriminate.
  - vm_compute. discriminate.
  - eapply retried_S; [apply spend_reclaim| |apply retried_0]. by_vm.
Defined.
(** Past the time-out, the scan of the uploaded receipt is re-queued. *)
Definition ex_hung : World := Eval vm_compute in ex_claimed <| w_clock := 10000000000 |>.
Lemma reclaim_frees_stuck_witness :
  timed_out default_config (w_clock ex_hung) (ex_row ex_hung) /\
  exists w', reclaimStuck default_config ex_hung = (Ok (), w') /\
    rows (receipts (w_db w')) !! 2 = Some
      ((ex_row ex_hung) <| rc_scan_state := "uploaded"%string |> <| rc_reclaim_count := 1 |> <| rc_scan_started_at := None |>).
Proof.
  assert (Ht : timed_out default_config (w_clock ex_hung) (ex_row ex_hung)).
  { split; [reflexivity|]. exists 1000. split; reflexivity. }
  split; [exact Ht|]. destruct (reclaim_frees_stuck default_config ex_hung) as (w' & Hw & _ & _ & _ & _ & Hr & _).
  { discriminate. }
  exists w'. split; [exact Hw|]. apply (Hr 2 (ex_row ex_hung)); [reflexivity|exact Ht].
Defined.
Lemma item_names_resolved_witness :
  exists i, toItemInput ex_scanned_item "purchase" ex_tx = Ok i /\
    ii_name i = Some "milk"%string /\ ii_quantity i = None /\ ii_unitPriceCents i = None /\
    ii_amountCents i = 450 /\ ii_informational i = false /\
    (forall id, ii_categoryId i = Some id -> exists c nm, c ∈ tx_categories ex_tx /\ Some "Food"%string = Some nm /\
       cr_id c = id /\ lower (cr_name c) = lower nm /\ cr_isIncome c = usesIncomeCategories purchase_rules) /\
    (ii_categoryId i = None -> forall c nm, c ∈ tx_categories ex_tx -> Some "Food"%string = Some nm ->
       cr_isIncome c = usesIncomeCategories purchase_rules -> lower (cr_name c) <> lower nm) /\
    NoDup (ii_tagIds i) /\
    (forall id, id ∈ ii_tagIds i <-> exists nm t, nm ∈ si_tags ex_scanned_item /\ t ∈ tx_tags ex_tx /\ tr_id t = id /\ lower (tr_name t) = lower nm).
Proof. apply (item_names_resolved ex_scanned_item "purchase" ex_tx purchase_rules). reflexivity. Defined.
