(* ===== verification/ScanCompletes.v ===== *)
(** * A scan that goes well is written

    Total correctness of [process] (ScanWorker.cpp): given a usable answer of the
    provider, the scan of a live claim that runs alone is written, in the mode the
    receipt asks for, and nothing is thrown on the way. *)
From S2P Require Import Prelude CString Binary64 Json Kinds JsonInput LedgerInput TokenUtils Env Db World.
From S2P Require Import ItemService ReceiptService ReferenceData ScanWorker Invariant Statements Safety.
From S2P Require Import ScanSafety ScanQueue ScanWrites Pipeline ScanTheorems Examples.

Section Completes.
Context `{PG : Postgres} `{IS : ImageStore} `{SO : Sodium} `{JT : JsonText}.
Context `{SP : ScanProvider} `{MM : MerchantMatcher} `{NO : Notifier}.
Context (config_ : ScanWorkerConfig).

(** [m] returns from [w]. *)
Definition returns {A} (m : M A) (w : World) : Prop := exists a w', m w = (Ok a, w').
Lemma returns_bind {A B} (m : M A) (k : A -> M B) w :
  returns m w -> (forall a w', m w = (Ok a, w') -> returns (k a) w') -> returns (mbind k m) w.
Proof. intros (a & w' & E) Hk. destruct (Hk a w' E) as (b & w'' & E'). exists b, w''. unfold mbind. by rewrite E. Qed.
Lemma bind_eq {A B} (m : M A) (k : A -> M B) w a w' : m w = (Ok a, w') -> returns (k a) w' -> returns (mbind k m) w.
Proof. intros E (b & w'' & E'). exists b, w''. unfold mbind. by rewrite E. Qed.
Lemma lift_eq {A} (m : outcome A) a w : m = Ok a -> lift m w = (Ok a, w).
Proof. by intros ->. Qed.
Lemma returns_ret {A} (a : A) w : returns (mret a) w.
Proof. by exists a, w. Qed.
Lemma returns_exec {A} (f : Db -> outcome (A * Db)) w a d : f (w_db w) = Ok (a, d) -> returns (exec f) w.
Proof. intros E. unfold exec, returns. rewrite E. eauto. Qed.
Lemma makes_use {A} (m : M A) P w a w' : makes m P -> m w = (Ok a, w') -> P a (w_db w) (w_db w').
Proof. intros H E. specialize (H w). unfold wp in H. rewrite E in H. by apply H. Qed.

(** ** One item *)

(** What inserting an item needs of its references. *)
Record insertable (U : Z) (rules : KindRules) (cs : table category_row) (ts : table tag_row) (i : ItemInput) : Prop := {
  in_category : forall c, ii_categoryId i = Some c -> exists row, rows cs !! c = Some row /\ c_user_id row = U /\
    c_is_income row = usesIncomeCategories rules;
  in_nodup : NoDup (ii_tagIds i);
  in_tags : forall t, t ∈ ii_tagIds i -> exists row, rows ts !! t = Some row /\ t_user_id row = U
}.

Lemma add_tags_return U itemId tagIds w : NoDup tagIds ->
  (forall t, t ∈ tagIds -> exists row, rows (tags (w_db w)) !! t = Some row /\ t_user_id row = U) ->
  is_Some (rows (items (w_db w)) !! itemId) -> (forall t, t ∈ tagIds -> (itemId, t) ∉ item_tags (w_db w)) ->
  returns (for_each (ItemService.add_tag U itemId) tagIds) w.
Proof.
  revert w. induction tagIds as [|t ts IH]; intros w Hn Ht Hi Hl; cbn [for_each]; [apply returns_ret|].
  apply NoDup_cons in Hn as [Hnt Hn]. destruct (Ht t) as (row & E & Ho); [left|].
  assert (Es : ItemService.add_tag U itemId t w = (Ok (), w <| w_db ::= fun d => d <| item_tags ::= fun s => {[(itemId, t)]} ∪ s |> |>)).
  { unfold ItemService.add_tag, mbind, query, owned_tag. rewrite E, (proj2 (Z.eqb_eq _ _) Ho).
    unfold exec_, exec, sql_insert_item_tag, fk. rewrite (bool_decide_true (is_Some (rows (items (w_db w)) !! itemId))) by done.
    rewrite (bool_decide_true (is_Some (rows (tags (w_db w)) !! t))) by (rewrite E; by eexists).
    rewrite (bool_decide_false ((itemId, t) ∈ item_tags (w_db w))) by (apply Hl; left). cbn. by destruct w. }
  apply returns_bind; [eexists _, _; exact Es|]. rewrite Es. intros [] w' [= <-]. apply IH; cbn.
  - done.
  - intros t' H. apply Ht. by right.
  - done.
  - intros t' H. rewrite elem_of_union, elem_of_singleton. intros [[= ->]|N]; [done|]. revert N. apply Hl. by right.
Qed.
Lemma insert_returns U rid kind rules i w : findKind kind = Some rules -> below (items (w_db w)) ->
  is_Some (rows (receipts (w_db w)) !! rid) -> insertable U rules (categories (w_db w)) (tags (w_db w)) i ->
  returns (ItemService.insert U rid kind i) w.
Proof.
  intros Hk Hb Hr [Hc Hn Ht]. unfold ItemService.insert. assert (Hreq : match ii_categoryId i with
    | Some c => ItemService.requireCategoryFitsKind U c kind | None => mret () end w = (Ok (), w)).
  { destruct (ii_categoryId i) as [c|]; [|done]. destruct (Hc c eq_refl) as (row & E & Ho & Hs).
    unfold ItemService.requireCategoryFitsKind, mbind, query, owned_category. rewrite E, (proj2 (Z.eqb_eq _ _) Ho).
    unfold lift, categoryFitsKind. apply rulesFor_Ok in Hk. rewrite Hk. cbn [obind]. by rewrite Hs, eqb_reflx. }
  apply returns_bind; [eexists _, _; exact Hreq|]. rewrite Hreq. intros [] w' [= <-].
  assert (Hfk : sql_insert_item (ItemService.input_row rid i) (w_db w) =
    Ok (seq (items (w_db w)), (w_db w) <| items ::= insert_row (ItemService.input_row rid i) |>)).
  { unfold sql_insert_item, fk. cbn [it_receipt_id it_category_id ItemService.input_row]. rewrite bool_decide_true by done.
    destruct (ii_categoryId i) as [c|]; [|done]. destruct (Hc c eq_refl) as (row & E & _). by rewrite E, bool_decide_true. }
  apply returns_bind; [by eapply returns_exec|]. unfold exec. rewrite Hfk. intros id w' [= <- <-].
  apply returns_bind; [|intros; apply returns_ret]. unfold ItemService.replaceTags.
  apply returns_bind; [by eapply returns_exec|]. unfold exec_, exec, sql_clear_item_tags. intros [] w' [= <-].
  apply add_tags_return; cbn; [done|done|by rewrite lookup_insert_eq|].
  intros t _ H. apply elem_of_filter in H as [H _]. by apply H.
Qed.

(** ** The items of a scan *)

Lemma find_rules_side (cs : list CategoryRef) U d nm side id :
  cs = tx_categories (loadTaxonomy U d) -> find_category side nm cs = Some id ->
  exists row, rows (categories d) !! id = Some row /\ c_user_id row = U /\ c_is_income row = side.
Proof.
  intros -> H. apply find_category_Some in H as (c & Hin & <- & <- & _). cbn in Hin.
  apply list_elem_of_fmap in Hin as ([k row] & -> & Hin). rewrite sorting.merge_sort_Permutation in Hin.
  apply select_elem in Hin as [E Ho]. exists row. split; [done|split; [|done]]. by apply Z.eqb_eq.
Qed.
Lemma toItemInput_insertable s kind rules U d : findKind kind = Some rules ->
  exists i, toItemInput s kind (loadTaxonomy U d) = Ok i /\ insertable U rules (categories d) (tags d) i.
Proof.
  intros Hk. apply rulesFor_Ok in Hk. unfold toItemInput.
  destruct (tag_ids_spec (si_tags s) (tx_tags (loadTaxonomy U d))) as [Hn Ht].
  assert (Htags : forall t, t ∈ tag_ids (si_tags s) (tx_tags (loadTaxonomy U d)) ->
    exists row, rows (tags d) !! t = Some row /\ t_user_id row = U).
  { intros t H. apply Ht in H as (nm & tr & _ & Hin & <- & _). cbn in Hin.
    apply list_elem_of_fmap in Hin as ([k row] & -> & Hin). rewrite sorting.merge_sort_Permutation in Hin.
    apply select_elem in Hin as [E Ho]. exists row. split; [done|]. by apply Z.eqb_eq. }
  destruct (si_category s) as [nm|]; [rewrite Hk|]; cbn [obind]; eexists; (split; [reflexivity|]); split; cbn; try done.
  intros c Hc. by eapply find_rules_side.
Qed.
Lemma insertScanned_returns c kind rules ss d w : findKind kind = Some rules ->
  categories (w_db w) = categories d -> tags (w_db w) = tags d -> below (items (w_db w)) ->
  is_Some (rows (receipts (w_db w)) !! cl_receiptId c) ->
  returns (insertScannedItems c kind ss (loadTaxonomy (cl_userId c) d)) w.
Proof.
  intros Hk. unfold insertScannedItems. revert w. induction ss as [|s ss IH]; intros w Ec Et Hb Hr; cbn [for_each]; [apply returns_ret|].
  destruct (toItemInput_insertable s kind rules (cl_userId c) d Hk) as (i & Ei & Hi). apply returns_bind.
  - unfold insert_scanned. apply returns_bind; [by exists i, w; unfold lift; rewrite Ei|]. unfold lift. rewrite Ei. intros i' w' [= <- <-].
    apply returns_bind; [|intros; apply returns_ret]. rewrite <- Ec, <- Et in Hi. by eapply insert_returns.
  - intros u w' E.     assert (E1 : insertScannedItems c kind [s] (loadTaxonomy (cl_userId c) d) w = (Ok (), w')).
    { unfold insertScannedItems. cbn [for_each]. unfold mbind. rewrite E. by destruct u. }
    destruct (makes_use _ _ _ _ _ (insertScanned_makes c kind [s] (loadTaxonomy (cl_userId c) d)) E1) as (Hs & inputs & _ & Hin). apply same_but_items_fields in Hs as (R & C & T & _).
    apply IH; [congruence|congruence| |by rewrite R]. rewrite Hin. by apply insert_rows_below.
Qed.

(** ** The row *)

Lemma put_receipt_returns id r d : receipt_checks r = true -> receipt_fks r d = true ->
  put_receipt id r d = Ok (d <| receipts ::= update_row id r |>).
Proof. intros H1 H2. unfold put_receipt. by rewrite H1, H2. Qed.
Lemma update_eq id f r w : rows (receipts (w_db w)) !! id = Some r -> receipt_checks (f r) = true -> receipt_fks (f r) (w_db w) = true ->
  exec_ (sql_update_receipt id f) w = (Ok (), w <| w_db ::= fun d => d <| receipts ::= update_row id (f r) |> |>).
Proof. intros E H1 H2. unfold exec_, exec, sql_update_receipt. rewrite E, put_receipt_returns by done. done. Qed.
Lemma fk_head {A B} (f : A -> B) (o : option Z) (t : table A) :
  (forall k, o = Some k -> exists b, (f <$> rows t) !! k = Some b) -> fk o t = true.
Proof.
  intros H. destruct o as [k|]; [|done]. cbn. apply bool_decide_eq_true. destruct (H k eq_refl) as [b Hb].
  rewrite lookup_fmap in Hb. by destruct (rows t !! k).
Qed.
(** References of a row that keeps its owner and payment method. *)
Lemma kept_fks d k r r' : db_ok d -> rows (receipts d) !! k = Some r -> is_Some (rows (users d) !! rc_user_id r) ->
  rc_user_id r' = rc_user_id r -> er_paymentMethodId (rc_fields r') = er_paymentMethodId (rc_fields r) ->
  (er_offsetsReceiptId (rc_fields r') = er_offsetsReceiptId (rc_fields r) \/ er_offsetsReceiptId (rc_fields r') = None) ->
  receipt_fks r' d = true.
Proof.
  intros Hok E Hu Eu Ep Eo. destruct (ok_receipts _ Hok k r E) as (_ & Hp & Ho). unfold receipt_fks. rewrite Eu, Ep.
  rewrite !andb_true_iff. split; [split|].
  - cbn. by apply bool_decide_eq_true.
  - apply (fk_head p_user_id). intros p Hk. eexists. by apply Hp.
  - apply (fk_head (fun r => (rc_user_id r, er_kind (rc_fields r)))). destruct Eo as [->| ->]; [|done].
    intros o Hk. destruct (Ho o Hk) as (_ & _ & Hr). change ((fun r => _) <$> _) with (rhead d).
    destruct (rhead d !! o) as [b|]; [by exists b|done].
Qed.
Lemma verified_checks result date raw m t r : receipt_checks r = true -> receipt_checks (verified_row result date raw m t r) = true.
Proof.
  intros Hr. unfold receipt_checks in Hr |- *. apply andb_true_iff in Hr as [Hr Hx].
  apply andb_true_iff in Hr as [Hr Hd]. apply andb_true_iff in Hr as [Hr Hs]. apply andb_true_iff in Hr as [Hr _].
  cbn [rc_fields verified_row set_field er_kind er_direction er_totalCents er_currency er_taxDeductible rc_source].
  by rewrite Hr, Hs, Hd, Hx.
Qed.
Lemma known_kind r : receipt_checks r = true -> exists rules, findKind (er_kind (rc_fields r)) = Some rules.
Proof.
  intros H. unfold receipt_checks in H. repeat (apply andb_true_iff in H as [H _]). apply bool_decide_eq_true in H.
  repeat (apply elem_of_cons in H as [->|H]; [by eexists|]). by apply elem_of_nil in H.
Qed.

(** ** The write *)

(** What the scan's answer must be besides validated: storable as JSON and as a date. *)
Definition storable (result : ScanResult) : Prop :=
  (exists raw, raw_column result = Ok raw) /\ (exists date, sql_date (sr_purchaseDate result) = Ok date).

Lemma writeExtraction_returns c answer result r w : db_ok (w_db w) ->
  rows (receipts (w_db w)) !! cl_receiptId c = Some r -> is_Some (rows (users (w_db w)) !! rc_user_id r) ->
  validateResult answer false = Ok result -> storable result ->
  returns (writeExtraction c result (loadTaxonomy (cl_userId c) (w_db w)) (snapshot_of (cl_receiptId c) r (w_db w))) w.
Proof.
  intros Hok E Hu Hv ([raw Hraw] & [date Hdate]). destruct (validated_currency _ _ _ Hv) as ((Hlen & _) & Ht & _).
  pose proof (validateResult_kind _ _ _ Hv eq_refl) as Hk. unfold unusable_kind in Hk.
  destruct (findKind (sr_kind result)) as [rules|] eqn:Ek; [|done]. apply negb_false_iff in Hk.
  destruct (scannable_has_direction _ _ Ek Hk) as [dir Hd]. pose proof (proj2 (rulesFor_Ok _ _) Ek) as Er.
  unfold writeExtraction. eapply bind_eq; [by apply lift_eq|]. rewrite Hd.
  eapply bind_eq; [reflexivity|]. eapply bind_eq; [by apply lift_eq|]. eapply bind_eq; [by apply lift_eq|].
  eapply bind_eq.
  { apply (update_eq _ _ r); [done| |].
    - apply extracted_checks; try done; [lia|apply (ok_receipts _ Hok _ _ E)].
    - eapply kept_fks; [done..|]. cbn. destruct (canOffset rules); auto. }
  eapply bind_eq; [reflexivity|]. apply (insertScanned_returns c (sr_kind result) rules); cbn; [done|done|done| |].
  - apply below_keep, (ok_below _ Hok).
  - rewrite lookup_insert_eq. by eexists.
Qed.
Lemma writeVerify_returns c result m r w : db_ok (w_db w) ->
  rows (receipts (w_db w)) !! cl_receiptId c = Some r -> is_Some (rows (users (w_db w)) !! rc_user_id r) ->
  storable result ->
  returns (writeVerify c result (loadTaxonomy (cl_userId c) (w_db w)) (snapshot_of (cl_receiptId c) r (w_db w)) m) w.
Proof.
  intros Hok E Hu ([raw Hraw] & [date Hdate]). destruct (ok_receipts _ Hok _ _ E) as (Hc & _).
  destruct (known_kind r Hc) as [rules Ek].
  unfold writeVerify. eapply bind_eq; [reflexivity|]. eapply bind_eq; [by apply lift_eq|]. eapply bind_eq; [by apply lift_eq|].
  eapply bind_eq.
  { apply (update_eq _ _ r); [done|by apply verified_checks|]. eapply kept_fks; [done..|]. by left. }
  destruct (_ =? 0); [|apply returns_ret].
  apply (insertScanned_returns c _ rules); cbn; [done|done|done|apply (ok_below _ Hok)|].
  rewrite lookup_insert_eq. by eexists.
Qed.

Lemma unchanged_refl b : unchanged b b = true.
Proof. unfold unchanged. rewrite bool_decide_true by done. by rewrite eqb_reflx, Z.eqb_refl. Qed.
(** [applyResult] needs one turn. *)
Lemma applyResult_returns c answer result r m w : db_ok (w_db w) ->
  rows (receipts (w_db w)) !! cl_receiptId c = Some r -> claimed c r = true -> is_Some (rows (users (w_db w)) !! rc_user_id r) ->
  validateResult answer (bool_decide (is_Some (rc_reviewed_at r))) = Ok result -> storable result ->
  compare config_ (snapshot_of (cl_receiptId c) r (w_db w)) result = Ok m ->
  exists w', applyResult config_ c result w = (Ok (), w') /\
    write_attempt c result (loadTaxonomy (cl_userId c) (w_db w)) (snapshot_of (cl_receiptId c) r (w_db w)) m w = (Ok true, w').
Proof.
  intros Hok E Hc Hu Hv Hs Hm. set (tx := loadTaxonomy (cl_userId c) (w_db w)). set (b := snapshot_of _ r _) in *.
  assert (Hb : readSnapshot c (w_db w) = Some b) by (unfold readSnapshot; by rewrite E, Hc).
  assert (Hw : exists w', write_attempt c result tx b m w = (Ok true, w')).
  { unfold write_attempt, transactionE, mbind at 1, query. rewrite Hb, unchanged_refl.
    change (sn_reviewed b) with (bool_decide (is_Some (rc_reviewed_at r))).
    assert (Hr : returns (if bool_decide (is_Some (rc_reviewed_at r)) then writeVerify c result tx b m else writeExtraction c result tx b) w).
    { destruct (bool_decide _); [by apply writeVerify_returns|by eapply writeExtraction_returns]. }
    destruct Hr as (u & w' & Hr). exists w'. unfold mbind. by rewrite Hr. }
  destruct Hw as [w' Hw]. exists w'. split; [|exact Hw]. unfold applyResult, mbind at 1, query. fold tx.
  unfold apply_loop, mbind at 1, query. rewrite Hb. unfold mbind at 1, lift. rewrite Hm. unfold mbind at 1. by rewrite Hw.
Qed.

(** ** The whole scan *)

(** A good day for a scan: the receipt's images can be fetched, the provider's answer
    to this call is valid and storable, and (for a reviewed receipt) the comparison
    with it can be made. *)
Record good_answer (c : Claim) (r : receipt_row) (w : World) (result : ScanResult) (allMatch : bool) : Prop := {
  ga_answer : exists images w1 answer,
    scan_keys (cl_receiptId c) (w_db w) <> [] /\
    fetch_images (scan_keys (cl_receiptId c) (w_db w)) w = (Ok images, w1) /\
    scanReceipt (w_rand w1) images (makeContext (loadTaxonomy (cl_userId c) (w_db w))
      (if bool_decide (is_Some (rc_reviewed_at r)) then Some (er_kind (rc_fields r)) else None)) = Ok answer /\
    validateResult answer (bool_decide (is_Some (rc_reviewed_at r))) = Ok result;
  ga_storable : storable result;
  ga_compare : compare config_ (snapshot_of (cl_receiptId c) r (w_db w)) result = Ok allMatch
}.

Lemma fetch_clock ks w : w_clock (fetch_images ks w).2 = w_clock w.
Proof.
  revert w. induction ks as [|k ks IH]; intros w; [done|]. cbn [fetch_images]. unfold mbind at 1, store_get.
  destruct (get k (w_store w)) as [[bytes| |] s]; [|done..]. unfold mbind. specialize (IH (w <| w_store := s |>)).
  by destruct (fetch_images ks _) as [[] w'].
Qed.
Lemma scan_written c r result allMatch w : db_ok (w_db w) ->
  rows (receipts (w_db w)) !! cl_receiptId c = Some r -> claimed c r = true -> is_Some (rows (users (w_db w)) !! rc_user_id r) ->
  good_answer c r w result allMatch ->
  exists w', process config_ c w = (Ok (), w') /\
    if bool_decide (is_Some (rc_reviewed_at r))
    then verified c result (loadTaxonomy (cl_userId c) (w_db w)) allMatch r (w_clock w) (w_db w) (w_db w')
    else extracted c result (loadTaxonomy (cl_userId c) (w_db w)) r (w_clock w) (w_db w) (w_db w').
Proof.
  intros Hok E Hc Hu [(images & w1 & answer & Hk & Hf & Ha & Hv) Hs Hm].
  assert (Hdb : w_db w1 = w_db w) by (pose proof (reads_fetch (scan_keys (cl_receiptId c) (w_db w)) w) as R; by rewrite Hf in R).
  assert (Hcl : w_clock w1 = w_clock w) by (pose proof (fetch_clock (scan_keys (cl_receiptId c) (w_db w)) w) as R; by rewrite Hf in R).
  set (w2 := w1 <| w_rand ::= S |>). assert (Hdb2 : w_db w2 = w_db w) by done.
  destruct (applyResult_returns c answer result r allMatch w2) as (w' & Ew & Hw); rewrite ?Hdb2; try done.
  exists w'. split.
  - unfold process, scan_body, mbind at 1, query. unfold readSnapshot. rewrite E, Hc. unfold mbind at 1.
    assert (Es : scan_images c (snapshot_of (cl_receiptId c) r (w_db w)) w = (Ok (Some result), w2)).
    { unfold scan_images, mbind at 1, query. rewrite bool_decide_false by done. unfold mbind at 1. rewrite Hf.
      unfold mbind at 1. rewrite Hdb. unfold mbind at 1, next_call, mbind at 1, lift. change (sn_reviewed _) with (bool_decide (is_Some (rc_reviewed_at r))).
      change (sn_kind _) with (er_kind (rc_fields r)). rewrite Ha. unfold mbind. by rewrite Hv. }
    rewrite Es. unfold mbind. by rewrite Ew.
  - rewrite Hdb2 in Hw. destruct (attempt_commit _ _ _ _ _ _ _ Hw) as (r' & E' & _ & _ & H).
    { rewrite Hdb2. by eapply claimed_not_stale. }
    rewrite Hdb2, E in E'. injection E' as <-. change (w_clock w2) with (w_clock w1) in H. by rewrite Hdb2, Hcl in H.
Qed.

(** C15: a scan that gets a good answer is written.  For a live claim that runs alone, if
    the images can be fetched and the provider's answer to this call is valid, [process]
    returns, books no failure, and leaves the receipt idle with that answer: extracted
    into it, items and all, while it is unreviewed, or checked against what the user
    entered. *)
Theorem scan_completes (c : Claim) (r : receipt_row) (result : ScanResult) (allMatch : bool) (w : World) :
  db_ok (w_db w) -> rows (receipts (w_db w)) !! cl_receiptId c = Some r -> claimed c r = true ->
  is_Some (rows (users (w_db w)) !! rc_user_id r) -> good_answer c r w result allMatch ->
  exists w' r', process config_ c w = (Ok (), w') /\ rows (receipts (w_db w')) !! cl_receiptId c = Some r' /\
    rc_scan_state r' = scan_state.kIdle /\ rc_scan_attempts r' = rc_scan_attempts r /\ rc_reclaim_count r' = rc_reclaim_count r /\
    if bool_decide (is_Some (rc_reviewed_at r))
    then verified c result (loadTaxonomy (cl_userId c) (w_db w)) allMatch r (w_clock w) (w_db w) (w_db w')
    else extracted c result (loadTaxonomy (cl_userId c) (w_db w)) r (w_clock w) (w_db w) (w_db w').
Proof.
  intros Hok E Hc Hu Hg. destruct (scan_written c r result allMatch w Hok E Hc Hu Hg) as (w' & Hp & H).
  destruct (bool_decide (is_Some (rc_reviewed_at r))).
  - pose proof H as [(raw & date & _ & _ & Er) _ _]. eexists w', _. rewrite Er. cbn [rows update_row]. rewrite lookup_insert_eq.
    split; [exact Hp|split; [reflexivity|]]. done.
  - pose proof H as [(rules & dir & raw & date & _ & _ & _ & _ & Er) _ _]. eexists w', _. rewrite Er. cbn [rows update_row].
    rewrite lookup_insert_eq. split; [exact Hp|split; [reflexivity|]]. done.
Qed.
End Completes.

(** The claimed upload of the example world. *)
Lemma scan_completes_witness : exists w' r',
  process default_config ex_claim ex_claimed = (Ok (), w') /\ rows (receipts (w_db w')) !! 2 = Some r' /\
  rc_scan_state r' = scan_state.kIdle.
Proof.
  assert (Hu : is_Some (rows (users (w_db ex_claimed)) !! rc_user_id (ex_row ex_claimed))).
  { exists ex_user. by_vm. }
  assert (Hg : good_answer default_config ex_claim (ex_row ex_claimed) ex_claimed ex_ok true).
  { split.
    - exists (match fetch_images (scan_keys 2 (w_db ex_claimed)) ex_claimed with (Ok l, _) => l | _ => [] end),
        (fetch_images (scan_keys 2 (w_db ex_claimed)) ex_claimed).2, ex_result.
      split; [|split; [by_vm|split; by_vm]]. intros H. apply (f_equal (@length string)) in H. revert H. vm_compute. discriminate.
    - split; [exists (JObject [])|exists (Some "2026-02-03"%string)]; by_vm.
    - by_vm. }
  destruct (scan_completes default_config ex_claim (ex_row ex_claimed) ex_ok true ex_claimed ex_claimed_ok ltac:(by_vm) ltac:(by_vm) Hu Hg)
    as (w' & r' & Hp & Hr & Hs & _).
  exists w', r'. split; [exact Hp|split; [exact Hr|exact Hs]].
Defined.
