(* ===== verification/ServiceTheorems.v ===== *)
(** * What the ledger services promise their callers

    Atomicity of every call, the image cap and the recognition of repeated uploads, on
    the services of ReceiptService.v, ItemService.v and ReferenceData.v. *)
From stdpp Require Import sorting.
From S2P Require Import Prelude CString Binary64 Json Kinds JsonInput LedgerInput TokenUtils RateLimiter Env Db World.
From S2P Require Import ItemService ReceiptService ReferenceData AuthService Http ScanWorker.
From S2P Require Import Invariant Statements Safety ScanQueue ScanWrites ScanTheorems Examples.

Section Services.
Context `{PG : Postgres} `{IS : ImageStore} `{SO : Sodium} `{EN : Environment} `{VI : Vips} `{PL : Platform}.

(** ** All or nothing *)

(** The rows of every table are the same (sequences may have advanced). *)
Definition same_rows (d d' : Db) : Prop := d' = rollback_db d d'.
Lemma same_rows_refl d : same_rows d d.
Proof. symmetry. apply rollback_self. Qed.
Lemma same_rows_rollback d d' : same_rows d (rollback_db d d').
Proof. done. Qed.

Definition failed {A} (r : outcome A) : bool := match r with Throw _ => true | _ => false end.
Definition atomic {A} (m : M A) : Prop := forall w, wp m (fun r w' => failed r = true -> same_rows (w_db w) (w_db w')) w.

Lemma atomic_ret {A} (a : A) : atomic (mret a).
Proof. done. Qed.
Lemma atomic_throw {A} e : atomic (mthrow (A := A) e).
Proof. intros w. apply wp_throw. intros _. apply same_rows_refl. Qed.
Lemma atomic_lift {A} (m : outcome A) : atomic (lift m).
Proof. intros w. apply wp_lift. intros _. apply same_rows_refl. Qed.
(** After a step that changes nothing. *)
Lemma atomic_lift_bind {A B} (m : outcome A) (k : A -> M B) : (forall a, atomic (k a)) -> atomic (mbind k (lift m)).
Proof.
  intros H w. apply wp_bind, wp_lift. destruct m; cbn [after]; [apply H|intros _; apply same_rows_refl|done].
Qed.
Lemma atomic_query_bind {A B} (f : Db -> A) (k : A -> M B) : (forall a, atomic (k a)) -> atomic (mbind k (query f)).
Proof. intros H w. apply wp_bind, wp_query. apply H. Qed.
Lemma atomic_now_bind {B} (k : Z -> M B) : (forall t, atomic (k t)) -> atomic (mbind k now).
Proof. intros H w. apply wp_bind, wp_now. apply H. Qed.
Lemma atomic_transactionE {A} (body : M (ending A)) : atomic (transactionE body).
Proof. intros w. unfold wp, transactionE. destruct (body w) as [[[]| |] w']; try done; intros _; apply same_rows_rollback. Qed.
Lemma atomic_transaction {A} (body : M A) : atomic (transaction body).
Proof. apply atomic_transactionE. Qed.
Lemma atomic_exec {A} (f : Db -> outcome (A * Db)) : atomic (exec f).
Proof. intros w. apply wp_exec. destruct (f (w_db w)) as [[]| |]; try done; intros _; apply same_rows_refl. Qed.
(** A statement, then code that fails only when the statement changed nothing. *)
Lemma atomic_exec_bind {A B} (f : Db -> outcome (A * Db)) (k : A -> M B) :
  (forall d a d' w, f d = Ok (a, d') -> failed (k a w).1 = true -> d' = d /\ w_db (k a w).2 = w_db w) ->
  atomic (mbind k (exec f)).
Proof.
  intros H w. apply wp_bind, wp_exec. destruct (f (w_db w)) as [[a d]| |] eqn:E; [|intros _; apply same_rows_refl..].
  intros Hf. destruct (H _ _ _ _ E Hf) as [-> Hd]. rewrite Hd. apply same_rows_refl.
Qed.
Lemma atomic_renamed {A} (m : M A) (f : exn -> exn) : atomic m -> atomic (mcatch m (fun e => mthrow (f e))).
Proof. intros H w. apply wp_catch. eapply wp_mono; [apply H|]. intros [| |] w' Hf; [done|apply wp_throw; by apply Hf|done]. Qed.
Lemma atomic_discard {A} (m : M A) : atomic m -> atomic (discard m).
Proof. intros H w. apply wp_bind. eapply wp_mono; [apply H|]. intros [| |] w' Hf; cbn [after]; [by apply wp_ret|done..]. Qed.
Create HintDb atomic.
Hint Resolve atomic_ret atomic_throw atomic_lift atomic_lift_bind atomic_query_bind atomic_now_bind atomic_transactionE
  atomic_transaction atomic_exec atomic_renamed : atomic.

Lemma atomic_removed (noun : string) {A} (owned : Db -> option A) (del : Db -> Db) :
  atomic (let! result := exec (fun d => delete_owned (owned d) del d) in removed noun result).
Proof.
  apply atomic_exec_bind. intros d a d' w. unfold delete_owned.
  destruct (owned d); intros [= <- <-]; cbn; [done|]. by intros _.
Qed.
Lemma atomic_created {R} (f : Db -> outcome (Z * Db)) (g : Z -> R) (h : exn -> exn) :
  atomic (mcatch (let! id := exec f in mret (g id)) (fun e => mthrow (h e))).
Proof. apply atomic_renamed, atomic_exec_bind. done. Qed.
(** An UPDATE whose row may be missing: not found is reported after a statement that
    changed nothing. *)
Lemma atomic_found {A B} (f : Db -> outcome (A * Db)) (h : exn -> exn) (k : A -> M B) :
  (forall d a d' w, f d = Ok (a, d') -> failed (k a w).1 = true -> d' = d /\ w_db (k a w).2 = w_db w) ->
  atomic (let! a := mcatch (exec f) (fun e => mthrow (h e)) in k a).
Proof.
  intros H w. apply wp_bind, wp_catch, wp_exec. destruct (f (w_db w)) as [[a d]| |] eqn:E; cbn [after].
  - intros Hf. destruct (H _ _ _ _ E Hf) as [-> Hd]. rewrite Hd. apply same_rows_refl.
  - apply wp_throw. cbn [after]. intros _. apply same_rows_refl.
  - done.
Qed.
Lemma tag_update_atomic U id body : atomic (TagService.update U id body).
Proof.
  unfold TagService.update. repeat (apply atomic_lift_bind; intros ?). apply atomic_found. intros d b d' w.
  destruct (owned_tag U id d); [|by intros [= <- <-]]. destruct (update_unique _ _ _ _ _) as [d1| |]; cbn [obind]; [|done..].
  by intros [= <- <-].
Qed.
Lemma payment_method_update_atomic U id body : atomic (PaymentMethodService.update U id body).
Proof.
  unfold PaymentMethodService.update. repeat (apply atomic_lift_bind; intros ?). apply atomic_found. intros d b d' w.
  destruct (owned_payment_method U id d); [|by intros [= <- <-]].
  destruct (update_unique _ _ _ _ _) as [d1| |]; cbn [obind]; [|done..]. by intros [= <- <-].
Qed.
Lemma remove_all_ends keys w :
  failed (for_each (fun key => mcatch (store_remove key) (fun _ => mret ())) keys w).1 = false.
Proof.
  revert w. induction keys as [|key keys IH]; intros w; [done|]. cbn [for_each]. unfold mbind, mcatch, store_remove.
  destruct (remove key (w_store w)) as [[] s]; [apply IH|apply IH|done].
Qed.
Lemma serve_atomic U q : atomic (serve U q).
Proof.
  destruct q; apply atomic_discard; cbn.
  - unfold ItemService.create. auto with atomic.
  - unfold ItemService.update. auto with atomic.
  - unfold ItemService.remove, ItemService.ownedReceiptKind.
    intros w. apply wp_bind, wp_bind, wp_query. destruct (owned_receipt U rid (w_db w)); cbn [after].
    + apply wp_ret. cbn [after]. apply (atomic_exec_bind (B := ())). intros d a d' w'.
      destruct (rows (items d) !! itemId) as [i|]; [destruct (it_receipt_id i =? rid)|]; intros [= <- <-]; done.
    + apply wp_throw. intros _. apply same_rows_refl.
  - unfold uploadReceipt. apply atomic_lift_bind. intros cap. destruct (_ <? _); [apply atomic_throw|].
    apply atomic_lift_bind. intros p. apply atomic_lift_bind. intros rules. destruct (canonicalDirection rules); auto with atomic.
  - unfold addImages. apply atomic_query_bind. intros [?|]; auto with atomic.
  - unfold createManual. auto with atomic.
  - unfold updateReceipt. auto with atomic.
  - unfold retryScan. apply atomic_now_bind. intros t w. apply wp_bind, wp_exec. unfold sql_requeue.
    destruct (owned_receipt U rid (w_db w)) as [r|] eqn:E; cbn [after].
    + case_bool_decide; cbn [after].
      * destruct (put_receipt _ _ _) as [d'| |] eqn:Ep; cbn [obind]; [|intros _; apply same_rows_refl|done].
        unfold getReceipt. wp_steps. apply put_receipt_Ok in Ep as [-> _]. apply owned_receipt_Some in E as [E HU].
        unfold owned_receipt. cbn [w_db receipts set_field rows update_row]. rewrite lookup_insert_eq. cbn [rc_user_id set_field].
        rewrite HU, Z.eqb_refl. cbn. by wp_steps.
      * unfold getReceipt. wp_steps. destruct (owned_receipt _ _ _); cbn; wp_steps; intros _; apply same_rows_refl.
    + unfold getReceipt. wp_steps. destruct (owned_receipt _ _ _); cbn; wp_steps; intros _; apply same_rows_refl.
  - unfold deleteReceipt. apply atomic_query_bind. intros keys. apply atomic_exec_bind. intros d a d' w E Hf. exfalso. revert Hf.
    destruct a; [|done]. unfold mbind. pose proof (remove_all_ends keys w) as H.
    by destruct (for_each _ keys w) as [[]].
  - unfold CategoryService.create. repeat (apply atomic_lift_bind; intros ?). apply atomic_created.
  - unfold CategoryService.update. repeat (apply atomic_lift_bind; intros ?). auto with atomic.
  - apply (atomic_removed "category" (owned_category U id)).
  - unfold TagService.create. repeat (apply atomic_lift_bind; intros ?). apply atomic_created.
  - apply tag_update_atomic.
  - apply (atomic_removed "tag" (owned_tag U id)).
  - unfold PaymentMethodService.create. repeat (apply atomic_lift_bind; intros ?). apply atomic_created.
  - apply payment_method_update_atomic.
  - apply (atomic_removed "payment method" (owned_payment_method U id)).
Qed.

(** C12: Every call of the services is all or nothing: if it throws, for whatever
    reason and at whatever point (a body that does not parse, a missing reference, a
    broken constraint, an object store failing on the last image), every table holds
    exactly the rows it held before. *)
Theorem request_atomic (U : Z) (q : request) (w w' : World) (e : exn) :
  serve U q w = (Throw e, w') -> same_rows (w_db w) (w_db w').
Proof. intros H. pose proof (serve_atomic U q w) as Ha. unfold wp in Ha. rewrite H in Ha. by apply Ha. Qed.

(** ** Images *)

Lemma select_insert {A} (p : A -> bool) (t : table A) a : below t ->
  length (select p (insert_row a t)) = ((if p a then 1 else 0) + length (select p t))%nat.
Proof.
  intros H. unfold select. cbn. destruct (p a) eqn:E.
  - rewrite map_filter_insert_True by done. rewrite map_to_list_insert; [done|].
    apply map_lookup_filter_None_2. left. by apply below_fresh.
  - rewrite map_filter_insert_False by (cbn; congruence). by rewrite delete_id by by apply below_fresh.
Qed.
Definition image_of (U rid : Z) (prep : PreparedImage) (i : image_row) : Prop :=
  im_receipt_id i = rid /\ im_user_id i = U /\ im_image_sha256 i = pi_sha256Hex prep.
(** Steps that leave the database alone, first. *)
Lemma makes_after {A} (m : M A) (k : A -> M ()) R :
  makes m (fun _ d d' => d' = d) -> (forall a, makes (k a) R) -> makes (mbind k m) R.
Proof. intros Hm Hk. eapply makes_bind; [exact Hm|exact Hk|]. by intros a b d1 d2 d3 -> H. Qed.
Lemma store_image_makes U rid prep :
  makes (store_image U rid prep) (fun _ d d' => exists i, image_of U rid prep i /\ d' = d <| receipt_images ::= insert_row i |>).
Proof.
  apply makes_after; [by intros w key _|intros key]. apply makes_after.
  - intros w. unfold wp, store_put. match goal with |- context [put ?a ?b ?c ?d] => destruct (put a b c d) end. done.
  - intros _. apply makes_after; [by intros w t _|intros t]. eapply makes_weaken; [apply makes_exec_|].
    intros ? d d' H. unfold sql_insert_image in H. ok_inv. eexists. split; [|reflexivity]. done.
Qed.
Lemma storeImages_makes U rid prepared :
  makes (storeImages U rid prepared) (fun _ d d' => exists l, Forall2 (image_of U rid) prepared l /\
    d' = d <| receipt_images ::= insert_rows l |>).
Proof.
  unfold storeImages. induction prepared as [|p ps IH]; cbn [for_each].
  - eapply makes_weaken; [apply makes_ret|]. intros _ d d' [_ ->]. exists []. split; [constructor|]. by destruct d as [? ? ? ? ? ? ? []].
  - eapply makes_bind; [apply store_image_makes|intros ?; exact IH|]. cbn beta.
    intros _ _ d1 d2 d3 (i & Hi & ->) (l & Hl & ->). exists (i :: l). split; [by constructor|]. done.
Qed.
Lemma image_count_rows U rid prepared l d : below (receipt_images d) -> Forall2 (image_of U rid) prepared l ->
  image_count rid (d <| receipt_images ::= insert_rows l |>) = image_count rid d + Z.of_nat (length prepared).
Proof.
  intros Hb H. unfold image_count. cbn. revert Hb. generalize (receipt_images d). induction H as [|p i ps l (Hi & _) _ IH]; intros t Hb.
  - cbn. lia.
  - change (insert_rows (i :: l) t) with (insert_rows l (insert_row i t)). rewrite IH by by apply below_insert.
    rewrite select_insert by done. rewrite Hi, Z.eqb_refl. cbn [length]. lia.
Qed.
Lemma prepareImages_length images prepared : prepareImages images = Ok prepared -> length prepared = length images.
Proof. revert prepared. induction images as [|i l IH]; intros p H; cbn in H; ok_inv; [done|]. cbn. by rewrite (IH _ Ha0). Qed.
(** What a returned [uploadReceipt] did. *)
Lemma upload_inv U images force w rid w' : uploadReceipt U images force w = (Ok (inl rid), w') ->
  exists cap prepared dir d1 l, maxImagesPerReceipt = Ok cap /\ Z.of_nat (length images) <= cap /\
    prepareImages images = Ok prepared /\ (force = false -> findConflict U prepared (w_db w) = None) /\
    canonicalDirection purchase_rules = Some dir /\
    insert_receipt (scanned_row U kDefaultKind dir (w_clock w)) (w_db w) = Ok (rid, d1) /\
    Forall2 (image_of U rid) prepared l /\ w_db w' = d1 <| receipt_images ::= insert_rows l |>.
Proof.
  intros H. unfold uploadReceipt, mbind at 1, lift at 1 in H. destruct maxImagesPerReceipt as [cap| |]; [|done..].
  destruct (Z.ltb_spec cap (Z.of_nat (length images))); [done|].
  unfold mbind at 1, lift at 1 in H. destruct (prepareImages images) as [prepared| |]; [|done..].
  unfold mbind at 1, lift at 1 in H. change (rulesFor kDefaultKind) with (Ok purchase_rules) in H. cbv iota beta in H.
  destruct (canonicalDirection purchase_rules) as [dir|] eqn:Hd; [|done]. unfold transactionE in H.
  unfold mbind at 1 in H.
  assert (Hc : forall c w2, (if force then mret None else query (findConflict U prepared)) w = (Ok c, w2) ->
    w2 = w /\ (force = false -> c = findConflict U prepared (w_db w))) by (destruct force; by intros c w2 [= <- <-]).
  destruct ((if force then mret None else query (findConflict U prepared)) w) as [[[c|]| |] w2] eqn:E; [done| |done..].
  destruct (Hc _ _ eq_refl) as [-> Hf]. unfold mbind at 1, now, mbind at 1, exec in H.
  destruct (insert_receipt _ _) as [[rid' d1]| |] eqn:Ei; [|done..]. unfold mbind in H.
  pose proof (storeImages_makes U rid' prepared (w <| w_db := d1 |>)) as Hs. unfold wp in Hs.
  destruct (storeImages U rid' prepared _) as [[[]| |] w3]; [|done..]. unfold mret in H. injection H as -> <-.
  destruct (Hs () eq_refl) as [(l & Hl & Hd') _]. exists cap, prepared, dir, d1, l.
  repeat (split; [done|]). split; [by intros ->; rewrite Hf|]. done.
Qed.
Lemma add_images_inv U rid images force w w' : addImages U rid images force w = (Ok (inl ()), w') ->
  exists cap prepared d1 l, owned_receipt U rid (w_db w) <> None /\ maxImagesPerReceipt = Ok cap /\
    prepareImages images = Ok prepared /\ image_count rid (w_db w) + Z.of_nat (length prepared) <= cap /\
    (force = false -> findConflict U prepared (w_db w) = None) /\ Forall2 (image_of U rid) prepared l /\
    d1 = (w_db w) <| receipt_images ::= insert_rows l |> /\
    sql_update_receipt rid (fun r => r <| rc_scan_state := scan_state.kUploaded |>) d1 = Ok (w_db w').
Proof.
  intros H. unfold addImages, mbind at 1, query at 1 in H. destruct (owned_receipt U rid (w_db w)); [|done].
  unfold mbind at 1, lift at 1 in H. destruct (prepareImages images) as [prepared| |]; [|done..].
  unfold transactionE, mbind at 1, query at 1, mbind at 1, lift in H. destruct maxImagesPerReceipt as [cap| |]; [|done..].
  destruct (Z.ltb_spec cap (image_count rid (w_db w) + Z.of_nat (length prepared))); [done|]. unfold mbind at 1 in H.
  assert (Hc : forall c w2, (if force then mret None else query (findConflict U prepared)) w = (Ok c, w2) ->
    w2 = w /\ (force = false -> c = findConflict U prepared (w_db w))) by (destruct force; by intros c w2 [= <- <-]).
  destruct ((if force then mret None else query (findConflict U prepared)) w) as [[[c|]| |] w2] eqn:E; [done| |done..].
  destruct (Hc _ _ eq_refl) as [-> Hf]. unfold mbind at 1 in H.
  pose proof (storeImages_makes U rid prepared w) as Hs. unfold wp in Hs.
  destruct (storeImages U rid prepared w) as [[[]| |] w3]; [|done..].
  destruct (Hs () eq_refl) as [(l & Hl & Hd') _]. unfold mbind, exec_, exec in H. cbn [snd] in Hd'. rewrite Hd' in H.
  destruct (sql_update_receipt _ _ _) as [d2| |] eqn:Eu; [|done..]. unfold mret in H. injection H as <-.
  eexists cap, prepared, _, l. repeat (split; [done|]). split; [by intros ->; rewrite Hf|]. split; [done|]. split; [reflexivity|].
  exact Eu.
Qed.
Lemma findConflict_Some U prep prepared d k i : prep ∈ prepared -> rows (receipt_images d) !! k = Some i -> im_user_id i = U ->
  im_image_sha256 i = pi_sha256Hex prep -> is_Some (findConflict U prepared d).
Proof.
  intros Hin E HU Hs. induction Hin as [p ps|p q ps _ IH]; cbn [findConflict].
  - assert (Hsel : (k, i) ∈ select (fun i => (im_user_id i =? U) && bool_decide (im_image_sha256 i = pi_sha256Hex p)) (receipt_images d)).
    { apply select_elem. split; [done|]. by rewrite HU, Z.eqb_refl, bool_decide_true. }
    destruct (select _ _) as [|[? ?] ?]; [by apply elem_of_nil in Hsel|by eexists].
  - destruct (select _ _) as [|[? ?] ?]; [by apply IH|by eexists].
Qed.

(** C27: No receipt gets more images than MAX_IMAGES_PER_RECEIPT: an upload or an
    addition that returns has stored every image of the request, the receipt then has
    at most the cap, and it is queued for the scanner. *)
Theorem images_capped (U rid : Z) (images : list string) (force : bool) (w w' : World) :
  db_ok (w_db w) ->
  uploadReceipt U images force w = (Ok (inl rid), w') \/ addImages U rid images force w = (Ok (inl ()), w') ->
  exists cap r, maxImagesPerReceipt = Ok cap /\ image_count rid (w_db w') <= cap /\
    image_count rid (w_db w') = image_count rid (w_db w) + Z.of_nat (length images) /\
    rows (receipts (w_db w')) !! rid = Some r /\ rc_user_id r = U /\ rc_scan_state r = scan_state.kUploaded.
Proof.
  intros Hok. pose proof (proj1 (proj2 (proj2 (proj2 (proj2 (ok_below _ Hok)))))) as Hbelow. intros [H|H].
  - destruct (upload_inv _ _ _ _ _ _ H) as (cap & prepared & dir & d1 & l & Hcap & Hle & Hp & _ & _ & Hi & Hl & Hd).
    unfold insert_receipt in Hi. ok_inv. exists cap, (scanned_row U kDefaultKind dir (w_clock w)).
    assert (H0 : image_count (seq (receipts (w_db w))) (w_db w) = 0).
    { unfold image_count. destruct (select _ _) as [|[k i] sel] eqn:Es; [done|]. exfalso.
      assert (Hin : (k, i) ∈ (k, i) :: sel) by left. rewrite <- Es in Hin. apply select_elem in Hin as [E Ei%Z.eqb_eq].
      pose proof (ok_images _ Hok k i E) as Hh. unfold image_ok in Hh. rewrite Ei in Hh. unfold rhead in Hh.
      rewrite lookup_fmap, below_fresh in Hh; [done|apply (ok_below _ Hok)]. }
    assert (Hc : image_count (seq (receipts (w_db w))) (w_db w') = Z.of_nat (length images)).
    { rewrite Hd. etransitivity; [eapply (image_count_rows U _ prepared l); [exact Hbelow|exact Hl]|]. rewrite (prepareImages_length _ _ Hp).
      transitivity (image_count (seq (receipts (w_db w))) (w_db w) + Z.of_nat (length images)); [reflexivity|lia]. }
    rewrite Hc. repeat (split; [done || lia|]). rewrite Hd. split; [cbn; by rewrite lookup_insert_eq|done].
  - destruct (add_images_inv _ _ _ _ _ _ H) as (cap & prepared & d1 & l & Ho & Hcap & Hp & Hle & _ & Hl & -> & Hu).
    destruct (owned_receipt U rid (w_db w)) as [r|] eqn:E; [|done]. apply owned_receipt_Some in E as [E HU].
    unfold sql_update_receipt in Hu. cbn [receipts set_field] in Hu. rewrite E in Hu. apply put_receipt_Ok in Hu as [-> _].
    exists cap, (r <| rc_scan_state := scan_state.kUploaded |>). rewrite <- (prepareImages_length _ _ Hp).
    change (image_count rid (_ <| receipts ::= _ |>)) with (image_count rid ((w_db w) <| receipt_images ::= insert_rows l |>)).
    rewrite (image_count_rows _ _ _ _ _ Hbelow Hl).
    repeat (split; [done || lia|]). split; [cbn; by rewrite lookup_insert_eq|done].
Qed.

(** A double tap makes one receipt: repeating an upload right after it succeeded,
    without [force], reports an existing image of the same user and changes nothing. *)
Theorem repeated_upload_conflicts (U rid : Z) (images : list string) (force : bool) (w w' : World) :
  db_ok (w_db w) -> images <> [] -> uploadReceipt U images force w = (Ok (inl rid), w') ->
  exists c, uploadReceipt U images false w' = (Ok (inr c), w').
Proof.
  intros Hok Hne H.
  destruct (upload_inv _ _ _ _ _ _ H) as (cap & prepared & dir & d1 & l & Hcap & Hle & Hp & _ & Hd & Hi & Hl & Hw).
  unfold insert_receipt in Hi. ok_inv. unfold uploadReceipt. rewrite Hcap, Hp.
  unfold mbind at 1, lift at 1. rewrite (proj2 (Z.ltb_ge _ _) Hle). unfold mbind at 1, lift at 1. unfold mbind at 1, lift at 1.
  change (rulesFor kDefaultKind) with (Ok purchase_rules). cbv iota beta. rewrite Hd. unfold transactionE, mbind at 1, query.
  assert (is_Some (findConflict U prepared (w_db w'))) as [c Hc].
  { apply prepareImages_length in Hp. destruct Hl as [|p i ps l (_ & HU & Hs) Hl]; [by destruct images|].
    apply (findConflict_Some U p (p :: ps) _ (seq (receipt_images (w_db w))) i); [left| |done..].
    rewrite Hw. cbn [receipt_images set_field]. change (insert_rows (i :: l) ?t) with (insert_rows l (insert_row i t)).
    apply insert_rows_old; [|by cbn; rewrite lookup_insert_eq]. apply below_insert, (ok_below _ Hok). }
  exists c. rewrite Hc. unfold mret. rewrite rollback_self. by destruct w'.
Qed.
End Services.

(** ** Witnesses *)

(** A manual entry whose category does not exist: it fails after the receipt is inserted. *)
Definition ex_bad_manual : json :=
  JObject [("category_id", JUnsigned 99); ("kind", JString "purchase"); ("total_cents", JUnsigned 1250)]%string.
Lemma request_atomic_witness :
  same_rows (w_db ex_world) (w_db (serve 1 (CreateManual ex_bad_manual) ex_world).2).
Proof.
  apply (request_atomic 1 (CreateManual ex_bad_manual) ex_world _ (ValidationError "category_id does not exist")). by_vm.
Defined.
Lemma images_capped_witness :
  exists cap r, maxImagesPerReceipt = Ok cap /\ image_count 2 (w_db ex_uploaded) <= cap /\
    image_count 2 (w_db ex_uploaded) = image_count 2 (w_db ex_manual_world) + Z.of_nat (length ["pixels"%string]) /\
    rows (receipts (w_db ex_uploaded)) !! 2 = Some r /\ rc_user_id r = 1 /\ rc_scan_state r = scan_state.kUploaded.
Proof.
  apply (images_capped 1 2 ["pixels"%string] false ex_manual_world ex_uploaded); [exact ex_manual_ok|left; by_vm].
Defined.
Lemma repeated_upload_conflicts_witness :
  exists c, uploadReceipt 1 ["pixels"%string] false ex_uploaded = (Ok (inr c), ex_uploaded).
Proof.
  apply (repeated_upload_conflicts 1 2 ["pixels"%string] false ex_manual_world ex_uploaded);
    [exact ex_manual_ok|discriminate|by_vm].
Defined.
