(* ===== verification/LedgerTheorems.v ===== *)
(** * Entries, edits, deletion and reads

    The functional behaviour of ReceiptService.v on the ledger itself: what a manual
    entry stores, what an edit changes, what a deletion takes along, what a page of
    the list holds, and who gets to see an image. *)
From stdpp Require Import sorting.
From S2P Require Import Prelude CString Binary64 Json Kinds JsonInput LedgerInput TokenUtils RateLimiter Env Db World.
From S2P Require Import ItemService ReceiptService ReferenceData AuthService Http ScanWorker.
From S2P Require Import Invariant Statements Safety ScanQueue ScanWrites ScanTheorems Examples.

(** ** Valid receipts and the schema *)

Lemma valid_receipt_checks f : valid_receipt f ->
  bool_decide (er_kind f ∈ ["purchase"; "refund"; "reimbursement"; "income"; "transfer"]%string) = true /\
  bool_decide (er_direction f ∈ ["inflow"; "outflow"]%string) = true /\
  0 <= er_totalCents f /\ (String.length (er_currency f) <= 3)%nat /\
  chk_direction_by_kind (er_kind f) (er_direction f) = true /\
  chk_tax_deductible_purchase_only (er_taxDeductible f) (er_kind f) = true.
Proof.
  intros [Hv Hd Ht [Hc _]]. split_and!; [| |lia|lia| |];
    (unfold validateReceipt, rulesFor in Hv; destruct (findKind (er_kind f)) as [rules|] eqn:Ek; [|done];
     apply isKnownDirection_spec in Hd; cbn [obind] in Hv;
     apply findKind_cases in Ek as [[Ek ->]|[[Ek ->]|[[Ek ->]|[[Ek ->]|[Ek ->]]]]];
     rewrite Ek in *; destruct Hd as [Hd|Hd]; rewrite Hd in *; destruct (er_taxDeductible f); cbn in Hv; done).
Qed.

Section Ledger.
Context `{PG : Postgres} `{IS : ImageStore} `{SO : Sodium} `{EN : Environment} `{VI : Vips} `{PL : Platform}.

(** The parsers are as strict as the schema: a receipt that parsing or patching
    accepted violates no CHECK of the receipts table, neither as a new manual entry
    nor as an edit of an existing row. *)
Theorem valid_receipts_pass_checks (f : EditableReceipt) (U t : Z) (date : option string) :
  valid_receipt f ->
  receipt_checks (manual_row U f date t) = true /\
  forall m row, receipt_checks row = true -> receipt_checks (edited_row f date m t row) = true.
Proof.
  intros (Hk & Hd & Ht & Hc & Hdk & Htx)%valid_receipt_checks. apply Z.leb_le in Ht. apply Nat.leb_le in Hc.
  split; [|intros m row Hrow]; unfold receipt_checks.
  - cbn [rc_fields manual_row er_kind er_direction er_totalCents er_currency er_taxDeductible rc_scan_state rc_source].
    by rewrite Hk, Hd, Ht, Hc, Hdk, Htx.
  - unfold receipt_checks in Hrow. apply andb_true_iff in Hrow as [Hrow _]. apply andb_true_iff in Hrow as [Hrow _].
    apply andb_true_iff in Hrow as [Hrow Hs]. apply andb_true_iff in Hrow as [_ Hss].
    cbn [rc_fields edited_row set_field er_kind er_direction er_totalCents er_currency er_taxDeductible rc_scan_state rc_source].
    by rewrite Hk, Hd, Ht, Hc, Hdk, Htx, Hss, Hs.
Qed.

(** ** Manual entries *)

(** The links of items inserted one after another from the id [next] on. *)
Fixpoint link_rows (next : Z) (l : list ItemInput) (s : gset (Z * Z)) : gset (Z * Z) :=
  match l with
  | [] => s
  | i :: l' => link_rows (next + 1) l' (links_of next (ii_tagIds i) ∪ filter (fun it => it.1 <> next) s)
  end.
Lemma link_rows_spec next l s lk : (forall lk', lk' ∈ s -> lk'.1 < next) ->
  lk ∈ link_rows next l s <->
  lk ∈ s \/ exists n i, l !! n = Some i /\ lk.1 = next + Z.of_nat n /\ lk.2 ∈ ii_tagIds i.
Proof.
  revert next s. induction l as [|i l IH]; intros next s Hs; cbn [link_rows].
  { split; [by left|]. by intros [H|(n & i & H & _)]. }
  assert (Hl : forall lk', lk' ∈ links_of next (ii_tagIds i) <-> lk'.1 = next /\ lk'.2 ∈ ii_tagIds i).
  { intros [x t]. unfold links_of. rewrite elem_of_list_to_set, list_elem_of_fmap. cbn. naive_solver. }
  assert (Hf : forall lk', lk' ∈ filter (fun it : Z * Z => it.1 <> next) s <-> lk' ∈ s).
  { intros lk'. rewrite elem_of_filter. split; [by intros []|]. intros H. split; [|done]. specialize (Hs lk' H). lia. }
  rewrite IH.
  - rewrite elem_of_union, Hl, Hf. split.
    + intros [[[E T]|H]|(n & j & Hn & E & T)]; [right; exists 0%nat, i; split; [done|split; [lia|done]]|by left|].
      right. exists (S n), j. split; [done|split; [lia|done]].
    + intros [H|([|n] & j & Hn & E & T)]; [by left; right| |].
      * injection Hn as <-. left. left. split; [lia|done].
      * right. exists n, j. split; [done|split; [lia|done]].
  - intros lk'. rewrite elem_of_union, Hl, Hf. intros [[E _]|H]; [lia|]. specialize (Hs lk' H). lia.
Qed.
Lemma insert_items_makes U rid kind l :
  makes (insert_items U rid kind l) (fun _ d d' => same_but_items d d' /\
    items d' = insert_rows (map (ItemService.input_row rid) l) (items d) /\
    item_tags d' = link_rows (seq (items d)) l (item_tags d)).
Proof.
  unfold insert_items. induction l as [|i l IH]; cbn [for_each].
  - eapply makes_weaken; [apply makes_ret|]. intros _ d d' [_ ->]. split; [apply same_but_items_refl|done].
  - eapply (makes_bind _ _ (fun _ d d' => same_but_items d d' /\ items d' = insert_row (ItemService.input_row rid i) (items d) /\
      item_tags d' = links_of (seq (items d)) (ii_tagIds i) ∪ filter (fun it => it.1 <> seq (items d)) (item_tags d)));
      [|intros ?; exact IH|].
    + eapply (makes_bind _ _ _ (fun _ _ d d' => d' = d)); [apply insert_makes| |].
      * intros ?. eapply makes_weaken; [apply makes_ret|]. by intros ? ? ? [_ ->].
      * by intros id b d1 d2 d3 (-> & ? & ? & ?) ->.
    + intros _ _ d1 d2 d3 (S1 & E1 & L1) (S2 & E2 & L2). split; [by eapply same_but_items_trans|]. by rewrite E2, L2, E1, L1.
Qed.

(** The items of an entry: its own, or one for the whole amount. *)
Definition stored_items (input : ManualEntryInput) : list ItemInput :=
  if bool_decide (me_items input = [])
  then [mkItemInput (er_merchant (me_receipt input)) None None (er_totalCents (me_receipt input)) (me_categoryId input) false []]
  else me_items input.

(** What a manual entry that returns leaves in the tables. *)
Lemma createManual_Ok U rid body w w' : createManual U body w = (Ok rid, w') ->
  exists input date, parseManualEntry body = Ok input /\ sql_date (er_purchaseDate (me_receipt input)) = Ok date /\
    rid = seq (receipts (w_db w)) /\
    receipts (w_db w') = insert_row (manual_row U (me_receipt input) date (w_clock w)) (receipts (w_db w)) /\
    items (w_db w') = insert_rows (map (ItemService.input_row rid) (stored_items input)) (items (w_db w)) /\
    item_tags (w_db w') = link_rows (seq (items (w_db w))) (stored_items input) (item_tags (w_db w)) /\
    w_db w' = (w_db w) <| receipts := receipts (w_db w') |> <| items := items (w_db w') |>
                       <| item_tags := item_tags (w_db w') |>.
Proof.
  intros H. unfold createManual, mbind at 1, lift at 1 in H. destruct (parseManualEntry body) as [input| |]; [|done..].
  unfold transaction, transactionE, mbind at 1, mbind at 1 in H.
  pose proof (validateReferences_same U None (me_receipt input) w) as Hv. unfold wp in Hv.
  destruct (validateReferences U None (me_receipt input) w) as [[[]| |] w1]; [|done..]. cbn in Hv. destruct Hv as [-> _].
  unfold mbind at 1, now, mbind at 1, lift in H. destruct (sql_date _) as [date| |] eqn:Hdate; [|done..].
  unfold mbind at 1, exec in H. destruct (insert_receipt _ _) as [[rid' d1]| |] eqn:Ei; [|done..].
  unfold insert_receipt in Ei. ok_inv. unfold mbind at 1 in H.
  pose proof (insert_items_makes U (seq (receipts (w_db w))) (er_kind (me_receipt input)) (stored_items input)) as Hm.
  exists input, date. unfold stored_items in *.
  match type of H with context [(if bool_decide ?c then ?x else ?y) ?w0] => set (w2 := w0) in *; specialize (Hm w2) end.
  unfold wp in Hm. revert H Hm. change (implicit_item input) with
    (mkItemInput (er_merchant (me_receipt input)) None None (er_totalCents (me_receipt input)) (me_categoryId input) false []).
  case_bool_decide as Hnil; intros H Hm;
    match type of Hm with context [insert_items ?a ?b ?c ?l ?x] => destruct (insert_items a b c l x) as [[[]| |] w3] end;
    try done; unfold mret in H; injection H as <- <-; destruct (Hm () eq_refl) as [(Hs & Hi & Hk) _]; cbn [snd] in Hs, Hi, Hk;
    assert (Hr : receipts (w_db w3) = receipts (w_db w2)) by (by rewrite Hs);
    (split; [done|split; [exact Hdate|split; [done|]]]); (split; [exact Hr|split; [exact Hi|split; [exact Hk|]]]);
    rewrite Hr; exact Hs.
Qed.

(** C30: A manual entry that returns stored exactly what was parsed: one receipt of the
    caller, under the returned id, with the parsed columns, dated today in Sydney
    unless the body says otherwise, its AUD equivalent computed from total and rate,
    idle with both budgets unspent, never proposed, reviewed, created and updated now:
    confirmed at once.  With it either its explicit items in order or one for the whole
    amount, under the next ids, and the links of these items to their tags; every
    other receipt, item and link and every other table is as it was. *)
Theorem manual_entry_stored (U rid : Z) (body : json) (w w' : World) :
  db_ok (w_db w) -> createManual U body w = (Ok rid, w') ->
  exists input date r, parseManualEntry body = Ok input /\ sql_date (er_purchaseDate (me_receipt input)) = Ok date /\
    rid = seq (receipts (w_db w)) /\ receipts (w_db w') = insert_row r (receipts (w_db w)) /\
    (let e := me_receipt input in r = mkReceipt U
       (mkEditable (er_kind e) (er_direction e) (er_totalCents e) (er_currency e) (er_merchant e) None
          (Some (match date with Some day => day | None => pg_sydney_date (w_clock w) end)) (er_paymentMethodId e)
          (er_taxDeductible e) (er_note e) (er_offsetsReceiptId e) (pg_numeric <$> er_fxRateToAud e))
       (match er_fxRateToAud e with Some rate => Some (llround (dmul (of_int (er_totalCents e)) rate)) | None => None end)
       "idle" 0 0 None None (Some (w_clock w)) "manual" None (w_clock w) (w_clock w)) /\
    is_confirmed (rc_proposed_at r) (rc_reviewed_at r) = true /\
    items (w_db w') = insert_rows (map (fun i => mkItemRow rid (ii_name i) (pg_numeric <$> ii_quantity i)
      (ii_unitPriceCents i) (ii_amountCents i) (ii_categoryId i) (ii_informational i)) (stored_items input)) (items (w_db w)) /\
    (forall l, l ∈ item_tags (w_db w') <-> l ∈ item_tags (w_db w) \/
       exists n i, stored_items input !! n = Some i /\ l.1 = seq (items (w_db w)) + Z.of_nat n /\ l.2 ∈ ii_tagIds i) /\
    w_db w' = (w_db w) <| receipts := receipts (w_db w') |> <| items := items (w_db w') |>
                       <| item_tags := item_tags (w_db w') |>.
Proof.
  intros Hok (input & date & Hp & Hd & -> & Hr & Hi & Hl & Hs)%createManual_Ok.
  exists input, date, (manual_row U (me_receipt input) date (w_clock w)).
  split; [done|split; [done|split; [done|split; [exact Hr|]]]]. split; [by destruct date|split; [done|]].
  split; [exact Hi|split; [|exact Hs]]. intros l. rewrite Hl. apply link_rows_spec.
  intros lk Hlk. destruct (ok_links _ Hok lk Hlk) as (rid & u & Hh & _). unfold ihead in Hh.
  apply lookup_fmap_Some in Hh as (i & _ & Ei). apply (ok_below _ Hok) in Ei. exact Ei.
Qed.

(** ** Edits *)

(** C29: PATCH /receipts/:id that returns wrote the patch and nothing else: the one
    receipt gets the patched fields, the AUD equivalent recomputed from them and a new
    updated_at; its store name, scan columns, source, proposal and creation stay;
    marking it reviewed stamps the review with the time of the edit, which confirms it
    unless a proposal is newer.  No other row, object, notification or counter changes,
    and the answer is the row as stored. *)
Theorem edit_writes_patch (U rid : Z) (body : json) (s : ReceiptSummary) (w w' : World) :
  updateReceipt U rid body w = (Ok s, w') ->
  exists row r m date row', rows (receipts (w_db w)) !! rid = Some row /\ rc_user_id row = U /\
    applyReceiptPatch (rc_fields row) body = Ok (r, m) /\ sql_date (er_purchaseDate r) = Ok date /\
    w' = w <| w_db := (w_db w) <| receipts ::= update_row rid row' |> |> /\
    row' = mkReceipt U
      (mkEditable (er_kind r) (er_direction r) (er_totalCents r) (er_currency r) (er_merchant r) (er_storeNameRaw r) date
         (er_paymentMethodId r) (er_taxDeductible r) (er_note r) (er_offsetsReceiptId r) (pg_numeric <$> er_fxRateToAud r))
      (match er_fxRateToAud r with Some rate => Some (llround (dmul (of_int (er_totalCents r)) rate)) | None => None end)
      (rc_scan_state row) (rc_scan_attempts row) (rc_reclaim_count row) (rc_scan_started_at row) (rc_proposed_at row)
      (if m then Some (w_clock w) else rc_reviewed_at row) (rc_source row) (rc_raw_ocr_json row) (rc_created_at row)
      (w_clock w) /\
    s = summary_of rid row' /\
    (m = true -> (forall p, rc_proposed_at row = Some p -> p <= w_clock w) -> rs_isConfirmed s = true /\ rs_needsReview s = false) /\
    (m = false -> rs_isConfirmed s = is_confirmed (rc_proposed_at row) (rc_reviewed_at row)).
Proof.
  intros H. unfold updateReceipt, transaction, transactionE, mbind at 1, mbind at 1, query at 1 in H.
  destruct (owned_receipt U rid (w_db w)) as [row|] eqn:E; [|done]. apply owned_receipt_Some in E as [E HU].
  unfold mbind at 1, lift at 1 in H. destruct (rulesFor _) as [before| |]; [|done..]. unfold mbind at 1, lift at 1 in H.
  destruct (applyReceiptPatch _ body) as [[r m]| |] eqn:Ep; [|done..]. cbn iota beta in H. unfold mbind at 1 in H.
  pose proof (validateReferences_same U (Some rid) r w) as Hv. unfold wp in Hv.
  destruct (validateReferences U (Some rid) r w) as [[[]| |] w1]; [|done..]. cbn in Hv. destruct Hv as [-> _].
  unfold mbind at 1, lift at 1 in H. destruct (rulesFor (er_kind r)) as [after| |]; [|done..]. unfold mbind at 1 in H.
  match type of H with context [(if ?c then ?x else ?y) w] => set (side := if c then x else y) in H;
    assert (Hside : (side w).2 = w) end.
  { unfold side. destruct (eqb _ _); [done|]. unfold mbind, query. by destruct (existsb _ _). }
  destruct (side w) as [[[]| |] w1]; [|done..]. cbn in Hside. subst w1.
  unfold mbind at 1, now, mbind at 1, lift in H. destruct (sql_date _) as [date| |] eqn:Hdate; [|done..].
  unfold mbind at 1, exec_, exec in H. destruct (sql_update_receipt _ _ _) as [d1| |] eqn:Eu; [|done..].
  apply (sql_update_Ok _ _ _ _ _ E) in Eu as ->. unfold mbind, query in H.
  cbn [w_db set_field receipts rows update_row] in H. rewrite lookup_insert_eq in H. unfold mret in H. injection H as <- <-.
  exists row, r, m, date, (edited_row r date m (w_clock w) row). repeat (split; [done|]).
  split; [by rewrite <- HU|]. split; [done|]. split; [|by intros ->].
  intros -> Hp. cbn. destruct (rc_proposed_at row) as [p|]; [|done]. specialize (Hp p eq_refl).
  split; [by apply Z.leb_le|by apply Z.ltb_ge].
Qed.

(** ** Deletion *)



(** ** Reads *)

#[export] Instance created_desc_total : Total created_desc.
Proof. intros [k1 r1] [k2 r2]. unfold created_desc. cbn. lia. Qed.
#[export] Instance created_desc_trans : Transitive created_desc.
Proof. intros [k1 r1] [k2 r2] [k3 r3]. unfold created_desc. cbn. lia. Qed.

(** Paging loses and repeats nothing: there is one list of all receipts of the
    user and of nobody else, each once, newest first, and every page is the slice of
    it that limit and offset name, so consecutive pages add up; the controller's limit
    is between 1 and 200 and its offset never negative. *)
Theorem pages_slice_one_list (U : Z) (w : World) :
  exists all : list (Z * receipt_row), StronglySorted created_desc all /\ NoDup all.*1 /\
    (forall k r, (k, r) ∈ all <-> rows (receipts (w_db w)) !! k = Some r /\ rc_user_id r = U) /\
    (forall limit offset, 0 <= limit -> 0 <= offset -> listReceipts U limit offset w =
       (Ok (map (fun kv => summary_of kv.1 kv.2) (take (Z.to_nat limit) (drop (Z.to_nat offset) all))), w)) /\
    (forall req limit offset, page_limit req = Ok limit -> page_offset req = Ok offset ->
       1 <= limit <= 200 /\ 0 <= offset).
Proof.
  exists (merge_sort created_desc (select (fun r => rc_user_id r =? U) (receipts (w_db w)))).
  split; [apply StronglySorted_merge_sort; apply _|]. split; [rewrite merge_sort_Permutation; apply select_NoDup|].
  split; [|split].
  - intros k r. rewrite merge_sort_Permutation, select_elem, Z.eqb_eq. done.
  - intros limit offset Hl Ho. unfold listReceipts.
    destruct (Z.ltb_spec limit 0); [lia|]. destruct (Z.ltb_spec offset 0); [lia|]. done.
  - intros req limit offset Hl Ho. unfold page_limit, page_offset, clamp in *.
    destruct (empty (rq_param req "limit")), (empty (rq_param req "offset")); ok_inv; split;
      repeat match goal with |- context [?a <? ?b] => destruct (Z.ltb_spec a b) end; lia.
Qed.

(** Images are private: the image route reads the object store only for an image
    of a receipt of the requesting user; for every other id, foreign or missing, the
    answer is the same 404 and nothing is read or changed. *)
Theorem images_private (U id : Z) `{JT : JsonText} (w : World) :
  (exists i r, rows (receipt_images (w_db w)) !! id = Some i /\ rows (receipts (w_db w)) !! im_receipt_id i = Some r /\
     rc_user_id r = U /\ image_handler U id w = mbind (fun bytes =>
       mret (mkResponse 200 "image/webp" bytes [("Cache-Control", "private, max-age=31536000, immutable")]%string None))
       (store_get (im_image_key i)) w) \/
  image_handler U id w = (errorResponse 404 "not_found" "image not found", w).
Proof.
  unfold image_handler, findImage, query, mbind. destruct (rows (receipt_images (w_db w)) !! id) as [i|]; [|by right].
  destruct (rows (receipts (w_db w)) !! im_receipt_id i) as [r|] eqn:Er; [|by right]. cbn [il_ownerUserId il_imageKey].
  destruct (Z.eqb_spec (rc_user_id r) U) as [E|E]; [left; exists i, r; split; [done|split; [exact Er|done]]|by right].
Qed.
End Ledger.

(** ** Witnesses *)

Definition ex_entry : ManualEntryInput := Eval vm_compute in
  match parseManualEntry ex_manual with Ok i => i | _ => mkManualEntry default_receipt None [] end.
Lemma valid_receipts_pass_checks_witness :
  receipt_checks (manual_row 1 default_receipt None 5) = true /\
  forall m row, receipt_checks row = true -> receipt_checks (edited_row default_receipt None m 5 row) = true.
Proof. apply (valid_receipts_pass_checks default_receipt 1 5 None). exact default_receipt_valid. Defined.
Lemma manual_entry_stored_witness :
  exists input date r, parseManualEntry ex_manual = Ok input /\ receipts (w_db ex_manual_world) = insert_row r (receipts (w_db ex_world)) /\
    sql_date (er_purchaseDate (me_receipt input)) = Ok date /\
    rc_reviewed_at r = Some 1000 /\ rc_proposed_at r = None /\ is_confirmed (rc_proposed_at r) (rc_reviewed_at r) = true /\
    (forall l, l ∈ item_tags (w_db ex_manual_world) <-> l ∈ item_tags (w_db ex_world) \/
       exists n i, stored_items input !! n = Some i /\ l.1 = seq (items (w_db ex_world)) + Z.of_nat n /\ l.2 ∈ ii_tagIds i).
Proof.
  destruct (manual_entry_stored 1 1 ex_manual ex_world ex_manual_world ex_db_ok ltac:(by_vm))
    as (input & date & r & Hp & Hd & _ & Hr & Er & Hc & _ & Hl & _).
  exists input, date, r. cbv zeta in Er. subst r. split; [exact Hp|split; [exact Hr|split; [exact Hd|]]].
  split; [reflexivity|split; [reflexivity|split; [exact Hc|exact Hl]]].
Defined.
Definition ex_patch : json := JObject [("merchant", JString "Deli"); ("reviewed", JBool true)]%string.
Definition ex_edit : outcome ReceiptSummary * World := Eval vm_compute in updateReceipt 1 1 ex_patch ex_manual_world.
Definition ex_summary : ReceiptSummary := Eval vm_compute in
  match ex_edit.1 with Ok s => s | _ => summary_of 0 (scanned_row 0 "" "" 0) end.
Lemma edit_writes_patch_witness :
  exists row row', rows (receipts (w_db ex_manual_world)) !! 1 = Some row /\
    ex_edit.2 = ex_manual_world <| w_db := (w_db ex_manual_world) <| receipts ::= update_row 1 row' |> |> /\
    rc_updated_at row' = 1000 /\ rc_scan_attempts row' = rc_scan_attempts row /\ ex_summary = summary_of 1 row'.
Proof.
  destruct (edit_writes_patch 1 1 ex_patch ex_summary ex_manual_world ex_edit.2 ltac:(by_vm))
    as (row & r & m & date & row' & Er & _ & _ & _ & Ew & Erow & Es & _).
  exists row, row'. split; [exact Er|split; [exact Ew|]]. subst row'. split; [reflexivity|split; [reflexivity|exact Es]].
Defined.
