(* ===== verification/AuthTheorems.v ===== *)
(** * Accounts and sessions

    What AuthService.v promises: registration is all or nothing, a login's token
    authenticates until it expires or is logged out, failed logins look alike, and a
    password reset ends every session. *)
From S2P Require Import Prelude CString Binary64 Json Kinds JsonInput LedgerInput TokenUtils RateLimiter Env Db World.
From S2P Require Import ItemService ReceiptService ReferenceData AuthService Http ScanWorker.
From S2P Require Import Invariant Statements Safety ScanQueue ScanWrites Pipeline ScanTheorems ServiceTheorems Examples.

(** ** Tokens *)

(** A token is its random bytes in lower-case hex: twice as many characters as
    bytes, hex digits only, and decodable, so distinct draws give distinct tokens; the
    stored hash has 64 characters and distinct digests distinct texts. *)
Theorem token_encoding `{SO : Sodium} (draw n : nat) (token token' : string) :
  unhex (chars (generateToken draw n)) = Some (randombytes_buf draw n) /\
  String.length (generateToken draw n) = (2 * n)%nat /\ all_chars is_hex (generateToken draw n) = true /\
  String.length (hashToken token) = 64%nat /\
  (crypto_hash_sha256 token <> crypto_hash_sha256 token' -> hashToken token <> hashToken token').
Proof.
  unfold generateToken, hashToken. rewrite unhex_toHex, !toHex_length, randombytes_length, sha256_length.
  repeat (split; [done || apply toHex_hex|]). by intros H ?%toHex_inj.
Qed.

Section Auth.
Context `{PG : Postgres} `{IS : ImageStore} `{SO : Sodium} `{EN : Environment}.

(** ** Selecting the one row of a unique column *)

Lemma select_none {A} (p : A -> bool) (t : table A) :
  (forall k a, rows t !! k = Some a -> p a = false) -> select p t = [].
Proof.
  intros H. destruct (select p t) as [|[k a] l] eqn:E; [done|]. exfalso.
  assert (Hin : (k, a) ∈ (k, a) :: l) by left. rewrite <- E in Hin. apply select_elem in Hin as [Ea Ep]. by rewrite (H k a Ea) in Ep.
Qed.
Lemma select_one {A} (p : A -> bool) (t : table A) k a :
  rows t !! k = Some a -> p a = true -> (forall k' a', rows t !! k' = Some a' -> p a' = true -> k' = k) -> select p t = [(k, a)].
Proof.
  intros E Hp Hu. unfold select.
  assert (filter (fun kv : Z * A => p kv.2 = true) (rows t) = {[k := a]}) as ->; [|apply map_to_list_singleton].
  apply map_eq. intros j. destruct (decide (k = j)) as [<-|N].
  - rewrite lookup_singleton_eq. by apply map_lookup_filter_Some_2.
  - rewrite lookup_singleton_ne by done. apply map_lookup_filter_None_2. right. intros b Eb Hb. apply N. symmetry. exact (Hu j b Eb Hb).
Qed.
Lemma name_taken_false {A} (same : A -> bool) (t : table A) : name_taken same None t = false ->
  forall k a, rows t !! k = Some a -> same a = false.
Proof.
  unfold name_taken. rewrite bool_decide_eq_false. intros H k a E. destruct (same a) eqn:Es; [|done]. exfalso.
  apply H. intros H0. apply (eq_None_ne_Some_1 _ a (lookup_empty k : (∅ : gmap Z A) !! k = None)).
  rewrite <- H0. apply map_lookup_filter_Some_2; [done|]. by split.
Qed.

(** ** Sessions *)

Definition lifetime : Z := kSessionLifetimeSeconds * 1000000.
Lemma lifetime_interval : secondsToInterval kSessionLifetimeSeconds = Ok lifetime.
Proof. reflexivity. Qed.
Lemma touch_threshold touch : 0 <= touch <= kSessionLifetimeSeconds ->
  int64_ok (kSessionLifetimeSeconds - touch) = true /\
  secondsToInterval (kSessionLifetimeSeconds - touch) = Ok (lifetime - touch * 1000000).
Proof.
  intros H. assert (Hb : forall z, 0 <= z <= kSessionLifetimeSeconds * 1000000 -> int64_ok z = true).
  { intros z Hz. apply int64_ok_spec. unfold kSessionLifetimeSeconds, int64_min, int64_max in *. lia. }
  unfold secondsToInterval, lifetime. rewrite !Hb; unfold kSessionLifetimeSeconds in *; [|lia..].
  split; [done|]. f_equal. lia.
Qed.
Lemma validate_Some raw touch w U : sessionTouchIntervalSeconds = Ok touch -> 0 <= touch <= kSessionLifetimeSeconds ->
  session_user (hashToken raw) (w_clock w) (w_db w) = Some U ->
  validateSession raw w = (Ok (Some U), w <| w_db := (w_db w) <| sessions ::= map_rows (fun _ s =>
    Some (touch_session (hashToken raw) (w_clock w + (lifetime - touch * 1000000)) (w_clock w + lifetime) s)) |> |>).
Proof.
  intros Ht Hr Hs. destruct (touch_threshold _ Hr) as [H1 H2].
  unfold validateSession, mbind, now, query. rewrite Hs. unfold lift. rewrite Ht, H1. cbn [negb].
  rewrite lifetime_interval, H2. done.
Qed.
Lemma validate_None raw w : session_user (hashToken raw) (w_clock w) (w_db w) = None -> validateSession raw w = (Ok None, w).
Proof. intros H. unfold validateSession, mbind, now, query. by rewrite H. Qed.

(** A session slides: a token that validates belongs to a live session of that
    user; from then on the session lasts at least the lifetime less the touch interval
    (29 days by default) and never less than before; it is only written when that
    changes it; all other sessions keep their expiry, and a token without a live session is refused
    without a write. *)
Theorem session_slides (raw : string) (touch : Z) (w w' : World) (res : option Z) :
  sessionTouchIntervalSeconds = Ok touch -> 0 <= touch <= kSessionLifetimeSeconds ->
  validateSession raw w = (Ok res, w') ->
  match res with
  | Some U =>
      (exists k s, rows (sessions (w_db w)) !! k = Some s /\ s_user_id s = U /\ s_token_hash s = hashToken raw /\
         w_clock w < s_expires_at s) /\
      (forall k s, rows (sessions (w_db w)) !! k = Some s -> exists s', rows (sessions (w_db w')) !! k = Some s' /\
         s_user_id s' = s_user_id s /\ s_token_hash s' = s_token_hash s /\ s_expires_at s <= s_expires_at s' /\
         (s_token_hash s = hashToken raw -> w_clock w + (lifetime - touch * 1000000) <= s_expires_at s') /\
         (s_token_hash s <> hashToken raw \/ w_clock w + (lifetime - touch * 1000000) <= s_expires_at s -> s' = s))
  | None =>
      w' = w /\ forall k s, rows (sessions (w_db w)) !! k = Some s -> s_token_hash s = hashToken raw -> s_expires_at s <= w_clock w
  end.
Proof.
  intros Ht Hr H. destruct (session_user (hashToken raw) (w_clock w) (w_db w)) as [U|] eqn:Hs.
  - rewrite (validate_Some _ _ _ _ Ht Hr Hs) in H. injection H as <- <-. split.
    + unfold session_user in Hs. destruct (select _ _) as [|[k s] l] eqn:Es; [done|]. injection Hs as <-.
      assert (Hin : (k, s) ∈ (k, s) :: l) by left. rewrite <- Es in Hin. apply select_elem in Hin as [E Hl].
      exists k, s. unfold live_session in Hl. apply andb_true_iff in Hl as [Hl1 Hl2]. apply bool_decide_eq_true in Hl1.
      apply Z.ltb_lt in Hl2. done.
    + intros k s E. cbn [w_db set_field sessions map_rows rows]. rewrite map_lookup_imap, E. cbn [mbind option_bind].
      eexists. split; [reflexivity|]. unfold touch_session.
      assert (Hl : 0 <= lifetime) by done. assert (Ht1 : touch * 1000000 <= lifetime) by (unfold lifetime; lia).
      case_bool_decide as Hh; cbn [andb]; [|naive_solver lia].
      destruct (Z.ltb_spec (s_expires_at s) (w_clock w + (lifetime - touch * 1000000))) as [Hlt|Hge].
      * cbn. split; [done|split; [done|split; [lia|split; [lia|]]]]. intros [?|?]; [done|lia].
      * split; [done|split; [done|split; [lia|split; [lia|done]]]].
  - rewrite (validate_None _ _ Hs) in H. injection H as <- <-. split; [done|]. intros k s E Hh.
    unfold session_user in Hs. destruct (select _ _) as [|[k' s'] l] eqn:Es; [|done].
    destruct (Z.le_gt_cases (s_expires_at s) (w_clock w)) as [|Hgt]; [done|]. exfalso.
    assert (Hin : (k, s) ∈ select (live_session (hashToken raw) (w_clock w)) (sessions (w_db w))).
    { apply select_elem. split; [done|]. unfold live_session. rewrite bool_decide_true by done. by apply Z.ltb_lt. }
    rewrite Es in Hin. by apply elem_of_nil in Hin.
Qed.

(** C35: A login's token works: the token a login returns validates at once as the
    user of that e-mail, and no longer does after it is logged out. *)
Theorem login_token_authenticates (email password raw : string) (touch : Z) (w w' : World) :
  sessionTouchIntervalSeconds = Ok touch -> 0 <= touch <= kSessionLifetimeSeconds -> below (sessions (w_db w)) ->
  login email password w = (Ok (Some raw), w') ->
  exists U u, find_user email (w_db w) = Some (U, u) /\ verify password (u_password_hash u) = true /\
    (validateSession raw w').1 = Ok (Some U) /\
    validateSession raw (logout raw w').2 = (Ok None, (logout raw w').2).
Proof.
  intros Ht Hr Hb H. unfold login, mbind at 1, query in H. destruct (find_user email (w_db w)) as [[U u]|]; [|done].
  exists U, u. destruct (verify password (u_password_hash u)) eqn:Hv; [|done]. cbn [negb] in H.
  unfold mbind, draw_token, lift in H. rewrite lifetime_interval in H. unfold now, exec_, exec in H.
  destruct (sql_insert_session _ _ _ _) as [d'| |] eqn:Es; [|done..]. unfold mret in H. injection H as <- <-.
  split; [done|split; [done|]]. unfold sql_insert_session in Es. ok_inv.
  unfold guard in Ha. destruct (name_taken _ _ _) eqn:Htk; [done|]. pose proof (name_taken_false _ _ Htk) as Hfree. cbn in Hfree.
  set (raw := generateToken (w_rand w) 32) in *. split.
  - rewrite (validate_Some raw touch _ U Ht Hr); [done|]. unfold session_user.
    rewrite (select_one _ _ (seq (sessions (w_db w))) (mkSession U (hashToken raw) (w_clock w + lifetime))); [done|..].
    + cbn. by rewrite lookup_insert_eq.
    + unfold live_session. cbn. rewrite bool_decide_true by done. apply Z.ltb_lt. unfold lifetime, kSessionLifetimeSeconds. lia.
    + intros k s E Hl. cbn in E. apply lookup_insert_Some in E as [[<- _]|[_ E]]; [done|].
      specialize (Hfree k s E). unfold live_session in Hl. rewrite Hfree in Hl. done.
  - apply validate_None. unfold session_user. rewrite select_none; [done|]. intros k s E. cbn in E.
    apply map_lookup_filter_Some in E as [_ E]. cbn in E. apply negb_true_iff in E. unfold live_session. by rewrite E.
Qed.

(** C34: A password reset ends every session of the account: afterwards no session of
    that user exists, the sessions of all others are as they were, the password hash
    is the new one, and the token is spent, so a second use is refused and changes
    nothing. *)
Theorem reset_ends_sessions (raw newPassword : string) (w w' : World) :
  confirmPasswordReset raw newPassword w = (Ok true, w') ->
  exists U h, token_user (hashToken raw) "reset" (w_clock w) (w_db w) = Some U /\
    crypto_pwhash_str (w_rand w) newPassword = Some h /\
    (forall k s, rows (sessions (w_db w')) !! k = Some s <-> rows (sessions (w_db w)) !! k = Some s /\ s_user_id s <> U) /\
    (forall u, rows (users (w_db w)) !! U = Some u -> rows (users (w_db w')) !! U = Some (u <| u_password_hash := h |>)) /\
    confirmPasswordReset raw newPassword w' = (Ok false, w').
Proof.
  intros H. unfold confirmPasswordReset, mbind at 1, now, mbind at 1, query in H.
  destruct (token_user _ _ _ _) as [U|] eqn:Htu; [|done]. unfold mbind at 1, hash in H.
  destruct (crypto_pwhash_str (w_rand w) newPassword) as [h|]; [|done]. exists U, h. split; [done|split; [done|]].
  unfold mbind, transaction, transactionE, exec_, exec, mbind, mret, sql_set_user in H. cbn [w_db set_field] in H.
  injection H as <-. cbn [w_db set_field]. split; [|split].
  - intros k s. destruct (rows (users (w_db w)) !! U); cbn; rewrite map_lookup_filter_Some; cbn;
      by rewrite negb_true_iff, Z.eqb_neq.
  - intros u E. rewrite E. cbn. by rewrite lookup_insert_eq.
  - unfold confirmPasswordReset, mbind at 1, now, mbind at 1, query. cbn [w_db set_field w_clock].
    assert (Hn : forall d t, token_user (hashToken raw) "reset" t (drop_token (hashToken raw) d) = None).
    { intros d t. unfold token_user. rewrite select_none; [done|]. intros k a E. cbn in E.
      apply map_lookup_filter_Some in E as [_ E]. cbn in E. apply negb_true_iff in E. unfold live_token. by rewrite E. }
    by rewrite Hn.
Qed.

(** ** Registration *)

Definition seeds (U : Z) : list category_row :=
  map (fun nm => mkCategory U nm false) kExpenseCategories ++ map (fun nm => mkCategory U nm true) kIncomeCategories.
Lemma seed_makes U income l :
  makes (for_each (seed_category U income) l) (fun _ d d' =>
    d' = d <| categories ::= insert_rows (map (fun nm => mkCategory U nm income) l) |>).
Proof.
  induction l as [|nm l IH]; cbn [for_each].
  - eapply makes_weaken; [apply makes_ret|]. intros _ d d' [_ ->]. by destruct d.
  - eapply (makes_bind _ _ (fun _ d d' => d' = d <| categories ::= insert_row (mkCategory U nm income) |>)); [|intros ?; exact IH|].
    + unfold seed_category. eapply (makes_bind _ _ _ (fun _ _ d d' => d' = d)); [apply makes_exec| |].
      * intros ?. eapply makes_weaken; [apply makes_ret|]. by intros ? ? ? [_ ->].
      * intros id b d1 d2 d3 H ->. unfold insert_unique in H. ok_inv. done.
    + by intros _ _ d1 d2 d3 -> ->.
Qed.

(** What follows the new user's row. *)
Definition seed_all (U : Z) : M Z :=
  for_each (seed_category U false) kExpenseCategories ;!
  for_each (seed_category U true) kIncomeCategories ;!
  exec (insert_unique same_payment_method p_user_id payment_methods (mkPaymentMethod U kDefaultPaymentMethod false)) ;!
  mret U.
Lemma insert_rows_app {A} (l1 l2 : list A) (t : table A) : insert_rows (l1 ++ l2) t = insert_rows l2 (insert_rows l1 t).
Proof. unfold insert_rows. apply fold_left_app. Qed.
Lemma seed_all_makes U : makes (seed_all U) (fun a d d' => a = U /\
  d' = d <| categories ::= insert_rows (seeds U) |>
         <| payment_methods ::= insert_row (mkPaymentMethod U kDefaultPaymentMethod false) |>).
Proof.
  unfold seed_all.
  eapply (makes_bind _ _ _ (fun _ a d d' => a = U /\ d' = d <| categories ::= insert_rows (map (fun nm => mkCategory U nm true) kIncomeCategories) |>
    <| payment_methods ::= insert_row (mkPaymentMethod U kDefaultPaymentMethod false) |>)); [apply seed_makes|intros ?|].
  - eapply (makes_bind _ _ _ (fun _ a d d' => a = U /\ d' = d <| payment_methods ::= insert_row (mkPaymentMethod U kDefaultPaymentMethod false) |>));
      [apply seed_makes|intros ?|by intros u1 a1 d1 d2 d3 -> [-> ->]].
    eapply (makes_bind _ _ _ (fun _ a d d' => a = U /\ d' = d)); [apply makes_exec|intros ?; apply makes_ret|].
    intros id a1 d1 d2 d3 Hi [-> ->]. unfold insert_unique in Hi. ok_inv. done.
  - intros u1 a1 d1 d2 d3 -> [-> ->]. split; [done|]. destruct d1. unfold seeds. cbn -[insert_rows app map]. by rewrite insert_rows_app.
Qed.
Lemma insert_unique_defined {A} (same : A -> A -> bool) owner (f : Db -> table A) `{!Setter f} row d u :
  insert_unique same owner f row d <> UB u.
Proof. unfold insert_unique, guard. repeat case_match; discriminate. Qed.
Lemma seed_all_defined U : defined (seed_all U).
Proof.
  assert (Hs : forall income l, defined (for_each (seed_category U income) l)).
  { intros income l. apply defined_for_each. intros nm. apply defined_bind; [|done]. apply defined_exec.
    intros. apply insert_unique_defined. }
  unfold seed_all. apply defined_bind; [apply Hs|intros _]. apply defined_bind; [apply Hs|intros _].
  apply defined_bind; [|done]. apply defined_exec. intros. apply insert_unique_defined.
Qed.

(** C36: Registration is equal for every tenant and all or nothing: on success there
    is one new user with the given e-mail, unverified, with its own copy of the 19
    expense and 4 income categories and of the cash payment method; an e-mail already
    in use, in any case, is refused as such, and whatever goes wrong no row is left
    behind. *)
Theorem registration_atomic (email password h : string) (w : World) :
  crypto_pwhash_str (w_rand w) password = Some h ->
  match registerUser email password w with
  | (Ok U, w') => U = seq (users (w_db w)) /\ find_user email (w_db w) = None /\
      users (w_db w') = insert_row (mkUser email h None) (users (w_db w)) /\
      categories (w_db w') = insert_rows (seeds U) (categories (w_db w)) /\
      payment_methods (w_db w') = insert_row (mkPaymentMethod U "cash" false) (payment_methods (w_db w)) /\
      receipts (w_db w') = receipts (w_db w)
  | (Throw e, w') => same_rows (w_db w) (w_db w') /\ (find_user email (w_db w) <> None -> e = DuplicateEmailError)
  | (UB _, _) => False
  end.
Proof.
  intros Hh. unfold registerUser, mbind at 1, hash at 1. rewrite Hh. set (w1 := w <| w_rand ::= S |>).
  unfold mcatch, transaction, transactionE, mbind at 1, mbind at 1, exec at 1, sql_insert_user.
  change (w_db w1) with (w_db w).
  destruct (name_taken (same_email email) None (users (w_db w))) eqn:Htk; cbn [guard negb obind].
  { cbn. split; [apply same_rows_rollback|done]. }
  assert (Hf : find_user email (w_db w) = None).
  { unfold find_user. rewrite select_none; [done|]. by apply name_taken_false. }
  rewrite Hf. set (U := seq (users (w_db w))). set (w2 := w1 <| w_db := _ |>).
  pose proof (seed_all_makes U w2) as Hm. pose proof (seed_all_defined U w2) as Hdef. unfold wp, seed_all in Hm, Hdef.
  match goal with |- context [mbind ?k ?m w2] => destruct (mbind k m w2) as [[a|e|u] w3] end; [|cbn|by destruct (Hdef u)].
  - destruct (Hm a eq_refl) as [[-> Hd] _]. cbn in Hd |- *. by rewrite Hd.
  - case_match; (split; [apply same_rows_rollback|done]).
Qed.

(** ** Failed logins *)

Lemma limiter_db (f : Limits -> gmap string Entry) {S : Setter f} key w : w_db (limiter_allow f key w).2 = w_db w.
Proof. unfold limiter_allow. repeat case_match; done. Qed.
Lemma checkRateLimit_db ip email w r w' :
  checkRateLimit ip email (limiter_allow login_ip) (limiter_allow login_account) w = (r, w') -> w_db w' = w_db w.
Proof.
  unfold checkRateLimit, mbind. pose proof (limiter_db login_ip ip w) as H1.
  destruct (limiter_allow login_ip ip w) as [[a| |] w1]; cbn in H1; [|by intros [= _ <-]..].
  pose proof (limiter_db login_account email w1) as H2.
  destruct (limiter_allow login_account email w1) as [[b| |] w2]; cbn in H2; intros [= _ <-]; congruence.
Qed.

(** A failed login does not tell which part was wrong: for an e-mail without an
    account and for a wrong password alike the answer is the same 401 and, beyond the
    attempt counted by the rate limiters, nothing changes. *)
Theorem failed_login_uniform `{JT : JsonText} (req : Request) (email password : string) (w w1 : World) :
  missing ["email"; "password"]%string (parseBody req) = false ->
  get_string "email" (parseBody req) = Ok email -> get_string "password" (parseBody req) = Ok password ->
  checkRateLimit (rq_peer req) email (limiter_allow login_ip) (limiter_allow login_account) w = (Ok true, w1) ->
  (find_user email (w_db w) = None \/
   exists U u, find_user email (w_db w) = Some (U, u) /\ verify password (u_password_hash u) = false) ->
  login_handler req w = (errorResponse 401 "invalid_credentials" "wrong email or password", w1).
Proof.
  intros Hm He Hp Hl Hu. pose proof (checkRateLimit_db _ _ _ _ _ Hl) as Hd.
  unfold login_handler. rewrite Hm. unfold mbind, lift at 1. rewrite He. unfold lift at 1. rewrite Hp, Hl. cbn [negb].
  unfold login, mbind, query. rewrite Hd. destruct Hu as [->|(U & u & -> & ->)]; done.
Qed.
End Auth.

(** ** Witnesses *)

Lemma token_encoding_witness :
  unhex (chars (generateToken 7%nat 4%nat)) = Some (randombytes_buf 7%nat 4%nat) /\
  (crypto_hash_sha256 "a" <> crypto_hash_sha256 "b" -> hashToken "a" <> hashToken "b").
Proof. destruct (token_encoding 7%nat 4%nat "a" "b") as (H1 & _ & _ & _ & H2). split; assumption. Defined.

Definition ex_login : outcome (option string) * World := Eval vm_compute in login "Ann@Example.com" "secret" ex_world.
Definition ex_token : string := Eval vm_compute in generateToken 0%nat 32%nat.
Lemma session_slides_witness :
  (exists k s, rows (sessions (w_db ex_login.2)) !! k = Some s /\ s_user_id s = 1 /\ s_token_hash s = hashToken ex_token /\
     1000 < s_expires_at s).
Proof.
  assert (E : validateSession ex_token ex_login.2 = (Ok (Some 1), (validateSession ex_token ex_login.2).2)) by by_vm.
  assert (T : sessionTouchIntervalSeconds = Ok 86400) by by_vm.
  assert (B : 0 <= 86400 <= kSessionLifetimeSeconds) by (unfold kSessionLifetimeSeconds; lia).
  exact (proj1 (session_slides ex_token 86400 ex_login.2 _ (Some 1) T B E)).
Defined.
Lemma login_token_authenticates_witness :
  exists U u, find_user "Ann@Example.com" ex_db = Some (U, u) /\ verify "secret" (u_password_hash u) = true /\
    (validateSession ex_token ex_login.2).1 = Ok (Some U) /\
    validateSession ex_token (logout ex_token ex_login.2).2 = (Ok None, (logout ex_token ex_login.2).2).
Proof.
  apply (login_token_authenticates "Ann@Example.com" "secret" ex_token 86400 ex_world ex_login.2).
  - by_vm.
  - unfold kSessionLifetimeSeconds. lia.
  - apply all_none.
  - by_vm.
Defined.
Definition ex_reset : outcome string * World := Eval vm_compute in requestPasswordReset "ann@example.com" ex_login.2.
Definition ex_confirmed : outcome bool * World := Eval vm_compute in confirmPasswordReset (generateToken 1%nat 32%nat) "new" ex_reset.2.
Lemma reset_ends_sessions_witness :
  exists U h, token_user (hashToken (generateToken 1%nat 32%nat)) "reset" 1000 (w_db ex_reset.2) = Some U /\
    crypto_pwhash_str (w_rand ex_reset.2) "new" = Some h /\
    (forall k s, rows (sessions (w_db ex_confirmed.2)) !! k = Some s <-> rows (sessions (w_db ex_reset.2)) !! k = Some s /\ s_user_id s <> U) /\
    (forall u, rows (users (w_db ex_reset.2)) !! U = Some u -> rows (users (w_db ex_confirmed.2)) !! U = Some (u <| u_password_hash := h |>)) /\
    confirmPasswordReset (generateToken 1%nat 32%nat) "new" ex_confirmed.2 = (Ok false, ex_confirmed.2).
Proof. apply (reset_ends_sessions (generateToken 1%nat 32%nat) "new" ex_reset.2 ex_confirmed.2). by_vm. Defined.
Definition ex_registered : outcome Z * World := Eval vm_compute in registerUser "bob@example.com" "pw" ex_world.
Lemma registration_atomic_witness :
  match registerUser "bob@example.com" "pw" ex_world with
  | (Ok U, w') => U = seq (users (w_db ex_world)) /\ find_user "bob@example.com" (w_db ex_world) = None /\
      users (w_db w') = insert_row (mkUser "bob@example.com" "pw" None) (users (w_db ex_world)) /\
      categories (w_db w') = insert_rows (seeds U) (categories (w_db ex_world)) /\
      payment_methods (w_db w') = insert_row (mkPaymentMethod U "cash" false) (payment_methods (w_db ex_world)) /\
      receipts (w_db w') = receipts (w_db ex_world)
  | (Throw e, w') => same_rows (w_db ex_world) (w_db w') /\ (find_user "bob@example.com" (w_db ex_world) <> None -> e = DuplicateEmailError)
  | (UB _, _) => False
  end.
Proof. apply (registration_atomic "bob@example.com" "pw" "pw" ex_world). by_vm. Defined.
Definition ex_login_text : JsonText := {|
  json_dump := fun _ => Ok "{}"%string;
  json_parse := fun _ => Ok (JObject [("email", JString "nobody"); ("password", JString "x")]%string)
|}.
Definition ex_request : Request := mkRequest "" "" (fun _ => ""%string) None "10.0.0.1".
Definition ex_counted : outcome bool * World := Eval vm_compute in
  checkRateLimit "10.0.0.1" "nobody" (limiter_allow login_ip) (limiter_allow login_account) ex_world.
Lemma failed_login_uniform_witness :
  login_handler (JT := ex_login_text) ex_request ex_world =
    (errorResponse (JT := ex_login_text) 401 "invalid_credentials" "wrong email or password", ex_counted.2).
Proof. apply (failed_login_uniform ex_request "nobody" "x" ex_world ex_counted.2); [by_vm..|left; by_vm]. Defined.
