(* ===== verification/StorageTheorems.v ===== *)
(** * What a request signature covers

    The canonical request of Sigv4Signer.cpp determines the request it was built
    from, and [uriEncodePath] of S3ImageStore.cpp loses nothing of the object key, so
    a signature (a MAC of the digest of that text) is one of a single request. *)
From Stdlib Require Import Ascii.
From S2P Require Import Prelude CString Binary64 Json Calendar JsonInput LedgerInput TokenUtils Env Db Sigv4Signer Examples.

(** ** Percent decoding *)

Definition unhex_upper (c : ascii) : option Z :=
  if char_in 48 57 c then Some (byte_of c - 48)
  else if char_in 65 70 c then Some (byte_of c - 55) else None.
Fixpoint uri_decode (l : list ascii) : option (list ascii) :=
  match l with
  | [] => Some []
  | "%"%char :: a :: b :: l' =>
      x ← unhex_upper a; y ← unhex_upper b; rest ← uri_decode l'; Some (char_of (16 * x + y) :: rest)
  | c :: l' => rest ← uri_decode l'; Some (c :: rest)
  end.
Definition uri_char (c : ascii) : bool := unreserved c || bool_decide (c ∈ ["/"; "%"]%char).

Definition encode_byte_ok (c : ascii) : bool :=
  forallb uri_char (encode_byte c) &&
  match encode_byte c with
  | [d] => bool_decide (d = c) && negb (bool_decide (c = "%"%char))
  | [p; a; b] => bool_decide (p = "%"%char) &&
      bool_decide ((x ← unhex_upper a; y ← unhex_upper b; Some (char_of (16 * x + y))) = Some c)
  | _ => false
  end.
Lemma encode_byte_all c : encode_byte_ok c = true.
Proof. revert c. apply all_bytes_spec. vm_compute. reflexivity. Qed.

Lemma decode_plain c l : c <> "%"%char -> uri_decode (c :: l) = (rest ← uri_decode l; Some (c :: rest)).
Proof. intros N. destruct c as [[] [] [] [] [] [] [] []]; done. Qed.
Lemma decode_escape a b l : uri_decode ("%"%char :: a :: b :: l) =
  (x ← unhex_upper a; y ← unhex_upper b; rest ← uri_decode l; Some (char_of (16 * x + y) :: rest)).
Proof. done. Qed.
Lemma decode_encode_byte c l : uri_decode (encode_byte c ++ l) = (rest ← uri_decode l; Some (c :: rest)).
Proof.
  pose proof (encode_byte_all c) as H. unfold encode_byte_ok in H. apply andb_true_iff in H as [_ H].
  destruct (encode_byte c) as [|p [|a [|b [|? ?]]]]; try done; cbn [app].
  - apply andb_true_iff in H as [->%bool_decide_eq_true N%negb_true_iff%bool_decide_eq_false]. by apply decode_plain.
  - apply andb_true_iff in H as [->%bool_decide_eq_true H%bool_decide_eq_true]. rewrite decode_escape.
    destruct (unhex_upper a) as [x|]; [|done]. destruct (unhex_upper b) as [y|]; [|done]. cbn in *. by injection H as ->.
Qed.
Lemma decode_uriEncodePath path : uri_decode (chars (uriEncodePath path)) = Some (chars path).
Proof.
  unfold uriEncodePath. rewrite chars_of_chars. induction (chars path) as [|c l IH]; [done|].
  by rewrite bind_cons, decode_encode_byte, IH.
Qed.
Lemma uriEncodePath_chars path : all_chars uri_char (uriEncodePath path) = true.
Proof.
  unfold all_chars, uriEncodePath. rewrite chars_of_chars. induction (chars path) as [|c l IH]; [done|].
  rewrite bind_cons, forallb_app, IH, andb_true_r. pose proof (encode_byte_all c) as H.
  by apply andb_true_iff in H as [H _].
Qed.
#[export] Instance uriEncodePath_inj : Inj (=) (=) uriEncodePath.
Proof.
  intros x y H. apply chars_inj. apply (f_equal (fun s => uri_decode (chars s))) in H.
  rewrite !decode_uriEncodePath in H. by injection H.
Qed.

(** ** Lines *)

Definition one_line (s : string) : bool := all_chars (fun c => negb (bool_decide (c = "010"%char))) s.
Lemma all_chars_impl (p q : ascii -> bool) s : (forall c, implb (p c) (q c) = true) -> all_chars p s = true -> all_chars q s = true.
Proof.
  intros Hpq. unfold all_chars. rewrite !forallb_forall. intros H c Hc. specialize (Hpq c). by rewrite (H c Hc) in Hpq.
Qed.
Lemma uriEncodePath_line path : one_line (uriEncodePath path) = true.
Proof.
  apply (all_chars_impl uri_char); [|apply uriEncodePath_chars]. apply all_bytes_spec. vm_compute. reflexivity.
Qed.
Lemma toHex_line data : one_line (toHex data) = true.
Proof. apply (all_chars_impl is_hex); [|apply toHex_hex]. apply all_bytes_spec. vm_compute. reflexivity. Qed.

Lemma append_assoc a b c : (a +:+ b) +:+ c = a +:+ b +:+ c.
Proof. apply chars_inj. by rewrite !chars_app, <- app_assoc. Qed.
Lemma first_line a b x y : one_line a = true -> one_line b = true -> a +:+ nl +:+ x = b +:+ nl +:+ y -> a = b /\ x = y.
Proof.
  revert b. induction a as [|c a IH]; intros [|d b] Ha Hb; cbn.
  - intros H. by injection H.
  - intros H. injection H as <- _. done.
  - intros H. injection H as -> _. done.
  - intros H. injection H as <- H. unfold one_line, all_chars in *. cbn in Ha, Hb.
    apply andb_true_iff in Ha as [_ Ha]. apply andb_true_iff in Hb as [_ Hb].
    destruct (IH b Ha Hb H) as [-> ->]. done.
Qed.
Lemma prefixed p a b x y : one_line a = true -> one_line b = true -> p +:+ a +:+ nl +:+ x = p +:+ b +:+ nl +:+ y -> a = b /\ x = y.
Proof. intros Ha Hb H. apply (inj (String.append p)) in H. by apply first_line. Qed.

(** C40: A signature covers one request: two requests with the same canonical text
    (what is digested and MACed) have the same method, object key, host, time and
    payload digest, which is also the digest the request header carries; and an object
    key always arrives as sent, its path made of unreserved characters, slashes and
    escapes that decode to the key. *)
Theorem signature_covers_request `{SO : Sodium} (config : S3Config) (m m' key key' host host' payload payload' t t' : string) :
  Forall (fun s => one_line s = true) [m; m'; host; host'; t; t'] ->
  canonicalRequest m (canonicalUri config key) host (sha256_hex payload) t =
  canonicalRequest m' (canonicalUri config key') host' (sha256_hex payload') t' ->
  (m = m' /\ key = key' /\ host = host' /\ t = t' /\ crypto_hash_sha256 payload = crypto_hash_sha256 payload') /\
  all_chars uri_char (canonicalUri config key) = true /\
  uri_decode (chars (canonicalUri config key)) =
    Some (chars (if pathStyle config then "/" +:+ bucket config +:+ "/" +:+ key else "/" +:+ key)).
Proof.
  intros Hl H. rewrite !Forall_cons in Hl. destruct Hl as (Hm & Hm' & Hh & Hh' & Ht & Ht' & _).
  split; [|split; [apply uriEncodePath_chars|apply decode_uriEncodePath]].
  assert (E : forall m u h p t, canonicalRequest m u h p t =
    m +:+ nl +:+ (u +:+ nl +:+ (("" +:+ nl +:+ "host:") +:+ h +:+ nl +:+ ("x-amz-content-sha256:" +:+ p +:+ nl +:+
      ("x-amz-date:" +:+ t +:+ nl +:+ (nl +:+ signedHeaderNames +:+ nl +:+ p)))))).
  { intros. unfold canonicalRequest, nl. rewrite !append_assoc. done. }
  rewrite !E in H. clear E. apply first_line in H as [<- H]; [|done..]. unfold canonicalUri in H.
  apply first_line in H as [Hu H]; [|apply uriEncodePath_line..].
  apply prefixed in H as [<- H]; [|done..]. apply prefixed in H as [Hp H]; [|apply toHex_line..].
  apply prefixed in H as [<- _]; [|done..]. apply (inj toHex) in Hp. apply (inj uriEncodePath) in Hu.
  split; [done|split; [|done]]. destruct (pathStyle config).
  - by do 3 apply (inj (String.append _)) in Hu.
  - by apply (inj (String.append _)) in Hu.
Qed.

Definition ex_s3 : S3Config := mkS3Config "http://localhost:9000" "us-east-1" "receipts" "k" "s" true.
Lemma signature_covers_request_witness :
  uri_decode (chars (canonicalUri ex_s3 "1/a b+.webp")) = Some (chars "/receipts/1/a b+.webp") /\
  canonicalUri ex_s3 "1/a b+.webp" = "/receipts/1/a%20b%2B.webp"%string.
Proof.
  split; [|reflexivity].
  apply (signature_covers_request ex_s3 "PUT" "PUT" "1/a b+.webp" "1/a b+.webp" "localhost:9000" "localhost:9000"
           "body" "body" "20260101T000000Z" "20260101T000000Z"); [repeat constructor|reflexivity].
Defined.
