(* ===== verification/ItemTheorems.v ===== *)
(** * Edits of an item

    The functional behaviour of [ItemService::update] (ItemService.v). *)
From stdpp Require Import sorting.
From S2P Require Import Prelude CString Binary64 Json Kinds JsonInput LedgerInput TokenUtils RateLimiter Env Db World.
From S2P Require Import ItemService ReceiptService ReferenceData AuthService Http ScanWorker.
From S2P Require Import Invariant Statements Safety ScanQueue ScanWrites Examples.

Section Items.
Context `{PG : Postgres} `{IS : ImageStore}.

Lemma elem_of_tags_of iid d t : t ∈ tags_of iid d <-> (iid, t) ∈ item_tags d.
Proof.
  unfold tags_of. rewrite merge_sort_Permutation, list_elem_of_fmap. split.
  - intros ([i t'] & -> & [Hi Hin]%list_elem_of_filter). cbn in *. subst. by apply elem_of_elements in Hin.
  - intros H. exists (iid, t). split; [done|]. apply list_elem_of_filter. split; [done|]. by apply elem_of_elements.
Qed.
Lemma elem_of_links iid ids l : l ∈ links_of iid ids <-> l.1 = iid /\ l.2 ∈ ids.
Proof.
  unfold links_of. rewrite elem_of_list_to_set, list_elem_of_fmap. destruct l as [i t]. cbn. split.
  - by intros (x & [= -> ->] & H).
  - intros [-> H]. by exists t.
Qed.
Lemma require_Ok U c kind w w' : ItemService.requireCategoryFitsKind U c kind w = (Ok (), w') ->
  w' = w /\ exists cat, rows (categories (w_db w)) !! c = Some cat /\ c_user_id cat = U /\ fits (c_is_income cat) kind.
Proof.
  unfold ItemService.requireCategoryFitsKind, mbind at 1, query, owned_category. intros H.
  destruct (rows (categories (w_db w)) !! c) as [cat|]; [|done]. destruct (Z.eqb_spec (c_user_id cat) U) as [HU|]; [|done].
  unfold mbind at 1, lift at 1 in H. destruct (categoryFitsKind (c_is_income cat) kind) as [[]| |] eqn:Hf; try done.
  - injection H as <-. split; [done|]. by exists cat.
  - unfold mbind, lift in H. by destruct (rulesFor kind).
Qed.

(** PATCH of an item that returns wrote the patch and nothing else: the item of
    the user's receipt gets the patched columns, a category that was named is the
    user's and on the kind's side, the tags are exactly those given (or as before
    when none are given), and no other item, tag link or table changes.  The answer
    is the item as stored. *)
Theorem item_edit_writes_patch (U rid iid : Z) (body : json) (item : Item) (w w' : World) :
  ItemService.update U rid iid body w = (Ok item, w') ->
  exists r row input given,
    rows (receipts (w_db w)) !! rid = Some r /\ rc_user_id r = U /\
    rows (items (w_db w)) !! iid = Some row /\ it_receipt_id row = rid /\
    applyItemPatch (ItemService.itemToInput (mkItem iid row [])) body = Ok (input, given) /\
    (forall c, ii_categoryId input = Some c -> has "category_id" body = true ->
       exists cat, rows (categories (w_db w)) !! c = Some cat /\ c_user_id cat = U /\ fits (c_is_income cat) (er_kind (rc_fields r))) /\
    same_but_items (w_db w) (w_db w') /\
    items (w_db w') = update_row iid (ItemService.input_row rid input) (items (w_db w)) /\
    (forall l, l ∈ item_tags (w_db w') <->
       if (l.1 =? iid) && given then l.2 ∈ ii_tagIds input else l ∈ item_tags (w_db w)) /\
    i_id item = iid /\ i_row item = ItemService.input_row rid input /\
    (forall t, t ∈ i_tagIds item <-> (iid, t) ∈ item_tags (w_db w')).
Proof.
  intros H. unfold ItemService.update, transaction, transactionE, mbind at 1, mbind at 1 in H.
  unfold ItemService.ownedReceiptKind, mbind at 1, query at 1 in H.
  destruct (owned_receipt U rid (w_db w)) as [r|] eqn:E; [|done]. apply owned_receipt_Some in E as [E HU].
  unfold mret at 1, mbind at 1, query at 1 in H. destruct (rows (items (w_db w)) !! iid) as [row|] eqn:Ei; [|done].
  destruct (Z.eqb_spec (it_receipt_id row) rid) as [Hrid|]; [|done]. cbn [negb] in H.
  unfold mbind at 1, lift at 1 in H. destruct (applyItemPatch _ body) as [[input given]| |] eqn:Ep; [|done..].
  exists r, row, input, given. cbn iota beta in H. unfold mbind at 1 in H.
  match type of H with context [match ?m w with _ => _ end] => set (cat := m) in H end.
  assert (Hcat : forall w1, cat w = (Ok (), w1) -> w1 = w /\ forall c, ii_categoryId input = Some c -> has "category_id" body = true ->
    exists cat, rows (categories (w_db w)) !! c = Some cat /\ c_user_id cat = U /\ fits (c_is_income cat) (er_kind (rc_fields r))).
  { unfold cat. intros w1 Hc. destruct (ii_categoryId input) as [c|]; [|by injection Hc as <-].
    destruct (has "category_id" body); [|by injection Hc as <-]. apply require_Ok in Hc as [-> Hc].
    split; [done|]. by intros ? [= <-] _. }
  destruct (cat w) as [[[]| |] w1]; [|done..]. destruct (Hcat w1 eq_refl) as [-> Hfit]. clear Hcat cat.
  unfold mbind at 1, exec_ at 1, exec at 1 in H. unfold sql_update_item in H. destruct (guard _ _) as [[]| |]; [|done..].
  cbn [obind] in H. unfold mbind at 1 in H. set (w2 := w <| w_db := _ |>) in *.
  match type of H with context [match ?m w2 with _ => _ end] => set (retag := m) in H end.
  assert (Ht : forall w3, retag w2 = (Ok (), w3) -> w_db w3 = (w_db w2) <| item_tags ::= fun s =>
    if given then links_of iid (ii_tagIds input) ∪ filter (fun it => it.1 <> iid) s else s |>).
  { unfold retag. intros w3 Hr. destruct given.
    - pose proof (replaceTags_makes U iid (ii_tagIds input) w2) as Hm. unfold wp in Hm. rewrite Hr in Hm. by apply (Hm () eq_refl).
    - injection Hr as <-. by destruct w as [[]]. }
  destruct (retag w2) as [[[]| |] w3]; [|done..]. specialize (Ht w3 eq_refl). clear retag.
  unfold ItemService.fetchItem, mbind, query, ItemService.tagIdsFor, mret in H.
  assert (El : rows (items (w_db w3)) !! iid = Some (ItemService.input_row rid input)).
  { rewrite Ht. cbn. by rewrite lookup_insert_eq. }
  unfold query in H. rewrite El in H. injection H as <- <-. rewrite Ht. cbn [i_id i_row i_tagIds].
  split_and!; try done.
  - intros [i t]. cbn [w_db set_field w2 item_tags fst snd]. destruct given; cbn [andb]; [|by rewrite andb_false_r].
    rewrite elem_of_union, elem_of_links, elem_of_filter. cbn. destruct (Z.eqb_spec i iid); cbn; naive_solver.
  - intros t. by rewrite elem_of_tags_of.
Qed.
End Items.

Definition ex_item_patch : json := JObject [("name", JString "milk"); ("tag_ids", JArray [])]%string.
Definition ex_item_edited : outcome Item * World := Eval vm_compute in ItemService.update 1 1 1 ex_item_patch ex_manual_world.
Definition ex_edited_item : Item :=
  mkItem 1 (mkItemRow 1 (Some "milk"%string) None None 1250 (Some 1) false) [].
Lemma item_edit_writes_patch_witness :
  exists row, rows (items (w_db ex_manual_world)) !! 1 = Some row /\
    items (w_db ex_item_edited.2) = update_row 1 (i_row ex_edited_item) (items (w_db ex_manual_world)).
Proof.
  assert (E : ItemService.update 1 1 1 ex_item_patch ex_manual_world = (Ok ex_edited_item, ex_item_edited.2)) by by_vm.
  destruct (item_edit_writes_patch 1 1 1 ex_item_patch ex_edited_item ex_manual_world ex_item_edited.2 E)
    as (r & row & input & given & H1 & H2 & H3 & H4 & H5 & H6 & H7 & H8 & H9 & H10 & H11 & H12).
  exists row. split; [exact H3|]. rewrite H11. exact H8.
Defined.
