(* ===== verification/ViewTheorems.v ===== *)
(** * What counts

    The views of file Views over runs of the system: what counts as spend or income is
    what the user has reviewed, however many ticks, scans and crashes come between; and
    what a manual entry adds to every total. *)
From stdpp Require Import relations.
From S2P Require Import Prelude CString Binary64 Json Kinds JsonInput LedgerInput TokenUtils Env Db World.
From S2P Require Import ItemService ReceiptService ReferenceData ScanWorker Invariant Statements Safety.
From S2P Require Import ScanSafety ScanQueue ScanWrites Pipeline Views Examples SystemTheorems LedgerTheorems.

Definition items_of (id : Z) (d : Db) : gmap Z item_row := filter (fun kv => it_receipt_id kv.2 = id) (rows (items d)).

(** The columns of a receipt the totals depend on. *)
Record same_entry (r r' : receipt_row) : Prop := {
  se_user : rc_user_id r' = rc_user_id r;
  se_kind : kind_of r' = kind_of r;
  se_direction : er_direction (rc_fields r') = er_direction (rc_fields r);
  se_total : er_totalCents (rc_fields r') = er_totalCents (rc_fields r);
  se_currency : er_currency (rc_fields r') = er_currency (rc_fields r);
  se_aud : rc_aud_equivalent_cents r' = rc_aud_equivalent_cents r;
  se_method : er_paymentMethodId (rc_fields r') = er_paymentMethodId (rc_fields r) }.
#[export] Instance same_entry_preorder : PreOrder same_entry.
Proof. split; [by split|]. intros r1 r2 r3 [] []. split; congruence. Qed.
(** Every reviewed receipt of [d'] was reviewed in [d], with the same amounts, and with
    the same items if it had any. *)
Record unattended (d d' : Db) : Prop := {
  un_methods : rows (payment_methods d') = rows (payment_methods d);
  un_reviewed : forall k r', rows (receipts d') !! k = Some r' -> is_Some (rc_reviewed_at r') ->
    exists r, rows (receipts d) !! k = Some r /\ is_Some (rc_reviewed_at r) /\ same_entry r r' /\
      (items_of k d <> ∅ -> items_of k d' = items_of k d) }.
#[export] Instance unattended_preorder : PreOrder unattended.
Proof.
  split; [by split; [done|]; intros k r E Hr; exists r; repeat (split; [done|])|].
  intros d1 d2 d3 [M1 R1] [M2 R2]. split; [congruence|]. intros k r3 E3 H3.
  destruct (R2 k r3 E3 H3) as (r2 & E2 & H2 & S2 & I2). destruct (R1 k r2 E2 H2) as (r1 & E1 & H1 & S1 & I1).
  exists r1. split; [done|split; [done|split; [by etransitivity|]]]. intros N. specialize (I1 N). rewrite I2; [done|]. by rewrite I1.
Qed.

Lemma reviewed_confirmed r : confirmed r = true -> is_Some (rc_reviewed_at r).
Proof. unfold confirmed, is_confirmed. by destruct (rc_proposed_at r), (rc_reviewed_at r). Qed.

Section Unattended.
Context `{PG : Postgres} `{IS : ImageStore} `{SO : Sodium} `{EN : Environment} `{VI : Vips} `{PL : Platform}.
Context `{JT : JsonText} `{SP : ScanProvider} `{MM : MerchantMatcher} `{NO : Notifier}.
Context (config_ : ScanWorkerConfig).

Lemma unattended_queue d d' : queue_only d d' -> unattended d d'.
Proof.
  intros (t & -> & _ & Ht). split; [done|]. intros k r' E Hr. specialize (Ht k). cbn in E. rewrite E in Ht.
  destruct (rows (receipts d) !! k) as [r|]; [|done]. cbn in Ht. exists r. split; [done|].
  unfold queue_columns in Ht. rewrite Ht in Hr. rewrite Ht. split; [exact Hr|]. by split; [split|].
Qed.
Lemma unattended_rollback d d' : unattended d (rollback_db d d').
Proof. split; [done|]. intros k r E Hr. exists r. by repeat (split; [done|]). Qed.

(** Inserted items belong to the claimed receipt. *)
Lemma items_of_insert_rows k rid inputs (t : table item_row) : below t -> k <> rid ->
  filter (fun kv => it_receipt_id kv.2 = k) (rows (insert_rows (map (ItemService.input_row rid) inputs) t)) =
  filter (fun kv => it_receipt_id kv.2 = k) (rows t).
Proof.
  intros Hb N. revert t Hb. induction inputs as [|i l IH]; intros t Hb; [done|].
  cbn [map insert_rows fold_left]. fold (@insert_rows item_row).
  etransitivity; [apply IH; by apply below_insert|]. cbn. apply map_filter_insert_not'; [cbn; congruence|].
  intros j Ej. by rewrite below_fresh in Ej.
Qed.
Lemma items_of_none id d : (item_count id d =? 0) = true -> items_of id d = ∅.
Proof.
  intros H%Z.eqb_eq. unfold item_count in H. apply map_empty. intros k. apply eq_None_not_Some. intros [i Hi].
  unfold items_of in Hi. apply map_lookup_filter_Some in Hi as [Ei Hr]. cbn in Hr.
  pose proof (select_spec (fun i => it_receipt_id i =? id) (items d) k i Ei ltac:(by apply Z.eqb_eq)) as Hin.
  destruct (select _ _); [by apply elem_of_nil in Hin|cbn in H; lia].
Qed.
Lemma items_of_keep k id d : k <> id ->
  filter (fun kv => it_receipt_id kv.2 = k) (rows (keep_rows (fun i => negb (it_receipt_id i =? id)) (items d))) = items_of k d.
Proof.
  intros N. unfold items_of. cbn. rewrite map_filter_filter. apply map_filter_ext. intros j i _. cbn.
  rewrite negb_true_iff, Z.eqb_neq. split; [by intros []|intros ->; split; [done|congruence]].
Qed.

Lemma unattended_extracted c result tx r t d d' : below (items d) -> rows (receipts d) !! cl_receiptId c = Some r ->
  rc_reviewed_at r = None -> extracted c result tx r t d d' -> unattended d d'.
Proof.
  intros Hb E Hn [(rules & dir & raw & date & _ & _ & _ & _ & Er) (inputs & _ & Ei) (_ & _ & Ep & _)].
  split; [by rewrite Ep|]. intros k r' Ek Hr. rewrite Er in Ek. cbn in Ek.
  destruct (decide (k = cl_receiptId c)) as [->|N].
  - rewrite lookup_insert_eq in Ek. injection Ek as <-. cbn in Hr. rewrite Hn in Hr. by destruct Hr.
  - rewrite lookup_insert_ne in Ek by done. exists r'. split; [done|split; [done|split; [done|]]]. intros _.
    unfold items_of at 1. rewrite Ei, items_of_insert_rows by (done || by apply below_keep). by apply items_of_keep.
Qed.
Lemma unattended_verified c result tx m r t d d' : below (items d) -> rows (receipts d) !! cl_receiptId c = Some r ->
  is_Some (rc_reviewed_at r) -> verified c result tx m r t d d' -> unattended d d'.
Proof.
  intros Hb E Hs [(raw & date & _ & _ & Er) (inputs & Ei & Hi) (_ & _ & Ep & _)].
  split; [by rewrite Ep|]. intros k r' Ek Hr. rewrite Er in Ek. cbn in Ek.
  destruct (decide (k = cl_receiptId c)) as [->|N].
  - rewrite lookup_insert_eq in Ek. injection Ek as <-. exists r. split; [done|split; [done|split; [by split|]]].
    intros Hne. destruct (item_count _ d =? 0) eqn:H0; [by apply items_of_none in H0|].
    destruct Hi as [-> _]. unfold items_of. by rewrite Ei.
  - rewrite lookup_insert_ne in Ek by done. exists r'. split; [done|split; [done|split; [done|]]]. intros _.
    unfold items_of at 1. by rewrite Ei, items_of_insert_rows.
Qed.
Lemma unattended_write c result tx b m x w w' : db_ok (w_db w) -> (forall u, x <> UB u) ->
  write_attempt c result tx b m w = (x, w') -> unattended (w_db w) (w_db w').
Proof.
  intros Hok Hub H. assert (Hb : below (items (w_db w))) by apply (ok_below _ Hok).
  destruct (readSnapshot c (w_db w)) as [s|] eqn:Es.
  2: { apply stale_snapshot in Es. rewrite (stale_write c result tx b m w Es) in H. by injection H as <- <-. }
  destruct (decide (x = Ok true)) as [->|Hx].
  - destruct (attempt_commit c result tx b m w w' H) as (r & E & _ & _ & Hw); [by rewrite stale_snapshot, Es|].
    case_bool_decide as Hr; [by eapply unattended_verified|]. eapply unattended_extracted; [done|done| |done].
    by apply eq_None_not_Some.
  - pose proof H as H'. unfold write_attempt, transactionE, mbind at 1, query in H. rewrite Es in H.
    destruct (unchanged b s); [|injection H as <- <-; cbn; apply unattended_rollback].
    unfold mbind, mret in H.
    match type of H with context [(if ?c then ?m1 else ?m2) ?w0] => destruct ((if c then m1 else m2) w0) as [[u|e|u] w1] end;
      injection H as <- <-; [done|apply unattended_rollback|by destruct (Hub u)].
Qed.

Lemma unattended_record c scanError terminal error x w w' : db_ok (w_db w) -> claim_owned c (w_db w) ->
  recordFailure config_ c scanError terminal error w = (x, w') -> unattended (w_db w) (w_db w').
Proof.
  intros Hok HU H. unfold recordFailure, mbind, exec in H.
  destruct (sql_fail _ _ _ _) as [[o d']| |] eqn:E; [|by injection H as <- <-..].
  destruct (sql_fail_safe _ _ _ _ _ _ Hok HU E) as [_ Hq]. apply unattended_queue in Hq.
  revert H. case_bool_decide as Hf; [|by intros [= <- <-]].
  intros H. match type of H with ?m ?w1 = _ => pose proof (reads_notify (cl_userId c) (cl_receiptId c) error w1) as Hn end.
  rewrite H in Hn. cbn in Hn. by rewrite Hn.
Qed.
Lemma unattended_jstep c w st w' o : db_ok (w_db w) -> claim_owned c (w_db w) -> jstep config_ c w st w' o ->
  unattended (w_db w) (w_db w').
Proof.
  intros Hok HU H.
  assert (Hs : forall A (m : M A) x, reads m -> m w = (x, w') -> unattended (w_db w) (w_db w')).
  { intros A m x Hd E. specialize (Hd w). rewrite E in Hd. cbn in Hd. by rewrite Hd. }
  destruct H; try reflexivity; eauto using unattended_record, reads_get, reads_ask; (eapply unattended_write; [done| |eassumption]; done).
Qed.
Lemma unattended_background s s' : sys_ok s -> background config_ s s' -> unattended (w_db (sw s)) (w_db (sw s')).
Proof.
  intros [Hok J] H. destruct H as [w js t _|w js|w js claims w' Hc|w js1 c st js2 w' o Hj|]; cbn [sw jobs] in *; try reflexivity.
  - apply unattended_queue, (bookkeeping_only_queues config_ w Hok).
  - apply unattended_queue. replace w' with (claim config_ w).2 by by rewrite Hc. apply (bookkeeping_only_queues config_ w Hok).
  - apply Forall_app in J as [_ [(_ & HU & _) _]%Forall_cons]. by eapply unattended_jstep.
Qed.
Lemma unattended_run s s' : sys_ok s -> rtc (background config_) s s' -> unattended (w_db (sw s)) (w_db (sw s')).
Proof.
  intros Hs H. induction H as [s|s1 s2 s3 H12 _ IH]; [reflexivity|].
  etransitivity; [by eapply unattended_background|]. by eapply IH, background_ok.
Qed.

(** C9: Money counts only by the user's hand: over any stretch of a run without requests,
    whatever ticks, scans and crashes it holds, every receipt the spend and income views
    list afterwards had been reviewed by its user before, under the same id, with the
    same kind, currency, amount and sign, and, if it had items, with exactly these. *)
Theorem money_moves_by_hand (s s' : sys) (k : Z) (r' : receipt_row) :
  reachable config_ s -> rtc (background config_) s s' ->
  (k, r') ∈ v_countable_spend (w_db (sw s')) \/ (k, r') ∈ v_income (w_db (sw s')) ->
  exists r, rows (receipts (w_db (sw s))) !! k = Some r /\ is_Some (rc_reviewed_at r) /\ same_entry r r' /\
    signed_spend_cents r' = signed_spend_cents r /\
    stored_value r' (w_db (sw s')) = stored_value r (w_db (sw s)) /\
    (items_of k (w_db (sw s)) <> ∅ -> items_of k (w_db (sw s')) = items_of k (w_db (sw s))).
Proof.
  intros Hs%reachable_ok [Hm Hr]%(unattended_run _ _ Hs) Hin.
  assert (rows (receipts (w_db (sw s'))) !! k = Some r' /\ confirmed r' = true) as [E Hc].
  { destruct Hin as [H|H]; apply elem_of_map_to_list, map_lookup_filter_Some in H as [E H]; (split; [done|]); cbn in H.
    - by apply andb_true_iff in H as [[H _]%andb_true_iff _].
    - by apply andb_true_iff in H as [H _]. }
  destruct (Hr k r' E (reviewed_confirmed _ Hc)) as (r & Er & Hv & Hsame & Hi). exists r.
  split; [done|split; [done|split; [done|]]]. destruct Hsame as [_ Hk _ Ht _ _ Hp].
  unfold signed_spend_cents, stored_value. by rewrite Hk, Ht, Hp, Hm.
Qed.
End Unattended.

(** ** Totals *)

(** [SUM]. *)
Definition zsum (l : list Z) : Z := foldr Z.add 0 l.
#[export] Instance zsum_proper : Proper ((≡ₚ) ==> (=)) zsum.
Proof. intros l l' H. unfold zsum. induction H; cbn; lia. Qed.
Lemma zsum_filter {A} (P : A -> Prop) `{!forall x, Decision (P x)} (f : A -> Z) l :
  zsum (map f (filter P l)) = zsum (map (fun x => if decide (P x) then f x else 0) l).
Proof.
  unfold zsum in *. induction l as [|x l IH]; [done|]. rewrite filter_cons. cbn [map]. case_decide; cbn [map foldr]; by rewrite IH.
Qed.
Lemma zsum_omap {A B} (g : A -> option B) (f : B -> Z) l :
  zsum (map f (omap g l)) = zsum (map (fun x => from_option f 0 (g x)) l).
Proof.
  unfold zsum in *. induction l as [|x l IH]; [done|].
  change (omap g (x :: l)) with (match g x with Some y => y :: omap g l | None => omap g l end).
  cbn [map foldr].  destruct (g x); cbn [map foldr from_option]; by rewrite IH.
Qed.

(** The sum of [h] over the rows of a table. *)
Definition tsum {A} (h : A -> Z) (t : table A) : Z := zsum (map (fun kv => h kv.2) (map_to_list (rows t))).
Lemma tsum_select {A} (p : A -> bool) (h : A -> Z) (t : table A) :
  zsum (map (fun kv => h kv.2) (select p t)) = tsum (fun a => if p a then h a else 0) t.
Proof.
  unfold tsum, select, zsum. destruct t as [m n]. cbn [rows]. induction m as [|k a m E IH] using map_ind; [done|].
  rewrite map_to_list_insert by done. cbn [map foldr snd]. destruct (p a) eqn:Hp.
  - rewrite map_filter_insert_True, map_to_list_insert by (done || (apply map_lookup_filter_None; naive_solver)).
    cbn [map foldr snd]. by rewrite IH.
  - rewrite map_filter_insert_False, delete_id by (done || congruence || (cbn; congruence)). by rewrite IH.
Qed.
Lemma tsum_ext {A} (h h' : A -> Z) (t : table A) : (forall k a, rows t !! k = Some a -> h a = h' a) -> tsum h t = tsum h' t.
Proof.
  intros H. unfold tsum. f_equal. apply map_ext_in. intros [k a] Hin%list_elem_of_In%elem_of_map_to_list. by apply (H k).
Qed.
Lemma tsum_insert {A} (h : A -> Z) a (t : table A) : below t -> tsum h (insert_row a t) = tsum h t + h a.
Proof.
  intros Hb. unfold tsum, zsum. cbn [rows insert_row]. rewrite map_to_list_insert by by apply below_fresh.
  cbn [map foldr snd]. lia.
Qed.
Lemma tsum_insert_rows {A} (h : A -> Z) l (t : table A) : below t -> tsum h (insert_rows l t) = tsum h t + zsum (map h l).
Proof.
  revert t. induction l as [|a l IH]; intros t Hb; [cbn; lia|].
  change (insert_rows (a :: l) t) with (insert_rows l (insert_row a t)). rewrite IH by by apply below_insert.
  rewrite tsum_insert by done. unfold zsum. cbn [map foldr]. lia.
Qed.

(** The sums the views are for, under a condition on the receipt or on the item's user,
    currency and category. *)
Definition spend (p : receipt_row -> bool) (d : Db) : Z :=
  zsum (map (fun kv => signed_spend_cents kv.2) (filter (fun kv => p kv.2 = true) (v_countable_spend d))).
Definition income (p : receipt_row -> bool) (d : Db) : Z :=
  zsum (map (fun kv => er_totalCents (rc_fields kv.2)) (filter (fun kv => p kv.2 = true) (v_income d))).
Definition spend_items (p : Z -> string -> option Z -> bool) (d : Db) : Z :=
  zsum (map vs_signed_amount_cents
    (filter (fun v => p (vs_user_id v) (vs_currency v) (vs_category_id v) = true) (v_countable_spend_items d))).
Definition income_items (p : Z -> string -> option Z -> bool) (d : Db) : Z :=
  zsum (map vn_amount_cents
    (filter (fun v => p (vn_user_id v) (vn_currency v) (vn_category_id v) = true) (v_income_items d))).

(** What one item adds to a sum over items of receipts satisfying [q]. *)
Definition item_part (q : receipt_row -> bool) (weigh : receipt_row -> Z) (p : Z -> string -> option Z -> bool) (d : Db)
    (i : item_row) : Z :=
  match joined_receipt q i d with
  | Some r => if p (rc_user_id r) (er_currency (rc_fields r)) (it_category_id i) then it_amount_cents i * weigh r else 0
  | None => 0
  end.
Lemma spend_tsum p d : spend p d = tsum (fun r => if countable d r && p r then signed_spend_cents r else 0) (receipts d).
Proof.
  unfold spend, v_countable_spend. rewrite zsum_filter.
  etransitivity; [exact (tsum_select (countable d) (fun r => if decide (p r = true) then signed_spend_cents r else 0) (receipts d))|].
  apply tsum_ext. intros _ r _. by destruct (countable d r), (p r).
Qed.
Lemma income_tsum p d : income p d = tsum (fun r => if earned r && p r then er_totalCents (rc_fields r) else 0) (receipts d).
Proof.
  unfold income, v_income. rewrite zsum_filter.
  etransitivity; [exact (tsum_select earned (fun r => if decide (p r = true) then er_totalCents (rc_fields r) else 0) (receipts d))|].
  apply tsum_ext. intros _ r _. by destruct (earned r), (p r).
Qed.
Lemma spend_items_tsum p d : spend_items p d = tsum (item_part (countable d) (fun r => spend_sign (kind_of r)) p d) (items d).
Proof.
  unfold spend_items, v_countable_spend_items. rewrite zsum_filter, zsum_omap. unfold tsum. f_equal. apply map_ext.
  intros [k i]. unfold item_part. cbn. destruct (joined_receipt _ _ _) as [r|]; [|done]. cbn. by destruct (p _ _ _).
Qed.
Lemma income_items_tsum p d : income_items p d = tsum (item_part earned (fun _ => 1) p d) (items d).
Proof.
  unfold income_items, v_income_items. rewrite zsum_filter, zsum_omap. unfold tsum. f_equal. apply map_ext.
  intros [k i]. unfold item_part. cbn. destruct (joined_receipt _ _ _) as [r|]; [|done]. cbn. rewrite Z.mul_1_r. by destruct (p _ _ _).
Qed.

Lemma countable_methods d d' r : payment_methods d' = payment_methods d -> countable d' r = countable d r.
Proof. intros E. unfold countable, stored_value. by rewrite E. Qed.

Section Manual.
Context `{PG : Postgres} `{IS : ImageStore} `{SO : Sodium} `{EN : Environment} `{VI : Vips} `{PL : Platform}.

(** A new receipt with its items adds their parts to the sums over items. *)
Lemma item_part_new q weigh p d d' rid r inputs : db_ok d -> rid = seq (receipts d) ->
  receipts d' = insert_row r (receipts d) ->
  items d' = insert_rows (map (ItemService.input_row rid) inputs) (items d) ->
  tsum (item_part q weigh p d') (items d') = tsum (item_part q weigh p d) (items d) +
    if q r then zsum (map (fun i => if negb (ii_informational i) && p (rc_user_id r) (er_currency (rc_fields r)) (ii_categoryId i)
                                    then ii_amountCents i * weigh r else 0) inputs) else 0.
Proof.
  intros Hok -> Er Ei. pose proof (ok_below _ Hok) as (_ & _ & _ & Hbr & _ & Hbi).
  rewrite Ei, tsum_insert_rows by done. f_equal.
  - apply tsum_ext. intros k i E. apply (ok_items _ Hok) in E as (u & kind & Ek & _). unfold item_part, joined_receipt. rewrite Er. cbn.
    rewrite lookup_insert_ne; [done|]. intros Heq. unfold rhead in Ek. rewrite lookup_fmap, <- Heq, below_fresh in Ek by done. done.
  - rewrite map_map. rewrite (map_ext _ (fun i => if q r && negb (ii_informational i) then
        if p (rc_user_id r) (er_currency (rc_fields r)) (ii_categoryId i) then ii_amountCents i * weigh r else 0 else 0)).
    + clear Ei. unfold zsum. induction inputs as [|i l IH]; [by destruct (q r)|]. cbn [map foldr]. rewrite IH.
      destruct (q r), (ii_informational i), (p _ _ _); cbn [andb negb]; lia.
    + intros i. unfold item_part, joined_receipt. rewrite Er. cbn. rewrite lookup_insert_eq. by destruct (q r && _).
Qed.

Definition entry_lines (input : ManualEntryInput) : list ItemInput :=
  match me_items input with [] => [implicit_item input] | l => l end.
(** The part of an entry's lines in a sum over items. *)
Definition lines_part (weight : Z) (p : option Z -> bool) (l : list ItemInput) : Z :=
  zsum (map (fun i => if negb (ii_informational i) && p (ii_categoryId i) then ii_amountCents i * weight else 0) l).

(** C31: A manual entry counts at once and counts once: whatever the sums over the spend
    and income views are asked for, each grows by exactly the new receipt's part, and
    each sum over items by its lines' parts; informational lines, transfers and purchases
    on a stored-value card add nothing, refunds and reimbursements are negative spend. *)
Theorem manual_entry_counts (U rid : Z) (body : json) (w w' : World) :
  db_ok (w_db w) -> createManual U body w = (Ok rid, w') ->
  exists input r, parseManualEntry body = Ok input /\ rows (receipts (w_db w')) !! rid = Some r /\
    rc_user_id r = U /\ kind_of r = er_kind (me_receipt input) /\ confirmed r = true /\
    er_totalCents (rc_fields r) = er_totalCents (me_receipt input) /\
    let counts := countable (w_db w) r in let currency := er_currency (rc_fields r) in
    (forall p, spend p (w_db w') = spend p (w_db w) + if counts && p r then signed_spend_cents r else 0) /\
    (forall p, income p (w_db w') = income p (w_db w) + if earned r && p r then er_totalCents (rc_fields r) else 0) /\
    (forall p, spend_items p (w_db w') = spend_items p (w_db w) +
       if counts then lines_part (spend_sign (kind_of r)) (p U currency) (entry_lines input) else 0) /\
    (forall p, income_items p (w_db w') = income_items p (w_db w) +
       if earned r then lines_part 1 (p U currency) (entry_lines input) else 0).
Proof.
  intros Hok (input & date & Hp & _ & -> & Er & Ei & _ & Ed)%createManual_Ok.
  assert (Em : payment_methods (w_db w') = payment_methods (w_db w)) by by rewrite Ed.
  pose proof (ok_below _ Hok) as (_ & _ & _ & Hbr & _).
  assert (El : stored_items input = entry_lines input).
  { unfold stored_items, entry_lines. by destruct (me_items input). }
  rewrite El in Ei. exists input, (manual_row U (me_receipt input) date (w_clock w)). set (r := manual_row _ _ _ _) in *.
  split; [done|]. split; [rewrite Er; cbn; apply lookup_insert_eq|]. do 4 (split; [done|]). cbv zeta.
  split; [|split; [|split]]; intros p.
  - rewrite !spend_tsum, Er, tsum_insert by done. f_equal; [|by rewrite (countable_methods _ _ r Em)].
    apply tsum_ext. intros _ x _. by rewrite (countable_methods _ _ x Em).
  - by rewrite !income_tsum, Er, tsum_insert by done.
  - rewrite !spend_items_tsum, (item_part_new _ _ _ _ _ _ r (entry_lines input) Hok eq_refl Er Ei).
    rewrite (countable_methods _ _ r Em). f_equal. apply tsum_ext. intros k i _. unfold item_part, joined_receipt.
    destruct (rows (receipts (w_db w)) !! _) as [x|]; [|done]. by rewrite (countable_methods _ _ x Em).
  - by rewrite !income_items_tsum, (item_part_new _ _ _ _ _ _ r (entry_lines input) Hok eq_refl Er Ei).
Qed.
End Manual.

(** ** Witnesses *)

(** While the uploaded receipt is being scanned, the manual entry is all that counts. *)
Definition ex_counted : receipt_row := Eval vm_compute in
  match rows (receipts (w_db ex_manual_world)) !! 1 with Some r => r | None => manual_row 1 default_receipt None 0 end.
Lemma ex_counts : v_countable_spend (w_db ex_answered) = [(1, ex_counted)].
Proof. by_vm. Qed.
Lemma money_moves_by_hand_witness :
  exists r, rows (receipts (w_db ex_claimed)) !! 1 = Some r /\ is_Some (rc_reviewed_at r) /\ same_entry r ex_counted.
Proof.
  destruct (money_moves_by_hand default_config (ex_sys ex_claimed Claimed) (ex_sys ex_answered (Scanned ex_valid false)) 1
    ex_counted ex_sys_claimed ex_scanning) as (r & E & Hr & Hs & _).
  - left. change (sw (ex_sys ex_answered (Scanned ex_valid false))) with ex_answered. rewrite ex_counts. apply list_elem_of_singleton. reflexivity.
  - exists r. split; [exact E|split; assumption].
Defined.
Definition ex_entry : ManualEntryInput :=
  match parseManualEntry ex_manual with Ok i => i | _ => mkManualEntry default_receipt None [] end.
Lemma manual_entry_counts_witness :
  spend (fun _ => true) (w_db ex_manual_world) = spend (fun _ => true) (w_db ex_world) + 1250 /\
  spend_items (fun _ _ c => bool_decide (c = Some 1)) (w_db ex_manual_world) =
    spend_items (fun _ _ c => bool_decide (c = Some 1)) (w_db ex_world) + 1250.
Proof.
  destruct (manual_entry_counts 1 1 ex_manual ex_world ex_manual_world ex_db_ok ltac:(by_vm))
    as (input & r & Hp & Er & _ & _ & _ & _ & Hs & _ & Hi & _).
  assert (Ei : parseManualEntry ex_manual = Ok ex_entry) by by_vm. rewrite Ei in Hp. injection Hp as <-.
  assert (Ec : rows (receipts (w_db ex_manual_world)) !! 1 = Some ex_counted) by by_vm. rewrite Ec in Er. injection Er as <-.
  split; [rewrite Hs|rewrite Hi]; reflexivity.
Defined.
