(* ===== verification/Network.v ===== *)
(** * What the model adapter does on the network

    [send] and [scanReceipt] of AnthropicScanProvider.cpp, run over a network that
    keeps a log of the exchanges and the pauses: how often a request is repeated, what
    failures are blamed on, and that the second scan is best effort. *)
From S2P Require Import Prelude CString Binary64 Strtod Rounding Json Kinds Calendar JsonInput LedgerInput TokenUtils Env Db.
From S2P Require Import Sigv4Signer World ItemService ReceiptService ScanWorker Anthropic ScanServices.

Section Network.
Context `{PL : Platform} `{JT : JsonText} `{BE : Base64} `{HC : HttpClient} `{EL : !EventLoop}.

(** ** A network with a log *)

Inductive event :=
| Sent (q : HttpRequest) (r : outcome HttpResponse)
| Slept (delay : double).
Definition logged : HttpClient := {|
  net := list event * net;
  net_time := fun n => net_time n.2;
  sendRequest := fun q n => let '(r, n') := sendRequest q n.2 in (r, (n.1 ++ [Sent q r], n'))
|}.
Definition logged_loop : EventLoop (H := logged) := fun d n => (n.1 ++ [Slept d], sleepCoro d n.2).

(** The log is an observer: a computation over the logged network ends as it does over
    the network itself, with some events appended that satisfy [P]. *)
Definition observed {A} (m : N A) (m' : N (HC := logged) A) (P : outcome A -> list event -> Prop) : Prop :=
  forall l n, exists r n' evs, m n = (r, n') /\ m' (l, n) = (r, (l ++ evs, n')) /\ P r evs.

Lemma observed_ret {A} (m : outcome A) : observed (nret m) (nret (HC := logged) m) (fun r evs => r = m /\ evs = []).
Proof. intros l n. exists m, n, []. by rewrite app_nil_r. Qed.
Lemma observed_send q : observed (sendRequest q) (sendRequest (HttpClient := logged) q) (fun r evs => evs = [Sent q r]).
Proof. intros l n. cbn. destruct (sendRequest q n) as [r n'] eqn:E. exists r, n', [Sent q r]. done. Qed.
Lemma observed_sleep d : observed (fun n => (Ok (), sleepCoro d n)) (fun n => (Ok (), sleepCoro (EventLoop := logged_loop) d n))
  (fun r evs => r = Ok () /\ evs = [Slept d]).
Proof. intros l n. exists (Ok ()), (sleepCoro d n), [Slept d]. done. Qed.
Lemma observed_weaken {A} (m : N A) m' (P Q : outcome A -> list event -> Prop) :
  observed m m' P -> (forall r evs, P r evs -> Q r evs) -> observed m m' Q.
Proof. intros H HPQ l n. destruct (H l n) as (r & n' & evs & E1 & E2 & HP). exists r, n', evs. auto. Qed.
Lemma observed_bind {A B} (m : N A) m' (k : A -> N B) k' P Q (R : outcome B -> list event -> Prop) :
  observed m m' P -> (forall a, observed (k a) (k' a) (Q a)) ->
  (forall a evs, P (Ok a) evs -> forall r evs', Q a r evs' -> R r (evs ++ evs')) ->
  (forall e evs, P (Throw e) evs -> R (Throw e) evs) -> (forall u evs, P (UB u) evs -> R (UB u) evs) ->
  observed (nbind m k) (nbind (HC := logged) m' k') R.
Proof.
  intros Hm Hk H1 H2 H3 l n. destruct (Hm l n) as ([a|e|u] & n1 & evs & E1 & E2 & HP); unfold nbind; rewrite E1, E2.
  - destruct (Hk a (l ++ evs) n1) as (r & n2 & evs' & E3 & E4 & HQ). exists r, n2, (evs ++ evs').
    rewrite app_assoc. eauto.
  - exists (Throw e), n1, evs. auto.
  - exists (UB u), n1, evs. auto.
Qed.
(** A step without network access. *)
Lemma observed_lift {A B} (m : outcome A) (k : A -> N B) k' (R : outcome B -> list event -> Prop) :
  (forall a, m = Ok a -> observed (k a) (k' a) R) -> (forall e, m = Throw e -> R (Throw e) []) ->
  (forall u, m = UB u -> R (UB u) []) -> observed (nbind (nret m) k) (nbind (HC := logged) (nret (HC := logged) m) k') R.
Proof.
  intros H1 H2 H3. destruct m as [a|e|u]; unfold nbind, nret.
  - by apply H1.
  - intros l n. exists (Throw e), n, []. rewrite app_nil_r. auto.
  - intros l n. exists (UB u), n, []. rewrite app_nil_r. auto.
Qed.

(** ** Sending *)

Context (config_ : AnthropicConfig).

(** The runs of [send]: one exchange per turn; only a retryable answer is followed by
    a pause and another turn, and only while retries are left. *)
Inductive sends (body : string) : Z -> nat -> outcome string -> list event -> Prop :=
| sends_ok i k resp : hr_status resp = 200 ->
    sends body i k (Ok (hr_body resp)) [Sent (api_request config_ body) (Ok resp)]
| sends_broken i k e : sends body i k (Throw e) [Sent (api_request config_ body) (Throw e)]
| sends_undefined i k u : sends body i k (UB u) [Sent (api_request config_ body) (UB u)]
| sends_garbled i k resp e : hr_status resp <> 200 -> api_failure resp = Throw e ->
    sends body i k (Throw e) [Sent (api_request config_ body) (Ok resp)]
| sends_rejected i k resp message : hr_status resp <> 200 -> api_failure resp = Ok message -> retryable (hr_status resp) = false ->
    sends body i k (Throw (ScanError message)) [Sent (api_request config_ body) (Ok resp)]
| sends_exhausted i resp message : hr_status resp <> 200 -> api_failure resp = Ok message -> retryable (hr_status resp) = true ->
    sends body i 0 (Throw (RuntimeError message)) [Sent (api_request config_ body) (Ok resp)]
| sends_again i k resp message delay r evs :
    hr_status resp <> 200 -> api_failure resp = Ok message -> retryable (hr_status resp) = true ->
    retry_delay i resp = Ok delay -> sends body (i + 1) k r evs ->
    sends body i (S k) r (Sent (api_request config_ body) (Ok resp) :: Slept delay :: evs)
| sends_unshiftable i k resp message u :
    hr_status resp <> 200 -> api_failure resp = Ok message -> retryable (hr_status resp) = true ->
    retry_delay i resp = UB u -> sends body i (S k) (UB u) [Sent (api_request config_ body) (Ok resp)].

Lemma api_failure_defined resp u : api_failure resp <> UB u.
Proof.
  unfold api_failure, apiErrorMessage. destruct (find _ _) as [v|]; [|done].
  destruct v as [| | | | | | |m|]; cbn; try done. unfold value_string, value_or, as_string. cbn.
  destruct (default (JString "") (assoc "type" m)); cbn; try done.
  by destruct (default (JString "") (assoc "message" m)).
Qed.
Lemma strtod_abs_defined l u : strtod_abs l <> UB u.
Proof. unfold strtod_abs, checked. repeat (case_match; try done). Qed.
Lemma stod_defined s u : stod s <> UB u.
Proof.
  unfold stod. set (l := drop _ _). clearbody l.
  assert (Hn : forall r, (let* d := strtod_abs r in Ok (SpecFloat.SFopp d))%outcome <> UB u).
  { intros r. pose proof (strtod_abs_defined r). by destruct (strtod_abs r). }
  repeat (case_match; try apply strtod_abs_defined; try apply Hn).
Qed.
Lemma retry_delay_never_throws i resp e : retry_delay i resp <> Throw e.
Proof.
  unfold retry_delay, shl_int. destruct (_ && _); cbn; [|done]. destruct (empty _); [done|]. by destruct (stod _).
Qed.
Lemma send_loop_observed body i k :
  observed (send_loop config_ body i k) (send_loop (HC := logged) (EL := logged_loop) config_ body i k) (sends body i k).
Proof.
  revert i. induction k as [|k IH]; intros i; cbn [send_loop].
  all: lazymatch goal with |- observed _ _ (sends ?b ?j ?left) =>
    apply (observed_bind _ _ _ _ (fun r evs => evs = [Sent (api_request config_ b) r])
      (fun resp r evs => sends b j left r (Sent (api_request config_ b) (Ok resp) :: evs))) end;
    [apply observed_send| |by intros resp evs -> r evs' H|intros e evs ->; constructor|intros u evs ->; constructor].
  all: intros resp; destruct (Z.eqb_spec (hr_status resp) 200) as [E|E];
    [eapply observed_weaken; [apply observed_ret|]; intros r evs [-> ->]; by constructor|].
  all: apply observed_lift; [|intros e He; by apply sends_garbled|intros u Hu; by destruct (api_failure_defined resp u)].
  all: intros message Hm; destruct (retryable (hr_status resp)) eqn:Hr; cbn [negb];
    [|eapply observed_weaken; [apply observed_ret|]; intros r evs [-> ->]; by apply sends_rejected].
  - eapply observed_weaken; [apply observed_ret|]. intros r evs [-> ->]. by apply sends_exhausted.
  - apply observed_lift; [|intros e He; by destruct (retry_delay_never_throws i resp e)|
      intros u Hu; by eapply sends_unshiftable].
    intros delay Hd. apply (observed_bind _ _ _ _ (fun r evs => r = Ok () /\ evs = [Slept delay]) (fun _ => sends body (i + 1) k));
      [apply observed_sleep|intros _; apply IH| |by intros e evs []|by intros u evs []].
    intros [] evs [_ ->] r evs' H. by eapply sends_again.
Qed.

(** ** What the log shows *)

Definition requests (evs : list event) : list (HttpRequest * outcome HttpResponse) :=
  omap (fun ev => match ev with Sent q r => Some (q, r) | Slept _ => None end) evs.
Definition pauses (evs : list event) : list double :=
  omap (fun ev => match ev with Sent _ _ => None | Slept d => Some d end) evs.

Lemma sends_counts body i k r evs : sends body i k r evs ->
  length (requests evs) = S (length (pauses evs)) /\ (length (pauses evs) <= k)%nat /\
  Forall (fun x => x.1 = api_request config_ body) (requests evs).
Proof.
  induction 1 as [| | | | | |i k resp m delay r evs _ _ _ _ _ (IH1 & IH2 & IH3)|]; unfold requests, pauses in *; cbn in *;
    (split; [lia|split; [lia|]]); repeat constructor; done.
Qed.
Lemma requests_app evs evs' : requests (evs ++ evs') = requests evs ++ requests evs'.
Proof. apply omap_app. Qed.
Lemma pauses_app evs evs' : pauses (evs ++ evs') = pauses evs ++ pauses evs'.
Proof. apply omap_app. Qed.

(** No pause is longer than 30 seconds while the back-off itself is not. *)
Definition short (d : double) : Prop := dltb (of_int 30) d = false.
Lemma clamp_short d : short (clamp d dzero (of_int 30)).
Proof.
  unfold clamp, short. destruct (dltb d dzero); [reflexivity|]. destruct (dltb (of_int 30) d) eqn:E; [reflexivity|done].
Qed.
Lemma retry_delay_short i resp d : 0 <= i <= 3 -> retry_delay i resp = Ok d -> short d.
Proof.
  intros Hi. assert (i = 0 \/ i = 1 \/ i = 2 \/ i = 3) as Hc by lia. unfold retry_delay.
  assert (Hb : short (of_int (2 * 2 ^ i))) by (destruct Hc as [->|[->|[->| ->]]]; reflexivity).
  assert (Hs : shl_int 2 i = Ok (2 * 2 ^ i)) by (destruct Hc as [->|[->|[->| ->]]]; reflexivity).
  rewrite Hs. cbn [obind]. destruct (empty _); [by intros [= <-]|].
  destruct (stod _); [|by intros [= <-]|done]. intros [= <-]. apply clamp_short.
Qed.
Lemma sends_short body i k r evs : sends body i k r evs -> 0 <= i -> i + Z.of_nat k <= 4 -> Forall short (pauses evs).
Proof.
  induction 1 as [| | | | | |i k resp message delay r evs _ _ _ Hd _ IH|]; intros Hi Hk; try constructor.
  - eapply retry_delay_short; [|exact Hd]. lia.
  - apply IH; lia.
Qed.

(** What the answer to the [count]-th and last exchange makes of the call. *)
Definition verdict (retries count : nat) (answer : outcome HttpResponse) (r : outcome string) : Prop :=
  match answer with
  | Ok resp =>
      if hr_status resp =? 200 then r = Ok (hr_body resp) else
      match api_failure resp with
      | Ok message =>
          if retryable (hr_status resp) then count = S retries /\ r = Throw (RuntimeError message)
          else r = Throw (ScanError message)
      | Throw e => r = Throw e
      | UB _ => False
      end
  | Throw e => r = Throw e
  | UB u => r = UB u
  end.
Definition failed_for_now (answer : outcome HttpResponse) : Prop :=
  exists resp, answer = Ok resp /\ hr_status resp <> 200 /\ retryable (hr_status resp) = true.
Lemma sends_verdict body i k r evs : sends body i k r evs -> 0 <= i -> i + Z.of_nat k <= 4 ->
  exists earlier answer, map snd (requests evs) = earlier ++ [answer] /\ Forall failed_for_now earlier /\
    verdict k (length (requests evs)) answer r.
Proof.
  induction 1 as [i k resp E|i k e|i k u|i k resp e E He|i k resp m E Hm Hr|i resp m E Hm Hr
                 |i k resp m delay r evs E Hm Hr Hd _ IH|i k resp m u E Hm Hr Hu]; intros Hi Hk.
  7: { destruct IH as (earlier & answer & E1 & E2 & E3); [lia..|]. exists (Ok resp :: earlier), answer.
       split; [cbn; by f_equal|]. split; [constructor; [by exists resp|done]|].
       unfold verdict in *. destruct answer as [resp'| |]; try done. cbn [requests omap list_omap length].
       destruct (hr_status resp' =? 200); [done|]. destruct (api_failure resp'); try done.
       destruct (retryable (hr_status resp')); [|done]. destruct E3. split; [by f_equal|done]. }
  7: { exfalso. unfold retry_delay in Hu. assert (i = 0 \/ i = 1 \/ i = 2 \/ i = 3) as Hc by lia.
       assert (Hs : shl_int 2 i = Ok (2 * 2 ^ i)) by (destruct Hc as [->|[->|[->| ->]]]; reflexivity).
       rewrite Hs in Hu. cbn in Hu. destruct (empty _); [done|]. destruct (stod _) eqn:Ed; try done.
       by eapply stod_defined. }
  all: eexists [], _; cbn; (split; [reflexivity|split; [constructor|unfold verdict]]).
  - by rewrite E.
  - done.
  - done.
  - rewrite (proj2 (Z.eqb_neq _ _) E). by rewrite He.
  - rewrite (proj2 (Z.eqb_neq _ _) E). by rewrite Hm, Hr.
  - rewrite (proj2 (Z.eqb_neq _ _) E). by rewrite Hm, Hr.
Qed.

(** ** A call of the provider, as a first scan and what follows it *)

Definition first_scan (images : list string) (context : ScanContext) : N ScanResult :=
  nbind (nret (request_text images context config_)) (fun request =>
  nbind (send config_ request (maxRetries config_)) (fun body => nret (parseResponse body context))).
Definition after_first (images : list string) (context : ScanContext) (first : ScanResult) : N ScanResult :=
  nbind (nret (itemsAddUp first)) (fun good =>
  if good || empty (rescanEffort config_) then nret (Ok first) else
  nbind (nret (request_text images context (config_ <| effort := rescanEffort config_ |>))) (fun again n =>
  match nbind (send config_ again 0) (fun body => nret (parseResponse body context)) n with
  | (Ok second, n') => (Ok (with_raw "first_scan" (sr_raw first) second), n')
  | (Throw e, n') => (Ok (with_raw "rescan_error" (JString (what e)) first), n')
  | (UB u, n') => (UB u, n')
  end)).
Lemma scan_split images context n :
  anthropic_scanReceipt config_ images context n = nbind (first_scan images context) (after_first images context) n.
Proof.
  unfold anthropic_scanReceipt, first_scan, nbind, nret. destruct (request_text _ _ _); [|done..].
  destruct (send _ _ _ n) as [[]]; [|done..]. by destruct (parseResponse _ _).
Qed.
Lemma itemsAddUp_never_throws result e : itemsAddUp result <> Throw e.
Proof.
  unfold itemsAddUp. assert (Ha : forall l s, ofold add_amount s l <> Throw e).
  { induction l as [|it l IH]; intros s; cbn; [done|]. unfold add_amount. destruct (si_informational it); [apply IH|].
    unfold add64. destruct (int64_ok _); [apply IH|done]. }
  specialize (Ha (sr_items result) 0). destruct (ofold _ _ _); cbn; [|congruence|done].
  unfold subtotal_of. destruct (find _ _) as [output|]; [|done]. destruct (find _ output) as [v|]; [|done].
  destruct (is_number v); [|done]. unfold llabs. by case_match.
Qed.
End Network.

Section Scans.
Context `{PL : Platform} `{JT : JsonText} `{BE : Base64} `{HC : HttpClient} `{EL : !EventLoop}.
Context (config_ : AnthropicConfig).

(** The logged counterparts. *)
Definition logged_send (body : string) (retries : Z) := send (HC := logged) (EL := logged_loop) config_ body retries.
Definition logged_first (images : list string) (context : ScanContext) :=
  first_scan (HC := logged) (EL := logged_loop) config_ images context.
Definition logged_scan (images : list string) (context : ScanContext) :=
  anthropic_scanReceipt (HC := logged) (EL := logged_loop) config_ images context.
Definition logged_after (images : list string) (context : ScanContext) (first : ScanResult) :=
  after_first (HC := logged) (EL := logged_loop) config_ images context first.

Lemma first_scan_observed images context :
  observed (first_scan config_ images context) (logged_first images context) (fun r evs =>
    evs = [] \/ exists request r0, sends config_ request 0 (Z.to_nat (maxRetries config_)) r0 evs).
Proof.
  apply observed_lift; [|by auto..]. intros request _.
  apply (observed_bind _ _ _ _ (sends config_ request 0 (Z.to_nat (maxRetries config_))) (fun _ r evs => evs = []));
    [apply send_loop_observed| | |by eauto|by eauto].
  - intros body. eapply observed_weaken; [apply observed_ret|]. by intros r evs [_ ->].
  - intros body evs H r _ ->. rewrite app_nil_r. eauto.
Qed.
(** What follows the first scan: at most one exchange, and no exception from it. *)
Definition rescanned (images : list string) (context : ScanContext) (first : ScanResult) (r : outcome ScanResult)
    (evs : list event) : Prop :=
  match itemsAddUp first with
  | Ok good =>
      if good || empty (rescanEffort config_) then r = Ok first /\ evs = [] else
      match request_text images context (config_ <| effort := rescanEffort config_ |>) with
      | Ok again => exists answer, evs = [Sent (api_request config_ again) answer] /\
          ((exists second, r = Ok (with_raw "first_scan" (sr_raw first) second)) \/
           (exists e, r = Ok (with_raw "rescan_error" (JString (what e)) first)) \/ (exists u, r = UB u))
      | Throw e => r = Throw e /\ evs = []
      | UB u => r = UB u /\ evs = []
      end
  | Throw _ => False
  | UB u => r = UB u /\ evs = []
  end.
Lemma after_first_observed images context first :
  observed (after_first config_ images context first) (logged_after images context first) (rescanned images context first).
Proof.
  unfold after_first, logged_after, after_first, rescanned.
  apply observed_lift; [|intros e He; by destruct (itemsAddUp_never_throws first e)|by intros u ->].
  intros good ->. destruct (good || _); [eapply observed_weaken; [apply observed_ret|by auto]|].
  apply observed_lift; [|by intros e ->|by intros u ->]. intros again ->.
  assert (Hs : observed (nbind (send config_ again 0) (fun body => nret (parseResponse body context)))
    (nbind (HC := logged) (logged_send again 0) (fun body => nret (HC := logged) (parseResponse body context)))
    (fun _ evs => exists answer, evs = [Sent (api_request config_ again) answer])).
  { apply (observed_bind _ _ _ _ (sends config_ again 0 0) (fun _ r evs => evs = [])); [apply send_loop_observed|..].
    - intros body. eapply observed_weaken; [apply observed_ret|]. by intros r evs [_ ->].
    - intros body evs H r _ ->. rewrite app_nil_r. inversion H; subst; eauto.
    - intros e evs H. inversion H; subst; eauto.
    - intros u evs H. inversion H; subst; eauto. }
  intros l n. destruct (Hs l n) as (r & n' & evs & E1 & E2 & answer & ->). unfold logged_send in E2. rewrite E1, E2.
  destruct r as [second|e|u]; eexists _, n', _; (split; [reflexivity|split; [reflexivity|]]); exists answer; split; eauto.
Qed.
Lemma scan_observed images context n : exists r n1 evs1,
  first_scan config_ images context n = (r, n1) /\ logged_first images context ([], n) = (r, (evs1, n1)) /\
  (evs1 = [] \/ exists request r0, sends config_ request 0 (Z.to_nat (maxRetries config_)) r0 evs1) /\
  match r with
  | Ok first => exists r' n' evs2,
      anthropic_scanReceipt config_ images context n = (r', n') /\
      logged_scan images context ([], n) = (r', (evs1 ++ evs2, n')) /\ rescanned images context first r' evs2
  | Throw e => anthropic_scanReceipt config_ images context n = (Throw e, n1) /\
               logged_scan images context ([], n) = (Throw e, (evs1, n1))
  | UB u => anthropic_scanReceipt config_ images context n = (UB u, n1) /\
            logged_scan images context ([], n) = (UB u, (evs1, n1))
  end.
Proof.
  destruct (first_scan_observed images context [] n) as (r & n1 & evs1 & E1 & E2 & H1). cbn [app] in E2.
  exists r, n1, evs1. split; [done|split; [done|split; [done|]]]. unfold logged_scan. rewrite !scan_split. unfold nbind.
  unfold logged_first in E2. rewrite E1, E2. destruct r as [first|e|u]; [|done..].
  destruct (after_first_observed images context first evs1 n1) as (r' & n' & evs2 & E3 & E4 & H2).
  unfold logged_after in E4. rewrite E3, E4. by exists r', n', evs2.
Qed.

(** The log of a call: how many requests and pauses it can hold. *)
Lemma scan_counts images context n r evs n' : maxRetries config_ <= 4 ->
  logged_scan images context ([], n) = (r, (evs, n')) ->
  let retries := Z.to_nat (maxRetries config_) in
  (length (requests evs) <= S retries + if empty (rescanEffort config_) then 0 else 1)%nat /\
  (length (pauses evs) <= retries)%nat /\ Forall short (pauses evs) /\
  Forall (fun x => exists body, x.1 = api_request config_ body) (requests evs).
Proof.
  intros Hm E. cbv zeta. destruct (scan_observed images context n) as (r1 & n1 & evs1 & _ & _ & H1 & H2).
  assert (Hf : (length (requests evs1) <= S (Z.to_nat (maxRetries config_)))%nat /\
    (length (pauses evs1) <= Z.to_nat (maxRetries config_))%nat /\ Forall short (pauses evs1) /\
    Forall (fun x => exists body, x.1 = api_request config_ body) (requests evs1)).
  { destruct H1 as [->|(request & r0 & H)]; [split; [cbn; lia|split; [cbn; lia|split; constructor]]|].
    destruct (sends_counts _ _ _ _ _ _ H) as (C1 & C2 & C3). split; [lia|split; [done|split]].
    - eapply sends_short; [exact H|lia|lia].
    - eapply Forall_impl; [exact C3|]. intros x Hx. by exists request. }
  destruct Hf as (F1 & F2 & F3 & F4). destruct r1 as [first|e|u].
  - destruct H2 as (r' & n2 & evs2 & _ & E2 & H2). rewrite E in E2. injection E2 as -> -> ->.
    assert (Hr : evs2 = [] \/ empty (rescanEffort config_) = false /\ exists again answer, evs2 = [Sent (api_request config_ again) answer]).
    { unfold rescanned in H2. destruct (itemsAddUp first) as [good| |]; [|done|by left; destruct H2].
      destruct good; cbn [orb] in H2; [by left; destruct H2|]. destruct (empty _); [by left; destruct H2|].
      destruct (request_text _ _ _) as [again| |]; [|by left; destruct H2..]. right. split; [done|]. destruct H2 as (answer & -> & _).
      by exists again, answer. }
    destruct Hr as [->|(-> & again & answer & ->)].
    + rewrite app_nil_r. split; [lia|auto].
    + rewrite requests_app, pauses_app, !length_app. cbn. rewrite app_nil_r. split; [lia|split; [lia|split; [done|]]].
      apply Forall_app. split; [done|]. repeat constructor. eauto.
  - destruct H2 as [_ E2]. rewrite E in E2. injection E2 as -> -> ->. split; [lia|auto].
  - destruct H2 as [_ E2]. rewrite E in E2. injection E2 as -> -> ->. split; [lia|auto].
Qed.
End Scans.
