(* ===== verification/NetworkTheorems.v ===== *)
(** * Retries, the second scan and the time budget

    Theorems on the model adapter of AnthropicScanProvider.cpp over any network, and on
    the start-up check of ScanServices.cpp that keeps a call within its claim. *)
From Stdlib Require Import SpecFloat.
From S2P Require Import Prelude CString Binary64 Strtod Rounding Json Kinds Calendar JsonInput LedgerInput TokenUtils Env Db.
From S2P Require Import Sigv4Signer World ItemService ReceiptService ScanWorker Anthropic ScanServices Network Examples.

Section Retries.
Context `{PL : Platform} `{JT : JsonText} `{BE : Base64} `{HC : HttpClient} `{EL : !EventLoop}.
Context (config_ : AnthropicConfig).

(** C24: [send] always returns.  Whatever the network answers, it makes at most
    [maxRetries + 1] exchanges, all with the same request, with one pause of at most
    30 seconds (and no other action) between two of them; every answer but the last is
    a failure with status 408, 429 or 5xx; and the last answer decides: 200 gives its
    body, another status is the receipt's fault (ScanError) unless it is one of those,
    when all retries must be spent and the failure is of the infrastructure; a network
    exception is passed on at once. *)
Theorem send_retries (body : string) (retries : Z) (n : net) : retries <= 4 ->
  exists r n' evs earlier answer,
    send config_ body retries n = (r, n') /\
    logged_send config_ body retries ([], n) = (r, (evs, n')) /\
    requests evs = map (pair (api_request config_ body)) (earlier ++ [answer]) /\
    length (pauses evs) = length earlier /\ (length earlier <= Z.to_nat retries)%nat /\
    Forall short (pauses evs) /\ Forall failed_for_now earlier /\
    verdict (Z.to_nat retries) (S (length earlier)) answer r.
Proof.
  intros Hk. destruct (send_loop_observed config_ body 0 (Z.to_nat retries) [] n) as (r & n' & evs & E1 & E2 & H).
  destruct (sends_counts _ _ _ _ _ _ H) as (C1 & C2 & C3).
  destruct (sends_verdict _ _ _ _ _ _ H ltac:(done) ltac:(lia)) as (earlier & answer & V1 & V2 & V3).
  assert (Hl : length (requests evs) = S (length earlier)) by (rewrite <- (length_map snd), V1, length_app; cbn; lia).
  exists r, n', evs, earlier, answer. split; [done|split; [done|]].
  split; [|split; [lia|split; [lia|split; [|split; [done|by rewrite <- Hl]]]]].
  - rewrite <- V1. clear -C3. induction C3 as [|[q x] l Hq _ IH]; [done|]. cbn in *. by rewrite Hq, <- IH at 1.
  - eapply sends_short; [exact H|done|lia].
Qed.

(** C23: the second scan is best effort.  Once the first scan has a result, the call
    returns that result without touching the network if its items add up or no effort
    for a second scan is set; otherwise it makes exactly one more exchange, and returns
    the second result with the raw reply of the first filed in it, or the first result
    with the error filed in it: no failure of the second scan fails the call. *)
Theorem rescan_best_effort (images : list string) (context : ScanContext) (first : ScanResult) (again : string)
    (good : bool) (n n1 : net) (evs1 : list event) :
  logged_first config_ images context ([], n) = (Ok first, (evs1, n1)) ->
  itemsAddUp first = Ok good ->
  request_text images context (config_ <| effort := rescanEffort config_ |>) = Ok again ->
  exists r n' evs,
    anthropic_scanReceipt config_ images context n = (r, n') /\
    logged_scan config_ images context ([], n) = (r, (evs1 ++ evs, n')) /\
    if good || empty (rescanEffort config_) then r = Ok first /\ evs = [] /\ n' = n1 else
    (exists answer, evs = [Sent (api_request config_ again) answer]) /\
    ((exists second, r = Ok (with_raw "first_scan" (sr_raw first) second)) \/
     (exists e, r = Ok (with_raw "rescan_error" (JString (what e)) first)) \/ (exists u, r = UB u)).
Proof.
  intros E1 Hg Hr. destruct (scan_observed config_ images context n) as (r1 & n1' & evs1' & _ & E2 & _ & H).
  rewrite E1 in E2. injection E2 as <- <- <-. destruct H as (r & n' & evs & E3 & E4 & H).
  exists r, n', evs. split; [done|split; [done|]]. unfold rescanned in H. rewrite Hg, Hr in H.
  destruct (good || _) eqn:Eg; [|by destruct H as (answer & -> & H); eauto].
  destruct H as [-> ->]. split; [done|split; [done|]].
  rewrite app_nil_r in E4. unfold logged_scan in E4. rewrite scan_split in E4. unfold nbind, logged_first in *.
  rewrite E1 in E4. unfold after_first, nbind, nret in E4. rewrite Hg, Eg in E4. by injection E4.
Qed.
End Retries.

(** ** The time budget *)

Lemma stoi_int32 s z : stoi s = Ok z -> int32_ok z = true.
Proof. unfold stoi, strto. intros H. repeat (case_match; try done). all: by injection H as <-. Qed.
Lemma of_int_zero : of_int 0 = dzero.
Proof. done. Qed.
Lemma add_zero_r s p e : dadd (S754_finite s p e) dzero = S754_finite s p e.
Proof. by destruct s. Qed.

Lemma leb_nonpos z w : - 2 ^ 31 <= z <= 0 -> dleb (of_int z) (whole false w) = true.
Proof.
  intros Hz. destruct (Z.eq_dec z 0) as [->|N]; [done|]. destruct (of_int_small (- z)) as [_ E]; [lia|].
  rewrite Z.opp_involutive in E. by rewrite E.
Qed.

(** A whole-second time-out in the check of [checkedAnthropicConfig]. *)
Lemma worstCase_whole config T : timeoutSeconds config = of_int T -> maxRetries config = 2 -> 0 < T < 2 ^ 40 ->
  worstCase config = whole false ((T + 30) * 3 + if empty (rescanEffort config) then 0 else T).
Proof.
  intros HT Hm B. unfold worstCase. rewrite HT, Hm, (of_int_whole T), (of_int_whole 30), (of_int_whole (2 + 1)) by lia.
  unfold dadd. rewrite (add_whole T 30), (mul_whole (T + 30) (2 + 1)) by lia. destruct (empty _).
  - rewrite of_int_zero, Z.add_0_r. apply add_zero_r.
  - rewrite add_whole by lia. done.
Qed.

Section Budget.
Context `{EN : Environment} `{PL : Platform} `{JT : JsonText} `{BE : Base64} `{HC : HttpClient} `{EL : !EventLoop}.

(** C25: with a time-out of a positive whole number of seconds, a configuration that
    passes the start-up check keeps every call within its claim.  (The check also lets
    time-outs through that bound nothing, "nan" and 0: [nan_timeout_accepted],
    [zero_timeout_accepted].)  With a time-out of [T] seconds, the exchanges of a call (each bound by
    that time-out) and its pauses (each at most 30 seconds) together stay under
    SCAN_RECLAIM_SECONDS, whatever the model service answers, the second scan
    included. *)
Theorem startup_budget (config : AnthropicConfig) (T : Z) (images : list string) (context : ScanContext)
    (n n' : net) (r : outcome ScanResult) (evs : list event) :
  checkedAnthropicConfig = Ok config -> timeoutSeconds config = of_int T -> 0 < T < 2 ^ 40 ->
  logged_scan config images context ([], n) = (r, (evs, n')) ->
  exists worker, workerFromEnv = Ok worker /\
    Z.of_nat (length (requests evs)) * T + Z.of_nat (length (pauses evs)) * 30 < reclaimAfterSeconds worker /\
    Forall (fun x => hq_timeout x.1 = of_int T) (requests evs) /\ Forall short (pauses evs).
Proof.
  intros Hc HT B E. unfold checkedAnthropicConfig in Hc. apply obind_Ok in Hc as (c & Ha & Hc).
  apply obind_Ok in Hc as (worker & Hw & Hc). destruct (dleb _ _) eqn:Hle; [done|]. injection Hc as ->.
  exists worker. split; [done|].
  assert (Hm : maxRetries config = 2) by (unfold anthropicFromEnv in Ha; destruct (empty _); [done|]; ok_inv; done).
  assert (Hi : int32_ok (reclaimAfterSeconds worker) = true).
  { unfold workerFromEnv, envInt in Hw. ok_inv. cbn [reclaimAfterSeconds]. by eapply stoi_int32. }
  destruct (scan_counts config images context n r evs n' ltac:(lia) E) as (C1 & C2 & C3 & C4).
  rewrite Hm in C1, C2. change (Z.to_nat 2) with 2%nat in *.
  assert (Hlt : (T + 30) * 3 + (if empty (rescanEffort config) then 0 else T) < reclaimAfterSeconds worker).
  { rewrite (worstCase_whole config T) in Hle by done. unfold int32_ok in Hi.
    destruct (Z.le_gt_cases (reclaimAfterSeconds worker) 0) as [L|G]; [exfalso|].
    - by rewrite leb_nonpos in Hle by lia.
    - rewrite of_int_whole, leb_whole in Hle by (destruct (empty _); lia). lia. }
  split; [|split; [|done]].
  - destruct (empty (rescanEffort config)); nia.
  - eapply Forall_impl; [exact C4|]. intros x [body Hx]. by rewrite Hx.
Qed.
End Budget.

(** ** Witnesses

    A scripted network: it answers with the listed outcomes, in order. *)
Definition ex_client : HttpClient := {|
  net := list (outcome HttpResponse);
  net_time := fun _ => 0;
  sendRequest := fun _ n => match n with
                            | r :: n' => (r, n')
                            | [] => (Throw (RuntimeError "network failure"), [])
                            end
|}.
Definition ex_loop : EventLoop (H := ex_client) := fun _ n => n.
Definition ex_base64 : Base64 := fun s => s.
Definition answered (status : Z) (body retry_after : string) : outcome HttpResponse :=
  Ok (mkHttpResponse status body (fun h => if decide (h = "retry-after"%string) then retry_after else ""%string)).
Definition ex_line : json :=
  JObject [("amount", JUnsigned 4); ("informational", JBool false); ("name", JString "milk")]%string.
Definition ex_output (total : Z) : json :=
  JObject [("currency", JString "AUD"); ("items", JArray [ex_line]); ("kind", JString "purchase"); ("total", JUnsigned total)]%string.
Definition ex_reply (output : string) : json :=
  JObject [("content", JArray [JObject [("text", JString output); ("type", JString "text")]]); ("id", JString "msg")]%string.
Definition ex_texts : JsonText := {|
  json_dump := fun _ => Ok "{}"%string;
  json_parse := fun s =>
    if decide (s = "first"%string) then Ok (ex_reply "five")
    else if decide (s = "second"%string) then Ok (ex_reply "four")
    else if decide (s = "five"%string) then Ok (ex_output 5)
    else if decide (s = "four"%string) then Ok (ex_output 4)
    else Throw (JsonException "syntax error")
|}.
Definition ex_anthropic : AnthropicConfig := default_anthropic <| apiKey := "key"%string |>.
Definition ex_context : ScanContext := mkScanContext None ["Food"%string] [] [].
Definition ex_env : Environment := fun name => if decide (name = "ANTHROPIC_API_KEY"%string) then Some "key"%string else None.

(** Two failures for now, then an answer: two pauses, three exchanges. *)
Definition ex_busy : list (outcome HttpResponse) := [answered 529 "busy" "7"; answered 408 "late" ""; answered 200 "done" ""].
Lemma send_retries_witness : exists evs,
  logged_send (JT := ex_texts) (HC := ex_client) (EL := ex_loop) ex_anthropic "{}" 2 ([], ex_busy) = (Ok "done"%string, (evs, [])) /\
  (length (pauses evs) <= 2)%nat /\ Forall short (pauses evs).
Proof.
  destruct (send_retries (JT := ex_texts) (HC := ex_client) (EL := ex_loop) ex_anthropic "{}" 2 ex_busy ltac:(lia))
    as (r & n' & evs & earlier & answer & E & E' & _ & Hp & Hl & Hs & _).
  assert (E2 : send (JT := ex_texts) (HC := ex_client) (EL := ex_loop) ex_anthropic "{}" 2 ex_busy = (Ok "done"%string, []))
    by by_vm.
  rewrite E2 in E. injection E as <- <-. exists evs. split; [exact E'|split; [|exact Hs]]. rewrite Hp. exact Hl.
Defined.

(** A first reply of one item of 4 dollars under a total of 5, and a network that
    breaks before the second. *)
Definition ex_first : ScanResult := Eval vm_compute in
  match parseResponse (JT := ex_texts) "first" ex_context with Ok r => r | _ => ex_result end.
Definition ex_exchange : event := Sent (api_request ex_anthropic "{}") (answered 200 "first" "").
Lemma rescan_best_effort_witness : exists n' evs r,
  anthropic_scanReceipt (JT := ex_texts) (BE := ex_base64) (HC := ex_client) (EL := ex_loop) ex_anthropic [] ex_context
    [answered 200 "first" ""] = (Ok r, n') /\
  logged_scan (JT := ex_texts) (BE := ex_base64) (HC := ex_client) (EL := ex_loop) ex_anthropic [] ex_context
    ([], [answered 200 "first" ""]) = (Ok r, ([ex_exchange] ++ evs, n')) /\
  (exists answer, evs = [Sent (api_request ex_anthropic "{}") answer]) /\
  r = with_raw "rescan_error" (JString "network failure") ex_first.
Proof.
  destruct (rescan_best_effort (JT := ex_texts) (BE := ex_base64) (HC := ex_client) (EL := ex_loop) ex_anthropic []
    ex_context ex_first "{}" false [answered 200 "first" ""] [] [ex_exchange] ltac:(by_vm) ltac:(by_vm) ltac:(by_vm))
    as (r & n' & evs & E & E' & Hr).
  assert (E2 : anthropic_scanReceipt (JT := ex_texts) (BE := ex_base64) (HC := ex_client) (EL := ex_loop) ex_anthropic []
    ex_context [answered 200 "first" ""] = (Ok (with_raw "rescan_error" (JString "network failure") ex_first), [])) by by_vm.
  rewrite E2 in E. injection E as <- <-. destruct Hr as [Hevs _]. eauto 10.
Defined.

(** The default time-outs. *)
Definition ex_checked : AnthropicConfig := Eval vm_compute in
  match checkedAnthropicConfig (EN := ex_env) with Ok c => c | _ => default_anthropic end.
Lemma startup_budget_witness : checkedAnthropicConfig (EN := ex_env) = Ok ex_checked /\
  exists r evs n' worker,
    logged_scan (JT := ex_texts) (BE := ex_base64) (HC := ex_client) (EL := ex_loop) ex_checked [] ex_context
      ([], [answered 200 "first" ""; answered 200 "second" ""]) = (r, (evs, n')) /\
    workerFromEnv (EN := ex_env) = Ok worker /\
    Z.of_nat (length (requests evs)) * 120 + Z.of_nat (length (pauses evs)) * 30 < reclaimAfterSeconds worker.
Proof.
  split; [by_vm|].
  destruct (logged_scan (JT := ex_texts) (BE := ex_base64) (HC := ex_client) (EL := ex_loop) ex_checked [] ex_context
      ([], [answered 200 "first" ""; answered 200 "second" ""])) as [r [evs n']] eqn:E.
  destruct (startup_budget (EN := ex_env) (JT := ex_texts) (BE := ex_base64) (HC := ex_client) (EL := ex_loop) ex_checked 120 []
    ex_context _ _ _ _ ltac:(by_vm) ltac:(by_vm) ltac:(lia) E) as (worker & Hw & Hb & _).
  exists r, evs, n', worker. split; [reflexivity|split; [exact Hw|exact Hb]].
Defined.
