(* ===== verification/ReplyTheorems.v ===== *)
(** * Reading the model's reply

    Theorems on [parseResponse] of AnthropicScanProvider.cpp: which replies end in
    which exception, that a faithful reply reads back as the result it describes, and
    that the output schema of the request and the reader of the reply agree. *)
From Stdlib Require Import SpecFloat.
From S2P Require Import Prelude CString Binary64 Strtod Rounding Json Kinds Calendar JsonInput LedgerInput TokenUtils Env Db.
From S2P Require Import Sigv4Signer World ItemService ReceiptService ScanWorker Anthropic ScanServices Network Examples NetworkTheorems.

(** ** Exceptions *)

Definition may_throw (P : exn -> Prop) {A} (m : outcome A) : Prop := forall e, m = Throw e -> P e.
Lemma may_throw_Ok P {A} (a : A) : may_throw P (Ok a).
Proof. done. Qed.
Lemma may_throw_Throw (P : exn -> Prop) {A} e : P e -> may_throw P (Throw (A := A) e).
Proof. by intros H e' [= <-]. Qed.
Lemma may_throw_bind P {A B} (k : A -> outcome B) m :
  may_throw P m -> (forall a, may_throw P (k a)) -> may_throw P (obind k m).
Proof. intros Hm Hk. destruct m; cbn; [apply Hk|by apply may_throw_Throw, Hm|done]. Qed.
Lemma may_throw_ofold P {A B} (f : A -> B -> outcome A) xs : (forall a x, may_throw P (f a x)) ->
  forall acc, may_throw P (ofold f acc xs).
Proof. intros Hf. induction xs as [|x xs IH]; intros acc; cbn; [done|]. by apply may_throw_bind. Qed.
Lemma may_throw_omap_list P {A B} (f : A -> outcome B) xs : (forall x, may_throw P (f x)) -> may_throw P (omap_list f xs).
Proof.
  intros Hf. induction xs as [|x xs IH]; cbn; [done|]. apply may_throw_bind; [done|]. intros b.
  by apply may_throw_bind.
Qed.
Create HintDb throwing.
#[export] Hint Resolve may_throw_Ok may_throw_Throw may_throw_bind may_throw_ofold may_throw_omap_list : throwing.

Definition json_exn (e : exn) : Prop := exists w, e = JsonException w.
Definition scan_exn (e : exn) : Prop := exists w, e = ScanError w.
Definition reading_exn (e : exn) : Prop := json_exn e \/ scan_exn e.
Lemma json_error_reading {A} w : may_throw reading_exn (json_error (A := A) w).
Proof. apply may_throw_Throw. left. by exists w. Qed.
#[export] Hint Resolve json_error_reading : throwing.

Lemma at_key_reading key v : may_throw reading_exn (at_key key v).
Proof. unfold at_key. repeat case_match; auto with throwing. Qed.
Lemma as_string_reading v : may_throw reading_exn (as_string v).
Proof. unfold as_string. case_match; auto with throwing. Qed.
Lemma as_bool_reading v : may_throw reading_exn (as_bool v).
Proof. unfold as_bool. case_match; auto with throwing. Qed.
Lemma as_double_reading v : may_throw reading_exn (as_double v).
Proof. unfold as_double. case_match; auto with throwing. Qed.
#[export] Hint Resolve at_key_reading as_string_reading as_bool_reading as_double_reading : throwing.
Lemma as_strings_reading v : may_throw reading_exn (as_strings v).
Proof. unfold as_strings. case_match; auto with throwing. Qed.
Lemma value_or_reading key d v : may_throw reading_exn (value_or key d v).
Proof. unfold value_or. case_match; auto with throwing. Qed.
#[export] Hint Resolve as_strings_reading value_or_reading : throwing.
Lemma value_string_reading key v : may_throw reading_exn (value_string key v).
Proof. unfold value_string. auto with throwing. Qed.
Lemma llabs_reading z : may_throw reading_exn (llabs z).
Proof. unfold llabs. by case_match. Qed.
#[export] Hint Resolve value_string_reading llabs_reading : throwing.

Section Reading.
Context `{PL : Platform} `{JT : JsonText}.

Lemma toItem_reading line : may_throw reading_exn (toItem line).
Proof. unfold toItem. repeat (apply may_throw_bind; [auto with throwing|intros ?]); [case_match|]; auto with throwing. Qed.
Lemma add_item_reading kind items line : may_throw reading_exn (add_item kind items line).
Proof.
  unfold add_item. apply may_throw_bind; [apply toItem_reading|]. intros item. repeat (case_match; auto with throwing).
  apply may_throw_bind; [unfold neg64; by case_match|auto with throwing].
Qed.

(** [json::parse] fails only with its own exception. *)
Definition parse_exceptions : Prop := forall s e, json_parse s = Throw e -> json_exn e.

Lemma read_output_reading context response text : parse_exceptions -> may_throw reading_exn (read_output context response text).
Proof.
  intros Hp. unfold read_output. repeat (apply may_throw_bind; [auto with throwing|intros ?]).
  - intros e He. left. by apply (Hp _ _ He).
  - case_match; [apply may_throw_Throw; right; by eexists|].
    apply may_throw_bind; [case_match; auto with throwing|intros ?].
    repeat (apply may_throw_bind; [auto using add_item_reading with throwing|intros ?]). auto with throwing.
Qed.

(** The part of a response outside the model's own text. *)
Definition string_or_absent (key : string) (v : json) : bool :=
  match find key v with Some x => is_string x | None => true end.
Definition envelope_ok (response : json) : bool :=
  string_or_absent "stop_reason" response &&
  match find "content" response with
  | Some (JArray blocks) => forallb (fun b => is_object b && string_or_absent "type" b) blocks
  | _ => true
  end.
Lemma value_string_ok key v : is_object v = true -> string_or_absent key v = true -> exists s, value_string key v = Ok s.
Proof.
  destruct v as [| | | | | | |m|]; try done. intros _. unfold string_or_absent, value_string, value_or. cbn.
  destruct (assoc key m) as [x|]; cbn; [|by eexists]. destruct x; try done. by eexists.
Qed.
Lemma text_of_ok blocks : forallb (fun b => is_object b && string_or_absent "type" b) blocks = true -> exists o, text_of blocks = Ok o.
Proof.
  induction blocks as [|b blocks IH]; cbn; [by eexists|]. rewrite !andb_true_iff. intros [[Ho Ht] Hb].
  destruct (value_string_ok "type" b Ho Ht) as [s ->]. cbn. case_bool_decide; [by eexists|auto].
Qed.
Lemma text_of_reading blocks : may_throw reading_exn (text_of blocks).
Proof. induction blocks as [|b blocks IH]; cbn; [done|]. apply may_throw_bind; [auto with throwing|]. intros s. by case_match. Qed.

Lemma json_as_scan_error_scan {A} (m : outcome A) : may_throw reading_exn m -> may_throw scan_exn (json_as_scan_error m).
Proof.
  intros H. destruct m as [|e|]; [done| |done]. destruct (H e eq_refl) as [[w ->]|[w ->]]; cbn; apply may_throw_Throw; by eexists.
Qed.

(** C26: every way in which reading a reply can fail.  A reply that is not a JSON object,
    a refusal and a cut-off reply are reported as such; while the message around the
    model's text is well formed (a string as stop reason, content blocks that are
    objects with a string as type), every exception is a ScanError, whatever that text
    holds; and without that proviso the only other exceptions are the JSON library's. *)
Theorem reply_errors (body : string) (context : ScanContext) : parse_exceptions ->
  let response := parse_or_discard body in
  (forall e, parseResponse body context = Throw e -> scan_exn e \/ (json_exn e /\ envelope_ok response = false)) /\
  (is_object response = false -> parseResponse body context = Throw (ScanError "Anthropic response is not JSON")) /\
  (find "stop_reason" response = Some (JString "refusal") ->
   parseResponse body context = Throw (ScanError "model refused to read the document")) /\
  (find "stop_reason" response = Some (JString "max_tokens") ->
   parseResponse body context = Throw (ScanError "model reply was cut off at max_tokens")) /\
  (forall result, parseResponse body context = Ok result ->
   exists block, text_of (match find "content" response with Some (JArray l) => l | _ => [] end) = Ok (Some block) /\
     read_output context response block = Ok result).
Proof.
  intros Hp. cbv zeta. unfold parseResponse. destruct (is_object (parse_or_discard body)) eqn:Ho; cbn [negb].
  2: { destruct (parse_or_discard body); try done; (split; [intros e [= <-]; left; by eexists|done]). }
  set (response := parse_or_discard body) in *. split; [|split; [done|split; [|split]]].
  - intros e He. destruct (envelope_ok response) eqn:Hw; [left|].
    + apply andb_true_iff in Hw as [Hs Hb]. destruct (value_string_ok _ _ Ho Hs) as [s E]. rewrite E in He. cbn [obind] in He.
      case_bool_decide; [injection He as <-; by eexists|]. case_bool_decide; [injection He as <-; by eexists|].
      assert (exists o, match find "content" response with Some (JArray blocks) => text_of blocks | _ => Ok None end = Ok o)
        as [o Eo]. { destruct (find "content" response) as [[]|]; eauto using text_of_ok. }
      rewrite Eo in He. cbn [obind] in He. destruct o as [block|]; [|injection He as <-; by eexists].
      eapply json_as_scan_error_scan; [|exact He]. by apply read_output_reading.
    + assert (H : may_throw reading_exn (parseResponse body context)); [|unfold parseResponse in H; fold response in H].
      { unfold parseResponse. fold response. rewrite Ho. cbn [negb]. apply may_throw_bind; [auto with throwing|]. intros s.
        case_bool_decide; [apply may_throw_Throw; right; by eexists|].
        case_bool_decide; [apply may_throw_Throw; right; by eexists|]. apply may_throw_bind.
        - destruct (find _ _) as [[]|]; auto using text_of_reading with throwing.
        - intros [block|]; [|apply may_throw_Throw; right; by eexists]. intros e' He'. right. revert e' He'.
          apply json_as_scan_error_scan. by apply read_output_reading. }
      rewrite Ho in H. destruct (H e He) as [J|J]; [by right|by left].
  - intros E. unfold value_string, value_or. destruct response as [| | | | | | |m|]; try done. cbn in E |- *. by rewrite E.
  - intros E. unfold value_string, value_or. destruct response as [| | | | | | |m|]; try done. cbn in E |- *. by rewrite E.
  - intros result H. apply obind_Ok in H as (s & _ & H). case_bool_decide; [done|]. case_bool_decide; [done|].
    apply obind_Ok in H as (o & Eo & H). destruct o as [block|]; [|done]. exists block.
    assert (Hr : read_output context response block = Ok result).
    { destruct (read_output context response block) as [|[]|]; done. }
    split; [|done]. by destruct (find "content" response) as [[]|].
Qed.
End Reading.

(** A text that is not JSON, with a parser that rejects it. *)
Lemma reply_errors_witness : parse_exceptions (JT := ex_texts) /\
  parseResponse (JT := ex_texts) "<html>" ex_context = Throw (ScanError "Anthropic response is not JSON").
Proof.
  assert (H : parse_exceptions (JT := ex_texts)).
  { intros s e. unfold json_parse, ex_texts. repeat case_match; try discriminate. intros [= <-]. eexists. reflexivity. }
  split; [exact H|]. apply (proj1 (proj2 (reply_errors (JT := ex_texts) "<html>" ex_context H))). reflexivity.
Defined.
