(* ===== verification/Schema.v ===== *)
(** * The output schema and the reader agree

    [outputSchema] of AnthropicScanProvider.cpp asks the service for replies of a
    certain shape; [parseResponse] reads replies.  A reference definition of JSON Schema,
    for the keywords the program uses, says which replies satisfy the schema; each of
    those is read without a schema error, with names from the user's own lists. *)
From S2P Require Import Prelude CString Binary64 Strtod Json Kinds Calendar JsonInput LedgerInput TokenUtils Env Db.
From S2P Require Import Sigv4Signer World ItemService ReceiptService ScanWorker Anthropic Examples NetworkTheorems ReplyTheorems.

(** ** JSON Schema *)

Definition has_type (t : string) (v : json) : bool :=
  match v with
  | JNull => bool_decide (t = "null"%string)
  | JBool _ => bool_decide (t = "boolean"%string)
  | JInteger _ | JUnsigned _ | JFloat _ => bool_decide (t = "number"%string)
  | JString _ => bool_decide (t = "string"%string)
  | JArray _ => bool_decide (t = "array"%string)
  | JObject _ => bool_decide (t = "object"%string)
  | JDiscarded => false
  end.
(** Equality with an element of an [enum], all of which are strings here. *)
Definition same_string (x v : json) : bool :=
  match x, v with JString a, JString b => bool_decide (a = b) | _, _ => false end.
(** [v] satisfies [schema], whose nesting is below [depth].  [format] is an annotation. *)
Fixpoint valid (depth : nat) (schema v : json) : bool :=
  match depth with
  | O => false
  | S depth =>
      match find "anyOf" schema with Some (JArray l) => existsb (fun s => valid depth s v) l | _ => true end &&
      match find "type" schema with Some (JString t) => has_type t v | _ => true end &&
      match find "enum" schema with Some (JArray l) => existsb (fun x => same_string x v) l | _ => true end &&
      match find "items" schema, v with Some s, JArray l => forallb (valid depth s) l | _, _ => true end &&
      match find "properties" schema, v with
      | Some (JObject ps), JObject m =>
          forallb (fun kv => match assoc kv.1 ps with Some s => valid depth s kv.2 | None => true end) m
      | _, _ => true
      end &&
      match find "required" schema, v with
      | Some (JArray l), JObject m => forallb (fun x => match x with JString k => has k v | _ => true end) l
      | _, _ => true
      end &&
      match find "additionalProperties" schema, v with
      | Some (JBool false), JObject m =>
          forallb (fun kv => match find "properties" schema with Some ps => has kv.1 ps | None => false end) m
      | _, _ => true
      end
  end.

Lemma assoc_In key v m : assoc key m = Some v -> (key, v) ∈ m.
Proof. induction m as [|[k w] m IH]; cbn; [done|]. case_decide as E; [intros [= ->]; subst; left|right; auto]. Qed.

Ltac distinct := refine (bool_decide_unpack (NoDup _) _); vm_compute; exact I.
Ltac lookups H :=
  cbn [valid] in H; rewrite ?find_obj in H by distinct; cbn [assoc] in H;
  repeat first [rewrite decide_True in H by reflexivity | rewrite decide_False in H by done].
Ltac listed := repeat first [apply list_elem_of_here | apply list_elem_of_further].
Ltac split_andb := repeat match goal with H : _ && _ = true |- _ => apply andb_true_iff in H as [? ?] end.

Lemma forallb_Forall {A} (f : A -> bool) l : forallb f l = true <-> Forall (fun x => f x = true) l.
Proof. rewrite forallb_forall. symmetry. apply List.Forall_forall. Qed.
Lemma valid_type d t v : valid d (type_of t) v = true -> has_type t v = true.
Proof. destruct d as [|d]; [done|]. intros H. cbn [valid] in H. split_andb. done. Qed.
Lemma valid_nullable d s v : valid d (nullable_schema s) v = true -> v = JNull \/ valid (pred d) s v = true.
Proof.
  destruct d as [|d]; [done|]. intros H. unfold nullable_schema in H. lookups H.
  cbn in H. rewrite !andb_true_r, orb_false_r in H. apply orb_true_iff in H as [H|H]; [by right|left].
  apply valid_type in H. by destruct v.
Qed.
Lemma valid_enum d names v : valid d (enum_schema (names_json names)) v = true -> exists s, v = JString s /\ s ∈ names.
Proof.
  destruct d as [|d]; [done|]. intros H. unfold enum_schema in H. lookups H.
  cbn in H. split_andb. destruct v; try done. exists s. split; [done|].
  match goal with H : existsb _ _ = true |- _ => apply existsb_exists in H as (x & Hx & E) end.
  apply list_elem_of_In, list_elem_of_fmap in Hx as (y & -> & Hy). cbn in E. apply bool_decide_eq_true in E as ->. done.
Qed.
Lemma valid_enumOrNull d names v : valid d (enumOrNull names) v = true -> v = JNull \/ exists s, v = JString s /\ s ∈ names.
Proof.
  unfold enumOrNull. case_bool_decide.
  - intros H'%valid_type. left. by destruct v.
  - intros [->|H']%valid_nullable; [by left|right]. by eapply valid_enum.
Qed.
Lemma valid_array d s v : valid d (arraySchema s) v = true -> exists l, v = JArray l /\ Forall (fun x => valid (pred d) s x = true) l.
Proof.
  destruct d as [|d]; [done|]. intros H. unfold arraySchema in H. lookups H.
  cbn in H. split_andb. destruct v; try done. exists l. split; [done|]. by apply forallb_Forall.
Qed.
Lemma valid_object d ps v : NoDup (map fst ps) -> valid d (objectSchema (obj ps)) v = true ->
  exists m, v = JObject m /\ (forall k x, assoc k m = Some x -> k ∈ map fst ps) /\
    forall k s, (k, s) ∈ ps -> exists x, assoc k m = Some x /\ valid (pred d) s x = true.
Proof.
  intros Hd. destruct d as [|d]; [done|]. intros H. unfold objectSchema in H. lookups H.
  cbn in H. split_andb. destruct v as [| | | | | | |m|]; try done. exists m. split; [done|]. split.
  { intros k x Hx. rewrite forallb_Forall, Forall_forall in H0. specialize (H0 _ (assoc_In _ _ _ Hx)). cbn in H0.
    apply has_keys in H0. by rewrite keys_obj in H0. }
  intros k s Hk.
  rewrite forallb_Forall, Forall_forall in H1. rewrite forallb_Forall, Forall_forall in H2.
  assert (Hs : assoc k (sorting.merge_sort key_le ps) = Some s).
  { change (find k (obj ps) = Some s). rewrite find_obj by done. by apply assoc_elem. }
  specialize (H1 (JString k)). cbn in H1. destruct (assoc k m) as [x|] eqn:Ex.
  - exists x. split; [done|]. specialize (H2 (k, x) (assoc_In _ _ _ Ex)). cbn in H2. by rewrite Hs in H2.
  - assert (has k (JObject m) = true) as N; [|unfold has in N; cbn in N; by rewrite Ex in N].
    apply H1, list_elem_of_fmap. exists k. split; [done|]. change (k ∈ keys (obj ps)). rewrite keys_obj. apply list_elem_of_fmap.
    by exists (k, s).
Qed.

(** ** What the reader makes of a reply that satisfies the schema *)

(** A message of the service, as its API documents it, with [text] from the model. *)
Definition message (text stop model id : string) (usage : json) : json :=
  obj [("content", JArray [text_block text]); ("id", JString id); ("model", JString model);
       ("stop_reason", JString stop); ("usage", usage)]%string.

Section Agree.
Context `{PL : Platform} `{JT : JsonText}.

(** An amount whose cents have no magnitude in int64: the C standard leaves the
    conversion of a number this large open. *)
Definition too_large (v : json) : Prop := toCents (get_double v) = int64_min.
Definition line_too_large (line : json) : Prop := exists v, find "amount" line = Some v /\ too_large v.
Definition output_too_large (output : json) : Prop :=
  (exists v, find "total" output = Some v /\ too_large v) \/
  (exists l, find "items" output = Some (JArray l) /\ Exists line_too_large l).

Record item_fits (categories tags : list string) (item : ScannedItem) : Prop := {
  if_amount : 0 <= si_amountCents item;
  if_quantity : forall q, si_quantity item = Some q -> dltb dzero q = true;
  if_category : forall c, si_category item = Some c -> c ∈ categories;
  if_tags : forall t, t ∈ si_tags item -> t ∈ tags
}.
Definition kind_fits (context : ScanContext) (kind : string) : Prop :=
  match sc_knownKind context with
  | Some k => kind = k
  | None => exists r, r ∈ kKinds /\ scannable r = true /\ name r = kind
  end.

Lemma magnitude d : (exists z, llabs (toCents d) = Ok z /\ 0 <= z) \/ (toCents d = int64_min /\ exists u, llabs (toCents d) = UB u).
Proof.
  pose proof (llround_int64 (dmul d (of_int 100))) as H. fold (toCents d) in H. apply int64_ok_spec in H.
  unfold llabs. destruct (int64_ok (Z.abs (toCents d))) eqn:E; [left; eexists; split; [done|lia]|right].
  split; [|by eexists]. unfold int64_ok, int64_min, int64_max in *. lia.
Qed.
Lemma neg_magnitude d : toCents d < 0 ->
  (exists z, neg64 (toCents d) = Ok z /\ 0 <= z) \/ (toCents d = int64_min /\ exists u, neg64 (toCents d) = UB u).
Proof.
  intros N. pose proof (llround_int64 (dmul d (of_int 100))) as H. fold (toCents d) in H. apply int64_ok_spec in H.
  unfold neg64. destruct (int64_ok (- toCents d)) eqn:E; [left; eexists; split; [done|lia]|right].
  split; [|by eexists]. unfold int64_ok, int64_min, int64_max in *. lia.
Qed.

Lemma optText_enum key m v (names : list string) s : assoc key m = Some v -> (v = JNull \/ exists x, v = JString x /\ x ∈ names) ->
  optText (JObject m) key = Some s -> s ∈ names.
Proof.
  intros E H. unfold optText. cbn [find]. rewrite E. destruct H as [->|(x & -> & Hx)]; [done|].
  destruct (is_blank x); [done|]. by intros [= <-].
Qed.
Lemma item_read context categories d line : valid d (itemSchema context categories) line = true ->
  exists item v, toItem line = Ok item /\ find "amount" line = Some v /\ si_amountCents item = toCents (get_double v) /\
    (forall z, 0 <= z -> item_fits categories (sc_tags context)
       (mkScannedItem (si_name item) (si_quantity item) (si_unitPriceCents item) z (si_category item) (si_informational item) (si_tags item))).
Proof.
  unfold itemSchema. intros H. apply valid_object in H as (m & -> & Hn & Hm); [|case_bool_decide; distinct].
  cbn [app] in Hm.
  destruct (Hm "amount"%string (type_of "number") ltac:(listed)) as (a & Ea & Va%valid_type).
  destruct (Hm "informational"%string (type_of "boolean") ltac:(listed)) as (b & Eb & Vb%valid_type).
  destruct (Hm "category"%string (enumOrNull categories) ltac:(listed)) as (c & Ec & Vc%valid_enumOrNull).
  assert (Ht : exists tags, match find "tags" (JObject m) with Some v => as_strings v | None => Ok [] end = Ok tags /\
    forall t, t ∈ tags -> t ∈ sc_tags context).
  { case_bool_decide as Et.
    - exists []. split; [|set_solver]. cbn [find]. destruct (assoc "tags" m) as [v|] eqn:Ev; [|done].
      specialize (Hn _ _ Ev). revert Hn. cbn. set_solver.
    - destruct (Hm "tags"%string _ ltac:(listed)) as (v & Ev & Hv). cbn [find]. rewrite Ev.
      apply valid_array in Hv as (l & -> & Hl). cbn [as_strings]. clear -Hl.
      induction Hl as [|x l Hx _ (tags & E & IH)]; cbn; [exists []; set_solver|].
      apply valid_enum in Hx as (s & -> & Hs). cbn. rewrite E. cbn. exists (s :: tags). set_solver. }
  assert (exists i, as_bool b = Ok i) as [i Ei] by (destruct b; done || by eexists).
  destruct Ht as (tags & Et & Htags).
  assert (En : is_number a = true) by by destruct a.
  eexists _, a. split.
  { unfold toItem. cbn [at_key find]. rewrite Ea, Eb. cbn [obind]. unfold as_double. rewrite En, Ei. cbn [obind].
    unfold find in Et. rewrite Et. reflexivity. }
  split; [done|split; [done|]]. cbn. intros z Hz. split; cbn; [done| | |done].
  - intros q. destruct (optNumber _ _) as [q'|]; [|done]. destruct (dltb dzero q') eqn:E; [|done]. by intros [= <-].
  - intros s Hs. by eapply optText_enum.
Qed.

Lemma line_read context categories d kind line acc : valid d (itemSchema context categories) line = true ->
  Forall (item_fits categories (sc_tags context)) acc ->
  (exists items, add_item kind acc line = Ok items /\ Forall (item_fits categories (sc_tags context)) items) \/
  (exists u, add_item kind acc line = UB u /\ line_too_large line).
Proof.
  intros Hv Ha. destruct (item_read _ _ _ _ Hv) as (item & v & Et & Ev & Eam & Hfit). unfold add_item. rewrite Et. cbn [obind].
  destruct (Z.ltb_spec (si_amountCents item) 0) as [N|N].
  - destruct (negb _); [left; by eexists|]. rewrite Eam in N |- *.
    destruct (neg_magnitude _ N) as [(z & -> & Hz)|(E & u & ->)]; cbn [obind]; [left|right].
    + eexists. split; [done|]. apply Forall_app. split; [done|]. constructor; [by apply Hfit|done].
    + exists u. split; [done|]. by exists v.
  - left. eexists. split; [done|]. apply Forall_app. split; [done|]. constructor; [|done].
    specialize (Hfit _ N). by destruct item.
Qed.
Lemma items_read context categories d kind lines acc : Forall (fun l => valid d (itemSchema context categories) l = true) lines ->
  Forall (item_fits categories (sc_tags context)) acc ->
  (exists items, ofold (add_item kind) acc lines = Ok items /\ Forall (item_fits categories (sc_tags context)) items) \/
  (exists u, ofold (add_item kind) acc lines = UB u /\ Exists line_too_large lines).
Proof.
  intros Hl. revert acc. induction Hl as [|line lines Hv _ IH]; intros acc Ha; cbn [ofold]; [left; by eexists|].
  destruct (line_read _ _ _ kind line acc Hv Ha) as [(items & -> & Hi)|(u & -> & Hu)]; cbn [obind].
  - destruct (IH items Hi) as [H|(u & Eu & Hu)]; [by left|right]. exists u. split; [done|by right].
  - right. exists u. split; [done|by left].
Qed.

(** The part of [parseResponse] before the model's text. *)
Lemma parse_message (context : ScanContext) (body text stop model id : string) (usage : json) :
  json_parse body = Ok (message text stop model id usage) -> stop <> "refusal"%string -> stop <> "max_tokens"%string ->
  parseResponse body context = json_as_scan_error (read_output context (message text stop model id usage) (text_block text)).
Proof.
  intros Hb Hr Hm. unfold parseResponse, parse_or_discard. rewrite Hb.
  assert (value_string "stop_reason" (message text stop model id usage) = Ok stop) as -> by done.
  assert (find "content" (message text stop model id usage) = Some (JArray [text_block text])) as -> by done.
  cbn [obind is_object negb message obj]. rewrite !bool_decide_false by done. done.
Qed.

(** C22: the schema sent with a request and the reader of the reply agree.  A reply of
    the service whose text is JSON valid under that schema is never a schema error: the
    document is reported unreadable for the reason the model gives, or the scan has a
    result, of the known kind or a scannable one, with a non-negative total and amounts,
    positive quantities, and categories and tags from the lists the user sent (the only
    proviso being an amount whose cents exceed int64). *)
Theorem schema_matches_reader (context : ScanContext) (schema output usage : json) (depth : nat)
    (body text stop model id : string) :
  outputSchema context = Ok schema -> valid depth schema output = true ->
  json_parse text = Ok output -> json_parse body = Ok (message text stop model id usage) ->
  stop <> "refusal"%string -> stop <> "max_tokens"%string ->
  match optText output "unreadable_reason" with
  | Some reason => parseResponse body context = Throw (ScanError ("model could not read the document: " +:+ reason))
  | None =>
      (exists result categories, parseResponse body context = Ok result /\ categoriesFor context = Ok categories /\
         kind_fits context (sr_kind result) /\ 0 <= sr_totalCents result /\
         Forall (item_fits categories (sc_tags context)) (sr_items result)) \/
      (exists u, parseResponse body context = UB u /\ output_too_large output)
  end.
Proof.
  intros Hs Hv Ht Hb Hr Hm. unfold outputSchema in Hs. apply obind_Ok in Hs as (categories & Hc & [= <-]).
  apply valid_object in Hv as (m & -> & _ & Hp); [|destruct (sc_knownKind _); distinct]. cbn [app] in Hp.
  destruct (Hp "currency"%string (type_of "string") ltac:(listed)) as (cu & Ecu & Vcu%valid_type).
  destruct (Hp "total"%string (type_of "number") ltac:(listed)) as (to & Eto & Vto%valid_type).
  destruct (Hp "items"%string _ ltac:(listed)) as (it & Eit & (lines & -> & Hl)%valid_array).
  assert (Hk : exists kind, match sc_knownKind context with
      | Some k => Ok k | None => (let* k := at_key "kind" (JObject m) in as_string k)%outcome end = Ok kind /\ kind_fits context kind).
  { unfold kind_fits. destruct (sc_knownKind context) as [k|]; [by exists k|].
    destruct (Hp "kind"%string (enum_schema (names_json (map name scannable_kinds))) ltac:(listed)) as (k & Ekd & (x & -> & Hx)%valid_enum).
    exists x. cbn [at_key]. rewrite Ekd. split; [done|]. apply list_elem_of_fmap in Hx as (r & -> & Hr').
    apply list_elem_of_filter in Hr' as [H1 H2]. exists r. split; [done|split; [|done]]. by destruct (scannable r). }
  destruct Hk as (kind & Ek & Hkind). destruct cu as [| | | | |cu| | |]; try done.
  assert (Hn : as_double to = Ok (get_double to)) by by destruct to.
  rewrite (parse_message _ _ _ _ _ _ _ Hb Hr Hm). unfold read_output.
  assert (at_key "text" (text_block text) = Ok (JString text)) as -> by done. cbn [obind as_string]. rewrite Ht. cbn [obind].
  destruct (optText _ "unreadable_reason") as [reason|]; [done|]. rewrite Ek. cbn [obind at_key]. rewrite Ecu. cbn [obind as_string].
  rewrite Eto. cbn [obind]. rewrite Hn. cbn [obind].
  destruct (magnitude (get_double to)) as [(total & -> & H0)|(Emin & u & ->)]; cbn [obind].
  2: { right. exists u. split; [done|left]. by exists to. }
  rewrite Eit. cbn [obind elements].
  destruct (items_read _ _ _ kind lines [] Hl ltac:(constructor)) as [(items & -> & Hi)|(u & -> & Hu)]; cbn [obind].
  2: { right. exists u. split; [done|right]. by exists lines. }
  left. eexists _, categories. split; [reflexivity|]. auto.
Qed.
End Agree.

Definition ex_message_texts (output : json) : JsonText := {|
  json_dump := fun _ => Ok "{}"%string;
  json_parse := fun s =>
    if decide (s = "body"%string) then Ok (message "text" "end_turn" "model" "msg" JNull)
    else if decide (s = "text"%string) then Ok output
    else Throw (JsonException "syntax error")
|}.
Definition ex_milk : json :=
  obj [("name", JString "milk"); ("quantity", JUnsigned 2); ("unit_price", JNull); ("amount", JUnsigned 4);
       ("category", JString "Food"); ("informational", JBool false)]%string.
Definition ex_full_output : json := Eval vm_compute in
  obj [("unreadable_reason", JNull); ("currency", JString "AUD"); ("total", JInteger (-4)); ("subtotal", JNull);
       ("merchant", JNull); ("store_name_raw", JNull); ("purchase_date", JString "2026-01-01"); ("items", JArray [ex_milk]);
       ("kind", JString "purchase")]%string.
Definition ex_schema : json := Eval vm_compute in match outputSchema ex_context with Ok s => s | _ => JNull end.
Definition ex_read : ScanResult := Eval vm_compute in
  match parseResponse (JT := ex_message_texts ex_full_output) "body" ex_context with Ok r => r | _ => ex_result end.
Lemma schema_matches_reader_witness :
  outputSchema ex_context = Ok ex_schema /\ valid 6 ex_schema ex_full_output = true /\
  parseResponse (JT := ex_message_texts ex_full_output) "body" ex_context = Ok ex_read /\
  kind_fits ex_context (sr_kind ex_read) /\ Forall (item_fits ["Food"%string] []) (sr_items ex_read) /\
  length (sr_items ex_read) = 1%nat /\ sr_totalCents ex_read = 400.
Proof.
  assert (E : parseResponse (JT := ex_message_texts ex_full_output) "body" ex_context = Ok ex_read) by by_vm.
  split; [by_vm|split; [by_vm|split; [exact E|]]].
  pose proof (schema_matches_reader (JT := ex_message_texts ex_full_output) ex_context ex_schema ex_full_output JNull 6
    "body" "text" "end_turn" "model" "msg" ltac:(by_vm) ltac:(by_vm) eq_refl eq_refl ltac:(discriminate) ltac:(discriminate)) as H.
  cbv beta in H. rewrite E in H. change (optText ex_full_output "unreadable_reason") with (@None string) in H. cbv iota in H.
  destruct H as [(r & c & Er & Ec & Hk & _ & Hi)|(u & Eu & _)]; [|discriminate Eu].
  injection Er as <-. change (categoriesFor ex_context) with (Ok ["Food"%string]) in Ec. injection Ec as <-.
  split; [exact Hk|split; [exact Hi|split; reflexivity]].
Defined.
