(* ===== verification/Replies.v ===== *)
(** * Faithful replies

    The reply that describes a result, in the shape the output schema asks for, with
    amounts printed in main units: it is valid under the schema, and [parseResponse]
    reads it back as that result, cent for cent. *)
From Stdlib Require Import SpecFloat.
From S2P Require Import Prelude CString Binary64 Strtod Rounding Json Kinds Calendar JsonInput LedgerInput TokenUtils Env Db.
From S2P Require Import Sigv4Signer World ItemService ReceiptService ScanWorker Anthropic Examples NetworkTheorems ReplyTheorems Schema.

(** ** Amounts *)

(** [c] cents as a decimal in main units, printed negative if [neg]. *)
Definition printed (neg : bool) (c : Z) : json := JFloat (ddiv (of_int (if neg then - c else c)) (of_int 100)).

Section Amounts.
Context `{PL : Platform}.
Lemma toCents_printed neg c : 0 <= c < 2 ^ 50 -> toCents (get_double (printed neg c)) = if neg then - c else c.
Proof.
  intros Hc. destruct (Z.eq_dec c 0) as [->|N]; [by destruct neg|]. destruct (of_int_small c ltac:(lia)) as [Ep En].
  unfold toCents, printed. cbn [get_double]. destruct (hundredths_back neg c ltac:(lia)) as (p & x & E & Er).
  assert (of_int (if neg then - c else c) = S754_finite neg (Z.to_pos (lifted c)) (digits c - 53)) as -> by by destruct neg.
  rewrite E. cbn [llround]. rewrite Er. destruct (int64_ok (if neg then - c else c)) eqn:Eo; [done|].
  unfold int64_ok, int64_min, int64_max in Eo. destruct neg; lia.
Qed.
Lemma printed_nonneg c : 0 <= c < 2 ^ 50 -> dleb dzero (get_double (printed false c)) = true.
Proof.
  intros Hc. destruct (Z.eq_dec c 0) as [->|N]; [done|]. unfold printed. cbn [get_double].
  rewrite (of_int_whole c) by lia. destruct (lifted_range c ltac:(lia)) as [Hd Hl].
  destruct (div_100 false (lifted c) (digits c - 53) Hl ltac:(lia)) as (k & M & x & _ & E & HM & _).
  unfold whole. by rewrite E.
Qed.
End Amounts.

(** ** The reply of a result *)

Definition line_of (neg : bool) (context : ScanContext) (item : ScannedItem) : json :=
  obj ([("name", nullable JString (si_name item)); ("quantity", nullable JFloat (si_quantity item));
        ("unit_price", nullable (printed false) (si_unitPriceCents item)); ("amount", printed neg (si_amountCents item));
        ("category", nullable JString (si_category item)); ("informational", JBool (si_informational item))]%string ++
       (if bool_decide (sc_tags context = []) then [] else [("tags", JArray (map JString (si_tags item)))]%string)).
Definition output_of (neg : bool) (context : ScanContext) (subtotal : option Z) (result : ScanResult) : json :=
  obj ([("unreadable_reason", JNull); ("currency", JString (sr_currency result)); ("total", printed neg (sr_totalCents result));
        ("subtotal", nullable (printed neg) subtotal); ("merchant", nullable JString (sr_merchant result));
        ("store_name_raw", nullable JString (sr_storeNameRaw result)); ("purchase_date", nullable JString (sr_purchaseDate result));
        ("items", JArray (map (line_of neg context) (sr_items result)))]%string ++
       match sc_knownKind context with None => [("kind", JString (sr_kind result))]%string | Some _ => [] end).

Definition amount_ok (c : Z) : Prop := 0 <= c < 2 ^ 50.
Definition text_ok (o : option string) : Prop := forall s, o = Some s -> is_blank s = false.
Record line_ok (categories tags : list string) (item : ScannedItem) : Prop := {
  lo_fits : item_fits categories tags item;
  lo_amount : amount_ok (si_amountCents item);
  lo_unit : forall p, si_unitPriceCents item = Some p -> amount_ok p;
  lo_name : text_ok (si_name item);
  lo_category : text_ok (si_category item)
}.
Record result_ok (context : ScanContext) (categories : list string) (result : ScanResult) : Prop := {
  ro_kind : kind_fits context (sr_kind result);
  ro_total : amount_ok (sr_totalCents result);
  ro_merchant : text_ok (sr_merchant result);
  ro_store : text_ok (sr_storeNameRaw result);
  ro_date : text_ok (sr_purchaseDate result);
  ro_items : Forall (line_ok categories (sc_tags context)) (sr_items result)
}.

(** ** It is valid under the schema *)

Ltac eval_keywords :=
  cbn [valid]; rewrite ?find_obj by distinct; cbn [assoc];
  repeat first [rewrite decide_True by reflexivity | rewrite decide_False by done].
Lemma valid_type_of d t v : has_type t v = true -> valid (S d) (type_of t) v = true.
Proof. intros H. unfold type_of. eval_keywords. by rewrite H. Qed.
Lemma valid_nullable_schema {A} d s (f : A -> json) o : (forall a, o = Some a -> valid (S d) s (f a) = true) ->
  valid (S (S d)) (nullable_schema s) (nullable f o) = true.
Proof.
  intros H. unfold nullable_schema. eval_keywords. rewrite !andb_true_r.
  cbn [existsb]. rewrite orb_false_r. apply orb_true_iff. destruct o as [a|]; [left; by apply H|right]. done.
Qed.
Lemma valid_enum_schema d names s : s ∈ names -> valid (S d) (enum_schema (names_json names)) (JString s) = true.
Proof.
  intros H. unfold enum_schema. eval_keywords. rewrite !andb_true_r.
  apply andb_true_iff. split; [done|]. apply existsb_exists. exists (JString s). split; [|cbn; by rewrite bool_decide_eq_true].
  apply list_elem_of_In, list_elem_of_fmap. by exists s.
Qed.
Lemma valid_arraySchema d s l : Forall (fun x => valid d s x = true) l -> valid (S d) (arraySchema s) (JArray l) = true.
Proof.
  intros H. unfold arraySchema. eval_keywords. rewrite !andb_true_r. cbn.
  by apply forallb_Forall.
Qed.
(** Values for exactly the properties of an object schema, in its order. *)
Definition fields_valid (d : nat) : list (string * json) -> list (string * json) -> Prop :=
  Forall2 (fun p x => p.1 = x.1 /\ valid d p.2 x.2 = true).
Lemma fields_valid_keys d ps m : fields_valid d ps m -> map fst m = map fst ps.
Proof. induction 1 as [|p x ps m [E _] _ IH]; cbn; congruence. Qed.
Lemma valid_objectSchema d ps m : NoDup (map fst ps) -> fields_valid d ps m ->
  valid (S d) (objectSchema (obj ps)) (obj m) = true.
Proof.
  intros Hd H. pose proof (fields_valid_keys _ _ _ H) as Hk. unfold objectSchema. eval_keywords.
  assert (Hm : NoDup (map fst m)) by by rewrite Hk.
  assert (Hf : forall k x, (k, x) ∈ m -> exists s, assoc k ps = Some s /\ valid d s x = true).
  { intros k x Hx. assert (exists s, (k, s) ∈ ps /\ valid d s x = true) as (s & Hs & V).
    { clear -H Hx. induction H as [|[k' s] [k'' y] ps m [E V] _ IH]; [by apply elem_of_nil in Hx|]. cbn in E, V. subst.
      apply elem_of_cons in Hx as [[= -> ->]|Hx]; [exists s; split; [left|done]|].
      destruct (IH Hx) as (s' & Hs & V'). exists s'. split; [by right|done]. }
    exists s. split; [by apply assoc_elem|done]. }
  rewrite !andb_true_iff. repeat split.
  - change (obj m) with (JObject (sorting.merge_sort key_le m)). change (obj ps) with (JObject (sorting.merge_sort key_le ps)).
    cbv iota. apply forallb_Forall, Forall_forall. intros [k x] Hx. rewrite sorting.merge_sort_Permutation in Hx.
    destruct (Hf k x Hx) as (s & Es & V). cbn [fst snd].
    assert (assoc k (sorting.merge_sort key_le ps) = Some s) as ->; [|done].
    change (find k (obj ps) = Some s). by rewrite find_obj.
  - unfold names_json. change (obj m) with (JObject (sorting.merge_sort key_le m)). cbv iota.
    apply forallb_Forall, Forall_forall. intros x Hx. apply list_elem_of_fmap in Hx as (k & -> & Hx).
    change (has k (obj m) = true). apply has_keys. rewrite keys_obj, Hk, <- (keys_obj ps). done.
  - change (obj m) with (JObject (sorting.merge_sort key_le m)). cbv iota. apply forallb_Forall, Forall_forall.
    intros [k x] Hx. rewrite sorting.merge_sort_Permutation in Hx. destruct (Hf k x Hx) as (s & Es & V). cbn [fst].
    unfold has. by rewrite find_obj, Es.
Qed.

Lemma valid_enumOrNull_intro d names o : (forall c, o = Some c -> c ∈ names) ->
  valid (S (S d)) (enumOrNull names) (nullable JString o) = true.
Proof.
  intros H. unfold enumOrNull. case_bool_decide as E.
  - destruct o as [c|]; [|by apply valid_type_of]. specialize (H c eq_refl). subst. by apply elem_of_nil in H.
  - apply valid_nullable_schema. intros c Hc. by apply valid_enum_schema, H.
Qed.
Ltac each_field :=
  repeat first [apply List.Forall2_nil | apply List.Forall2_cons; [split; [reflexivity|cbn [snd]; try by apply valid_type_of]|]].
Lemma line_valid neg context categories item : line_ok categories (sc_tags context) item ->
  valid 4 (itemSchema context categories) (line_of neg context item) = true.
Proof.
  intros [Hf Ha Hu Hn Hc]. unfold itemSchema, line_of. apply valid_objectSchema; [case_bool_decide; distinct|].
  unfold fields_valid. apply Forall2_app; [|case_bool_decide; each_field].
  - each_field.
    + apply valid_nullable_schema. intros; by apply valid_type_of.
    + apply valid_nullable_schema. intros; by apply valid_type_of.
    + apply valid_nullable_schema. intros; by apply valid_type_of.
    + apply valid_enumOrNull_intro. apply Hf.
  - apply valid_arraySchema, Forall_forall. intros x Hx. apply list_elem_of_fmap in Hx as (t & -> & Ht).
    by apply valid_enum_schema, Hf.
Qed.
Lemma Ok_eq {A} (a b : A) : Ok a = Ok b -> a = b.
Proof. congruence. Qed.
Lemma output_valid neg context categories schema subtotal result : categoriesFor context = Ok categories ->
  outputSchema context = Ok schema -> result_ok context categories result ->
  valid 6 schema (output_of neg context subtotal result) = true.
Proof.
  intros Hc Hs [Hk _ _ _ _ Hi]. unfold outputSchema in Hs. rewrite Hc in Hs. cbn [obind] in Hs. apply Ok_eq in Hs as <-.
  unfold output_of. apply valid_objectSchema; [destruct (sc_knownKind context); distinct|].
  unfold fields_valid. apply Forall2_app.
  - each_field.
    + by apply (valid_nullable_schema _ _ JString None).
    + apply valid_nullable_schema. intros; by apply valid_type_of.
    + apply valid_nullable_schema. intros; by apply valid_type_of.
    + apply valid_nullable_schema. intros; by apply valid_type_of.
    + apply valid_nullable_schema. intros d _. cbn [valid]. rewrite !find_obj by distinct. done.
    + apply valid_arraySchema, Forall_forall. intros x Hx. apply list_elem_of_fmap in Hx as (it & -> & Hit).
      rewrite Forall_forall in Hi. by apply line_valid, Hi.
  - unfold kind_fits in Hk. destruct (sc_knownKind context); each_field. apply valid_enum_schema.
    destruct Hk as (r & H1 & H2 & <-). apply list_elem_of_fmap. exists r. split; [done|]. apply list_elem_of_filter. split; [by rewrite H2|done].
Qed.

(** ** It reads back *)

(** A field of a printed line or output. *)
Ltac field := subst; unfold line_of, output_of; rewrite find_obj by first [distinct | case_bool_decide; distinct | destruct (sc_knownKind _); distinct]; cbn [app assoc];
  repeat first [rewrite decide_True by reflexivity | rewrite decide_False by done]; reflexivity.

Section Back.
Context `{PL : Platform} `{JT : JsonText}.

Lemma optText_nullable key v o : find key v = Some (nullable JString o) -> text_ok o -> optText v key = o.
Proof. intros E H. unfold optText. rewrite E. destruct o as [s|]; [|done]. cbn. by rewrite (H s). Qed.
Lemma optNumber_nullable {A} key v (f : A -> json) o : find key v = Some (nullable f o) -> (forall a, is_number (f a) = true) ->
  optNumber v key = (fun a => get_double (f a)) <$> o.
Proof. intros E H. unfold optNumber. rewrite E. destruct o as [a|]; [|done]. cbn. by rewrite H. Qed.
Lemma at_key_find key m x : find key (obj m) = Some x -> at_key key (obj m) = Ok x.
Proof. unfold obj. cbn. by intros ->. Qed.
Lemma as_strings_back l : as_strings (JArray (map JString l)) = Ok l.
Proof. cbn. induction l as [|s l IH]; cbn; [done|]. by rewrite IH. Qed.

Lemma magnitude_back (neg : bool) c : amount_ok c -> llabs (if neg then - c else c) = Ok c.
Proof.
  intros Hc. unfold amount_ok, llabs in *. assert (Z.abs (if neg then - c else c) = c) as -> by (destruct neg; lia).
  assert (int64_ok c = true) as ->; [|done]. unfold int64_ok, int64_min, int64_max. lia.
Qed.

Lemma line_back neg context categories item kind acc : line_ok categories (sc_tags context) item ->
  (neg = true -> kind = "refund"%string) -> add_item kind acc (line_of neg context item) = Ok (acc ++ [item]).
Proof.
  intros [Hf Ha Hu Hn Hc] Hneg. remember (line_of neg context item) as line eqn:El.
  assert (Fn : find "name" line = Some (nullable JString (si_name item))) by field.
  assert (Fq : find "quantity" line = Some (nullable JFloat (si_quantity item))) by field.
  assert (Fu : find "unit_price" line = Some (nullable (printed false) (si_unitPriceCents item))) by field.
  assert (Fa : at_key "amount" line = Ok (printed neg (si_amountCents item))) by (rewrite El; apply at_key_find; field).
  assert (Fc : find "category" line = Some (nullable JString (si_category item))) by field.
  assert (Fi : at_key "informational" line = Ok (JBool (si_informational item))) by (rewrite El; apply at_key_find; field).
  assert (Ft : match find "tags" line with Some v => as_strings v | None => Ok [] end = Ok (si_tags item)).
  { rewrite El. unfold line_of. rewrite find_obj by (case_bool_decide; distinct). case_bool_decide as E.
    - assert (si_tags item = []) as ->; [|done]. destruct (si_tags item) as [|t l] eqn:Et; [done|].
      pose proof (if_tags _ _ _ Hf t) as Ht. rewrite Et, E in Ht. by apply elem_of_nil in Ht; [|left].
    - apply as_strings_back. }
  assert (Hi : toItem line = Ok (mkScannedItem (si_name item) (si_quantity item) (si_unitPriceCents item)
    (if neg then - si_amountCents item else si_amountCents item) (si_category item) (si_informational item) (si_tags item))).
  { unfold toItem. rewrite Fa. cbn [obind]. unfold as_double at 1. cbn [is_number printed]. cbn [obind]. rewrite Fi. cbn [obind as_bool].
    rewrite Ft. cbn [obind]. rewrite (optText_nullable _ _ _ Fn Hn), (optText_nullable _ _ _ Fc Hc).
    rewrite (optNumber_nullable _ _ _ _ Fq), (optNumber_nullable _ _ _ _ Fu) by done.
    change (JFloat (ddiv (of_int (if neg then - si_amountCents item else si_amountCents item)) (of_int 100)))
      with (printed neg (si_amountCents item)). rewrite toCents_printed by exact Ha.
    do 2 f_equal.
    - destruct (si_quantity item) as [q|] eqn:Eq; [|done]. cbn. by rewrite (if_quantity _ _ _ Hf q Eq).
    - destruct (si_unitPriceCents item) as [u|] eqn:Eu; [|done]. cbn [fmap option_fmap option_map].
      rewrite printed_nonneg, toCents_printed by exact (Hu u eq_refl). done. }
  unfold add_item. rewrite Hi. cbn [obind si_amountCents]. destruct item as [nm q u a c inf tg]. cbn in *. unfold amount_ok in Ha.
  destruct neg; [|by rewrite (proj2 (Z.ltb_ge _ _)) by lia]. rewrite (Hneg eq_refl). destruct (Z.ltb_spec (- a) 0) as [L|L].
  - cbn. unfold neg64. rewrite Z.opp_involutive. assert (int64_ok a = true) as ->; [|done].
    unfold int64_ok, int64_min, int64_max. lia.
  - by assert (a = 0) as -> by lia.
Qed.
Lemma lines_back neg context categories kind items acc : Forall (line_ok categories (sc_tags context)) items ->
  (neg = true -> kind = "refund"%string) ->
  ofold (add_item kind) acc (map (line_of neg context) items) = Ok (acc ++ items).
Proof.
  intros Hi Hneg. revert acc. induction Hi as [|item items Hl _ IH]; intros acc; cbn [map ofold]; [by rewrite app_nil_r|].
  rewrite (line_back _ _ _ _ _ _ Hl Hneg). cbn [obind]. rewrite IH, <- app_assoc. done.
Qed.

(** The record the reader keeps of a reply. *)
Definition reply_record (output : json) (model id : string) (usage : json) : json :=
  obj [("provider", JString "anthropic"); ("model", JString model); ("message_id", JString id); ("usage", usage);
       ("output", output)]%string.
Lemma reads_back (neg : bool) (context : ScanContext) (categories : list string) (subtotal : option Z)
    (result : ScanResult) (body text stop model id : string) (usage : json) :
  result_ok context categories result -> (neg = true -> sr_kind result = "refund"%string) ->
  json_parse text = Ok (output_of neg context subtotal result) -> json_parse body = Ok (message text stop model id usage) ->
  stop <> "refusal"%string -> stop <> "max_tokens"%string ->
  parseResponse body context =
    Ok (result <| sr_raw := reply_record (output_of neg context subtotal result) model id usage |>).
Proof.
  intros Hok Hneg Ht Hb Hr Hm. unfold reply_record.
  rewrite (parse_message _ _ _ _ _ _ _ Hb Hr Hm). unfold read_output.
  assert (at_key "text" (text_block text) = Ok (JString text)) as -> by done. cbn [obind as_string]. rewrite Ht. cbn [obind].
  remember (output_of neg context subtotal result) as output eqn:El. destruct Hok as [Hk Hto Hme Hst Hda Hit].
  assert (Fr : find "unreadable_reason" output = Some JNull) by field.
  assert (Fm : find "merchant" output = Some (nullable JString (sr_merchant result))) by field.
  assert (Fs : find "store_name_raw" output = Some (nullable JString (sr_storeNameRaw result))) by field.
  assert (Fd : find "purchase_date" output = Some (nullable JString (sr_purchaseDate result))) by field.
  assert (Fc : at_key "currency" output = Ok (JString (sr_currency result))) by (rewrite El; apply at_key_find; field).
  assert (Ft : at_key "total" output = Ok (printed neg (sr_totalCents result))) by (rewrite El; apply at_key_find; field).
  assert (Fi : at_key "items" output = Ok (JArray (map (line_of neg context) (sr_items result)))) by (rewrite El; apply at_key_find; field).
  assert (Fk : match sc_knownKind context with Some k => Ok k
    | None => (let* k := at_key "kind" output in as_string k)%outcome end = Ok (sr_kind result)).
  { unfold kind_fits in Hk. destruct (sc_knownKind context) as [k|] eqn:Ekn; [by rewrite Hk|].
    assert (at_key "kind" output = Ok (JString (sr_kind result))) as ->; [|done]. rewrite El. apply at_key_find.
    unfold output_of. rewrite Ekn. field. }
  assert (optText output "unreadable_reason" = None) as -> by (unfold optText; by rewrite Fr).
  rewrite Fk. cbn [obind]. rewrite Fc. cbn [obind as_string]. rewrite Ft. cbn [obind].
  assert (as_double (printed neg (sr_totalCents result)) = Ok (get_double (printed neg (sr_totalCents result)))) as -> by done.
  cbn [obind]. rewrite toCents_printed by exact Hto. rewrite (magnitude_back neg _ Hto). cbn [obind]. rewrite Fi. cbn [obind elements].
  rewrite (lines_back _ _ _ _ _ _ Hit Hneg). cbn [obind app].
  rewrite (optText_nullable _ _ _ Fm Hme), (optText_nullable _ _ _ Fs Hst), (optText_nullable _ _ _ Fd Hda).
  assert (value_string "model" (message text stop model id usage) = Ok model) as -> by done.
  assert (value_string "id" (message text stop model id usage) = Ok id) as -> by done.
  assert (value_or "usage" (JObject []) (message text stop model id usage) = Ok usage) as -> by done.
  cbn [obind json_as_scan_error]. by destruct result.
Qed.

(** C21: a faithful reply reads back, cent for cent.  Take any result with names from the
    user's lists and amounts below 2^50 cents; let the model print it in the shape of the
    output schema, with each amount as the decimal nearest to its hundredths (and, on a
    refund docket, all of them negative).  That reply is valid under the schema of the
    request, and reading it returns exactly that result, with the reply as its raw
    record. *)
Theorem reply_roundtrip (neg : bool) (context : ScanContext) (categories : list string) (subtotal : option Z)
    (result : ScanResult) (body text stop model id : string) (usage : json) :
  categoriesFor context = Ok categories -> result_ok context categories result ->
  (neg = true -> sr_kind result = "refund"%string) ->
  json_parse text = Ok (output_of neg context subtotal result) -> json_parse body = Ok (message text stop model id usage) ->
  stop <> "refusal"%string -> stop <> "max_tokens"%string ->
  (exists schema, outputSchema context = Ok schema /\ valid 6 schema (output_of neg context subtotal result) = true) /\
  parseResponse body context =
    Ok (result <| sr_raw := reply_record (output_of neg context subtotal result) model id usage |>).
Proof.
  intros Hc Hok Hneg Ht Hb Hr Hm. split; [|by eapply reads_back].
  unfold outputSchema. rewrite Hc. cbn [obind]. eexists. split; [reflexivity|]. eapply output_valid; [exact Hc| |exact Hok].
  unfold outputSchema. by rewrite Hc.
Qed.
End Back.

Definition ex_refund_line : ScannedItem := mkScannedItem (Some "kettle"%string) (Some (of_int 1)) (Some 4599) 4599 (Some "Food"%string) false [].
Definition ex_refund : ScanResult :=
  mkScanResult "refund" "AUD" 4599 (Some "Corner shop"%string) None (Some "2026-02-03"%string) [ex_refund_line] JNull.
Lemma reply_roundtrip_witness :
  result_ok ex_context ["Food"%string] ex_refund /\
  let texts := ex_message_texts (output_of true ex_context (Some 4599) ex_refund) in
  exists raw, parseResponse (JT := texts) "body" ex_context = Ok (ex_refund <| sr_raw := raw |>).
Proof.
  assert (H : result_ok ex_context ["Food"%string] ex_refund).
  { split; cbn; try (unfold amount_ok; lia); try (intros s [= <-]; reflexivity); try discriminate.
    - eexists. split; [right; left|split; reflexivity].
    - constructor; [|constructor]. split; cbn; try (unfold amount_ok; lia); try (intros s [= <-]; reflexivity).
      + split; cbn; [lia|intros q [= <-]; reflexivity|intros c [= <-]; left|intros t Ht; apply elem_of_nil in Ht; contradiction].
      + intros p [= <-]. unfold amount_ok. lia. }
  split; [exact H|]. cbv zeta. eexists.
  apply (reply_roundtrip (JT := ex_message_texts (output_of true ex_context (Some 4599) ex_refund)) true ex_context ["Food"%string]
    (Some 4599) ex_refund "body" "text" "end_turn" "model" "msg" JNull); try reflexivity; try discriminate. exact H.
Defined.
