(* ===== verification/EndToEnd.v ===== *)
(** * From photographs to a ledger entry

    The worker (ScanWorker.cpp) and the model adapter (AnthropicScanProvider.cpp)
    composed: when the model reads a receipt faithfully, what it read is what the
    ledger shows. *)
From S2P Require Import Prelude CString Binary64 Strtod Json Kinds Calendar JsonInput LedgerInput TokenUtils Env Db Sigv4Signer World.
From S2P Require Import ItemService ReceiptService ReferenceData ScanWorker Anthropic Invariant Safety ScanWrites ScanTheorems ScanCompletes.
From S2P Require Import Examples NetworkTheorems ReplyTheorems Schema Replies.

(** ** Items that add up *)

Fixpoint sum_of (items : list ScannedItem) : Z :=
  match items with
  | [] => 0
  | item :: items' => (if si_informational item then 0 else si_amountCents item) + sum_of items'
  end.

Section Adding.
Context `{PL : Platform} `{JT : JsonText}.
Lemma sum_nonneg items : Forall (fun i => 0 <= si_amountCents i) items -> 0 <= sum_of items.
Proof. induction 1 as [|i items H _ IH]; cbn; [lia|]. destruct (si_informational i); lia. Qed.
Lemma add_amounts items acc : Forall (fun i => 0 <= si_amountCents i) items -> 0 <= acc -> acc + sum_of items < 2 ^ 62 ->
  ofold add_amount acc items = Ok (acc + sum_of items).
Proof.
  intros H. revert acc. induction H as [|i items Hi Hr IH]; intros acc Ha Hs; cbn [ofold sum_of] in *; [f_equal; lia|].
  pose proof (sum_nonneg items Hr).
  assert (add_amount acc i = Ok (acc + if si_informational i then 0 else si_amountCents i)) as ->.
  { unfold add_amount, add64. destruct (si_informational i); [f_equal; lia|].
    assert (int64_ok (acc + si_amountCents i) = true) as -> by (unfold int64_ok, int64_min, int64_max; lia). done. }
  cbn [obind]. rewrite IH; [f_equal; lia| |lia]. destruct (si_informational i); lia.
Qed.
Lemma faithful_adds_up neg context categories subtotal result model id usage : result_ok context categories result ->
  (forall s, subtotal = Some s -> amount_ok s) -> sum_of (sr_items result) = sr_totalCents result ->
  itemsAddUp (result <| sr_raw := reply_record (output_of neg context subtotal result) model id usage |>) = Ok true.
Proof.
  intros [Hk Ht _ _ _ Hi] Hsub Hsum. unfold itemsAddUp. cbn [sr_items set_field sr_raw sr_totalCents].
  rewrite add_amounts; [|by eapply Forall_impl; [exact Hi|]; intros i Hl; apply Hl|lia|unfold amount_ok in Ht; lia].
  cbn [obind]. rewrite Z.add_0_l, Hsum, Z.eqb_refl.
  assert (exists o, subtotal_of (reply_record (output_of neg context subtotal result) model id usage) = Ok o) as [o ->].
  { unfold subtotal_of, reply_record. remember (output_of neg context subtotal result) as output eqn:El.
    assert (Fo : find "output" (obj [("provider", JString "anthropic"); ("model", JString model); ("message_id", JString id);
      ("usage", usage); ("output", output)]%string) = Some output) by done. rewrite Fo.
    assert (Fs : find "subtotal" output = Some (nullable (printed neg) subtotal)) by field. rewrite Fs.
    destruct subtotal as [s|]; cbn [nullable is_number printed]; [|by eexists].
    change (JFloat (ddiv (of_int (if neg then - s else s)) (of_int 100))) with (printed neg s).
    rewrite toCents_printed, (magnitude_back neg s) by (apply Hsub; done). by eexists. }
  cbn [obind]. by rewrite orb_true_r.
Qed.
End Adding.

Section EndToEnd.
Context `{PG : Postgres} `{IS : ImageStore} `{SO : Sodium} `{JT : JsonText} `{PL : Platform}.
Context `{MM : MerchantMatcher} `{NO : Notifier} `{BE : Base64} `{HC : HttpClient} `{EL : !EventLoop}.

(** The service answers the first request for the images with [body]. *)
Definition answers (config : AnthropicConfig) (images : list string) (context : ScanContext) (n : net) (body : string) : Prop :=
  exists request resp n', request_text images context config = Ok request /\
    sendRequest (api_request config request) n = (Ok resp, n') /\ hr_status resp = 200 /\ hr_body resp = body.
Lemma provider_reads config networks call images neg context categories subtotal result body text stop model id usage :
  answers config images context (networks call) body ->
  result_ok context categories result -> (neg = true -> sr_kind result = "refund"%string) ->
  (forall s, subtotal = Some s -> amount_ok s) -> sum_of (sr_items result) = sr_totalCents result ->
  json_parse text = Ok (output_of neg context subtotal result) -> json_parse body = Ok (message text stop model id usage) ->
  stop <> "refusal"%string -> stop <> "max_tokens"%string ->
  AnthropicScanProvider config networks call images context =
    Ok (result <| sr_raw := reply_record (output_of neg context subtotal result) model id usage |>).
Proof.
  intros (request & resp & n' & Er & Es & H200 & Hb) Hok Hneg Hsub Hsum Ht Hm Hs1 Hs2.
  unfold AnthropicScanProvider, anthropic_scanReceipt, nbind at 1, nret at 1. rewrite Er. unfold nbind at 1.
  assert (Hsend : send config request (maxRetries config) (networks call) = (Ok body, n')).
  { unfold send. destruct (Z.to_nat (maxRetries config)); cbn [send_loop]; unfold nbind at 1; rewrite Es, H200, Hb; done. }
  rewrite Hsend. unfold nbind at 1, nret at 1. rewrite (reads_back neg context categories subtotal result body text stop model id usage) by done.
  unfold nbind at 1, nret at 1. by rewrite (faithful_adds_up neg context categories).
Qed.

Lemma validate_raw result result' raw v : validateResult result v = Ok result' ->
  validateResult (result <| sr_raw := raw |>) v = Ok (result' <| sr_raw := raw |>).
Proof.
  unfold validateResult. cbn [sr_kind sr_totalCents sr_items sr_currency sr_purchaseDate set_field].
  destruct (_ && _); [done|]. destruct (_ <? 0); [done|]. destruct (existsb _ _); [done|].
  destruct (JsonInput.currency _ _) as [cur|[]|]; cbn [obind as_scan_error]; try done.
  cbn [sr_purchaseDate set_field]. destruct (sr_purchaseDate result) as [s|]; cbn [as_scan_error]; [|by intros [= <-]].
  destruct (JsonInput.date _ _) as [|[]|]; cbn [obind as_scan_error]; try done. by intros [= <-].
Qed.

(** What a line of the receipt became. *)
Definition entered (line : ScannedItem) (input : ItemInput) : Prop :=
  ii_name input = si_name line /\ ii_amountCents input = si_amountCents line /\
  ii_unitPriceCents input = si_unitPriceCents line /\ ii_quantity input = si_quantity line /\
  ii_informational input = si_informational line.
Lemma toItemInput_entered s kind tx i : toItemInput s kind tx = Ok i -> entered s i.
Proof. unfold toItemInput. intros H. apply obind_Ok in H as (c & _ & [= <-]). done. Qed.

(** C11: from photographs to the ledger.  Let a worker with the model adapter as its
    provider hold a live claim on an unreviewed receipt, run alone and get the images;
    let the service answer with a faithful reply of some result whose lines add up to
    the total, in the shape its schema asks for, refund dockets in negative figures
    included.  Then the scan returns, the receipt is idle and shows that kind, total,
    currency, merchant, store and date, its items are exactly the lines of the result,
    to the cent and in order, in place of what was there, and the reply is kept. *)
Theorem photographs_become_entry (config_ : ScanWorkerConfig) (config : AnthropicConfig) (networks : nat -> net)
    (c : Claim) (r : receipt_row) (w w1 : World) (images : list string) (neg : bool) (categories : list string)
    (subtotal : option Z) (result : ScanResult) (body text stop model id : string) (usage raw : json) (date : option string) :
  let context := makeContext (loadTaxonomy (cl_userId c) (w_db w)) None in
  let record := reply_record (output_of neg context subtotal result) model id usage in
  db_ok (w_db w) -> rows (receipts (w_db w)) !! cl_receiptId c = Some r -> claimed c r = true ->
  rc_reviewed_at r = None -> is_Some (rows (users (w_db w)) !! rc_user_id r) ->
  scan_keys (cl_receiptId c) (w_db w) <> [] -> fetch_images (scan_keys (cl_receiptId c) (w_db w)) w = (Ok images, w1) ->
  answers config images context (networks (w_rand w1)) body ->
  json_parse body = Ok (message text stop model id usage) -> json_parse text = Ok (output_of neg context subtotal result) ->
  stop <> "refusal"%string -> stop <> "max_tokens"%string ->
  result_ok context categories result -> (neg = true -> sr_kind result = "refund"%string) ->
  (forall s, subtotal = Some s -> amount_ok s) -> sum_of (sr_items result) = sr_totalCents result ->
  validateResult result false = Ok result ->
  raw_column (result <| sr_raw := record |>) = Ok raw -> sql_date (sr_purchaseDate result) = Ok date ->
  exists w' r' inputs, process (SP := AnthropicScanProvider config networks) config_ c w = (Ok (), w') /\
    rows (receipts (w_db w')) !! cl_receiptId c = Some r' /\ rc_scan_state r' = scan_state.kIdle /\
    er_kind (rc_fields r') = sr_kind result /\ er_totalCents (rc_fields r') = sr_totalCents result /\
    er_currency (rc_fields r') = sr_currency result /\ er_merchant (rc_fields r') = sr_merchant result /\
    er_storeNameRaw (rc_fields r') = sr_storeNameRaw result /\ er_purchaseDate (rc_fields r') = date /\
    rc_raw_ocr_json r' = Some raw /\
    Forall2 entered (sr_items result) inputs /\
    items (w_db w') = insert_rows (map (ItemService.input_row (cl_receiptId c)) inputs)
      (keep_rows (fun i => negb (it_receipt_id i =? cl_receiptId c)) (items (w_db w))).
Proof.
  intros context record Hok E Hc Hrev Hu Hkeys Hf Ha Hb Ht Hs1 Hs2 Hres Hneg Hsub Hsum Hv Hraw Hdate.
  set (answer := result <| sr_raw := record |>).
  assert (Hg : good_answer (SP := AnthropicScanProvider config networks) config_ c r w answer true).
  { split.
    - exists images, w1, answer. rewrite Hrev. rewrite bool_decide_false by by intros []. split; [done|split; [done|split]].
      + by apply (provider_reads config networks (w_rand w1) images neg context categories subtotal result body text stop).
      + by apply validate_raw.
    - split; [by exists raw|by exists date].
    - unfold compare. change (sn_reviewed _) with (bool_decide (is_Some (rc_reviewed_at r))). rewrite Hrev.
      by rewrite bool_decide_false by by intros []. }
  destruct (scan_written (SP := AnthropicScanProvider config networks) config_ c r answer true w Hok E Hc Hu Hg) as (w' & Hp & H).
  rewrite Hrev, bool_decide_false in H by by intros [].
  destruct H as [(rules & dir & raw' & date' & _ & _ & Hraw' & Hdate' & Er) (inputs & Hf2 & Hi) _].
  change (sr_purchaseDate answer) with (sr_purchaseDate result) in Hdate'. rewrite Hdate in Hdate'. injection Hdate' as <-.
  fold answer in Hraw. rewrite Hraw in Hraw'. injection Hraw' as <-.
  exists w'. eexists _, inputs. split; [exact Hp|]. rewrite Er. cbn [rows update_row]. rewrite lookup_insert_eq.
  split; [reflexivity|]. split; [done|]. do 7 (split; [done|]).
  split; [|exact Hi]. eapply Forall2_impl; [exact Hf2|]. intros s i. apply toItemInput_entered.
Qed.
End EndToEnd.

(** ** Witness: the claimed upload, with GIF bytes, read as one bottle of milk *)

Definition ex_gif : World := Eval vm_compute in ex_claimed <| w_store := (fun _ => "GIF89a"%string) <$> w_store ex_claimed |>.
Definition ex_entry : ScanResult := Eval vm_compute in
  mkScanResult "purchase" "AUD" 450 (Some "Corner shop"%string) None (Some "2026-02-03"%string)
    [mkScannedItem (Some "milk"%string) None None 450 (Some "food"%string) false []] JNull.
Definition ex_list : ScanContext := Eval vm_compute in makeContext (loadTaxonomy 1 (w_db ex_gif)) None.
Definition ex_entry_output : json := Eval vm_compute in output_of false ex_list None ex_entry.
Definition ex_entry_texts : JsonText := ex_message_texts ex_entry_output.
Lemma ex_entry_ok : result_ok ex_list ["food"%string] ex_entry.
Proof.
  split; cbn; try (unfold amount_ok; lia); try (intros s [= <-]; reflexivity); try discriminate.
  - eexists. split; [left|split; reflexivity].
  - constructor; [|constructor]. split; cbn; try (unfold amount_ok; lia); try (intros s [= <-]; reflexivity); try discriminate.
    split; cbn; [lia|discriminate|intros c [= <-]; left|intros t Ht; apply elem_of_nil in Ht; contradiction].
Qed.
Lemma photographs_become_entry_witness : exists w' r',
  process (JT := ex_entry_texts) (SP := AnthropicScanProvider (JT := ex_entry_texts) (BE := ex_base64) (HC := ex_client)
    (EL := ex_loop) ex_anthropic (fun _ => [answered 200 "body" ""])) default_config ex_claim ex_gif = (Ok (), w') /\
  rows (receipts (w_db w')) !! 2 = Some r' /\ er_totalCents (rc_fields r') = 450 /\
  er_merchant (rc_fields r') = Some "Corner shop"%string.
Proof.
  pose proof (photographs_become_entry (JT := ex_entry_texts) (BE := ex_base64) (HC := ex_client) (EL := ex_loop) default_config
    ex_anthropic (fun _ => [answered 200 "body" ""]) ex_claim (ex_row ex_claimed) ex_gif
    (fetch_images (scan_keys 2 (w_db ex_gif)) ex_gif).2 ["GIF89a"%string] false ["food"%string] None ex_entry "body" "text"
    "end_turn" "model" "msg" JNull (JObject []) (Some "2026-02-03"%string)) as T.
  cbv zeta in T.
  destruct T as (w' & r' & inputs & Hp & Hr & _ & _ & Ht & _ & Hm & _).
  - exact ex_claimed_ok.
  - by_vm.
  - by_vm.
  - by_vm.
  - exists ex_user. by_vm.
  - intros H. apply (f_equal (@length string)) in H. revert H. vm_compute. discriminate.
  - by_vm.
  - eexists "{}"%string, _, _. split; [by_vm|split; [reflexivity|split; reflexivity]].
  - reflexivity.
  - change (makeContext (loadTaxonomy (cl_userId ex_claim) (w_db ex_gif)) None) with (makeContext (loadTaxonomy 1 (w_db ex_gif)) None).
    by_vm.
  - discriminate.
  - discriminate.
  - assert (E : makeContext (loadTaxonomy (cl_userId ex_claim) (w_db ex_gif)) None = ex_list) by by_vm. rewrite E. exact ex_entry_ok.
  - discriminate.
  - discriminate.
  - reflexivity.
  - by_vm.
  - by_vm.
  - by_vm.
  - exists w', r'. split; [exact Hp|split; [exact Hr|split; [exact Ht|exact Hm]]].
Defined.
