(* ===== verification/Harness.v ===== *)
(** * The accuracy harness

    src/tools/golden_harness.cpp: how a scan is compared with hand-checked labels, and
    the tallies and verdicts of the report.  A case's scan is a parameter here (its result,
    or none after an error); HarnessMain.v runs it. *)
From Stdlib Require Import Ascii.
From S2P Require Import Prelude CString Binary64 Strtod Json Kinds Calendar JsonInput LedgerInput TokenUtils Env Db.
From S2P Require Import Sigv4Signer World ItemService ReceiptService AuthService ScanWorker Anthropic.

Record Tally := mkTally { correct : Z; total : Z }.
#[export] Instance eta_Tally : Eta Tally := fun t => mkTally (correct t) (total t).

(** Field -> target percentage, per document group. *)
Definition kTargets : list (string * list (string * Z)) :=
  [("receipts", [("kind", 98); ("total", 98); ("purchase_date", 95); ("merchant", 90); ("item_category", 80)]);
   ("payslips", [("kind", 98); ("total", 98); ("purchase_date", 95); ("merchant", 90)])]%string.

Definition squash (s : string) : string := of_chars (map tolower (filter (fun c => isalnum c) (chars s))).
Definition merchantMatches (expected : string) (scanned : option string) : bool :=
  match scanned with
  | None => false
  | Some s =>
      let a := squash expected in
      let b := squash s in
      negb (empty a) && negb (empty b) && (contains b a || contains a b)
  end.

Definition orNull (value : option string) : json := nullable JString value.
(** Cents as a number of main units, [static_cast<double>(cents) / 100]. *)
Definition in_units (cents : Z) : json := JFloat (ddiv (of_int cents) (of_int 100)).
Definition expected_line (item : ScannedItem) : json :=
  obj ([("name", orNull (si_name item)); ("amount", in_units (si_amountCents item)); ("category", orNull (si_category item))]%string ++
       (match si_quantity item with Some q => [("quantity", JFloat q)] | None => [] end)%string ++
       (if si_informational item then [("informational", JBool true)] else [])%string).
Definition asExpected (result : ScanResult) : json :=
  obj [("kind", JString (sr_kind result)); ("total", in_units (sr_totalCents result)); ("currency", JString (sr_currency result));
       ("purchase_date", orNull (sr_purchaseDate result)); ("merchant", orNull (sr_merchant result));
       ("items", JArray (map expected_line (sr_items result)))]%string.

(** ** Labels with unknown categories *)

Definition known (name : string) (list : list string) : bool := bool_decide (name ∈ list).
(** One labelled item of a case. *)
Definition check_category (context : ScanContext) (testCase : json) (problems : list string) (item : json) : outcome (list string) :=
  (let* category := value_or "category" JNull item in
   if is_null category then Ok problems else
   let* name := as_string category in
   if negb (known name (sc_expenseCategories context)) && negb (known name (sc_incomeCategories context)) then
     let* id := value_or "id" (JString "?") testCase in
     let* id := as_string id in
     Ok (problems ++ [id +:+ ": unknown category " +:+ quoted name])
   else Ok problems)%outcome.
Definition check_case (context : ScanContext) (problems : list string) (testCase : json) : outcome (list string) :=
  (let* expected := value_or "expected" (JObject []) testCase in
   let* labels := value_or "items" (JArray []) expected in
   ofold (check_category context testCase) problems (elements labels))%outcome.
Definition unknownCategories (golden : json) (context : ScanContext) : outcome (list string) :=
  (let* cases := at_key "cases" golden in ofold (check_case context) [] (elements cases))%outcome.

(** The context every case is scanned in: the seeded categories. *)
Definition seeded_context : ScanContext := mkScanContext None kExpenseCategories kIncomeCategories [].

(** ** Scoring a case *)

(** The tallies of the run, and the misses of the case. *)
Record Score := mkScore {
  tallies : gmap string (gmap string Tally);
  currencies : gmap string Tally;
  misses : list string
}.
#[export] Instance eta_Score : Eta Score := fun s => mkScore (tallies s) (currencies s) (misses s).

Definition tally_of (group field : string) (s : Score) : Tally :=
  default (mkTally 0 0) (default ∅ (tallies s !! group) !! field).
Definition bump_tally (ok : bool) (t : Tally) : Tally := mkTally (if ok then correct t + 1 else correct t) (total t + 1).
(** [auto &tally = tallies[group][field]; ++tally.total; if (ok) ++tally.correct;] *)
Definition bump (group field : string) (ok : bool) (s : Score) : Score :=
  s <| tallies ::= fun ts => <[group := <[field := bump_tally ok (tally_of group field s)]> (default ∅ (ts !! group))]> ts |>.
Definition miss (text : string) (s : Score) : Score := s <| misses ::= fun l => l ++ [text] |>.

(** [json.empty()]. *)
Definition json_empty (v : json) : bool :=
  match v with JNull | JArray [] | JObject [] => true | _ => false end.
Definition labelled (testCase expected : json) : outcome bool :=
  if json_empty expected then Ok false
  else (let* checked := value_or "checked" (JBool true) testCase in as_bool checked)%outcome.
Definition group_of (expected : json) : outcome string :=
  (let* kind := value_string "kind" expected in
   Ok (if bool_decide (kind = "income"%string) then "payslips" else "receipts")%string)%outcome.

Section Scoring.
Context `{PL : Platform} `{JT : JsonText}.
Context (expected : json) (group : string) (result : option ScanResult).

(** The lambda [score]. *)
Definition score (field : string) (ok : bool) (got : string) (s : Score) : outcome Score :=
  let s := bump group field ok s in
  if ok then Ok s else
  (let* want := at_key field expected in
   let* want := json_dump want in
   Ok (miss (field +:+ " expected " +:+ want +:+ " got " +:+ got) s))%outcome.
(** A part of the case that is scored only if its label is there. *)
Definition if_labelled (field : string) (k : json -> Score -> outcome Score) (s : Score) : outcome Score :=
  match find field expected with Some want => k want s | None => Ok s end.
(** [result && ...]. *)
Definition with_result (k : ScanResult -> outcome bool) : outcome bool :=
  match result with Some r => k r | None => Ok false end.
Definition shown (f : ScanResult -> string) : string := match result with Some r => f r | None => "-" end.

Definition score_kind : Score -> outcome Score := if_labelled "kind" (fun want s =>
  let* ok := with_result (fun r => let* k := as_string want in Ok (bool_decide (sr_kind r = k))) in
  score "kind" ok (shown sr_kind) s)%outcome.
Definition score_total : Score -> outcome Score := if_labelled "total" (fun want s =>
  let* d := as_double want in
  let* ok := with_result (fun r => Ok (sr_totalCents r =? toCents d)) in
  score "total" ok (shown (fun r => double_to_string (ddiv (of_int (sr_totalCents r)) (of_int 100)))) s)%outcome.
Definition score_date : Score -> outcome Score := if_labelled "purchase_date" (fun want s =>
  let* ok := with_result (fun r =>
    if is_null want then Ok (bool_decide (sr_purchaseDate r = None))
    else let* d := as_string want in Ok (bool_decide (sr_purchaseDate r = Some d))) in
  score "purchase_date" ok (shown (fun r => default "null" (sr_purchaseDate r)))%string s)%outcome.
Definition score_merchant : Score -> outcome Score := if_labelled "merchant" (fun want s =>
  let* ok := with_result (fun r =>
    if is_null want then Ok (bool_decide (sr_merchant r = None))
    else let* m := as_string want in Ok (merchantMatches m (sr_merchant r))) in
  score "merchant" ok (shown (fun r => default "null" (sr_merchant r)))%string s)%outcome.

(** The items of the scan. *)
Definition scanned : list ScannedItem := match result with Some r => sr_items r | None => [] end.
(** The loop that pairs one label, from index [i] on. *)
Fixpoint find_match (cents : Z) (wantName : string) (i : nat) (found : option nat) (used : list bool)
    (items : list ScannedItem) : option nat :=
  match used, items with
  | u :: used', item :: items' =>
      let skip := u || negb (si_amountCents item =? cents) in
      let better := bool_decide (found = None) || bool_decide (squash (default "" (si_name item))%string = wantName) in
      find_match cents wantName (S i) (if skip then found else if better then Some i else found) used' items'
  | _, _ => found
  end.
(** The squashed name of a label.  [want["name"]] on a constant object is undefined
    when the key is missing. *)
Definition want_name (want : json) : outcome string :=
  (let* v := value_or "name" (JString "") want in
   if is_string v then
     match find "name" want with
     | Some v => let* name := as_string v in Ok (squash name)
     | None => UB "operator[] of a missing key"
     end
   else Ok (squash ""))%outcome.
Definition item_label (want amount : json) : outcome string :=
  (let* name := value_or "name" (JString "item") want in
   let* name := json_dump name in
   let* amount := json_dump amount in
   Ok (name +:+ " " +:+ amount))%outcome.
Definition score_quantity (want : json) (label : string) (item : ScannedItem) (s : Score) : outcome Score :=
  match find "quantity" want with
  | None => Ok s
  | Some wantQuantity =>
      (let* ok :=
         if is_null wantQuantity then Ok (bool_decide (si_quantity item = None))
         else match si_quantity item with
              | Some got => let* q := as_double wantQuantity in Ok (deqb got q)
              | None => Ok false
              end in
       let s := bump group "item_quantity" ok s in
       if (ok : bool) then Ok s else
       let* w := json_dump wantQuantity in
       let* got := match si_quantity item with Some q => json_dump (JFloat q) | None => Ok "null"%string end in
       Ok (miss ("item " +:+ label +:+ " quantity expected " +:+ w +:+ " got " +:+ got) s))%outcome
  end.
Definition score_category (want : json) (label : string) (item : ScannedItem) (s : Score) : outcome Score :=
  (let* informational := value_or "informational" (JBool false) want in
   let* informational := as_bool informational in
   if (informational : bool) then Ok s else
   let* wantCategory := value_or "category" JNull want in
   let* ok := if is_null wantCategory then Ok (bool_decide (si_category item = None))
              else let* c := as_string wantCategory in Ok (bool_decide (si_category item = Some c)) in
   let s := bump group "item_category" ok s in
   if (ok : bool) then Ok s else
   let* w := json_dump wantCategory in
   Ok (miss ("item " +:+ label +:+ " category expected " +:+ w +:+ " got " +:+ default "null" (si_category item))%string s))%outcome.
(** One turn of the loop over the labelled items. *)
Definition score_item (acc : list bool * Score) (want : json) : outcome (list bool * Score) :=
  let '(used, s) := acc in
  (let* amount := at_key "amount" want in
   let* d := as_double amount in
   let* wantName := want_name want in
   let found := find_match (toCents d) wantName 0 None used scanned in
   let* label := item_label want amount in
   let s := bump group "items_found" (bool_decide (is_Some found)) s in
   match found with
   | None => Ok (used, miss ("item " +:+ label +:+ " not found") s)
   | Some i =>
       let used := <[i := true]> used in
       match scanned !! i with
       | None => UB "index out of range"
       | Some item =>
           let* s := score_quantity want label item s in
           let* s := score_category want label item s in
           Ok (used, s)
       end
   end)%outcome.
Definition score_items : Score -> outcome Score := if_labelled "items" (fun wants s =>
  let* acc := ofold score_item (replicate (length scanned) false, s) (elements wants) in
  let '(used, s) := acc in
  let extra := Z.of_nat (length (filter (fun u => u = false) used)) in
  Ok (if 0 <? extra then miss (to_string extra +:+ " scanned item(s) with no labelled match") s else s))%outcome.
Definition score_currency : Score -> outcome Score := if_labelled "currency" (fun want s =>
  let* ok := with_result (fun r => let* c := as_string want in Ok (bool_decide (sr_currency r = c))) in
  let s := s <| currencies ::= fun cs => <[group := bump_tally ok (default (mkTally 0 0) (cs !! group))]> cs |> in
  if (ok : bool) then Ok s else
  let* w := json_dump want in
  Ok (miss ("currency expected " +:+ w +:+ " got " +:+ shown sr_currency) s))%outcome.

(** The scoring of a labelled case, which starts without misses. *)
Definition score_case (s : Score) : outcome Score :=
  (let s := s <| misses := [] |> in
   let* s := score_kind s in
   let* s := score_total s in
   let* s := score_date s in
   let* s := score_merchant s in
   let* s := score_items s in
   score_currency s)%outcome.
End Scoring.

(** ** The report *)

(** [100.0 * correct / total], and the verdict against a target. *)
Definition percentage (t : Tally) : double := ddiv (dmul (of_int 100) (of_int (correct t))) (of_int (total t)).
Definition target_of (group field : string) : option Z :=
  match list_find (fun g => g.1 = group) kTargets with
  | Some (_, (_, fields)) => snd ∘ snd <$> list_find (fun f => f.1 = field) fields
  | None => None
  end.
Definition below (group field : string) (t : Tally) : bool :=
  match target_of group field with
  | Some target => negb (dleb (of_int target) (percentage t))
  | None => false
  end.
