(* ===== verification/HarnessMain.v ===== *)
(** * The accuracy harness's main

    [main] of src/tools/golden_harness.cpp: the label check before any call, the loop
    over the cases (images, scan, token totals, record, scoring), the report and the
    results file.  A file is read through [Files]; what is printed is kept as data,
    without column widths and digits. *)
From Stdlib Require Import Ascii SpecFloat.
From stdpp Require Import sorting.
From S2P Require Import Prelude CString Binary64 Strtod Json Kinds Calendar JsonInput LedgerInput TokenUtils Env Db.
From S2P Require Import Sigv4Signer World ItemService ReceiptService AuthService ScanWorker Anthropic Harness.

(** The files that can be read. *)
Class Files := file : string -> option string.

Definition kInputPerMTok : double := ddiv (of_int 1) (of_int 10).
Definition kOutputPerMTok : double := ddiv (of_int 1) (of_int 2).

Definition readFile `{Files} (path : string) : outcome string :=
  match file path with Some text => Ok text | None => Throw (RuntimeError ("can't read " +:+ path)) end.

(** ** [std::filesystem::path] on POSIX *)

Definition is_slash (c : ascii) : bool := bool_decide (c = "/"%char).
Fixpoint skip (p : ascii -> bool) (l : list ascii) : list ascii :=
  match l with c :: l' => if p c then skip p l' else l | [] => [] end.
(** [path.parent_path()]: without the last component and its slashes. *)
Definition parent_path (path : string) : string :=
  let above := skip (fun c => negb (is_slash c)) (rev (chars path)) in
  match skip is_slash above with
  | [] => if bool_decide (above = []) then "" else "/"
  | dir => of_chars (rev dir)
  end.
(** [base / name]. *)
Definition path_join (base name : string) : string :=
  match chars name, rev (chars base) with
  | "/"%char :: _, _ => name
  | _, [] => name
  | _, "/"%char :: _ => base +:+ name
  | _, _ => base +:+ "/" +:+ name
  end.

(** ** JSON accessors *)

(** [get<int>]: converted with [static_cast]; a bool counts as a number here. *)
Definition wrap_int (z : Z) : Z := (z + 2 ^ 31) mod 2 ^ 32 - 2 ^ 31.
(** The double without its fraction; [None] for infinities and NaN. *)
Definition truncated (d : double) : option Z :=
  match d with
  | S754_zero _ => Some 0
  | S754_finite s m e => let a := Z.shiftl (Zpos m) e in Some (if s then - a else a)
  | S754_infinity _ | S754_nan => None
  end.
Definition as_int (v : json) : outcome Z :=
  match v with
  | JInteger z | JUnsigned z => Ok (wrap_int z)
  | JBool b => Ok (if b then 1 else 0)
  | JFloat d =>
      match truncated d with
      | Some z => if (- 2 ^ 31 <=? z) && (z <? 2 ^ 31) then Ok z else UB "double to int out of range"
      | None => UB "double to int out of range"
      end
  | _ => json_error "type must be number"
  end.
(** [v.at(0)]. *)
Definition at_front (v : json) : outcome json :=
  match v with
  | JArray (x :: _) => Ok x
  | JArray [] => json_error "array index 0 is out of range"
  | _ => json_error "cannot use at()"
  end.

(** ** One case *)

Record Tokens := mkTokens { inputTokens : Z; outputTokens : Z }.
#[export] Instance eta_Tokens : Eta Tokens := fun t => mkTokens (inputTokens t) (outputTokens t).

Definition usage_of (field : string) (raw : json) : outcome Z :=
  (let* usage := at_key "usage" raw in let* n := value_or field (JInteger 0) usage in as_int n)%outcome.
(** The lambda [addUsage], which adds the input tokens before it looks at the output
    tokens. *)
Definition addUsage (raw : json) (t : Tokens) : outcome unit * Tokens :=
  match usage_of "input_tokens" raw with
  | Ok n =>
      let t := t <| inputTokens ::= fun s => s + n |> in
      match usage_of "output_tokens" raw with
      | Ok m => (Ok (), t <| outputTokens ::= fun s => s + m |>)
      | Throw e => (Throw e, t)
      | UB u => (UB u, t)
      end
  | Throw e => (Throw e, t)
  | UB u => (UB u, t)
  end.
Definition add_usages (raw : json) (t : Tokens) : outcome unit * Tokens :=
  match addUsage raw t with
  | (Ok _, t) => match find "first_scan" raw with Some first => addUsage first t | None => (Ok (), t) end
  | stopped => stopped
  end.

(** What the [try] block leaves: the result, which is kept when only its usage could
    not be read, and the error. *)
Record Attempt := mkAttempt {
  at_result : option ScanResult; at_error : option string; at_tokens : Tokens; at_calls : nat }.

Section Main.
Context `{PL : Platform} `{JT : JsonText} `{EN : Environment} `{VI : Vips} `{FI : Files} `{SP : ScanProvider}.

Definition load_images (baseDir : string) (testCase : json) : outcome (list string) :=
  (let* names := at_key "images" testCase in
   omap_list (fun name =>
     let* name := as_string name in
     let* bytes := readFile (path_join baseDir name) in
     let* normalized := normalizeSync bytes in
     Ok (ni_bytes normalized)) (elements names))%outcome.
Definition try_case (baseDir : string) (context : ScanContext) (testCase : json) (t : Tokens) (calls : nat) : outcome Attempt :=
  match load_images baseDir testCase with
  | Throw e => Ok (mkAttempt None (Some (what e)) t calls)
  | UB u => UB u
  | Ok images =>
      match scanReceipt calls images context with
      | Throw e => Ok (mkAttempt None (Some (what e)) t (S calls))
      | UB u => UB u
      | Ok result =>
          match add_usages (sr_raw result) t with
          | (Ok _, t) => Ok (mkAttempt (Some result) None t (S calls))
          | (Throw e, t) => Ok (mkAttempt (Some result) (Some (what e)) t (S calls))
          | (UB u, _) => UB u
          end
      end
  end.
(** The case's entry in the results file. *)
Definition record_of (id : string) (images : json) (a : Attempt) : json :=
  obj ([("id", JString id); ("images", images)]%string ++
       match at_error a, at_result a with
       | Some e, _ => [("error", JString e)]%string
       | None, Some r => [("expected", asExpected r); ("raw", sr_raw r)]%string
       | None, None => []
       end).

(** What is printed about a case: whether it was rescanned, its error, its draft
    when it is not scored, and its misses when it is. *)
Record CaseReport := mkCaseReport {
  cr_id : string; cr_rescanned : bool; cr_error : option string; cr_draft : option string;
  cr_misses : option (list string) }.
Record Run := mkRun {
  run_score : Score; run_tokens : Tokens; run_calls : nat; run_records : list json; run_reports : list CaseReport }.

(** One turn of the loop. *)
Definition run_case (baseDir : string) (context : ScanContext) (run : Run) (testCase : json) : outcome Run :=
  (let* images := at_key "images" testCase in
   let* front := at_front images in
   let* fallback := as_string front in
   let* id := value_or "id" (JString fallback) testCase in
   let* id := as_string id in
   let* expected := value_or "expected" (JObject []) testCase in
   let* scored := labelled testCase expected in
   let* group := group_of expected in
   let* a := try_case baseDir context testCase (run_tokens run) (run_calls run) in
   let rescanned := match at_result a with Some r => has "first_scan" (sr_raw r) | None => false end in
   let error := match at_result a with Some _ => None | None => Some (default "" (at_error a))%string end in
   let* draft :=
     match at_result a with
     | Some r =>
         if (scored : bool) then Ok None else
         let* text := json_dump (if bool_decide (at_error a = None) then asExpected r else JNull) in Ok (Some text)
     | None => Ok None
     end in
   let* score := if (scored : bool) then score_case expected group (at_result a) (run_score run) else Ok (run_score run) in
   let report := mkCaseReport id rescanned error draft (if (scored : bool) then Some (misses score) else None) in
   Ok (mkRun score (at_tokens a) (at_calls a) (run_records run ++ [record_of id images a]) (run_reports run ++ [report])))%outcome.

(** ** The report *)

(** A line of the table: the tally, its percentage, the target and the verdict. *)
Record Line := mkLine {
  ln_group : string; ln_field : string; ln_tally : Tally; ln_pct : double; ln_target : option Z; ln_below : bool }.
(** A [std::map] in iteration order. *)
Definition by_key {A} (a b : string * A) : Prop := String.leb a.1 b.1 = true.
#[export] Instance by_key_dec {A} : RelDecision (@by_key A).
Proof. intros a b. unfold by_key. apply _. Defined.
Definition in_order {A} (m : gmap string A) : list (string * A) := merge_sort by_key (map_to_list m).
Definition lines (s : Score) : list Line :=
  flat_map (fun g => map (fun f => mkLine g.1 f.1 f.2 (percentage f.2) (target_of g.1 f.1) (below g.1 f.1 f.2)) (in_order g.2))
    (in_order (tallies s)).
Definition cost (t : Tokens) : double :=
  let per (n : Z) (price : double) := dmul (ddiv (of_int n) (of_int 1000000)) price in
  SFadd prec emax (per (inputTokens t) kInputPerMTok) (per (outputTokens t) kOutputPerMTok).

Inductive Exit :=
| Usage
| BadLabels (problems : list string)
| Finished (run : Run) (table : list Line) (currency : list (string * Tally)) (usd : double) (results : json).
Definition exit_code (e : Exit) : Z := match e with Usage | BadLabels _ => 2 | Finished _ _ _ _ _ => 0 end.

Definition no_run : Run := mkRun (mkScore ∅ ∅ []) (mkTokens 0 0) 0 [] [].
(** [main] on its arguments. *)
Definition harness_main (args : list string) : outcome Exit :=
  match args with
  | [goldenPath] =>
      (let* text := readFile goldenPath in
       let* golden := json_parse text in
       let* config := anthropicFromEnv in
       let* problems := unknownCategories golden seeded_context in
       if bool_decide (problems <> []) then Ok (BadLabels problems) else
       let* cases := at_key "cases" golden in
       let* run := ofold (run_case (parent_path goldenPath) seeded_context) no_run (elements cases) in
       let results := obj [("model", JString (model config)); ("effort", JString (effort config));
                           ("cases", JArray (run_records run))]%string in
       Ok (Finished run (lines (run_score run)) (in_order (currencies (run_score run))) (cost (run_tokens run)) results))%outcome
  | _ => Ok Usage
  end.
End Main.
