(* ===== verification/HarnessTheorems.v ===== *)
(** * The harness counts found items as it should

    The greedy pairing of golden_harness.cpp against a reference definition: the number
    of labelled items found is the size of the overlap of two multisets of amounts. *)
From stdpp Require Import gmultiset.
From S2P Require Import Prelude CString Binary64 Strtod Json Kinds Calendar JsonInput LedgerInput TokenUtils Env Db.
From S2P Require Import Sigv4Signer World ItemService ReceiptService AuthService ScanWorker Anthropic Harness Examples NetworkTheorems.

(** ** What is not yet paired *)

Section Free.
Context {K : Type} `{CK : Countable K} (key : ScannedItem -> K).

Fixpoint free (used : list bool) (items : list ScannedItem) : gmultiset K :=
  match used, items with
  | u :: used', item :: items' => (if (u : bool) then ∅ else {[+ key item +]}) ⊎ free used' items'
  | _, _ => ∅
  end.
(** Item [k] is unused and has the key. *)
Definition candidate (x : K) (used : list bool) (items : list ScannedItem) (k : nat) : Prop :=
  used !! k = Some false /\ exists item, items !! k = Some item /\ key item = x.

Lemma free_candidate x used items : x ∈ free used items <-> exists k, candidate x used items k.
Proof.
  revert items. induction used as [|u used IH]; intros items; [split; [cbn; multiset_solver|by intros (k & H & _)]|].
  destruct items as [|item items]; [split; [cbn; multiset_solver|by intros (k & _ & it & H & _)]|]. cbn [free].
  rewrite gmultiset_elem_of_disj_union, IH. split.
  - intros [H|[k H]]; [|by exists (S k)]. destruct u; [multiset_solver|]. apply gmultiset_elem_of_singleton in H as ->.
    exists 0%nat. split; [done|]. by exists item.
  - intros [[|k] H]; [left|right; by exists k]. destruct H as [[= ->] (it & [= <-] & <-)]. multiset_solver.
Qed.
Lemma free_use x used items k : candidate x used items k ->
  free used items = {[+ x +]} ⊎ free (<[k := true]> used) items.
Proof.
  revert items k. induction used as [|u used IH]; intros items k H; [by destruct H as [H _]|].
  destruct items as [|item items]; [by destruct H as [_ (? & H & _)]|]. destruct k as [|k].
  - change (<[0%nat := true]> (u :: used)) with (true :: used). cbn [free]. destruct H as [[= ->] (it & [= <-] & <-)]. multiset_solver.
  - change (<[S k := true]> (u :: used)) with (u :: <[k := true]> used). cbn [free]. rewrite (IH items k H). multiset_solver.
Qed.
Lemma free_all items : free (replicate (length items) false) items = list_to_set_disj (map key items).
Proof. induction items as [|item items IH]; [done|]. cbn [length replicate free map list_to_set_disj foldr]. by rewrite IH. Qed.
End Free.

Lemma find_match_spec cents name i found used items :
  (find_match cents name i found used items = found /\ (found = None -> forall k, ~ candidate si_amountCents cents used items k)) \/
  (exists k, find_match cents name i found used items = Some (i + k)%nat /\ candidate si_amountCents cents used items k).
Proof.
  revert i found items. induction used as [|u used IH]; intros i found items; [left; split; [done|by intros _ k [H _]]|].
  destruct items as [|item items]; [left; split; [done|by intros _ k [_ (? & ? & _)]]|]. cbn [find_match].
  set (found' := if u || _ then found else _). pose proof (eq_refl : found' = _) as Hf. unfold found' in Hf at 2. clearbody found'.
  assert (Hc : forall k, candidate si_amountCents cents (u :: used) (item :: items) (S k) <-> candidate si_amountCents cents used items k) by done.
  destruct (IH (S i) found' items) as [[E N]|(k & E & Hk)].
  2: { right. exists (S k). rewrite E. split; [f_equal; lia|by apply Hc]. }
  rewrite E. destruct (u || negb (si_amountCents item =? cents)) eqn:Es; rewrite Hf in N |- *.
  - left. split; [done|]. intros -> [|k]; [|rewrite Hc; by apply N].
    intros [[= ->] (it & [= <-] & <-)]. by rewrite Z.eqb_refl in Es.
  - apply orb_false_iff in Es as [-> Ea%negb_false_iff%Z.eqb_eq].
    destruct (bool_decide (found = None) || _) eqn:Eb.
    + right. exists 0%nat. split; [f_equal; lia|]. split; [done|]. by exists item.
    + left. split; [done|]. intros ->. by rewrite bool_decide_true in Eb.
Qed.

(** ** Tallies *)

Lemma tally_bump g f g' f' ok s : tally_of g f (bump g' f' ok s) =
  if decide (g = g' /\ f = f') then bump_tally ok (tally_of g f s) else tally_of g f s.
Proof.
  unfold tally_of at 1, bump. cbn. destruct (decide (g = g')) as [->|N].
  - rewrite lookup_insert_eq. cbn. destruct (decide (f = f')) as [->|N'].
    + rewrite lookup_insert_eq. by rewrite decide_True.
    + rewrite lookup_insert_ne by done. rewrite decide_False by naive_solver. done.
  - rewrite lookup_insert_ne by done. rewrite decide_False by naive_solver. done.
Qed.
Lemma tally_miss g f text s : tally_of g f (miss text s) = tally_of g f s.
Proof. done. Qed.

(** The overlap of two multisets. *)
Definition overlap (labels items : gmultiset Z) : Z := Z.of_nat (base.size (labels ∩ items)).
Lemma overlap_empty X : overlap ∅ X = 0.
Proof. unfold overlap. assert (∅ ∩ X = ∅) as -> by multiset_solver. by rewrite gmultiset_size_empty. Qed.
Lemma overlap_both c X Y : overlap ({[+ c +]} ⊎ X) ({[+ c +]} ⊎ Y) = overlap X Y + 1.
Proof.
  unfold overlap. assert (({[+ c +]} ⊎ X) ∩ ({[+ c +]} ⊎ Y) = {[+ c +]} ⊎ (X ∩ Y)) as ->.
  { apply gmultiset_eq. intros x. rewrite ?multiplicity_intersection, ?multiplicity_disj_union, ?multiplicity_intersection. lia. }
  rewrite gmultiset_size_disj_union, gmultiset_size_singleton. lia.
Qed.
Lemma overlap_left c X Y : c ∉ Y -> overlap ({[+ c +]} ⊎ X) Y = overlap X Y.
Proof. 
  intros N. unfold overlap. assert (({[+ c +]} ⊎ X) ∩ Y = X ∩ Y) as ->; [|done].
  apply gmultiset_eq. intros x. rewrite ?multiplicity_intersection, ?multiplicity_disj_union.
  destruct (decide (x = c)) as [->|Nx]; [|rewrite multiplicity_singleton_ne by done; lia].
  rewrite elem_of_multiplicity in N. lia.
Qed.

Section Found.
Context `{PL : Platform} `{JT : JsonText}.
Context (group : string) (result : option ScanResult).

Definition found_tally (s : Score) : Tally := tally_of group "items_found" s.
Lemma score_quantity_found want label item s s' : score_quantity group want label item s = Ok s' -> found_tally s' = found_tally s.
Proof.
  unfold score_quantity, found_tally. destruct (find _ _) as [q|]; [|by intros [= ->]]. intros H.
  apply obind_Ok in H as (ok & _ & H). destruct ok; [injection H as <-; by rewrite tally_bump, decide_False by naive_solver|].
  ok_inv. by rewrite tally_miss, tally_bump, decide_False by naive_solver.
Qed.
Lemma score_category_found want label item s s' : score_category group want label item s = Ok s' -> found_tally s' = found_tally s.
Proof.
  unfold score_category, found_tally. intros H. apply obind_Ok in H as (v & _ & H). apply obind_Ok in H as (i & _ & H).
  destruct i; [by injection H as <-|]. apply obind_Ok in H as (c & _ & H). apply obind_Ok in H as (ok & _ & H).
  destruct ok; [injection H as <-; by rewrite tally_bump, decide_False by naive_solver|].
  ok_inv. by rewrite tally_miss, tally_bump, decide_False by naive_solver.
Qed.

(** The amount on a label. *)
Definition label_cents (want : json) : Z :=
  match find "amount" want with Some v => toCents (get_double v) | None => 0 end.

Lemma score_item_step used s want used' s' : length used = length (scanned result) ->
  score_item group result (used, s) want = Ok (used', s') ->
  length used' = length (scanned result) /\
  if decide (label_cents want ∈ free si_amountCents used (scanned result))
  then free si_amountCents used (scanned result) = {[+ label_cents want +]} ⊎ free si_amountCents used' (scanned result) /\
       found_tally s' = bump_tally true (found_tally s)
  else used' = used /\ found_tally s' = bump_tally false (found_tally s).
Proof.
  intros Hl H. unfold score_item in H. apply obind_Ok in H as (amount & Ha & H). apply obind_Ok in H as (d & Hd & H).
  apply obind_Ok in H as (name & _ & H). apply obind_Ok in H as (label & _ & H).
  assert (Ec : label_cents want = toCents d).
  { unfold at_key in Ha. unfold label_cents, find. destruct want; try done. destruct (assoc _ _); [|done]. injection Ha as ->.
    unfold as_double in Hd. destruct (is_number _); [|done]. by injection Hd as ->. }
  rewrite Ec. destruct (find_match_spec (toCents d) name 0 None used (scanned result)) as [[E N]|(k & E & Hk)]; rewrite E in H.
  - injection H as <- <-. split; [done|]. rewrite decide_False by (rewrite free_candidate; intros [k Hk]; by destruct (N eq_refl k)).
    split; [done|]. unfold found_tally. by rewrite tally_miss, tally_bump, decide_True by done.
  - rewrite decide_True by (rewrite free_candidate; by exists k). change (0 + k)%nat with k in H.
    destruct (scanned result !! k) as [item|]; [|done].
    apply obind_Ok in H as (s1 & H1 & H). apply obind_Ok in H as (s2 & H2 & H). injection H as <- <-.
    rewrite length_insert. split; [done|]. split; [by apply free_use|].
    rewrite (score_category_found _ _ _ _ _ H2), (score_quantity_found _ _ _ _ _ H1). unfold found_tally.
    by rewrite tally_bump, decide_True by done.
Qed.
Lemma score_items_found wants used s used' s' : length used = length (scanned result) ->
  ofold (score_item group result) (used, s) wants = Ok (used', s') ->
  correct (found_tally s') = correct (found_tally s) + overlap (list_to_set_disj (map label_cents wants)) (free si_amountCents used (scanned result)) /\
  total (found_tally s') = total (found_tally s) + Z.of_nat (length wants).
Proof.
  revert used s. induction wants as [|want wants IH]; intros used s Hl H; cbn [ofold] in H.
  - injection H as <- <-. change (list_to_set_disj (map label_cents [])) with (∅ : gmultiset Z). rewrite overlap_empty. cbn [length]. lia.
  - apply obind_Ok in H as ([used1 s1] & H1 & H2). destruct (score_item_step _ _ _ _ _ Hl H1) as [Hl1 Hs].
    destruct (IH _ _ Hl1 H2) as [IH1 IH2]. cbn [map length list_to_set_disj foldr]. rewrite Nat2Z.inj_succ. case_decide as Hc.
    + destruct Hs as [Ef Et]. rewrite IH1, IH2, Et, Ef, overlap_both. cbn [correct total bump_tally]. lia.
    + destruct Hs as [-> Et]. rewrite IH1, IH2, Et, overlap_left by done. cbn [correct total bump_tally]. lia.
Qed.

(** C38: the pairing of labelled with scanned items finds as many as there are to find.
    The code walks the labels once and gives each the best unused scanned item of its
    amount; the number it counts as found is, whatever the order, the names and the
    repeats, the size of the overlap of the two multisets of amounts, which no pairing
    by amount can exceed; and every label is counted once. *)
Theorem items_found_overlap (expected : json) (wants : list json) (s s' : Score) :
  find "items" expected = Some (JArray wants) -> score_items expected group result s = Ok s' ->
  found_tally s' = mkTally
    (correct (found_tally s) + overlap (list_to_set_disj (map label_cents wants)) (list_to_set_disj (map si_amountCents (scanned result))))
    (total (found_tally s) + Z.of_nat (length wants)).
Proof.
  intros Hw H. unfold score_items, if_labelled in H. rewrite Hw in H. apply obind_Ok in H as ([used s1] & H1 & H).
  destruct (score_items_found wants _ _ _ _ ltac:(apply length_replicate) H1) as [E1 E2]. rewrite free_all in E1.
  injection H as <-. rewrite <- E1, <- E2. case_match; [unfold found_tally at 1; rewrite tally_miss|]; fold (found_tally s1);
    by destruct (found_tally s1).
Qed.
End Found.

(** Two labels of the same amount and one scanned item of it: one is found. *)
Definition ex_label (name : string) : json := JObject [("amount", JUnsigned 4); ("name", JString name)]%string.
Definition ex_labels : json := JObject [("items", JArray [ex_label "milk"; ex_label "eggs"])]%string.
Definition ex_scan : ScanResult :=
  mkScanResult "purchase" "AUD" 400 None None None [mkScannedItem (Some "Eggs"%string) None None 400 None false []] JNull.
Definition ex_no_score : Score := mkScore ∅ ∅ [].
Definition ex_scored : Score := Eval vm_compute in
  match score_items (JT := ex_texts) ex_labels "receipts" (Some ex_scan) ex_no_score with Ok s => s | _ => ex_no_score end.
Lemma items_found_overlap_witness :
  score_items (JT := ex_texts) ex_labels "receipts" (Some ex_scan) ex_no_score = Ok ex_scored /\
  found_tally "receipts" ex_scored = mkTally 1 2.
Proof.
  assert (E : score_items (JT := ex_texts) ex_labels "receipts" (Some ex_scan) ex_no_score = Ok ex_scored) by by_vm.
  split; [exact E|].
  rewrite (items_found_overlap (JT := ex_texts) "receipts" (Some ex_scan) ex_labels [ex_label "milk"; ex_label "eggs"]
    ex_no_score ex_scored eq_refl E). vm_compute. reflexivity.
Defined.
