(* ===== verification/DraftScores.v ===== *)
(** * A draft scores full marks against its own scan

    The harness writes each scan in the shape of its labels, as a draft for a person to
    correct.  Scored against the scan it came from, an uncorrected draft has no miss,
    under the conditions the comparison needs: the merchant's name has a letter or digit
    left when squashed, and lines that cannot be told apart by amount and name agree in
    what is scored of them. *)
From Stdlib Require Import SpecFloat.
From stdpp Require Import gmultiset.
From S2P Require Import Prelude CString Binary64 Strtod Json Kinds Calendar JsonInput LedgerInput TokenUtils Env Db.
From S2P Require Import Sigv4Signer World ItemService ReceiptService AuthService ScanWorker Anthropic Harness HarnessMain.
From S2P Require Import Examples NetworkTheorems HarnessTheorems Schema Replies.

(** What a label says of an amount and a name. *)
Definition key_of (item : ScannedItem) : Z * string :=
  (si_amountCents item, squash (default "" (si_name item))%string).

Lemma not_keyed_tail x u used item items : (forall k, ~ candidate key_of x (u :: used) (item :: items) k) ->
  forall k, ~ candidate key_of x used items k.
Proof. intros H k Hk. by apply (H (S k)). Qed.
(** A line found is only replaced by one of the label's name, and one of that name is
    found if there is any. *)
Lemma find_match_keeps cents name i f used items : (forall k, ~ candidate key_of (cents, name) used items k) ->
  find_match cents name i (Some f) used items = Some f.
Proof.
  revert i items. induction used as [|u used IH]; intros i items N; [done|]. destruct items as [|item items]; [done|].
  cbn [find_match]. pose proof (not_keyed_tail _ _ _ _ _ N) as Nt.
  destruct (u || negb (si_amountCents item =? cents)) eqn:Es; [by apply IH|].
  apply orb_false_iff in Es as [-> Ea%negb_false_iff%Z.eqb_eq]. rewrite bool_decide_false by done. cbn [orb].
  rewrite bool_decide_false; [by apply IH|]. intros En. apply (N 0%nat). split; [done|]. exists item.
  split; [done|]. unfold key_of. by rewrite Ea, En.
Qed.
Lemma find_match_keyed cents name i found used items k : candidate key_of (cents, name) used items k ->
  exists j, find_match cents name i found used items = Some (i + j)%nat /\ candidate key_of (cents, name) used items j.
Proof.
  revert i found items k. induction used as [|u used IH]; intros i found items k Hk; [by destruct Hk|].
  destruct items as [|item items]; [by destruct Hk as [_ (? & ? & _)]|]. cbn [find_match].
  destruct (decide ((cents, name) ∈ free key_of used items)) as [(j & Hj)%free_candidate|N].
  { match goal with |- context [find_match _ _ (S i) ?f] => destruct (IH (S i) f items j Hj) as (j' & E & Hj') end.
    exists (S j'). rewrite E. split; [f_equal; lia|done]. }
  assert (Hn : forall j, ~ candidate key_of (cents, name) used items j).
  { intros j Hj. apply N, free_candidate. by exists j. }
  destruct k as [|k]; [|by destruct (Hn k)]. destruct Hk as [[= ->] (it & [= <-] & Hkey)]. injection Hkey as Ha En.
  rewrite Ha, Z.eqb_refl. cbn [negb orb]. rewrite En, (bool_decide_true (name = name)), orb_true_r by done.
  exists 0%nat. rewrite find_match_keeps by done. split; [f_equal; lia|]. split; [done|]. exists item. split; [done|].
  unfold key_of. by rewrite Ha, En.
Qed.

(** ** Marks *)

(** The marks lost so far on a field of a group. *)
Definition lost (group field : string) (s : Score) : Z := total (tally_of group field s) - correct (tally_of group field s).
Definition item_fields : list string := ["items_found"; "item_quantity"; "item_category"]%string.
(** What scoring the items of a perfect case does: nothing is missed, no mark is lost,
    and only the fields of items are counted. *)
Record items_perfect (s s' : Score) : Prop := {
  ip_misses : misses s' = misses s;
  ip_currencies : currencies s' = currencies s;
  ip_lost : forall g f, lost g f s' = lost g f s;
  ip_others : forall g f, f ∉ item_fields -> tally_of g f s' = tally_of g f s }.
#[export] Instance items_perfect_preorder : PreOrder items_perfect.
Proof.
  split; [by split|]. intros s1 s2 s3 [A1 B1 C1 D1] [A2 B2 C2 D2].
  split; [congruence|congruence|intros g f; by rewrite C2|intros g f Hf; by rewrite D2, D1].
Qed.
Lemma lost_bump g f g' f' s : lost g f (bump g' f' true s) = lost g f s.
Proof. unfold lost. rewrite tally_bump. case_decide as E; [|done]. cbn. lia. Qed.
Lemma bump_perfect g f s : f ∈ item_fields -> items_perfect s (bump g f true s).
Proof.
  intros Hf. split; [done|done|intros; apply lost_bump|]. intros g' f' N. rewrite tally_bump, decide_False; [done|].
  intros [_ ->]. done.
Qed.

Lemma contains_refl s : contains s s = true.
Proof.
  assert (Hs : String.substring 0 (String.length s) s = s) by (induction s as [|c s IH]; [done|cbn; by rewrite IH]).
  unfold contains. destruct (String.index 0 s s) eqn:E; [done|].
  destruct (decide (s = ""%string)) as [->|N]; [done|].
  by destruct (String.index_correct3 0 0 s s E N (Nat.le_refl 0)).
Qed.

Section Draft.
Context `{PL : Platform} `{JT : JsonText}.

Lemma toCents_in_units z d : Z.abs z < 2 ^ 50 -> in_units z = JFloat d -> toCents d = z.
Proof.
  intros Hz [= <-]. destruct (Z.leb_spec 0 z).
  - pose proof (toCents_printed false z ltac:(lia)) as E. exact E.
  - pose proof (toCents_printed true (- z) ltac:(lia)) as E. cbn [printed get_double] in E. by rewrite Z.opp_involutive in E.
Qed.
(** The fields of a drafted line. *)
Definition line_fields (item : ScannedItem) : list (string * json) :=
  ([("name", orNull (si_name item)); ("amount", in_units (si_amountCents item)); ("category", orNull (si_category item))]%string ++
   (match si_quantity item with Some q => [("quantity", JFloat q)] | None => [] end)%string ++
   (if si_informational item then [("informational", JBool true)] else [])%string).
Lemma line_find field item : find field (expected_line item) = assoc field (line_fields item).
Proof. apply find_obj. unfold line_fields. destruct (si_quantity item), (si_informational item); distinct. Qed.
Lemma line_at field item x : assoc field (line_fields item) = Some x -> at_key field (expected_line item) = Ok x.
Proof. intros H. apply at_key_find. by rewrite <- line_find in H. Qed.
Lemma line_value field fallback item : value_or field fallback (expected_line item) = Ok (default fallback (assoc field (line_fields item))).
Proof. rewrite <- line_find. done. Qed.

(** A scan whose draft can be scored at all and told apart from itself. *)
Record draft_ok (r : ScanResult) : Prop := {
  do_total : Z.abs (sr_totalCents r) < 2 ^ 50;
  do_merchant : forall m, sr_merchant r = Some m -> squash m <> ""%string;
  do_amounts : forall i, i ∈ sr_items r -> Z.abs (si_amountCents i) < 2 ^ 50;
  do_quantities : forall i q, i ∈ sr_items r -> si_quantity i = Some q -> deqb q q = true;
  do_agree : forall i j, i ∈ sr_items r -> j ∈ sr_items r -> key_of i = key_of j ->
    si_quantity i = si_quantity j /\ si_category i = si_category j;
  do_text : forall i, i ∈ sr_items r -> exists name amount,
    json_dump (orNull (si_name i)) = Ok name /\ json_dump (in_units (si_amountCents i)) = Ok amount
}.

Context (group : string) (r : ScanResult) (Hr : draft_ok r).

Lemma want_name_line item : want_name (expected_line item) = Ok (key_of item).2.
Proof.
  unfold want_name. rewrite line_value. change (assoc "name" (line_fields item)) with (Some (orNull (si_name item))).
  cbn [default obind]. rewrite line_find. change (assoc "name" (line_fields item)) with (Some (orNull (si_name item))).
  unfold key_of. by destruct (si_name item).
Qed.
Lemma score_quantity_line label item got s : si_quantity got = si_quantity item ->
  (forall q, si_quantity item = Some q -> deqb q q = true) ->
  exists s', score_quantity group (expected_line item) label got s = Ok s' /\ items_perfect s s'.
Proof.
  intros Eq Hq. unfold score_quantity. rewrite line_find, Eq.
  assert (Hf : assoc "quantity" (line_fields item) = JFloat <$> si_quantity item).
  { unfold line_fields. by destruct (si_quantity item), (si_informational item). }
  rewrite Hf. destruct (si_quantity item) as [q|]; [|by exists s]. cbn. rewrite (Hq q eq_refl).
  eexists. split; [done|]. apply bump_perfect. unfold item_fields. set_solver.
Qed.
Lemma score_category_line label item got s : si_category got = si_category item ->
  exists s', score_category group (expected_line item) label got s = Ok s' /\ items_perfect s s'.
Proof.
  intros Ec. unfold score_category. rewrite !line_value, Ec.
  assert (Hf : default (JBool false) (assoc "informational" (line_fields item)) = JBool (si_informational item)).
  { unfold line_fields. by destruct (si_quantity item), (si_informational item). }
  rewrite Hf. cbn [obind as_bool]. destruct (si_informational item); [by exists s|].
  change (assoc "category" (line_fields item)) with (Some (orNull (si_category item))). cbn [default].
  exists (bump group "item_category" true s). split; [|apply bump_perfect; unfold item_fields; set_solver].
  destruct (si_category item) as [c|]; cbn; [by rewrite bool_decide_true|done].
Qed.

(** One drafted line is found, as a line of the same amount and name. *)
Lemma score_line item used s : item ∈ sr_items r -> key_of item ∈ free key_of used (sr_items r) ->
  exists used' s', score_item group (Some r) (used, s) (expected_line item) = Ok (used', s') /\ items_perfect s s' /\
    length used' = length used /\ free key_of used (sr_items r) = {[+ key_of item +]} ⊎ free key_of used' (sr_items r).
Proof.
  intros Hin (k & Hk)%free_candidate. destruct (do_text r Hr item Hin) as (nm & am & En & Ea).
  destruct (find_match_keyed _ _ 0 None _ _ _ Hk) as (j & E & Hj). pose proof Hj as [_ (got & Eg & Ek)].
  destruct (do_agree r Hr got item (list_elem_of_lookup_2 _ _ _ Eg) Hin Ek) as [Eq Ec].
  destruct (score_quantity_line (nm +:+ " " +:+ am) item got (bump group "items_found" true s) Eq (fun q => do_quantities r Hr item q Hin)) as (s1 & E1 & P1).
  destruct (score_category_line (nm +:+ " " +:+ am) item got s1 Ec) as (s2 & E2 & P2).
  exists (<[j := true]> used), s2. split; [|split; [|split; [apply length_insert|by apply free_use]]].
  - unfold score_item. rewrite (line_at "amount" item (in_units (si_amountCents item)) eq_refl). cbn [obind].
    destruct (in_units (si_amountCents item)) as [| | | |d| | | |] eqn:Eu; try discriminate Eu. cbn [as_double is_number get_double obind].
    rewrite want_name_line, (toCents_in_units _ d (do_amounts r Hr item Hin) Eu). cbn [obind].
    change (squash (default "" (si_name item))%string) with (key_of item).2 in E. cbn [scanned]. rewrite E. change (0 + j)%nat with j.
    unfold item_label. rewrite line_value. change (assoc "name" (line_fields item)) with (Some (orNull (si_name item))).
    cbn [from_option id obind]. rewrite En. cbn [obind]. rewrite Ea. cbn [obind]. rewrite Eg.
    rewrite bool_decide_true by done. rewrite E1. cbn [obind]. by rewrite E2.
  - etransitivity; [|exact P2]. etransitivity; [|exact P1]. apply bump_perfect. unfold item_fields. set_solver.
Qed.

Lemma score_lines l used s : (forall i, i ∈ l -> i ∈ sr_items r) ->
  free key_of used (sr_items r) = list_to_set_disj (map key_of l) ->
  exists used' s', ofold (score_item group (Some r)) (used, s) (map expected_line l) = Ok (used', s') /\ items_perfect s s' /\
    length used' = length used /\ free key_of used' (sr_items r) = ∅.
Proof.
  revert used s. induction l as [|item l IH]; intros used s Hl Hf; [by exists used, s|].
  change (free key_of used (sr_items r) = {[+ key_of item +]} ⊎ list_to_set_disj (map key_of l)) in Hf.
  destruct (score_line item used s) as (used1 & s1 & E1 & P1 & L1 & F1).
  { apply Hl. left. }
  { rewrite Hf. apply gmultiset_elem_of_disj_union. left. by apply gmultiset_elem_of_singleton. }
  destruct (IH used1 s1) as (used2 & s2 & E2 & P2 & L2 & F2).
  - intros i Hi. apply Hl. by right.
  - rewrite F1 in Hf. by apply (inj (disj_union {[+ key_of item +]})) in Hf.
  - exists used2, s2. cbn [map ofold]. rewrite E1. cbn [obind]. split; [exact E2|].
    split; [by etransitivity|]. split; [congruence|done].
Qed.
Lemma free_none (used : list bool) (items : list ScannedItem) : length used = length items -> free key_of used items = ∅ ->
  filter (fun u => u = false) used = [].
Proof.
  revert items. induction used as [|u used IH]; intros [|item items] Hl Hf; try done. cbn [free] in Hf.
  destruct u; [|exfalso; multiset_solver]. rewrite filter_cons_False by done. apply (IH items); [by injection Hl|multiset_solver].
Qed.
Lemma expected_find field : find field (asExpected r) =
  assoc field ([("kind", JString (sr_kind r)); ("total", in_units (sr_totalCents r)); ("currency", JString (sr_currency r));
       ("purchase_date", orNull (sr_purchaseDate r)); ("merchant", orNull (sr_merchant r));
       ("items", JArray (map expected_line (sr_items r)))]%string).
Proof. apply find_obj. distinct. Qed.
Lemma score_items_draft s : exists s', score_items (asExpected r) group (Some r) s = Ok s' /\ items_perfect s s'.
Proof.
  unfold score_items, if_labelled. rewrite expected_find. cbn [assoc]. repeat (rewrite decide_False by done). rewrite decide_True by done.
  destruct (score_lines (sr_items r) (replicate (length (sr_items r)) false) s) as (used & s' & E & P & L & F); [done|apply free_all|].
  exists s'. cbn [elements scanned]. rewrite E. cbn [obind]. rewrite length_replicate in L.
  by rewrite (free_none used (sr_items r) L F).
Qed.

(** C39: A draft scores full marks against its own scan, under the conditions of
    [draft_ok]: total and amounts below 2^50 cents, a merchant, if any, with an ASCII
    letter or digit in its name (one without is scored as wrong,
    [foreign_name_unmatched]), quantities that are numbers, lines whose names and
    amounts the JSON library can print, and lines of the same amount and name alike in
    quantity and category.  Every field and every line is then counted as correct,
    whatever group the case is filed under and whatever was tallied before; nothing is
    listed as a miss and no mark is lost anywhere. *)
Theorem draft_scores_full (s : Score) :
  exists s', score_case (asExpected r) group (Some r) s = Ok s' /\ misses s' = [] /\
    (forall g f, lost g f s' = lost g f s) /\
    (forall f, f ∈ ["kind"; "total"; "purchase_date"; "merchant"]%string ->
       tally_of group f s' = bump_tally true (tally_of group f s)) /\
    currencies s' = <[group := bump_tally true (default (mkTally 0 0) (currencies s !! group))]> (currencies s).
Proof.
  set (s0 := s <| misses := [] |>). set (s1 := bump group "kind" true s0). set (s2 := bump group "total" true s1).
  set (s3 := bump group "purchase_date" true s2). set (s4 := bump group "merchant" true s3).
  destruct (score_items_draft s4) as (s5 & E5 & [Pm Pc Pl Po]).
  exists (s5 <| currencies ::= fun cs => <[group := bump_tally true (default (mkTally 0 0) (cs !! group))]> cs |>).
  split; [|split; [done|split; [|split]]].
  - unfold score_case. fold s0. assert (E1 : score_kind (asExpected r) group (Some r) s0 = Ok s1).
    { unfold score_kind, if_labelled. rewrite expected_find. cbn [assoc]. rewrite decide_True by done.
      cbn [with_result as_string obind]. by rewrite bool_decide_true. }
    assert (E2 : score_total (asExpected r) group (Some r) s1 = Ok s2).
    { unfold score_total, if_labelled. rewrite expected_find. cbn [assoc]. rewrite decide_False, decide_True by done.
      destruct (in_units (sr_totalCents r)) as [| | | |d| | | |] eqn:Eu; try discriminate Eu.
      cbn [as_double is_number get_double obind with_result shown]. by rewrite (toCents_in_units _ d (do_total r Hr) Eu), Z.eqb_refl. }
    assert (E3 : score_date (asExpected r) group (Some r) s2 = Ok s3).
    { unfold score_date, if_labelled. rewrite expected_find. cbn [assoc]. repeat (rewrite decide_False by done). rewrite decide_True by done.
      destruct (sr_purchaseDate r) as [date|] eqn:Ed; cbn [orNull nullable with_result is_null as_string obind]; by rewrite bool_decide_true. }
    assert (E4 : score_merchant (asExpected r) group (Some r) s3 = Ok s4).
    { unfold score_merchant, if_labelled. rewrite expected_find. cbn [assoc]. repeat (rewrite decide_False by done). rewrite decide_True by done.
      destruct (sr_merchant r) as [m|] eqn:Em; cbn [orNull nullable with_result is_null as_string obind]; rewrite Em; [|done].
      unfold merchantMatches. rewrite contains_refl. pose proof (do_merchant r Hr m Em) as Hm.
      destruct (empty (squash m)) eqn:Ee; [|done]. exfalso. apply Hm. by destruct (squash m). }
    rewrite E1. cbn [obind]. rewrite E2. cbn [obind]. rewrite E3. cbn [obind]. rewrite E4. cbn [obind]. rewrite E5. cbn [obind].
    unfold score_currency, if_labelled. rewrite expected_find. cbn [assoc]. rewrite !decide_False, decide_True by done.
    cbn [with_result as_string obind]. by rewrite bool_decide_true.
  - intros g f. change (lost g f s5 = lost g f s). rewrite Pl. unfold s4, s3, s2, s1. by rewrite !lost_bump.
  - intros f Hf. change (tally_of group f s5 = bump_tally true (tally_of group f s)). rewrite Po.
    + unfold s4, s3, s2, s1. rewrite !tally_bump. repeat (apply elem_of_cons in Hf as [->|Hf]; [repeat case_decide; try done; naive_solver|]).
      by apply elem_of_nil in Hf.
    + intros Hi. unfold item_fields in Hi. set_solver.
  - cbn [currencies set_field]. by rewrite Pc.
Qed.
End Draft.

(** Two lines of one amount, told apart by their names. *)
Definition ex_line (name : string) (category : option string) : ScannedItem :=
  mkScannedItem (Some name) (Some (of_int 2)) None 400 category false [].
Definition ex_receipt : ScanResult :=
  mkScanResult "purchase" "AUD" 800 (Some "Corner Shop"%string) None (Some "2026-02-03"%string)
    [ex_line "Milk" (Some "groceries"%string); ex_line "Eggs" None] JNull.
Lemma ex_lines i : i ∈ sr_items ex_receipt -> i = ex_line "Milk" (Some "groceries"%string) \/ i = ex_line "Eggs" None.
Proof. intros [->|[->|[]%elem_of_nil]%elem_of_cons]%elem_of_cons; [by left|by right]. Qed.
Lemma ex_receipt_ok : draft_ok (JT := ex_texts) ex_receipt.
Proof.
  split.
  - cbn. lia.
  - intros m [= <-]. vm_compute. discriminate.
  - intros i [->| ->]%ex_lines; cbn; lia.
  - intros i q [->| ->]%ex_lines [= <-]; by_vm.
  - intros i j [->| ->]%ex_lines [->| ->]%ex_lines; vm_compute; intros E; first [by split|discriminate E].
  - intros i [->| ->]%ex_lines; exists "{}"%string, "{}"%string; by split.
Qed.
Lemma draft_scores_full_witness :
  exists s', score_case (JT := ex_texts) (asExpected ex_receipt) "receipts" (Some ex_receipt) ex_no_score = Ok s' /\ misses s' = [].
Proof.
  destruct (draft_scores_full (JT := ex_texts) "receipts" ex_receipt ex_receipt_ok ex_no_score) as (s' & E & M & _).
  exists s'. split; assumption.
Defined.
