(* ===== verification/RouteTheorems.v ===== *)
(** * The server's routes: who gets in, and what an answer can depend on

    Theorems about [http], the server on one request: the routes behind the session
    filter, and the noninterference between users, with a concrete router for the
    witnesses. *)
From Stdlib Require Import Ascii.
From S2P Require Import Prelude CString Binary64 Json Kinds JsonInput LedgerInput TokenUtils RateLimiter Env Db World.
From S2P Require Import ItemService ReceiptService ReferenceData AuthService Http Routes Invariant Safety OwnRows OwnStatements Blind Confidential.
From S2P Require Import Examples.

Section Handlers.
Context `{PG : Postgres} `{IS : ImageStore} `{SO : Sodium} `{EN : Environment} `{VI : Vips} `{PL : Platform} `{JT : JsonText} (U : Z).

Lemma blind_guarded {A} (m : M A) handler render w : blind U m w -> blind U (guarded handler m render) w.
Proof.
  intros H. apply blind_catch; [|unfold wp; auto with blind]. apply blind_bind; [done|]. unfold wp. auto with blind.
Qed.
Lemma blind_rendered {A} (m : M A) (render : A -> M Response) w :
  blind U m w -> (forall a w', blind U (render a) w') -> blind U (mbind render m) w.
Proof. intros H Hr. apply blind_bind; [done|]. unfold wp. intros; apply Hr. Qed.
(** The image route answers by the key of the image, when it is U's. *)
Definition image_answer (key : option string) : M Response :=
  match key with
  | Some key =>
      let! bytes := store_get key in
      mret (mkResponse k200OK "image/webp" bytes [("Cache-Control", "private, max-age=31536000, immutable")]%string None)
  | None => lift (errorResponse k404NotFound "not_found" "image not found")
  end.
Lemma image_handler_eq id w : image_handler U id w = image_answer (visible_key U (image_location id (w_db w))) w.
Proof.
  unfold image_handler, findImage, mbind at 1, query. fold (image_location id (w_db w)). unfold visible_key.
  destruct (image_location id (w_db w)) as [l|]; [|done]. by destruct (il_ownerUserId l =? U).
Qed.
Lemma image_handler_blind id w : db_ok (w_db w) -> blind U (image_handler U id) w.
Proof.
  intros Hok. unfold blind. rewrite !image_handler_eq. cbn [w_db set_field alone]. rewrite (visible_key_own U (w_db w) id Hok).
  destruct (visible_key U _) as [key|]; [|done]. apply (blind_rendered (store_get key)); auto with blind.
Qed.

(** ** The session filter *)

Lemma db_ok_sessions d f : db_ok d -> db_ok (d <| sessions ::= f |>).
Proof. intros []. by split. Qed.
Lemma own_touch d f : (forall s, s_user_id (f s) = s_user_id s) ->
  own_rows U (d <| sessions ::= map_rows (fun _ s => Some (f s)) |>) = (own_rows U d) <| sessions ::= map_rows (fun _ s => Some (f s)) |>.
Proof.
  intros Hf. apply Db_ext; try done. cbn. unfold own, map_rows, mine. cbn. f_equal.
  apply map_eq. intros k. apply option_eq. intros s.
  rewrite map_lookup_filter_Some, !map_lookup_imap. cbn.
  destruct (rows (sessions d) !! k) as [s0|] eqn:E; cbn.
  - destruct (decide (s_user_id s0 = U)) as [HU|HU].
    + rewrite (map_lookup_filter_Some_2 _ (rows (sessions d)) k s0); [|done|cbn; congruence]. cbn. split; [tauto|].
      intros [= <-]. split; [done|]. rewrite Hf. congruence.
    + rewrite (map_lookup_filter_None_2 _ (rows (sessions d)) k); [|right; intros s1 E1; cbn; congruence]. cbn.
      split; [|done]. intros [[= <-] Hs]. rewrite Hf in Hs. congruence.
  - rewrite (map_lookup_filter_None_2 _ (rows (sessions d)) k); [|by left]. cbn. split; [|done]. by intros [? _].
Qed.
Lemma touch_session_user h below to s : s_user_id (touch_session h below to s) = s_user_id s.
Proof. unfold touch_session. by destruct (_ && _). Qed.

(** The request carries a live session of the user. *)
Definition session_of (req : Request) (w : World) : option Z :=
  if empty (rq_cookie req) then None else session_user (hashToken (rq_cookie req)) (w_clock w) (w_db w).
(** Among U's sessions alone, the token still finds U's. *)
Lemma session_user_own h t d : session_user h t d = Some U -> session_user h t (own_rows U d) = Some U.
Proof.
  unfold session_user. destruct (select (live_session h t) (sessions d)) as [|[k s] l] eqn:E; [done|]. intros [= HU].
  assert (Hin : (k, s) ∈ select (live_session h t) (sessions d)) by (rewrite E; left).
  apply elem_of_map_to_list, map_lookup_filter_Some in Hin as [Ek Hl]. cbn [snd] in Hl.
  assert (Hin : (k, s) ∈ select (live_session h t) (sessions (own_rows U d))).
  { apply select_spec; [|done]. apply mine_lookup. split; [done|congruence]. }
  destruct (select (live_session h t) (sessions (own_rows U d))) as [|[k' s'] l'] eqn:E'; [by apply elem_of_nil in Hin|].
  assert (Hs : (k', s') ∈ select (live_session h t) (sessions (own_rows U d))) by (rewrite E'; left).
  apply elem_of_map_to_list, map_lookup_filter_Some in Hs as [Hs _]. by apply mine_lookup in Hs as [_ ?].
Qed.
Lemma validateSession_blind token w : session_user (hashToken token) (w_clock w) (w_db w) = Some U ->
  blind U (validateSession token) w.
Proof.
  intros H. unfold validateSession. apply blind_now_bind, blind_query_bind; [by rewrite session_user_own|]. rewrite H.
  apply blind_lift_bind. intros touch _. destruct (negb _); [auto with blind|].
  do 2 (apply blind_lift_bind; intros ? _). apply blind_exec_bind_; [|auto with blind].
  cbn [on_own_]. f_equal. symmetry. apply own_touch, touch_session_user.
Qed.
Lemma validateSession_spec token w :
  wp (validateSession token) (fun r w' => (db_ok (w_db w) -> db_ok (w_db w')) /\
    forall u, r = Ok (Some u) -> session_user (hashToken token) (w_clock w) (w_db w) = Some u) w.
Proof.
  unfold validateSession. wp_steps. destruct (session_user _ _ _) as [u|] eqn:E; wp_steps; [|done].
  destruct sessionTouchIntervalSeconds as [touch| |]; cbn [after]; [|done..]. destruct (negb _); [done|].
  wp_steps. destruct (secondsToInterval kSessionLifetimeSeconds) as [lt| |]; cbn [after]; [|done..]. wp_steps.
  destruct (secondsToInterval _) as [th| |]; cbn [after]; [|done..]. wp_steps.
  split; [apply db_ok_sessions|]. by intros v [= <-].
Qed.
Lemma with_session_blind req h w : db_ok (w_db w) -> session_of req w = Some U ->
  (forall w', db_ok (w_db w') -> blind U (h U) w') -> blind U (with_session req h) w.
Proof.
  unfold session_of, with_session. intros Hok Hs Hh. destruct (empty (rq_cookie req)); [done|].
  apply blind_bind; [by apply validateSession_blind|]. eapply wp_mono; [apply validateSession_spec|].
  intros r w' [Hok' Hu] [u|] ->; [|auto with blind]. specialize (Hu u eq_refl). rewrite Hs in Hu. injection Hu as <-. auto.
Qed.
Lemma logout_blind token w : blind U (logout token) w.
Proof.
  apply blind_exec_. cbn [on_own_]. f_equal. symmetry. apply Db_ext; try done. by apply own_keep.
Qed.

(** ** The handlers behind the filter *)

Context `{DR : Drogon}.

Definition handler_blind (h : Handler) : Prop :=
  forall req ids w, db_ok (w_db w) -> blind U (run_handler h req (Some U) ids) w.
Lemma plain_blind f : (forall req w, db_ok (w_db w) -> blind U (f req) w) -> handler_blind (Plain f).
Proof. intros H req ids w Hok. by apply H. Qed.
Lemma for_user_blind f : (forall req w, db_ok (w_db w) -> blind U (f req U) w) -> handler_blind (ForUser f).
Proof. intros H req ids w Hok. by apply H. Qed.
Lemma with_id_blind f : (forall req id w, db_ok (w_db w) -> blind U (f req U id) w) -> handler_blind (WithId f).
Proof. intros H req [|id ids] w Hok; [apply blind_lift|by apply H]. Qed.
Lemma with_ids_blind f : (forall req id id2 w, db_ok (w_db w) -> blind U (f req U id id2) w) -> handler_blind (WithIds f).
Proof. intros H req [|id [|id2 ids]] w Hok; [apply blind_lift..|by apply H]. Qed.

Lemma upload_handler_blind req w : db_ok (w_db w) -> blind U (upload_handler req U) w.
Proof.
  intros Hok. apply blind_lift_bind. intros [resp|images] _; [auto with blind|]. by apply blind_guarded, upload_blind.
Qed.
Lemma add_images_handler_blind req id w : db_ok (w_db w) -> blind U (add_images_handler req U id) w.
Proof.
  intros Hok. apply blind_lift_bind. intros [resp|images] _; [auto with blind|]. by apply blind_guarded, add_images_blind.
Qed.
Lemma list_images_handler_blind id w : db_ok (w_db w) -> blind U (list_images_handler U id) w.
Proof.
  intros Hok. apply blind_catch; [|unfold wp; intros [] _; auto with blind].
  apply blind_rendered; [by apply list_images_blind|auto with blind].
Qed.
Lemma list_handler_blind req w : blind U (list_handler req U) w.
Proof.
  do 2 (apply blind_lift_bind; intros ? _). apply blind_rendered; [apply list_receipts_blind|auto with blind].
Qed.
Lemma get_handler_blind id w : blind U (get_handler U id) w.
Proof. apply blind_rendered; [apply get_receipt_blind|]. intros [r|] w'; auto with blind. Qed.
Lemma remove_handler_blind id w : db_ok (w_db w) -> blind U (remove_handler U id) w.
Proof. intros Hok. apply blind_rendered; [by apply delete_blind|]. intros [] w'; auto with blind. Qed.
Lemma logout_handler_blind req w : blind U (logout_handler req) w.
Proof.
  apply blind_rendered; [apply logout_blind|]. intros [] w'. apply blind_lift_bind. auto with blind.
Qed.

Hint Resolve blind_guarded item_list_blind item_create_blind item_update_blind item_remove_blind category_list_blind
  category_create_blind category_update_blind category_remove_blind tag_list_blind tag_create_blind tag_update_blind
  tag_remove_blind payment_method_list_blind payment_method_create_blind payment_method_update_blind
  payment_method_remove_blind create_manual_blind update_receipt_blind retry_blind upload_handler_blind
  add_images_handler_blind list_images_handler_blind list_handler_blind get_handler_blind remove_handler_blind
  image_handler_blind logout_handler_blind : blind.
Lemma routes_blind : Forall (fun r => rt_filters r = [SessionAuthFilter] -> handler_blind (rt_handler r)) routes.
Proof.
  unfold routes, auth_routes, receipt_routes, item_routes, reference_routes, health_routes. cbn [app].
  repeat (apply Forall_cons_2; [intros E|]); [..|apply Forall_nil_2]; try discriminate E; clear E; cbn [rt_handler];
    lazymatch goal with
    | |- handler_blind (Plain _) => apply plain_blind
    | |- handler_blind (ForUser _) => apply for_user_blind
    | |- handler_blind (WithId _) => apply with_id_blind
    | |- handler_blind (WithIds _) => apply with_ids_blind
    end; intros;
    solve [auto with blind|apply blind_guarded; auto with blind].
Qed.
End Handlers.

(** ** The server *)

Section Server.
Context `{PG : Postgres} `{IS : ImageStore} `{SO : Sodium} `{EN : Environment} `{VI : Vips} `{PL : Platform} `{JT : JsonText} `{DR : Drogon}.

(** The route a request is for; [None] when Drogon answers by itself. *)
Definition selected (m : Method) (path : string) : option Route :=
  match select_route (map (fun r => (rt_path r, rt_method r)) routes) m path with
  | inr (i, _) => routes !! i
  | inl _ => None
  end.
Definition public_paths : list string :=
  ["/api/v1/auth/register"; "/api/v1/auth/login"; "/api/v1/auth/verify"; "/api/v1/auth/password-reset/request";
   "/api/v1/auth/password-reset/confirm"; "/api/v1/health"]%string.
Definition arity (h : Handler) : nat :=
  match h with Plain _ | ForUser _ => 0 | WithId _ => 1 | WithIds _ => 2 end.

Lemma filtered_or_public r : r ∈ routes ->
  rt_filters r = (if decide (rt_path r ∈ public_paths) then [] else [SessionAuthFilter]) /\
  arity (rt_handler r) = placeholders (rt_path r).
Proof.
  assert (Forall (fun r => rt_filters r = (if decide (rt_path r ∈ public_paths) then [] else [SessionAuthFilter]) /\
    arity (rt_handler r) = placeholders (rt_path r)) routes) as H by (repeat constructor).
  rewrite Forall_forall in H. apply H.
Qed.
Lemma no_session_rejected req h w : session_of req w = None -> with_session req h w = (unauthorized, w).
Proof.
  unfold session_of, with_session. destruct (empty (rq_cookie req)); [done|]. intros H.
  unfold mbind at 1. unfold validateSession, mbind at 1 2, now, query. by rewrite H.
Qed.
Lemma http_blind U m path req w : db_ok (w_db w) -> session_of req w = Some U ->
  (forall r, selected m path = Some r -> rt_path r ∉ public_paths) -> blind U (http m path req) w.
Proof.
  intros Hok Hs Hp. unfold http. unfold selected in Hp. destruct (select_route _ m path) as [resp|[i ids]]; [apply blind_ret|].
  destruct (routes !! i) as [r|] eqn:Er; [|apply blind_lift]. apply list_elem_of_lookup_2 in Er as Hin.
  destruct (filtered_or_public r Hin) as [Hf _]. rewrite decide_False in Hf by by apply Hp.
  unfold run_route. rewrite Hf. cbn [run_filters]. apply with_session_blind; [done..|]. intros w' Hok'.
  pose proof (routes_blind U) as Hall. rewrite Forall_forall in Hall. by apply Hall.
Qed.

(** C8: Without a live session nothing but the six public paths is served: a request
    that selects any other route is answered 401 and changes nothing at all; and every
    request that selects a route is served by a handler registered for its method, with
    as many path arguments as it takes. *)
Theorem sessions_required `{DL : !DrogonRouting} (m : Method) (path : string) (req : Request) (w : World) (r : Route) :
  selected m path = Some r ->
  (session_of req w = None -> rt_path r ∉ public_paths -> http m path req w = (unauthorized, w)) /\
  rt_method r = m /\ exists ids, length ids = arity (rt_handler r) /\ http m path req = run_route r req ids.
Proof.
  unfold selected, http. destruct (select_route _ m path) as [resp|[i ids]] eqn:E; [done|]. intros Er.
  apply list_elem_of_lookup_2 in Er as Hin. destruct (filtered_or_public r Hin) as [Hf Ha].
  destruct (select_sound _ _ _ _ _ E) as (pattern & Ep & Hl). rewrite list_lookup_fmap, Er in Ep. injection Ep as <- <-.
  rewrite Er. split; [|split; [done|exists ids; split; [congruence|done]]].
  intros Hs Hp. unfold run_route. rewrite Hf, decide_False by done. cbn [run_filters]. by apply no_session_rejected.
Qed.

(** C7: No row of one user reaches another: of two worlds with consistent tables that
    agree on U's rows, sessions and notifications and on what all users share (the
    next id of every table, the object store, the random numbers drawn, the clock and
    the rate limiters' counters: [alone U] keeps these as they are), but that may hold
    any rows and notifications of everybody else, the server gives a request of U's
    session the same response, status, body, headers and cookie, and leaves worlds
    that again agree on all of that.  That others use ids of the same sequences, a
    user may see from the ids he is given; this is not excluded. *)
Theorem noninterference (U : Z) (m : Method) (path : string) (req : Request) (w1 w2 : World) :
  db_ok (w_db w1) -> db_ok (w_db w2) -> session_of req w1 = Some U -> session_of req w2 = Some U ->
  (forall r, selected m path = Some r -> rt_path r ∉ public_paths) -> alone U w1 = alone U w2 ->
  (http m path req w1).1 = (http m path req w2).1 /\
  alone U (http m path req w1).2 = alone U (http m path req w2).2.
Proof.
  intros Hok1 Hok2 Hs1 Hs2 Hp He. pose proof (http_blind U m path req w1 Hok1 Hs1 Hp) as H1.
  pose proof (http_blind U m path req w2 Hok2 Hs2 Hp) as H2. unfold blind in *. rewrite He, H2 in H1.
  split; [exact (eq_sym (f_equal fst H1))|exact (eq_sym (f_equal snd H1))].
Qed.
End Server.

(** ** A router, and two users' worlds *)

Fixpoint split_path (acc : string) (s : string) : list string :=
  match s with
  | "" => [acc]
  | String "/" s => acc :: split_path "" s
  | String c s => split_path (acc +:+ String c "") s
  end%string.
Definition is_placeholder (segment : string) : bool := match segment with String "{" _ => true | _ => false end.
Definition decimal (s : string) : option Z := match stoll s with Ok n => Some n | _ => None end.
Fixpoint match_path (pattern path : list string) : option (list Z) :=
  match pattern, path with
  | [], [] => Some []
  | p :: pattern, s :: path =>
      if is_placeholder p then n ← decimal s; ids ← match_path pattern path; Some (n :: ids)
      else if decide (p = s) then match_path pattern path else None
  | _, _ => None
  end.
(** The first registered route that matches; only paths with as many placeholders
    as integers are taken. *)
Definition try_route (m : Method) (path : string) (entry : nat * (string * Method)) : option (nat * list Z) :=
  let '(i, (pattern, m')) := entry in
  ids ← match_path (split_path "" pattern) (split_path "" path);
  if decide (m' = m /\ length ids = placeholders pattern) then Some (i, ids) else None.
Definition ex_not_found : Response := mkResponse 404 "text/html" "" [] None.
#[export] Instance ex_drogon : Drogon := {|
  select_route := fun table m path =>
    match omap (try_route m path) (imap (fun i e => (i, e)) table) with
    | (i, ids) :: _ => inr (i, ids)
    | [] => inl ex_not_found
    end;
  absent_attribute := 0;
  db_ping := Ok ()
|}.
#[export] Instance ex_routing : DrogonRouting.
Proof.
  intros table m path i ids. cbn. destruct (omap _ _) as [|[j l] rest] eqn:E; [done|]. intros [= -> ->].
  assert (H : (i, ids) ∈ omap (try_route m path) (imap (fun i e => (i, e)) table)) by (rewrite E; left).
  apply list_elem_of_omap in H as ([k [pattern m']] & Hk & Ht). unfold try_route in Ht.
  destruct (match_path _ _) as [l|]; [|done]. cbn in Ht. case_decide as Hd; [|done]. injection Ht as -> ->. destruct Hd as [-> Hl].
  apply list_elem_of_lookup in Hk as (n & Hn). rewrite list_lookup_imap in Hn. apply fmap_Some in Hn as (e & He & [= -> <-]).
  by exists pattern.
Defined.

(** Ann, who is logged in, and Bob, whose receipt is of one amount or another. *)
Definition ex_bob_body (cents : Z) : json := JObject [("kind", JString "purchase"); ("total_cents", JUnsigned cents)]%string.
Definition ex_both : World := Eval vm_compute in
  ex_manual_world <| w_db ::= fun d => d <| users ::= insert_row (mkUser "bob@example.com" "pw" None) |>
    <| sessions ::= insert_row (mkSession 1 (hashToken "ann-token") 5000) |> |>.
Definition ex_bob : World := Eval vm_compute in (serve 2 (CreateManual (ex_bob_body 77)) ex_both).2.
Definition ex_bob2 : World := Eval vm_compute in (serve 2 (CreateManual (ex_bob_body 990000)) ex_both).2.
Definition ex_get : Request := mkRequest "" "ann-token" (fun _ => ""%string) None "10.0.0.1".

Lemma ex_both_ok : db_ok (w_db ex_both).
Proof. destruct ex_manual_ok as [H1 H2 H3 H4 H5]. split; [exact H1|exact H2|exact H3|exact H4|exact H5]. Qed.
Lemma ex_bob_ok : db_ok (w_db ex_bob).
Proof.
  replace ex_bob with (serve 2 (CreateManual (ex_bob_body 77)) ex_both).2 by by_vm.
  apply (serve_safe 2 (CreateManual (ex_bob_body 77)) ex_both ex_both_ok).
Qed.
Lemma ex_bob2_ok : db_ok (w_db ex_bob2).
Proof.
  replace ex_bob2 with (serve 2 (CreateManual (ex_bob_body 990000)) ex_both).2 by by_vm.
  apply (serve_safe 2 (CreateManual (ex_bob_body 990000)) ex_both ex_both_ok).
Qed.
Lemma ex_selected m path r : selected m path = Some r -> bool_decide (rt_path r ∈ public_paths) = false ->
  forall r', selected m path = Some r' -> rt_path r' ∉ public_paths.
Proof. intros -> H r' [= <-]. by apply bool_decide_eq_false in H. Qed.

(** Bob's receipt, asked for by Ann. *)
Lemma noninterference_witness :
  (http Get "/api/v1/receipts/2" ex_get ex_bob).1 = (http Get "/api/v1/receipts/2" ex_get ex_bob2).1 /\
  alone 1 (http Get "/api/v1/receipts/2" ex_get ex_bob).2 = alone 1 (http Get "/api/v1/receipts/2" ex_get ex_bob2).2.
Proof.
  apply (noninterference 1 Get "/api/v1/receipts/2" ex_get ex_bob ex_bob2).
  - exact ex_bob_ok.
  - exact ex_bob2_ok.
  - by_vm.
  - by_vm.
  - apply (ex_selected Get "/api/v1/receipts/2" (ADD_METHOD_TO (WithId (fun _ => get_handler)) "/api/v1/receipts/{1}" Get [SessionAuthFilter])); by_vm.
  - by_vm.
Defined.
Definition ex_anonymous : Request := mkRequest "" "bob-token" (fun _ => ""%string) None "10.0.0.1".
Lemma sessions_required_witness :
  http Delete "/api/v1/receipts/2" ex_anonymous ex_bob = (unauthorized, ex_bob).
Proof.
  apply (sessions_required Delete "/api/v1/receipts/2" ex_anonymous ex_bob
    (ADD_METHOD_TO (WithId (fun _ => remove_handler)) "/api/v1/receipts/{1}" Delete [SessionAuthFilter])).
  - by_vm.
  - by_vm.
  - apply (ex_selected Delete "/api/v1/receipts/2" (ADD_METHOD_TO (WithId (fun _ => remove_handler)) "/api/v1/receipts/{1}" Delete [SessionAuthFilter])); by_vm.
Defined.
