(* ===== verification/Transactions.v ===== *)
(** * Transactions statement by statement

    What Postgres does with transactions that overlap (READ COMMITTED, the
    default the code runs under), for programs given statement by statement.

    A transaction is a [Tx]: a tree of statements, of the kinds the services
    issue.  [alone] runs it by itself, which is how the service methods of the
    other files are written.  [advance] runs one statement of it next to others:
    the statement sees the committed rows with the transaction's own changes laid
    over them, waits (is [None]) while another transaction holds a lock that
    conflicts with one it needs, and keeps its locks and changes until [TxEnd],
    which publishes the changes or drops them.  Ids are drawn from the sequences
    at once and never given back.  [run] follows a schedule over any number of
    tasks.

    A statement that waits is evaluated when it stops waiting.  Where it addresses its
    rows by key, that is what Postgres's re-check of the locked row amounts to; a
    statement that also reads other tables, which Postgres reads as of its beginning,
    is given as two (the categories of a receipt's items, the number of items of a
    scanned receipt).  An UPDATE that leaves a row as it was takes no lock here, which
    allows more schedules, not fewer.  Waiting for a duplicate in a unique index is
    left out: two transactions may insert the same name.  [now()] is read when the
    statement runs, where Postgres gives the time the transaction began.  The
    account calls are not tasks of this machine. *)
From S2P Require Import Prelude CString Binary64 Json Kinds JsonInput LedgerInput TokenUtils RateLimiter Db World.

(** ** Row locks *)

(** The row-level lock modes of Postgres, weakest first. *)
Inductive Mode := KeyShare | Share | NoKeyUpdate | ForUpdate.
#[export] Instance Mode_eq_dec : EqDecision Mode.
Proof. solve_decision. Defined.
Definition conflicts (a b : Mode) : bool :=
  match a, b with
  | KeyShare, ForUpdate | ForUpdate, KeyShare => true
  | KeyShare, _ | _, KeyShare => false
  | Share, Share => false
  | _, _ => true
  end.

Inductive Tbl := TUsers | TSessions | TAuthTokens | TCategories | TTags | TPaymentMethods | TReceipts | TImages | TItems.
#[export] Instance Tbl_eq_dec : EqDecision Tbl.
Proof. solve_decision. Defined.

(** [UserImages u]: the advisory lock keyed on the user id. *)
Inductive Key := UserImages (user : Z) | Row (t : Tbl) (id : Z).
#[export] Instance Key_eq_dec : EqDecision Key.
Proof. solve_decision. Defined.
Definition Lock : Type := Key * Mode.
Definition clash (a b : Lock) : bool := bool_decide (a.1 = b.1) && conflicts a.2 b.2.
(** No lock of [requests] conflicts with one in [held]. *)
Definition free (requests held : list Lock) : bool :=
  forallb (fun r => forallb (fun h => negb (clash r h)) held) requests.

(** ** A transaction's own changes *)

Fixpoint json_eq_dec (a b : json) : Decision (a = b).
Proof.
  pose (pair_dec := fun p q : string * json =>
    match decide (p.1 = q.1), json_eq_dec p.2 q.2 with
    | left e1, left e2 => left (injective_projections p q e1 e2)
    | right n, _ => right (fun e => n (f_equal fst e))
    | _, right n => right (fun e => n (f_equal snd e))
    end : Decision (p = q)).
  refine (match a, b with
    | JNull, JNull => left eq_refl
    | JBool x, JBool y => cast_if (decide (x = y))
    | JInteger x, JInteger y => cast_if (decide (x = y))
    | JUnsigned x, JUnsigned y => cast_if (decide (x = y))
    | JFloat x, JFloat y => cast_if (decide (x = y))
    | JString x, JString y => cast_if (decide (x = y))
    | JArray x, JArray y => cast_if (@list_eq_dec json json_eq_dec x y)
    | JObject x, JObject y => cast_if (@list_eq_dec (string * json) pair_dec x y)
    | JDiscarded, JDiscarded => left eq_refl
    | _, _ => right _
    end); try congruence.
Defined.
#[export] Instance json_EqDecision : EqDecision json := json_eq_dec.
#[export] Instance category_row_eq_dec : EqDecision category_row.
Proof. solve_decision. Defined.
#[export] Instance tag_row_eq_dec : EqDecision tag_row.
Proof. solve_decision. Defined.
#[export] Instance payment_method_row_eq_dec : EqDecision payment_method_row.
Proof. solve_decision. Defined.
#[export] Instance receipt_row_eq_dec : EqDecision receipt_row.
Proof. solve_decision. Defined.
#[export] Instance image_row_eq_dec : EqDecision image_row.
Proof. solve_decision. Defined.
#[export] Instance item_row_eq_dec : EqDecision item_row.
Proof. solve_decision. Defined.
#[export] Instance user_row_eq_dec : EqDecision user_row.
Proof. solve_decision. Defined.
#[export] Instance session_row_eq_dec : EqDecision session_row.
Proof. solve_decision. Defined.
#[export] Instance auth_token_row_eq_dec : EqDecision auth_token_row.
Proof. solve_decision. Defined.

(** The rows of one table a transaction has written, [None] for a deleted one. *)
Abbreviation writes A := (gmap Z (option A)).
Definition overlay_rows {A} (ws : writes A) (m : gmap Z A) : gmap Z A :=
  merge (fun w a => match w with Some a' => a' | None => a end) ws m.
Definition changed_rows {A} `{EqDecision A} (old new : gmap Z A) : writes A :=
  merge (fun a b : option A => if decide (a = b) then None else Some b) old new.
Definition record_rows {A} `{EqDecision A} (ws : writes A) (old new : table A) : writes A :=
  changed_rows (rows old) (rows new) ∪ ws.
Definition overlay_table {A} (ws : writes A) (t : table A) : table A := mkTable (overlay_rows ws (rows t)) (seq t).

(** The links written, [false] for a deleted one. *)
Definition overlay_links (ws : gmap (Z * Z) bool) (s : gset (Z * Z)) : gset (Z * Z) :=
  filter (fun l => ws !! l <> Some false) s ∪ dom (filter (fun kv => kv.2 = true) ws).
Definition record_links (ws : gmap (Z * Z) bool) (old new : gset (Z * Z)) : gmap (Z * Z) bool :=
  gset_to_gmap true (new ∖ old) ∪ gset_to_gmap false (old ∖ new) ∪ ws.

Record Delta := mkDelta {
  dl_users : writes user_row;
  dl_sessions : writes session_row;
  dl_auth_tokens : writes auth_token_row;
  dl_categories : writes category_row;
  dl_tags : writes tag_row;
  dl_payment_methods : writes payment_method_row;
  dl_receipts : writes receipt_row;
  dl_images : writes image_row;
  dl_items : writes item_row;
  dl_links : gmap (Z * Z) bool
}.
Definition no_changes : Delta := mkDelta ∅ ∅ ∅ ∅ ∅ ∅ ∅ ∅ ∅ ∅.

(** What the transaction sees, and publishes when it commits. *)
Definition overlay (c : Delta) (d : Db) : Db :=
  mkDb (overlay_table (dl_users c) (users d)) (overlay_table (dl_sessions c) (sessions d))
    (overlay_table (dl_auth_tokens c) (auth_tokens d)) (overlay_table (dl_categories c) (categories d))
    (overlay_table (dl_tags c) (tags d)) (overlay_table (dl_payment_methods c) (payment_methods d))
    (overlay_table (dl_receipts c) (receipts d)) (overlay_table (dl_images c) (receipt_images d))
    (overlay_table (dl_items c) (items d)) (overlay_links (dl_links c) (item_tags d)).
(** A statement took the transaction's view from [old] to [new]. *)
Definition record_changes (c : Delta) (old new : Db) : Delta :=
  mkDelta (record_rows (dl_users c) (users old) (users new)) (record_rows (dl_sessions c) (sessions old) (sessions new))
    (record_rows (dl_auth_tokens c) (auth_tokens old) (auth_tokens new))
    (record_rows (dl_categories c) (categories old) (categories new))
    (record_rows (dl_tags c) (tags old) (tags new))
    (record_rows (dl_payment_methods c) (payment_methods old) (payment_methods new))
    (record_rows (dl_receipts c) (receipts old) (receipts new))
    (record_rows (dl_images c) (receipt_images old) (receipt_images new))
    (record_rows (dl_items c) (items old) (items new))
    (record_links (dl_links c) (item_tags old) (item_tags new)).

(** ** The locks a statement that writes takes

    A changed row is locked until the end, a deleted or new one with the
    strongest mode; a reference written into a row locks the row referred to
    FOR KEY SHARE, as the trigger of the foreign key does. *)

Definition user_ref (id : Z) : list Key := [Row TUsers id].
Definition opt_ref (t : Tbl) (id : option Z) : list Key := match id with Some k => [Row t k] | None => [] end.
Definition category_refs (r : category_row) : list Key := user_ref (c_user_id r).
Definition tag_refs (r : tag_row) : list Key := user_ref (t_user_id r).
Definition payment_method_refs (r : payment_method_row) : list Key := user_ref (p_user_id r).
Definition receipt_refs (r : receipt_row) : list Key :=
  user_ref (rc_user_id r) ++ opt_ref TPaymentMethods (er_paymentMethodId (rc_fields r)) ++
  opt_ref TReceipts (er_offsetsReceiptId (rc_fields r)).
Definition image_refs (r : image_row) : list Key := [Row TReceipts (im_receipt_id r); Row TUsers (im_user_id r)].
Definition item_refs (r : item_row) : list Key :=
  Row TReceipts (it_receipt_id r) :: opt_ref TCategories (it_category_id r).
Definition session_refs (r : session_row) : list Key := user_ref (s_user_id r).
Definition auth_token_refs (r : auth_token_row) : list Key := user_ref (a_user_id r).

Definition row_locks {A} (t : Tbl) (refs : A -> list Key) (old : gmap Z A) (kv : Z * option A) : list Lock :=
  match kv.2, old !! kv.1 with
  | None, _ => [(Row t kv.1, ForUpdate)]
  | Some r, None => (Row t kv.1, ForUpdate) :: map (fun k => (k, KeyShare)) (refs r)
  | Some r, Some r0 =>
      (Row t kv.1, NoKeyUpdate) :: map (fun k => (k, KeyShare)) (filter (fun k => k ∉ refs r0) (refs r))
  end.
Definition table_locks {A} `{EqDecision A} (t : Tbl) (refs : A -> list Key) (old new : table A) : list Lock :=
  concat (map (row_locks t refs (rows old)) (map_to_list (changed_rows (rows old) (rows new)))).
Definition link_locks (old new : gset (Z * Z)) : list Lock :=
  concat (map (fun l => [(Row TItems l.1, KeyShare); (Row TTags l.2, KeyShare)]) (elements (new ∖ old))).
Definition change_locks (old new : Db) : list Lock :=
  table_locks TUsers (fun _ => []) (users old) (users new) ++
  table_locks TSessions session_refs (sessions old) (sessions new) ++
  table_locks TAuthTokens auth_token_refs (auth_tokens old) (auth_tokens new) ++
  table_locks TCategories category_refs (categories old) (categories new) ++
  table_locks TTags tag_refs (tags old) (tags new) ++
  table_locks TPaymentMethods payment_method_refs (payment_methods old) (payment_methods new) ++
  table_locks TReceipts receipt_refs (receipts old) (receipts new) ++
  table_locks TImages image_refs (receipt_images old) (receipt_images new) ++
  table_locks TItems item_refs (items old) (items new) ++
  link_locks (item_tags old) (item_tags new).

(** ** Programs *)

Inductive Tx (A : Type) : Type :=
| TxEnd (r : outcome A)
| TxLock (user : Z) (k : Tx A)
| TxQuery (B : Type) (f : Db -> B) (k : B -> Tx A)
| TxQueryFor (B : Type) (mode : Mode) (found : Db -> list Key) (f : Db -> B) (k : B -> Tx A)
| TxChange (B : Type) (s : Db -> outcome (B * Db)) (k : B -> Tx A)
| TxNow (k : Z -> Tx A)
| TxToken (byteLength : nat) (k : string -> Tx A)
| TxPut (key contentType bytes : string) (k : Tx A).
Arguments TxEnd {A} r.
Arguments TxLock {A} user k.
Arguments TxQuery {A B} f k.
Arguments TxQueryFor {A B} mode found f k.
Arguments TxChange {A B} s k.
Arguments TxNow {A} k.
Arguments TxToken {A} byteLength k.
Arguments TxPut {A} key contentType bytes k.

Fixpoint tbind {A B} (k : A -> Tx B) (p : Tx A) : Tx B :=
  match p with
  | TxEnd (Ok a) => k a
  | TxEnd (Throw e) => TxEnd (Throw e)
  | TxEnd (UB u) => TxEnd (UB u)
  | TxLock user p' => TxLock user (tbind k p')
  | TxQuery f q => TxQuery f (fun b => tbind k (q b))
  | TxQueryFor mode found f q => TxQueryFor mode found f (fun b => tbind k (q b))
  | TxChange s q => TxChange s (fun b => tbind k (q b))
  | TxNow q => TxNow (fun t => tbind k (q t))
  | TxToken n q => TxToken n (fun t => tbind k (q t))
  | TxPut key contentType bytes p' => TxPut key contentType bytes (tbind k p')
  end.

Definition tret {A} (a : A) : Tx A := TxEnd (Ok a).
Definition tthrow {A} (e : exn) : Tx A := TxEnd (Throw e).
Definition tlift {A} (m : outcome A) : Tx A := TxEnd m.
(** [SELECT pg_advisory_xact_lock($1)]. *)
Definition tlock (user : Z) : Tx () := TxLock user (tret ()).
Definition tquery {B} (f : Db -> B) : Tx B := TxQuery f tret.
(** [SELECT ... FOR SHARE/UPDATE] of the row [id] of table [t], if [f] finds it. *)
Definition tquery_for {B} (mode : Mode) (t : Tbl) (id : Z) (f : Db -> option B) : Tx (option B) :=
  TxQueryFor mode (fun d => match f d with Some _ => [Row t id] | None => [] end) f tret.
Definition tchange {B} (s : Db -> outcome (B * Db)) : Tx B := TxChange s tret.
Definition tchange_ (s : Db -> outcome Db) : Tx () :=
  tchange (fun d => match s d with Ok d' => Ok ((), d') | Throw e => Throw e | UB u => UB u end).
Definition tnow : Tx Z := TxNow tret.
Definition ttoken (byteLength : nat) : Tx string := TxToken byteLength tret.
Definition tput (key contentType bytes : string) : Tx () := TxPut key contentType bytes (tret ()).
Fixpoint tfor_each {A} (body : A -> Tx ()) (xs : list A) : Tx () :=
  match xs with
  | [] => tret ()
  | x :: xs' => tbind (fun _ => tfor_each body xs') (body x)
  end.

Declare Scope tx_scope.
Delimit Scope tx_scope with tx.
Notation "'let!' x ':=' c 'in' k" := (tbind (fun x => k) c)
  (at level 10, x pattern, c at level 100, k at level 200,
   format "'[v' 'let!'  x  ':='  c  'in' '/' k ']'") : tx_scope.
Notation "c1 ;! c2" := (tbind (fun _ => c2) c1)
  (at level 100, right associativity) : tx_scope.

Section Machine.
Context `{IS : ImageStore} `{SO : Sodium}.

(** By itself a transaction is an ordinary service computation; locks are free. *)
Fixpoint alone {A} (p : Tx A) : M A :=
  match p with
  | TxEnd r => lift r
  | TxLock _ k => alone k
  | TxQuery f k => mbind (fun b => alone (k b)) (query f)
  | TxQueryFor _ _ f k => mbind (fun b => alone (k b)) (query f)
  | TxChange s k => mbind (fun b => alone (k b)) (exec s)
  | TxNow k => mbind (fun t => alone (k t)) now
  | TxToken n k => mbind (fun t => alone (k t)) (draw_token n)
  | TxPut key contentType bytes k => mbind (fun _ => alone k) (store_put key contentType bytes)
  end.

(** ** Next to others *)

(** A transaction under way (the rest of it, its changes, its locks), or over. *)
Inductive Progress (R : Type) :=
| Running (p : Tx (ending R)) (c : Delta) (held : list Lock)
| Ended (r : outcome R).
Arguments Running {R} p c held.
Arguments Ended {R} r.
Record Task := mkTask { t_result : Type; t_progress : Progress t_result }.
Definition start {R} (p : Tx (ending R)) : Task := mkTask R (Running p no_changes []).
Definition held_by (t : Task) : list Lock :=
  match t_progress t with Running _ _ held => held | Ended _ => [] end.

(** One statement while the other tasks hold [others]; [None]: it has to wait. *)
Definition advance {R} (others : list Lock) (w : World) (p : Tx (ending R)) (c : Delta) (held : list Lock)
    : option (World * Progress R) :=
  let d := overlay c (w_db w) in
  match p with
  | TxEnd (Ok (Commit a)) => Some (w <| w_db := d |>, Ended (Ok a))
  | TxEnd (Ok (Rollback a)) => Some (w, Ended (Ok a))
  | TxEnd (Throw e) => Some (w, Ended (Throw e))
  | TxEnd (UB u) => Some (w, Ended (UB u))
  | TxLock user k =>
      let l := (UserImages user, ForUpdate) in
      if free [l] others then Some (w, Running k c (l :: held)) else None
  | TxQuery f k => Some (w, Running (k (f d)) c held)
  | TxQueryFor mode found f k =>
      let ls := map (fun key => (key, mode)) (found d) in
      if free ls others then Some (w, Running (k (f d)) c (ls ++ held)) else None
  | TxChange s k =>
      match s d with
      | Ok (b, d') =>
          let ls := change_locks d d' in
          if free ls others
          then Some (w <| w_db := rollback_db (w_db w) d' |>, Running (k b) (record_changes c d d') (ls ++ held))
          else None
      | Throw e => Some (w, Ended (Throw e))
      | UB u => Some (w, Ended (UB u))
      end
  | TxNow k => Some (w, Running (k (w_clock w)) c held)
  | TxToken n k => match draw_token n w with
                   | (Ok t, w') => Some (w', Running (k t) c held)
                   | (Throw e, w') => Some (w', Ended (Throw e))
                   | (UB u, w') => Some (w', Ended (UB u))
                   end
  | TxPut key contentType bytes k =>
      match store_put key contentType bytes w with
      | (Ok _, w') => Some (w', Running k c held)
      | (Throw e, w') => Some (w', Ended (Throw e))
      | (UB u, w') => Some (w', Ended (UB u))
      end
  end.

Record Sys := mkSys { s_world : World; s_tasks : list Task }.
(** What all tasks but the [i]th hold. *)
Definition held_beside (i : nat) (ts : list Task) : list Lock :=
  concat (imap (fun j t => if bool_decide (j = i) then [] else held_by t) ts).

(** A turn of one task; its connection lost, or chosen as the victim of a
    deadlock: it is rolled back; time passes. *)
Inductive Event := Turn (i : nat) | Lost (i : nat) | Pass (time : nat).
Definition lost : exn := DbError "ERROR:  the transaction was terminated".

Definition turn (i : nat) (s : Sys) : Sys :=
  match s_tasks s !! i with
  | Some (mkTask R (Running p c held)) =>
      match advance (held_beside i (s_tasks s)) (s_world s) p c held with
      | Some (w', g) => mkSys w' (<[i := mkTask R g]> (s_tasks s))
      | None => s
      end
  | _ => s
  end.
Definition happen (s : Sys) (e : Event) : Sys :=
  match e with
  | Turn i => turn i s
  | Lost i =>
      match s_tasks s !! i with
      | Some (mkTask R (Running _ _ _)) => mkSys (s_world s) (<[i := mkTask R (Ended (Throw lost))]> (s_tasks s))
      | _ => s
      end
  | Pass time => mkSys ((s_world s) <| w_clock ::= Z.add (Z.of_nat time) |>) (s_tasks s)
  end.
Definition run (schedule : list Event) (s : Sys) : Sys := foldl happen s schedule.

End Machine.
Arguments Running {R} p c held.
Arguments Ended {R} r.

(** ** Changes laid over tables *)

Section Overlay.
Context {A : Type}.
Implicit Types (ws : writes A) (m : gmap Z A) (t : table A).

Lemma lookup_overlay_rows ws m k : overlay_rows ws m !! k = match ws !! k with Some a => a | None => m !! k end.
Proof. unfold overlay_rows. rewrite lookup_merge. by destruct (ws !! k), (m !! k). Qed.
Lemma overlay_rows_empty m : overlay_rows ∅ m = m.
Proof. apply map_eq. intros k. by rewrite lookup_overlay_rows, lookup_empty. Qed.
Lemma overlay_table_empty t : overlay_table ∅ t = t.
Proof. unfold overlay_table. rewrite overlay_rows_empty. by destruct t. Qed.

Context `{EqDecision A}.
Lemma lookup_changed_rows m m' k :
  changed_rows m m' !! k = if decide (m !! k = m' !! k) then None else Some (m' !! k).
Proof.
  unfold changed_rows. rewrite lookup_merge.
  destruct (m !! k), (m' !! k); cbn [diag_None]; [done..|]. by rewrite decide_True.
Qed.
Lemma changed_rows_same m : changed_rows m m = ∅.
Proof. apply map_eq. intros k. by rewrite lookup_changed_rows, decide_True, lookup_empty. Qed.
Lemma lookup_record_rows ws (old new : table A) k :
  record_rows ws old new !! k =
  if decide (rows old !! k = rows new !! k) then ws !! k else Some (rows new !! k).
Proof.
  unfold record_rows. rewrite lookup_union, lookup_changed_rows.
  destruct (decide _); destruct (ws !! k); done.
Qed.
Lemma record_rows_same ws (old new : table A) : rows new = rows old -> record_rows ws old new = ws.
Proof. intros E. unfold record_rows. by rewrite E, changed_rows_same, (left_id_L ∅ (∪)). Qed.
(** What was seen after a statement is seen again. *)
Lemma overlay_record_table ws t (new : table A) :
  overlay_table (record_rows ws (overlay_table ws t) new) (mkTable (rows t) (seq new)) = new.
Proof.
  unfold overlay_table at 1. cbn [rows seq]. destruct new as [m s]. f_equal. apply map_eq. intros k.
  rewrite lookup_overlay_rows, lookup_record_rows. cbn [rows overlay_table].
  rewrite lookup_overlay_rows. destruct (decide _) as [<-|]; done.
Qed.
End Overlay.

Lemma elem_of_overlay_links ws s l : l ∈ overlay_links ws s <-> match ws !! l with Some b => b = true | None => l ∈ s end.
Proof.
  unfold overlay_links. rewrite elem_of_union, elem_of_filter, elem_of_dom.
  destruct (ws !! l) as [[]|] eqn:E.
  - split; [done|]. intros _. right. exists true. by apply map_lookup_filter_Some.
  - split; [|done]. intros [[? _]|[b [Hb ?]%map_lookup_filter_Some]]; [done|]. cbn in *. congruence.
  - split; [intros [[_ ?]|[b [Hb ?]%map_lookup_filter_Some]]; [done|congruence]|]. left. by split.
Qed.
Lemma overlay_record_links ws s s' : overlay_links (record_links ws (overlay_links ws s) s') s = s'.
Proof.
  apply set_eq. intros l. rewrite elem_of_overlay_links. unfold record_links. rewrite !lookup_union, !lookup_gset_to_gmap.
  pose proof (elem_of_overlay_links ws s l) as H.
  destruct (decide (l ∈ s')) as [Hn|Hn], (decide (l ∈ overlay_links ws s)) as [Ho|Ho];
    repeat first [rewrite option_guard_True by set_solver | rewrite option_guard_False by set_solver];
    destruct (ws !! l) as [b|]; cbn; first [tauto | by split].
Qed.

Lemma overlay_none d : overlay no_changes d = d.
Proof.
  unfold overlay. cbn [no_changes dl_users dl_sessions dl_auth_tokens dl_categories dl_tags dl_payment_methods
    dl_receipts dl_images dl_items dl_links]. rewrite !overlay_table_empty.
  destruct d. f_equal. apply set_eq. intros l. by rewrite elem_of_overlay_links, lookup_empty.
Qed.
Lemma overlay_record c d d' : overlay (record_changes c (overlay c d) d') (rollback_db d d') = d'.
Proof.
  unfold overlay at 1, record_changes, rollback_db, keep_seq. cbn [dl_users dl_sessions dl_auth_tokens dl_categories
    dl_tags dl_payment_methods dl_receipts dl_images dl_items dl_links users sessions auth_tokens categories tags
    payment_methods receipts receipt_images items item_tags overlay].
  rewrite !overlay_record_table, overlay_record_links. by destruct d'.
Qed.
Lemma rollback_overlay d0 c d : rollback_db d0 (overlay c d) = rollback_db d0 d.
Proof. done. Qed.
Lemma rollback_twice d0 d d' : rollback_db d0 (rollback_db d d') = rollback_db d0 d'.
Proof. done. Qed.
Lemma rollback_onto d0 d d' : rollback_db d0 d = d -> rollback_db d d' = rollback_db d0 d'.
Proof. intros <-. done. Qed.
