(* ===== verification/TxServices.v ===== *)
(** * The services' transactions, statement by statement

    Each method of the services that writes receipts, images, items or
    categories, as the sequence of statements it sends, with the locks the SQL
    takes: [lockUserImages]'s advisory lock, FOR UPDATE and FOR SHARE.  The names
    are the methods' with the prefix [tx_].  [request] lists every call that writes
    the tables of the ledger; [prologue] is its code before the first statement,
    [epilogue] what follows the end of its transaction.  TxAlone shows that they are the methods
    of the other files when nothing runs beside them; Interleave and the files
    after it say what holds when everything does. *)
From S2P Require Import Prelude CString Binary64 Json Kinds JsonInput LedgerInput TokenUtils RateLimiter Env Db World.
From S2P Require Import ItemService ReceiptService ReferenceData Safety Transactions.
#[local] Open Scope tx_scope.

Section TxServices.
Context `{PG : Postgres} `{IS : ImageStore} `{SO : Sodium} `{EN : Environment} `{VI : Vips} `{PL : Platform}.

(** ** Images *)

Definition lockUserImages (userId : Z) : Tx () := tlock userId.

(** One SELECT per image, up to the first that finds a row. *)
Fixpoint tx_findConflict (userId : Z) (prepared : list PreparedImage) : Tx (option ImageConflict) :=
  match prepared with
  | [] => tret None
  | prep :: prepared' =>
      let! dup := tquery (fun d =>
        select (fun i => (im_user_id i =? userId) && bool_decide (im_image_sha256 i = pi_sha256Hex prep))
               (receipt_images d)) in
      match dup with
      | (id, dup) :: _ => tret (Some (mkImageConflict (im_receipt_id dup) id))
      | [] => tx_findConflict userId prepared'
      end
  end.

Definition tx_generateImageKey (userId receiptId : Z) : Tx string :=
  let! token := ttoken 16 in
  tret ("receipts/" +:+ to_string userId +:+ "/" +:+ to_string receiptId +:+ "/" +:+ token +:+ ".webp").
Definition tx_store_image (userId receiptId : Z) (prep : PreparedImage) : Tx () :=
  let! key := tx_generateImageKey userId receiptId in
  tput key "image/webp" (ni_bytes (pi_normalized prep)) ;!
  let! t := tnow in
  tchange_ (sql_insert_image (mkImage receiptId userId key (pi_sha256Hex prep) t)).
Definition tx_storeImages (userId receiptId : Z) (prepared : list PreparedImage) : Tx () :=
  tfor_each (tx_store_image userId receiptId) prepared.

Definition tx_uploadReceipt (userId : Z) (direction : string) (prepared : list PreparedImage) (force : bool)
    : Tx (ending (Z + ImageConflict)) :=
  lockUserImages userId ;!
  let! conflict := (if force then tret None else tx_findConflict userId prepared) in
  match conflict with
  | Some c => tret (Rollback (inr c))
  | None =>
      let! t := tnow in
      let! receiptId := tchange (insert_receipt (scanned_row userId kDefaultKind direction t)) in
      tx_storeImages userId receiptId prepared ;!
      tret (Commit (inl receiptId))
  end.

(** The first SELECT has a connection of its own; it changes nothing and takes no
    lock, so it is the same as the first statement of the transaction. *)
Definition tx_addImages (userId receiptId : Z) (images : list string) (force : bool)
    : Tx (ending (() + ImageConflict)) :=
  let! owned := tquery (owned_receipt userId receiptId) in
  match owned with
  | None => tthrow ReceiptNotFoundError
  | Some _ =>
      let! prepared := tlift (prepareImages images) in
      lockUserImages userId ;!
      let! currentCount := tquery (image_count receiptId) in
      let! cap := tlift maxImagesPerReceipt in
      if cap <? currentCount + Z.of_nat (length prepared) then tthrow TooManyImagesError else
      let! conflict := (if force then tret None else tx_findConflict userId prepared) in
      match conflict with
      | Some c => tret (Rollback (inr c))
      | None =>
          tx_storeImages userId receiptId prepared ;!
          tchange_ (sql_update_receipt receiptId (fun r => r <| rc_scan_state := scan_state.kUploaded |>)) ;!
          tret (Commit (inl ()))
      end
  end.

(** The keys read before the delete are what is removed from the store after it. *)
Definition tx_deleteReceipt (userId receiptId : Z) : Tx (ending (bool * list string)) :=
  let! images := tquery (image_keys userId receiptId) in
  let! result := tchange (sql_delete_receipt userId receiptId) in
  tret (Commit (result, images)).

(** ** Items *)

Definition tx_ownedReceiptKind (userId receiptId : Z) : Tx string :=
  let! result := tquery (owned_receipt userId receiptId) in
  match result with
  | Some r => tret (er_kind (rc_fields r))
  | None => tthrow ReceiptNotFoundError
  end.
Definition tx_fetchItem (itemId : Z) : Tx Item :=
  let! result := tquery (fun d => rows (items d) !! itemId) in
  match result with
  | Some row =>
      let! tagIds := tquery (tags_of itemId) in
      tret (mkItem itemId row tagIds)
  | None => tlift (UB "result[0] of an empty result")
  end.
Definition tx_add_tag (userId itemId tagId : Z) : Tx () :=
  let! owned := tquery (owned_tag userId tagId) in
  match owned with
  | None => tthrow (ValidationError "tag_ids contains a tag that does not exist")
  | Some _ => tchange_ (sql_insert_item_tag itemId tagId)
  end.
Definition tx_replaceTags (userId itemId : Z) (tagIds : list Z) : Tx () :=
  tchange_ (sql_clear_item_tags itemId) ;!
  tfor_each (tx_add_tag userId itemId) tagIds.

(** The category is locked FOR SHARE: its side stays what it is until the end. *)
Definition tx_requireCategoryFitsKind (userId categoryId : Z) (kind : string) : Tx () :=
  let! result := tquery_for Share TCategories categoryId (owned_category userId categoryId) in
  match result with
  | None => tthrow (ValidationError "category_id does not exist")
  | Some c =>
      let! fits := tlift (categoryFitsKind (c_is_income c) kind) in
      if (fits : bool) then tret ()
      else
        let! rules := tlift (rulesFor kind) in
        tthrow (ValidationError ("items on a " +:+ kind +:+ " need " +:+
          (if usesIncomeCategories rules then "an income" else "an expense") +:+ " category"))
  end.
Definition tx_insert_item (userId receiptId : Z) (receiptKind : string) (item : ItemInput) : Tx Z :=
  match ii_categoryId item with
  | Some c => tx_requireCategoryFitsKind userId c receiptKind
  | None => tret ()
  end ;!
  let! itemId := tchange (sql_insert_item (ItemService.input_row receiptId item)) in
  tx_replaceTags userId itemId (ii_tagIds item) ;!
  tret itemId.

Definition tx_create_item (userId receiptId : Z) (input : ItemInput) : Tx (ending Item) :=
  let! kind := tx_ownedReceiptKind userId receiptId in
  let! itemId := tx_insert_item userId receiptId kind input in
  let! item := tx_fetchItem itemId in
  tret (Commit item).

(** [WHERE id = $1 AND receipt_id = $2 FOR UPDATE]. *)
Definition item_of (receiptId itemId : Z) (d : Db) : option item_row :=
  match rows (items d) !! itemId with
  | Some row => if it_receipt_id row =? receiptId then Some row else None
  | None => None
  end.
Definition tx_update_item (userId receiptId itemId : Z) (body : json) : Tx (ending Item) :=
  let! kind := tx_ownedReceiptKind userId receiptId in
  let! current := tquery_for ForUpdate TItems itemId (item_of receiptId itemId) in
  match current with
  | Some row =>
      let! (item, tagsGiven) :=
        tlift (applyItemPatch (ItemService.itemToInput (mkItem itemId row [])) body) in
      match ii_categoryId item with
      | Some c => if has "category_id" body then tx_requireCategoryFitsKind userId c kind else tret ()
      | None => tret ()
      end ;!
      tchange_ (sql_update_item itemId (ItemService.input_row receiptId item)) ;!
      (if (tagsGiven : bool) then tx_replaceTags userId itemId (ii_tagIds item) else tret ()) ;!
      let! updated := tx_fetchItem itemId in
      tret (Commit updated)
  | None => tthrow (NotFoundError "item not found")
  end.

Definition sql_delete_item (receiptId itemId : Z) (d : Db) : outcome (bool * Db) :=
  match rows (items d) !! itemId with
  | Some row => if it_receipt_id row =? receiptId then Ok (true, delete_item itemId d) else Ok (false, d)
  | None => Ok (false, d)
  end.
Definition tx_remove_item (userId receiptId itemId : Z) : Tx (ending ()) :=
  tx_ownedReceiptKind userId receiptId ;!
  let! result := tchange (sql_delete_item receiptId itemId) in
  if (result : bool) then tret (Commit ()) else tthrow (NotFoundError "item not found").

(** ** Manual entry and edits *)

Definition tx_validateReferences (userId : Z) (receiptId : option Z) (receipt : EditableReceipt) : Tx () :=
  match er_paymentMethodId receipt with
  | None => tret ()
  | Some pm =>
      let! owned := tquery (owned_payment_method userId pm) in
      match owned with
      | None => tthrow (ValidationError "payment_method_id does not exist")
      | Some _ => tret ()
      end
  end ;!
  match er_offsetsReceiptId receipt with
  | None => tret ()
  | Some o =>
      if bool_decide (receiptId = Some o) then tthrow (ValidationError "a receipt cannot offset itself") else
      let! target := tquery (owned_receipt userId o) in
      match target with
      | None => tthrow (ValidationError "offsets_receipt_id does not exist")
      | Some t =>
          let targetKind := er_kind (rc_fields t) in
          let! rules := tlift (rulesFor targetKind) in
          if isOffsetTarget rules then tret ()
          else tthrow (ValidationError ("offsets_receipt_id can't point at a " +:+ targetKind))
      end
  end.

Definition tx_insert_items (userId receiptId : Z) (kind : string) (items : list ItemInput) : Tx () :=
  tfor_each (fun item => tx_insert_item userId receiptId kind item ;! tret ()) items.
Definition tx_createManual (userId : Z) (input : ManualEntryInput) : Tx (ending Z) :=
  let r := me_receipt input in
  tx_validateReferences userId None r ;!
  let! t := tnow in
  let! date := tlift (sql_date (er_purchaseDate r)) in
  let! receiptId := tchange (insert_receipt (manual_row userId r date t)) in
  (if bool_decide (me_items input = [])
   then tx_insert_items userId receiptId (er_kind r) [implicit_item input]
   else tx_insert_items userId receiptId (er_kind r) (me_items input)) ;!
  tret (Commit receiptId).

(** The receipt is locked FOR UPDATE, the categories of its items FOR SHARE.  Which
    categories these are is settled when that statement begins; it may then wait for
    their rows. *)
Definition item_categories (receiptId : Z) (d : Db) : list Z :=
  omap (fun kv => c ← it_category_id kv.2; _ ← rows (categories d) !! c; Some c)
       (select (fun i => it_receipt_id i =? receiptId) (items d)).
Definition category_sides (ids : list Z) (d : Db) : list bool := omap (fun c => c_is_income <$> rows (categories d) !! c) ids.
Definition category_keys (ids : list Z) (d : Db) : list Key :=
  omap (fun c => (fun _ => Row TCategories c) <$> rows (categories d) !! c) ids.
Definition tx_updateReceipt (userId receiptId : Z) (body : json) : Tx (ending ReceiptSummary) :=
  let! current := tquery_for ForUpdate TReceipts receiptId (owned_receipt userId receiptId) in
  match current with
  | None => tthrow ReceiptNotFoundError
  | Some row =>
      let r0 := editable_of row in
      let! before := tlift (rulesFor (er_kind r0)) in
      let wasIncomeSide := usesIncomeCategories before in
      let! (r, markReviewed) := tlift (applyReceiptPatch r0 body) in
      tx_validateReferences userId (Some receiptId) r ;!
      let! after := tlift (rulesFor (er_kind r)) in
      let isIncomeSide := usesIncomeCategories after in
      (if eqb isIncomeSide wasIncomeSide then tret () else
       let! ids := tquery (item_categories receiptId) in
       let! itemCategories := TxQueryFor Share (category_keys ids) (category_sides ids) tret in
       if existsb (fun is_income => negb (eqb is_income isIncomeSide)) itemCategories
       then tthrow (ValidationError ("this kind change would leave items in the wrong expense/income categories -- " +:+
                                     "recategorize them first"))
       else tret ()) ;!
      let! t := tnow in
      let! date := tlift (sql_date (er_purchaseDate r)) in
      tchange_ (sql_update_receipt receiptId (edited_row r date markReviewed t)) ;!
      let! updated := tquery (fun d => rows (receipts d) !! receiptId) in
      match updated with
      | Some row' => tret (Commit (summary_of receiptId row'))
      | None => tlift (UB "updated[0] of an empty result")
      end
  end.

(** ** Categories *)

Definition tx_update_category (userId id : Z) (nm : option string) (isIncome : option bool)
    : Tx (ending Category) :=
  let! current := tquery_for ForUpdate TCategories id (owned_category userId id) in
  match current with
  | None => tthrow (NotFoundError "category not found")
  | Some c =>
      match isIncome with
      | Some side =>
          if eqb side (c_is_income c) then tret () else
          let! clash := tquery (category_clash id side) in
          if (clash : bool)
          then tthrow (ValidationError (if side then "category is used by items on non-income receipts"
                                        else "category is used by items on income receipts"))
          else tret ()
      | None => tret ()
      end ;!
      let row := mkCategory (c_user_id c) (default (c_name c) nm) (default (c_is_income c) isIncome) in
      tchange_ (update_unique same_category categories id row) ;!
      tret (Commit (category_of id row))
  end.
(** ** Single statements

    A plain [execSqlCoro] is a transaction of its own. *)

Definition tx_statement {B R} (s : Db -> outcome (B * Db)) (k : B -> R) : Tx (ending R) :=
  let! b := tchange s in tret (Commit (k b)).
Definition tx_retryScan (userId receiptId : Z) : Tx (ending bool) :=
  let! t := tnow in
  tx_statement (sql_requeue userId receiptId t) (fun b => b).
Definition tx_create_category (row : category_row) : Tx (ending Category) :=
  tx_statement (insert_unique same_category c_user_id categories row) (fun id => category_of id row).
Definition tx_remove_category (userId id : Z) : Tx (ending bool) :=
  tx_statement (fun d => delete_owned (owned_category userId id d) (delete_category id) d) (fun b => b).
Definition tx_create_tag (row : tag_row) : Tx (ending Tag) :=
  tx_statement (insert_unique same_tag t_user_id tags row) (fun id => tag_of id row).
Definition tx_update_tag (userId id : Z) (row : tag_row) : Tx (ending (bool * tag_row)) :=
  tx_statement (fun d =>
    match owned_tag userId id d with
    | Some _ => (let* d' := update_unique same_tag tags id row d in Ok (true, d'))%outcome
    | None => Ok (false, d)
    end) (fun b => (b, row)).
Definition tx_remove_tag (userId id : Z) : Tx (ending bool) :=
  tx_statement (fun d => delete_owned (owned_tag userId id d) (delete_tag id) d) (fun b => b).
Definition tx_create_payment_method (row : payment_method_row) : Tx (ending PaymentMethod) :=
  tx_statement (insert_unique same_payment_method p_user_id payment_methods row)
    (fun id => payment_method_of id row).
Definition tx_update_payment_method (userId id : Z) (nm : option string) (storedValue : option bool)
    : Tx (ending (option payment_method_row)) :=
  tx_statement (fun d =>
    match owned_payment_method userId id d with
    | Some p =>
        let row := mkPaymentMethod (p_user_id p) (default (p_name p) nm)
                     (default (p_stored_value p) storedValue) in
        (let* d' := update_unique same_payment_method payment_methods id row d in Ok (Some row, d'))%outcome
    | None => Ok (None, d)
    end) (fun r => r).
Definition tx_remove_payment_method (userId id : Z) : Tx (ending bool) :=
  tx_statement (fun d => delete_owned (owned_payment_method userId id d) (delete_payment_method id) d) (fun b => b).

(** ** Requests *)

(** What a request answers, and what its transaction returns. *)
Definition reply (q : request) : Type :=
  match q with
  | ItemCreate _ _ | ItemUpdate _ _ _ => Item
  | Upload _ _ => Z + ImageConflict
  | AddImages _ _ _ => () + ImageConflict
  | CreateManual _ => Z
  | UpdateReceipt _ _ | RetryScan _ => ReceiptSummary
  | DeleteReceipt _ => bool
  | CategoryCreate _ | CategoryUpdate _ _ => Category
  | TagCreate _ | TagUpdate _ _ => Tag
  | PaymentMethodCreate _ | PaymentMethodUpdate _ _ => PaymentMethod
  | ItemRemove _ _ | CategoryRemove _ | TagRemove _ | PaymentMethodRemove _ => ()
  end.
Definition result (q : request) : Type :=
  match q with
  | DeleteReceipt _ => bool * list string
  | RetryScan _ | CategoryRemove _ | TagRemove _ | PaymentMethodRemove _ => bool
  | TagUpdate _ _ => bool * tag_row
  | PaymentMethodUpdate _ _ => option payment_method_row
  | q => reply q
  end.

(** The service method. *)
Definition perform (U : Z) (q : request) : M (reply q) :=
  match q with
  | ItemCreate rid body => ItemService.create U rid body
  | ItemUpdate rid itemId body => ItemService.update U rid itemId body
  | ItemRemove rid itemId => ItemService.remove U rid itemId
  | Upload images force => uploadReceipt U images force
  | AddImages rid images force => addImages U rid images force
  | CreateManual body => createManual U body
  | UpdateReceipt rid body => updateReceipt U rid body
  | RetryScan rid => retryScan U rid
  | DeleteReceipt rid => deleteReceipt U rid
  | CategoryCreate body => CategoryService.create U body
  | CategoryUpdate id body => CategoryService.update U id body
  | CategoryRemove id => CategoryService.remove U id
  | TagCreate body => TagService.create U body
  | TagUpdate id body => TagService.update U id body
  | TagRemove id => TagService.remove U id
  | PaymentMethodCreate body => PaymentMethodService.create U body
  | PaymentMethodUpdate id body => PaymentMethodService.update U id body
  | PaymentMethodRemove id => PaymentMethodService.remove U id
  end.

(** The reading of the body, up to the first statement. *)
Definition read_name (body : json) (allowed : list string) : outcome string :=
  (requireObject body ;;; rejectUnknownKeys body allowed ;;; requiredName body)%outcome.
Definition prologue (U : Z) (q : request) : outcome (Tx (ending (result q))) :=
  match q with
  | ItemCreate rid body => (let* input := parseNewItem body in Ok (tx_create_item U rid input))%outcome
  | ItemUpdate rid itemId body => Ok (tx_update_item U rid itemId body)
  | ItemRemove rid itemId => Ok (tx_remove_item U rid itemId)
  | Upload images force =>
      (let* cap := maxImagesPerReceipt in
       if cap <? Z.of_nat (length images) then Throw TooManyImagesError else
       let* prepared := prepareImages images in
       let* rules := rulesFor kDefaultKind in
       match canonicalDirection rules with
       | None => UB "dereference of an empty optional"
       | Some direction => Ok (tx_uploadReceipt U direction prepared force)
       end)%outcome
  | AddImages rid images force => Ok (tx_addImages U rid images force)
  | CreateManual body => (let* input := parseManualEntry body in Ok (tx_createManual U input))%outcome
  | UpdateReceipt rid body => Ok (tx_updateReceipt U rid body)
  | RetryScan rid => Ok (tx_retryScan U rid)
  | DeleteReceipt rid => Ok (tx_deleteReceipt U rid)
  | CategoryCreate body =>
      (let* nm := read_name body ["name"; "is_income"]%string in
       let* isIncome := boolOr body "is_income" false in
       Ok (tx_create_category (mkCategory U nm isIncome)))%outcome
  | CategoryUpdate id body =>
      (requireObject body ;;;
       rejectUnknownKeys body ["name"; "is_income"]%string ;;;
       let* nm := readIfPresent body "name" requiredString None in
       let* isIncome := readIfPresent body "is_income" boolean None in
       Ok (tx_update_category U id nm isIncome))%outcome
  | CategoryRemove id => Ok (tx_remove_category U id)
  | TagCreate body => (let* nm := read_name body ["name"]%string in Ok (tx_create_tag (mkTag U nm)))%outcome
  | TagUpdate id body => (let* nm := read_name body ["name"]%string in Ok (tx_update_tag U id (mkTag U nm)))%outcome
  | TagRemove id => Ok (tx_remove_tag U id)
  | PaymentMethodCreate body =>
      (let* nm := read_name body ["name"; "stored_value"]%string in
       let* storedValue := boolOr body "stored_value" false in
       Ok (tx_create_payment_method (mkPaymentMethod U nm storedValue)))%outcome
  | PaymentMethodUpdate id body =>
      (requireObject body ;;;
       rejectUnknownKeys body ["name"; "stored_value"]%string ;;;
       let* nm := readIfPresent body "name" requiredString None in
       let* storedValue := readIfPresent body "stored_value" boolean None in
       Ok (tx_update_payment_method U id nm storedValue))%outcome
  | PaymentMethodRemove id => Ok (tx_remove_payment_method U id)
  end.

(** What is left to do once the transaction is over: the text of a duplicate's
    error, "not found" when nothing matched, the read after a re-queue, and the
    objects of a deleted receipt. *)
Definition renamed {A} (noun : string) (r : outcome A) : M A :=
  mcatch (lift r) (fun e => mthrow (asConflictIfDuplicate noun e)).
Definition epilogue (U : Z) (q : request) : outcome (result q) -> M (reply q) :=
  match q with
  | DeleteReceipt _ => fun r =>
      mbind (fun p : bool * list string =>
        if p.1
        then mbind (fun _ => mret true) (for_each (fun key => mcatch (store_remove key) (fun _ => mret ())) p.2)
        else mret false) (lift r)
  | RetryScan rid => fun r =>
      mbind (fun requeued : bool =>
        mbind (fun receipt =>
          match receipt with
          | None => mthrow ReceiptNotFoundError
          | Some receipt =>
              if requeued then mret receipt
              else mthrow (ConflictError "only a receipt in scan_failed can be retried")
          end) (getReceipt U rid)) (lift r)
  | CategoryCreate _ | CategoryUpdate _ _ => renamed "category"
  | TagCreate _ => renamed "tag"
  | TagUpdate id _ => fun r =>
      mbind (fun p : bool * tag_row => if p.1 then mret (tag_of id p.2) else mthrow (NotFoundError "tag not found"))
        (renamed "tag" r)
  | PaymentMethodCreate _ => renamed "payment method"
  | PaymentMethodUpdate id _ => fun r =>
      mbind (fun o => match o with
                      | Some row => mret (payment_method_of id row)
                      | None => mthrow (NotFoundError "payment method not found")
                      end) (renamed "payment method" r)
  | CategoryRemove _ => fun r => mbind (fun b => removed "category" b) (lift r)
  | TagRemove _ => fun r => mbind (fun b => removed "tag" b) (lift r)
  | PaymentMethodRemove _ => fun r => mbind (fun b => removed "payment method" b) (lift r)
  | _ => lift
  end.

(** The request as a task of the machine, unless it ends before its first statement. *)
Definition task_of (Uq : Z * request) : option Task :=
  match prologue Uq.1 Uq.2 with
  | Ok p => Some (start p)
  | _ => None
  end.
End TxServices.
