(* ===== verification/TxAlone.v ===== *)
(** * A transaction by itself is the service method

    [perform_alone]: each service method is its prologue, its transaction run by
    [alone], and its epilogue.  [machine_alone]: a task that is the only one of
    the machine reaches its end, and leaves the world and the result [alone] does.
    So the theorems about single calls hold of the machine too. *)
From S2P Require Import Prelude CString Binary64 Json Kinds JsonInput LedgerInput TokenUtils RateLimiter Env Db World.
From S2P Require Import ItemService ReceiptService ReferenceData Safety Transactions TxServices.
From Stdlib Require Import Setoid Morphisms.

(** ** Equal computations *)

Section Agree.
Context `{IS : ImageStore} `{SO : Sodium}.

Definition agree {A} : relation (M A) := pointwise_relation World eq.
#[export] Instance agree_equiv {A} : Equivalence (@agree A).
Proof. unfold agree. apply _. Qed.
#[export] Instance mbind_agree {A B} : Proper (pointwise_relation A agree ==> agree ==> agree) (@mbind _ A B).
Proof. intros k k' Hk m m' Hm w. unfold mbind. rewrite Hm. destruct (m' w) as [[a| |] w']; [apply Hk|done..]. Qed.
#[export] Instance transactionE_agree {A} : Proper (agree ==> agree) (@transactionE _ A).
Proof. intros m m' Hm w. unfold transactionE. by rewrite Hm. Qed.
#[export] Instance mcatch_agree {A} : Proper (agree ==> pointwise_relation exn agree ==> agree) (@mcatch _ A).
Proof. intros m m' Hm h h' Hh w. unfold mcatch. rewrite Hm. destruct (m' w) as [[a| |] w']; [done|apply Hh|done]. Qed.

Lemma mbind_mret {A B} (k : A -> M B) a : agree (mbind k (mret a)) (k a).
Proof. done. Qed.
Lemma mbind_mthrow {A B} (k : A -> M B) e : agree (mbind k (mthrow e)) (mthrow e).
Proof. done. Qed.
Lemma mbind_ret_r {A} (m : M A) : agree (mbind mret m) m.
Proof. intros w. unfold mbind, mret. by destruct (m w) as [[] ]. Qed.
Lemma mbind_assoc {A B C} (m : M A) (k : A -> M B) (h : B -> M C) :
  agree (mbind h (mbind k m)) (mbind (fun a => mbind h (k a)) m).
Proof. intros w. unfold mbind. by destruct (m w) as [[] ]. Qed.

Lemma alone_bind {A B} (p : Tx A) (k : A -> Tx B) : agree (alone (tbind k p)) (mbind (fun a => alone (k a)) (alone p)).
Proof.
  induction p as [r|u p IH|B' f q IH|B' mode found f q IH|B' s q IH|q IH|n q IH|key ct bytes p IH]; cbn [alone tbind];
    rewrite ?mbind_assoc; [by destruct r|done|..]; by apply mbind_agree; [intros b; auto|].
Qed.

Lemma alone_ret {A} (a : A) : agree (alone (tret a)) (mret a).
Proof. done. Qed.
Lemma alone_throw {A} e : agree (alone (A := A) (tthrow e)) (mthrow e).
Proof. done. Qed.
Lemma alone_lift {A} (m : outcome A) : agree (alone (tlift m)) (lift m).
Proof. done. Qed.
Lemma alone_lock u : agree (alone (tlock u)) (mret ()).
Proof. done. Qed.
Lemma alone_query {B} (f : Db -> B) : agree (alone (tquery f)) (query f).
Proof. apply mbind_ret_r. Qed.
Lemma alone_query_for {B} mode t id (f : Db -> option B) : agree (alone (tquery_for mode t id f)) (query f).
Proof. apply mbind_ret_r. Qed.
Lemma alone_change {B} (s : Db -> outcome (B * Db)) : agree (alone (tchange s)) (exec s).
Proof. apply mbind_ret_r. Qed.
Lemma alone_change_ (s : Db -> outcome Db) : agree (alone (tchange_ s)) (exec_ s).
Proof. apply mbind_ret_r. Qed.
Lemma alone_now : agree (alone tnow) now.
Proof. apply mbind_ret_r. Qed.
Lemma alone_token n : agree (alone (ttoken n)) (draw_token n).
Proof. apply mbind_ret_r. Qed.
Lemma alone_put key ct bytes : agree (alone (tput key ct bytes)) (store_put key ct bytes).
Proof. intros w. cbn. unfold mbind. by destruct (store_put key ct bytes w) as [[[]| |] ?]. Qed.
Lemma alone_for_each {A} (body : A -> Tx ()) (body' : A -> M ()) xs :
  (forall x, agree (alone (body x)) (body' x)) -> agree (alone (tfor_each body xs)) (for_each body' xs).
Proof.
  intros H. induction xs as [|x xs IH]; [done|]. cbn [tfor_each for_each].
  rewrite alone_bind. apply mbind_agree; [intros []; exact IH|apply H].
Qed.
(** A branch taken on data. *)
Lemma alone_if {A} (b : bool) (p q : Tx A) (m n : M A) :
  agree (alone p) m -> agree (alone q) n -> agree (alone (if b then p else q)) (if b then m else n).
Proof. by destruct b. Qed.
Lemma alone_option {A B} (o : option B) (p : B -> Tx A) (q : Tx A) (m : B -> M A) n :
  (forall b, agree (alone (p b)) (m b)) -> agree (alone q) n ->
  agree (alone match o with Some b => p b | None => q end) match o with Some b => m b | None => n end.
Proof. by destruct o. Qed.
Lemma alone_bind' {A B} (p : Tx A) (k : A -> Tx B) m (k' : A -> M B) :
  agree (alone p) m -> (forall a, agree (alone (k a)) (k' a)) -> agree (alone (tbind k p)) (mbind k' m).
Proof. intros Hm Hk. rewrite alone_bind. by apply mbind_agree. Qed.
End Agree.

Create HintDb alone.
#[export] Hint Resolve alone_ret alone_throw alone_lift alone_lock alone_query alone_query_for alone_change
  alone_change_ alone_now alone_token alone_put alone_for_each : alone.

(** One construct of a program against the same of the service. *)
Ltac alone_step :=
  first [solve [eauto with alone nocore] | apply alone_bind'; [|intros ?] | apply alone_if | apply alone_option; [intros ?|]
        | apply alone_for_each; intros ?].
Ltac alone_steps := repeat (cbv zeta; alone_step).

Section TxAlone.
Context `{PG : Postgres} `{IS : ImageStore} `{SO : Sodium} `{EN : Environment} `{VI : Vips} `{PL : Platform}.

Lemma alone_findConflict u prepared : agree (alone (tx_findConflict u prepared)) (query (findConflict u prepared)).
Proof.
  induction prepared as [|prep prepared IH]; [done|]. cbn [tx_findConflict findConflict]. intros w.
  rewrite alone_bind. unfold mbind at 1. rewrite alone_query. cbn [query].
  destruct (select _ _) as [|[id dup] l] eqn:E; [rewrite (IH w)|]; unfold query; by rewrite E.
Qed.
Hint Resolve alone_findConflict : alone.
Lemma alone_store_image u r prep : agree (alone (tx_store_image u r prep)) (store_image u r prep).
Proof. unfold tx_store_image, store_image, tx_generateImageKey, generateImageKey. alone_steps. Qed.
Hint Resolve alone_store_image : alone.
Lemma alone_storeImages u r prepared : agree (alone (tx_storeImages u r prepared)) (storeImages u r prepared).
Proof. apply alone_for_each. auto with alone. Qed.
Hint Resolve alone_storeImages : alone.
Lemma alone_ownedReceiptKind u r : agree (alone (tx_ownedReceiptKind u r)) (ItemService.ownedReceiptKind u r).
Proof. unfold tx_ownedReceiptKind, ItemService.ownedReceiptKind. alone_steps. Qed.
Lemma alone_fetchItem i : agree (alone (tx_fetchItem i)) (ItemService.fetchItem i).
Proof. unfold tx_fetchItem, ItemService.fetchItem, ItemService.tagIdsFor. alone_steps. Qed.
Lemma alone_replaceTags u i tags : agree (alone (tx_replaceTags u i tags)) (ItemService.replaceTags u i tags).
Proof.
  unfold tx_replaceTags, ItemService.replaceTags, tx_add_tag, ItemService.add_tag. alone_steps.
Qed.
Lemma alone_requireCategoryFitsKind u c kind :
  agree (alone (tx_requireCategoryFitsKind u c kind)) (ItemService.requireCategoryFitsKind u c kind).
Proof. unfold tx_requireCategoryFitsKind, ItemService.requireCategoryFitsKind. alone_steps. Qed.
Hint Resolve alone_ownedReceiptKind alone_fetchItem alone_replaceTags alone_requireCategoryFitsKind : alone.
Lemma alone_insert_item u r kind item : agree (alone (tx_insert_item u r kind item)) (ItemService.insert u r kind item).
Proof. unfold tx_insert_item, ItemService.insert. alone_steps. Qed.
Hint Resolve alone_insert_item : alone.
Lemma alone_validateReferences u rid r : agree (alone (tx_validateReferences u rid r)) (validateReferences u rid r).
Proof. unfold tx_validateReferences, validateReferences. alone_steps. Qed.
Lemma alone_insert_items u r kind its : agree (alone (tx_insert_items u r kind its)) (insert_items u r kind its).
Proof. unfold tx_insert_items, insert_items. alone_steps. Qed.
Hint Resolve alone_validateReferences alone_insert_items : alone.

(** A body that commits what it returns. *)
Definition committing {A} (m : M A) : M (ending A) := mbind (fun a => mret (Commit a)) m.
Lemma commit_bind {A B} (p : Tx A) (k : A -> Tx (ending B)) m (k' : A -> M B) :
  agree (alone p) m -> (forall a, agree (alone (k a)) (committing (k' a))) ->
  agree (alone (tbind k p)) (committing (mbind k' m)).
Proof. intros Hm Hk. unfold committing. rewrite alone_bind, mbind_assoc. by apply mbind_agree. Qed.
Lemma commit_last {A} (p : Tx A) m :
  agree (alone p) m -> agree (alone (tbind (fun a => tret (Commit a)) p)) (committing m).
Proof. intros Hm. unfold committing. rewrite alone_bind. by apply mbind_agree. Qed.
Lemma commit_if {A} (b : bool) (p q : Tx (ending A)) m n :
  agree (alone p) (committing m) -> agree (alone q) (committing n) ->
  agree (alone (if b then p else q)) (committing (if b then m else n)).
Proof. by destruct b. Qed.
Lemma commit_option {A B} (o : option B) (p : B -> Tx (ending A)) q m n :
  (forall b, agree (alone (p b)) (committing (m b))) -> agree (alone q) (committing n) ->
  agree (alone match o with Some b => p b | None => q end) (committing match o with Some b => m b | None => n end).
Proof. by destruct o. Qed.
Lemma commit_ret {A} (a : A) : agree (alone (tret (Commit a))) (committing (mret a)).
Proof. done. Qed.
Lemma commit_throw {A} e : agree (alone (A := ending A) (tthrow e)) (committing (mthrow e)).
Proof. done. Qed.
Lemma commit_lift_UB {A} u : agree (alone (A := ending A) (tlift (UB u))) (committing (lift (UB u))).
Proof. done. Qed.
Hint Resolve commit_ret commit_throw commit_lift_UB : alone.

(** A transaction that throws before it has written leaves the world as it is. *)
Lemma rollback_same (d : Db) : rollback_db d d = d.
Proof. by destruct d as [[] [] [] [] [] [] [] [] [] ?]. Qed.
Lemma world_same (w : World) : w <| w_db := rollback_db (w_db w) (w_db w) |> = w.
Proof. destruct w. cbn. by rewrite rollback_same. Qed.
Lemma transactionE_query {A B} (f : Db -> A) (k : A -> M (ending B)) :
  agree (transactionE (mbind k (query f))) (mbind (fun a => transactionE (k a)) (query f)).
Proof. done. Qed.
Lemma transactionE_lift {A B} (m : outcome A) (k : A -> M (ending B)) :
  agree (transactionE (mbind k (lift m))) (mbind (fun a => transactionE (k a)) (lift m)).
Proof. intros w. unfold transactionE, mbind, lift. destruct m; [done|by rewrite world_same..]. Qed.
Lemma transactionE_throw {B} e : agree (transactionE (A := B) (mthrow e)) (mthrow e).
Proof. intros w. unfold transactionE, mthrow. by rewrite world_same. Qed.
End TxAlone.

Ltac commit_step :=
  first [solve [eauto with alone nocore] | apply commit_last; alone_steps; fail | apply commit_bind; [alone_steps|intros ?] | apply commit_if
        | apply commit_option; [intros ?|]].
Ltac commit_steps := repeat (cbv zeta; commit_step).

#[export] Hint Resolve alone_findConflict alone_storeImages alone_ownedReceiptKind alone_fetchItem alone_replaceTags
  alone_requireCategoryFitsKind alone_insert_item alone_validateReferences alone_insert_items
  commit_ret commit_throw commit_lift_UB : alone.

Section Calls.
Context `{PG : Postgres} `{IS : ImageStore} `{SO : Sodium} `{EN : Environment} `{VI : Vips} `{PL : Platform}.

Definition ends_as {A} (p : Tx (ending A)) (m : M A) : Prop := agree (transactionE (alone p)) m.
Lemma ends_transaction {A} (p : Tx (ending A)) m : agree (alone p) (committing m) -> ends_as p (transaction m).
Proof. intros H. unfold ends_as, transaction. by rewrite H. Qed.

(** The first query read with another function. *)
Lemma alone_query_as {A B C} (f : Db -> B) (g : Db -> option C) mode t i (k : option C -> Tx A) (k' : B -> M A) :
  (forall d, agree (alone (k (g d))) (k' (f d))) ->
  agree (alone (tbind k (tquery_for mode t i g))) (mbind k' (query f)).
Proof. intros H w. cbn. unfold mbind, query. apply H. Qed.
Lemma alone_locked {A} u (p : Tx A) m : agree (alone p) m -> agree (alone (tbind (fun _ => p) (lockUserImages u))) m.
Proof. done. Qed.
Lemma ends_upload u dir prepared force :
  ends_as (tx_uploadReceipt u dir prepared force)
    (transactionE (
      let! conflict := (if force then mret None else query (findConflict u prepared)) in
      match conflict with
      | Some c => mret (Rollback (inr c))
      | None =>
          let! t := now in
          let! receiptId := exec (insert_receipt (scanned_row u kDefaultKind dir t)) in
          storeImages u receiptId prepared ;!
          mret (Commit (inl receiptId))
      end)).
Proof. apply transactionE_agree. apply alone_locked. alone_steps. Qed.

Lemma ends_addImages u r images force : ends_as (tx_addImages u r images force) (addImages u r images force).
Proof.
  unfold ends_as, tx_addImages, addImages. rewrite alone_bind, alone_query, transactionE_query.
  apply mbind_agree; [intros [row|]|done]; [|by rewrite alone_throw, transactionE_throw].
  rewrite alone_bind, alone_lift, transactionE_lift. apply mbind_agree; [intros prepared|done].
  apply transactionE_agree, alone_locked. alone_steps.
Qed.
Lemma ends_createManual u input :
  ends_as (tx_createManual u input)
    (transaction (
      let r := me_receipt input in
      validateReferences u None r ;!
      let! t := now in
      let! date := lift (sql_date (er_purchaseDate r)) in
      let! receiptId := exec (insert_receipt (manual_row u r date t)) in
      (if bool_decide (me_items input = [])
       then insert_items u receiptId (er_kind r) [implicit_item input]
       else insert_items u receiptId (er_kind r) (me_items input)) ;!
      mret receiptId)).
Proof. apply ends_transaction. unfold tx_createManual. commit_steps. Qed.
Lemma ends_create_item u r input :
  ends_as (tx_create_item u r input)
    (transaction (
      let! kind := ItemService.ownedReceiptKind u r in
      let! itemId := ItemService.insert u r kind input in
      ItemService.fetchItem itemId)).
Proof.
  apply ends_transaction. unfold tx_create_item. commit_steps.
Qed.
Lemma ends_update_item u r i body : ends_as (tx_update_item u r i body) (ItemService.update u r i body).
Proof.
  apply ends_transaction. apply commit_bind; [auto with alone|intros kind].
  unfold committing. rewrite mbind_assoc. apply alone_query_as. intros d. unfold item_of.
  destruct (rows (items d) !! i) as [row|]; [|done].
  destruct (it_receipt_id row =? r); [cbn [negb]|done].
  fold (@committing _ Item). unfold tlift. commit_step. destruct a as [item given].
  commit_steps.
Qed.

Lemma ends_remove_item u r i : ends_as (tx_remove_item u r i) (ItemService.remove u r i).
Proof.
  intros w. unfold ItemService.remove, ItemService.ownedReceiptKind, transactionE. cbn.
  unfold mbind, exec, query, mret, mthrow, sql_delete_item. cbn.
  destruct (owned_receipt u r (w_db w)); cbn; [|by destruct w; cbn; rewrite rollback_same].
  unfold mbind, exec. destruct (rows (items (w_db w)) !! i) as [row|]; [destruct (it_receipt_id row =? r)|]; cbn;
    [done|by destruct w; cbn; rewrite !rollback_same..].
Qed.
Lemma category_sides_of r d : category_sides (item_categories r d) d = item_category_sides r d.
Proof.
  unfold category_sides, item_categories, item_category_sides. induction (select _ _) as [|[k i] l IH]; [done|]. cbn.
  destruct (it_category_id i) as [c|]; cbn; [|exact IH]. destruct (rows (categories d) !! c) as [cr|] eqn:E; cbn; [|exact IH].
  rewrite E. cbn. by rewrite IH.
Qed.
Lemma alone_sides {A} r (p : list bool -> Tx A) m : (forall sides, agree (alone (p sides)) (m sides)) ->
  agree (alone (tbind (fun ids => tbind p (TxQueryFor Share (category_keys ids) (category_sides ids) tret)) (tquery (item_categories r))))
    (mbind m (query (item_category_sides r))).
Proof. intros H w. cbn. unfold mbind, query. rewrite category_sides_of. apply H. Qed.
Lemma ends_updateReceipt u r body : ends_as (tx_updateReceipt u r body) (updateReceipt u r body).
Proof.
  apply ends_transaction. apply commit_bind; [auto with alone|intros [row|]]; [|auto with alone].
  cbv zeta. commit_step. apply commit_bind; [auto with alone|intros [r' mark]]. commit_step. commit_step.
  apply commit_bind; [|intros []].
  - apply alone_if; [auto with alone|]. apply alone_sides. intros sides. alone_steps.
  - commit_steps.
Qed.
Lemma ends_update_category u id nm isIncome :
  ends_as (tx_update_category u id nm isIncome)
    (transaction (
      let! current := query (owned_category u id) in
      match current with
      | None => mthrow (NotFoundError "category not found")
      | Some c =>
          match isIncome with
          | Some side =>
              if eqb side (c_is_income c) then mret () else
              let! clash := query (category_clash id side) in
              if (clash : bool)
              then mthrow (ValidationError (if side then "category is used by items on non-income receipts"
                                            else "category is used by items on income receipts"))
              else mret ()
          | None => mret ()
          end ;!
          let row := mkCategory (c_user_id c) (default (c_name c) nm) (default (c_is_income c) isIncome) in
          exec_ (update_unique same_category categories id row) ;!
          mret (category_of id row)
      end)).
Proof. apply ends_transaction. apply commit_bind; [auto with alone|intros [c|]]; commit_steps. Qed.
(** One statement is atomic by itself. *)
Lemma ends_statement {B R} (s : Db -> outcome (B * Db)) (k : B -> R) :
  ends_as (tx_statement s k) (mbind (fun b => mret (k b)) (exec s)).
Proof.
  intros w. unfold transactionE, tx_statement, mbind. cbn. unfold mbind, exec.
  destruct (s (w_db w)) as [[b d']|e|u]; cbn; [done|by destruct w; cbn; rewrite rollback_same..].
Qed.
Lemma ended {A} (p : Tx (ending A)) m w : ends_as p m -> m w = let '(r, w') := transactionE (alone p) w in lift r w'.
Proof. intros H. rewrite (H w). by destruct (m w). Qed.

Lemma ended_catch {A} (p : Tx (ending A)) m (h : exn -> M A) w : ends_as p m ->
  mcatch m h w = let '(r, w') := transactionE (alone p) w in mcatch (lift r) h w'.
Proof. intros H. unfold mcatch at 1. rewrite <- (H w). by destruct (transactionE _ w) as [[]]. Qed.

(** Every method is its prologue, its transaction and its epilogue. *)
Definition in_parts (U : Z) (q : request) : M (reply q) :=
  mbind (fun p w => let '(r, w') := transactionE (alone p) w in epilogue U q r w') (lift (prologue U q)).
Lemma bind_lift {A B} (m : outcome A) (k : A -> M B) w :
  mbind k (lift m) w = match m with Ok a => k a w | Throw e => (Throw e, w) | UB u => (UB u, w) end.
Proof. done. Qed.
(** The service computation on the other side of an equation, read in parts. *)
Ltac read_body w :=
  rewrite ?bind_lift; cbn [prologue]; unfold read_name;
  repeat (rewrite ?bind_lift; cbn [obind];
    lazymatch goal with
    | |- match ?m with Ok _ => _ | Throw _ => _ | UB _ => _ end = _ =>
        lazymatch m with
        | obind _ _ => fail
        | _ => let x := fresh "x" in destruct m as [x| |]; cbn [obind]; [|done|done]
        end
    end).
Lemma perform_delete U r : agree (deleteReceipt U r) (in_parts U (DeleteReceipt r)).
Proof.
  intros w. unfold in_parts, deleteReceipt, transactionE. cbn. unfold mbind, query, exec, sql_delete_receipt. cbn.
  unfold mbind, exec. by destruct (owned_receipt U r (w_db w)).
Qed.
Lemma perform_retry U r : agree (retryScan U r) (in_parts U (RetryScan r)).
Proof.
  intros w. unfold in_parts. rewrite bind_lift. cbn [prologue epilogue]. unfold tx_retryScan, transactionE. cbn.
  unfold retryScan, mbind, now, exec. cbn. unfold mbind, exec.
  destruct (sql_requeue U r (w_clock w) (w_db w)) as [[b d']|e|u]; cbn;
    [done|by destruct w; cbn; rewrite rollback_same..].
Qed.
Lemma perform_upload U images force : agree (uploadReceipt U images force) (in_parts U (Upload images force)).
Proof.
  intros w. unfold in_parts, uploadReceipt. rewrite !bind_lift. cbn [prologue].
  destruct maxImagesPerReceipt as [cap| |]; cbn [obind]; [|done..]. destruct (cap <? _); [done|].
  rewrite ?bind_lift. destruct (prepareImages images) as [prepared| |]; cbn [obind]; [|done..].
  rewrite ?bind_lift. destruct (rulesFor kDefaultKind) as [rules| |]; cbn [obind]; [|done..].
  destruct (canonicalDirection rules) as [dir|]; [|done]. cbn [epilogue]. apply (ended _ _ w), ends_upload.
Qed.
Lemma perform_update_category U id body :
  agree (CategoryService.update U id body) (in_parts U (CategoryUpdate id body)).
Proof.
  intros w. unfold in_parts, CategoryService.update. read_body w. apply (ended_catch _ _ _ w), ends_update_category.
Qed.
Lemma perform_create_category U body : agree (CategoryService.create U body) (in_parts U (CategoryCreate body)).
Proof. intros w. unfold in_parts, CategoryService.create. read_body w. apply (ended_catch _ _ _ w), ends_statement. Qed.
Lemma perform_create_tag U body : agree (TagService.create U body) (in_parts U (TagCreate body)).
Proof. intros w. unfold in_parts, TagService.create. read_body w. apply (ended_catch _ _ _ w), ends_statement. Qed.
Lemma perform_create_payment_method U body :
  agree (PaymentMethodService.create U body) (in_parts U (PaymentMethodCreate body)).
Proof. intros w. unfold in_parts, PaymentMethodService.create. read_body w. apply (ended_catch _ _ _ w), ends_statement. Qed.
(** A single statement followed by pure code. *)
Lemma statement_ends {B R A} (s : Db -> outcome (B * Db)) (k : B -> R) (h : outcome R -> M A) (m : M A) w :
  (forall b d, s (w_db w) = Ok (b, d) -> m w = h (Ok (k b)) (w <| w_db := d |>)) ->
  (forall e, s (w_db w) = Throw e -> m w = h (Throw e) w) ->
  (forall u, s (w_db w) = UB u -> m w = h (UB u) w) ->
  m w = let '(r, w') := transactionE (alone (tx_statement s k)) w in h r w'.
Proof.
  intros H1 H2 H3. pose proof (ends_statement s k w) as E. rewrite E. unfold mbind, exec, mret.
  destruct (s (w_db w)) as [[b d]|e|u]; auto.
Qed.
(** Such a call, with the statement's outcome at hand. *)
Ltac by_statement s := apply (statement_ends _ _ _ s); intros;
  unfold CategoryService.remove, TagService.remove, PaymentMethodService.remove, mbind, mcatch, exec, renamed, lift,
    mret, mthrow, removed in *;
  repeat match goal with H : ?x = _ |- context [?x] => rewrite H end; try reflexivity.
Lemma perform_update_tag U id body : agree (TagService.update U id body) (in_parts U (TagUpdate id body)).
Proof.
  intros w. unfold in_parts, TagService.update. read_body w. cbn [epilogue].
  match goal with |- ?m w = _ => by_statement m end.
Qed.
Lemma perform_update_payment_method U id body :
  agree (PaymentMethodService.update U id body) (in_parts U (PaymentMethodUpdate id body)).
Proof.
  intros w. unfold in_parts, PaymentMethodService.update. read_body w. cbn [epilogue].
  match goal with |- ?m w = _ => by_statement m end.
Qed.
Lemma perform_alone U q : agree (perform U q) (in_parts U q).
Proof.
  destruct q as [r body|r i body|r i|images force|r images force|body|r body|r|r|body|id body|id|body|id body|id|body|id body|id];
    cbn [perform]; try solve [apply perform_upload|apply perform_delete|apply perform_retry|apply perform_create_category
    |apply perform_update_category|apply perform_create_tag|apply perform_update_tag|apply perform_create_payment_method
    |apply perform_update_payment_method]; intros w; unfold in_parts.
  - unfold ItemService.create. read_body w. apply (ended _ _ w), ends_create_item.
  - apply (ended _ _ w), ends_update_item.
  - apply (ended _ _ w), ends_remove_item.
  - apply (ended _ _ w), ends_addImages.
  - unfold createManual. read_body w. apply (ended _ _ w), ends_createManual.
  - apply (ended _ _ w), ends_updateReceipt.
  - cbn [prologue epilogue]. rewrite bind_lift. by_statement (CategoryService.remove U id).
  - cbn [prologue epilogue]. rewrite bind_lift. by_statement (TagService.remove U id).
  - cbn [prologue epilogue]. rewrite bind_lift. by_statement (PaymentMethodService.remove U id).
Qed.
End Calls.

(** ** The only task of the machine *)

Section Machine.
Context `{IS : ImageStore} `{SO : Sodium}.

(** A transaction that began with the rows of [d0], ended. *)
Definition settle {R} (d0 : Db) (e : outcome (ending R) * World) : outcome R * World :=
  match e with
  | (Ok (Commit a), w) => (Ok a, w)
  | (Ok (Rollback a), w) => (Ok a, w <| w_db := rollback_db d0 (w_db w) |>)
  | (Throw e, w) => (Throw e, w <| w_db := rollback_db d0 (w_db w) |>)
  | (UB u, w) => (UB u, w <| w_db := rollback_db d0 (w_db w) |>)
  end.
Definition seen (c : Delta) (w : World) : World := w <| w_db := overlay c (w_db w) |>.
Definition only {R} (w : World) (g : Progress R) : Sys := mkSys w [mkTask R g].

Lemma set_db_same (w : World) d : w_db w = d -> w <| w_db := d |> = w.
Proof. intros <-. by destruct w. Qed.
Lemma free_alone ls : free ls [] = true.
Proof. by induction ls. Qed.
Lemma turn_only {R} w (p : Tx (ending R)) c held :
  turn 0 (only w (Running p c held)) =
  match advance [] w p c held with Some (w', g) => only w' g | None => only w (Running p c held) end.
Proof. unfold turn. cbn. by destruct (advance _ _ _ _ _) as [[]|]. Qed.

Lemma seen_record c w d' :
  seen (record_changes c (overlay c (w_db w)) d') (w <| w_db := rollback_db (w_db w) d' |>) = (seen c w) <| w_db := d' |>.
Proof. destruct w. unfold seen. cbn. by rewrite overlay_record. Qed.
Lemma settled_here {R} d0 c w (g : Progress R) : rollback_db d0 (w_db w) = w_db w ->
  only w g = only ((seen c w) <| w_db := rollback_db d0 (w_db (seen c w)) |>) g.
Proof. intros E. destruct w. unfold seen. cbn in *. by rewrite rollback_overlay, E. Qed.

Lemma running_alone {R} (d0 : Db) (p : Tx (ending R)) w c held :
  rollback_db d0 (w_db w) = w_db w ->
  exists n, run (repeat (Turn 0) n) (only w (Running p c held)) =
            let '(r, w') := settle d0 (alone p (seen c w)) in only w' (Ended r).
Proof.
  revert w c held.
  induction p as [r|u p IH|B f k IH|B mode found f k IH|B s k IH|k IH|n k IH|key ct bytes p IH]; intros w c held Hd.
  - exists 1%nat. cbn [run repeat foldl happen]. rewrite turn_only. destruct r as [[a|a]|e|u]; cbn [advance]; [done|..];
      unfold settle; cbn; f_equal; destruct w; cbn in *; by rewrite rollback_overlay, Hd.
  - destruct (IH w c ((UserImages u, ForUpdate) :: held) Hd) as [n E]. exists (S n).
    cbn [run repeat foldl happen]. rewrite turn_only. cbn [advance]. rewrite free_alone. exact E.
  - destruct (IH (f (overlay c (w_db w))) w c held Hd) as [n E]. exists (S n).
    cbn [run repeat foldl happen]. rewrite turn_only. exact E.
  - destruct (IH (f (overlay c (w_db w))) w c (map (fun key => (key, mode)) (found (overlay c (w_db w))) ++ held) Hd) as [n E].
    exists (S n). cbn [run repeat foldl happen]. rewrite turn_only. cbn [advance]. rewrite free_alone. exact E.
  - cbn [alone]. unfold mbind, exec. change (w_db (seen c w)) with (overlay c (w_db w)).
    destruct (s (overlay c (w_db w))) as [[b d']|e|u] eqn:Es.
    + edestruct (IH b (w <| w_db := rollback_db (w_db w) d' |>) (record_changes c (overlay c (w_db w)) d')) as [n E].
      { change (rollback_db d0 (rollback_db (w_db w) d') = rollback_db (w_db w) d').
        rewrite rollback_twice. symmetry. by apply rollback_onto. }
      exists (S n). cbn [run repeat foldl happen]. rewrite turn_only. cbn [advance]. rewrite Es, free_alone.
      rewrite <- (seen_record c w d'). exact E.
    + exists 1%nat. cbn [run repeat foldl happen]. rewrite turn_only. cbn [advance]. rewrite Es. exact (settled_here d0 c w _ Hd).
    + exists 1%nat. cbn [run repeat foldl happen]. rewrite turn_only. cbn [advance]. rewrite Es. exact (settled_here d0 c w _ Hd).
  - destruct (IH (w_clock w) w c held Hd) as [m E]. exists (S m).
    cbn [run repeat foldl happen]. rewrite turn_only. exact E.
  - pose (w1 := w <| w_rand ::= S |>). destruct (IH (generateToken (w_rand w) n) w1 c held Hd) as [m E]. exists (S m).
    cbn [run repeat foldl happen]. rewrite turn_only. exact E.
  - cbn [alone]. unfold mbind, store_put. change (w_store (seen c w)) with (w_store w).
    destruct (put key ct bytes (w_store w)) as [[[]|e|u] s'] eqn:Ep.
    + pose (w1 := w <| w_store := s' |>). destruct (IH w1 c held Hd) as [m E]. exists (S m).
      cbn [run repeat foldl happen]. rewrite turn_only. cbn [advance]. unfold store_put. rewrite Ep. exact E.
    + exists 1%nat. cbn [run repeat foldl happen]. rewrite turn_only. cbn [advance]. unfold store_put. rewrite Ep.
      pose (w1 := w <| w_store := s' |>). exact (settled_here d0 c w1 _ Hd).
    + exists 1%nat. cbn [run repeat foldl happen]. rewrite turn_only. cbn [advance]. unfold store_put. rewrite Ep.
      pose (w1 := w <| w_store := s' |>). exact (settled_here d0 c w1 _ Hd).
Qed.

Lemma machine_alone {R} (p : Tx (ending R)) w :
  exists n, run (repeat (Turn 0) n) (mkSys w [start p]) =
            let '(r, w') := transactionE (alone p) w in mkSys w' [mkTask R (Ended r)].
Proof.
  destruct (running_alone (w_db w) p w no_changes []) as [n E]; [apply rollback_same|]. exists n.
  etransitivity; [exact E|]. unfold seen. rewrite overlay_none, set_db_same by done.
  unfold transactionE, settle. by destruct (alone p w) as [[[]| |] ?].
Qed.
End Machine.
