(* ===== verification/Interleave.v ===== *)
(** * What holds of the tables whatever the schedule

    [inv]: no receipt has more images than the cap, one user's receipts share no
    photograph (unless he forced it), and every item's category is on the side of its
    receipt's kind.  None of it follows from one statement at a time: each
    statement is checked against rows that other transactions are changing.

    The argument is rely-guarantee.  [rely H g g'] is what a transaction holding
    the locks [H] may count on while the others run; [safe p c H Q g] that the
    rest [p] of a transaction, with changes [c] and locks [H], commits only what
    keeps [inv], whatever the others do within [rely] between its statements.
    [publish] derives from the locks alone that a commit stays within what
    everybody else relies on, and [run_sound] puts the parts together: a machine of
    safe tasks keeps [inv] under every schedule.  Ids of items come from a sequence
    that only grows, so an id one transaction has drawn is nobody else's: [in_order].
    TxLedger, TxPhotos, TxRemovals, TxReference and TxScans show the transactions
    safe. *)
From S2P Require Import Prelude CString Binary64 Json Kinds JsonInput LedgerInput TokenUtils RateLimiter Env Db World.
From S2P Require Import ItemService ReceiptService Invariant Transactions.

(** The owner and kind of every receipt ever inserted, its id being never used again. *)
Abbreviation births := (gmap Z (Z * string)).
Definition ghost : Type := births * Db.

(** What is promised: the cap, the users whose calls insist on repeated
    photographs, and whether kinds stay what they are. *)
Class Terms := { cap : Z; forced : Z -> Prop; kinds_fixed : bool }.

(** ** Locks *)

Definition compat (H H' : list Lock) : Prop := forall l l', l ∈ H -> l' ∈ H' -> clash l l' = false.

Lemma conflicts_sym a b : conflicts a b = conflicts b a.
Proof. by destruct a, b. Qed.
Lemma clash_sym a b : clash a b = clash b a.
Proof. unfold clash. rewrite conflicts_sym. f_equal. apply bool_decide_ext. split; congruence. Qed.
Lemma compat_sym H H' : compat H H' -> compat H' H.
Proof. intros C l l' Hl Hl'. rewrite clash_sym. by apply C. Qed.
Lemma compat_app H1 H2 H' : compat H1 H' -> compat H2 H' -> compat (H1 ++ H2) H'.
Proof. intros C1 C2 l l' [Hl|Hl]%elem_of_app Hl'; [by apply C1|by apply C2]. Qed.
Lemma compat_nil H : compat [] H.
Proof. intros l l' Hl. by apply elem_of_nil in Hl. Qed.
Lemma free_compat ls H : free ls H = true -> compat ls H.
Proof.
  intros E l l' Hl Hl'.
  unfold free in E. rewrite forallb_forall in E. specialize (E l). rewrite <- list_elem_of_In in E.
  apply E in Hl. rewrite forallb_forall in Hl. specialize (Hl l'). rewrite <- list_elem_of_In in Hl.
  apply Hl in Hl'. by apply negb_true_iff in Hl'.
Qed.
Lemma clash_row k m m' : clash (k, m) (k, m') = conflicts m m'.
Proof. unfold clash. cbn. by rewrite bool_decide_true. Qed.

(** ** What a lock is good for *)

Section Tables.
Context {A : Type}.
Implicit Types (m : gmap Z A) (ws : writes A) (t : Tbl) (H : list Lock) (refs : A -> list Key).

(** A locked row stays; under more than FOR KEY SHARE it stays as it is. *)
Definition kept t H m m' : Prop := forall id mode, (Row t id, mode) ∈ H ->
  (is_Some (m !! id) -> is_Some (m' !! id)) /\ (mode <> KeyShare -> m' !! id = m !! id).
(** While a row is locked FOR UPDATE no new reference to it appears. *)
Definition no_new_refs refs H m m' : Prop := forall id a k, m' !! id = Some a -> k ∈ refs a -> (k, ForUpdate) ∈ H ->
  exists a0, m !! id = Some a0 /\ k ∈ refs a0.

(** What was written is locked. *)
Definition covers t ws H : Prop := forall id o, ws !! id = Some o ->
  exists mode, (Row t id, mode) ∈ H /\ (mode = ForUpdate \/ mode = NoKeyUpdate /\ o <> None).
Definition covers_refs refs ws H m : Prop := forall id a k, ws !! id = Some (Some a) -> k ∈ refs a ->
  (k, KeyShare) ∈ H \/ exists a0, m !! id = Some a0 /\ k ∈ refs a0.

Lemma kept_refl t H m : kept t H m m.
Proof. done. Qed.
Lemma kept_trans t H m1 m2 m3 : kept t H m1 m2 -> kept t H m2 m3 -> kept t H m1 m3.
Proof.
  intros K1 K2 id mode Hl. destruct (K1 id mode Hl) as [P1 E1], (K2 id mode Hl) as [P2 E2]. split; [auto|].
  intros Hm. rewrite E2, E1; auto.
Qed.
Lemma refs_trans refs H m1 m2 m3 : no_new_refs refs H m1 m2 -> no_new_refs refs H m2 m3 -> no_new_refs refs H m1 m3.
Proof. intros N1 N2 id a k E Hk Hl. destruct (N2 id a k E Hk Hl) as (a' & E' & Hk'). by apply (N1 id a'). Qed.

Lemma kept_publish t ws H H' m : covers t ws H -> compat H H' -> kept t H' m (overlay_rows ws m).
Proof.
  intros C Hc id mode Hl. rewrite lookup_overlay_rows. destruct (ws !! id) as [o|] eqn:E; [|done].
  destruct (C id o E) as (mode' & Hm & Hd). pose proof (Hc _ _ Hm Hl) as Hn. rewrite clash_row in Hn.
  destruct Hd as [->|[-> Ho]]; [by destruct mode|]. destruct mode; try done. split; [|done]. by destruct o.
Qed.
Lemma refs_publish refs ws H H' m : covers_refs refs ws H m -> compat H H' -> no_new_refs refs H' m (overlay_rows ws m).
Proof.
  intros C Hc id a k. rewrite lookup_overlay_rows. intros E Hk Hl. destruct (ws !! id) as [o|] eqn:Ew; [subst o|by exists a].
  destruct (C id a k Ew Hk) as [Hs|Ho]; [|done]. pose proof (Hc _ _ Hs Hl) as Hn. by rewrite clash_row in Hn.
Qed.

Lemma covers_mono t ws H H' : covers t ws H -> H ⊆ H' -> covers t ws H'.
Proof. intros C Hs id o E. destruct (C id o E) as (mode & Hl & Hd). eauto. Qed.
Lemma covers_refs_mono refs ws H H' m : covers_refs refs ws H m -> H ⊆ H' -> covers_refs refs ws H' m.
Proof. intros C Hs id a k E Hk. destruct (C id a k E Hk); [left|right]; auto. Qed.
Lemma covers_refs_kept t refs ws H m m' : covers t ws H -> kept t H m m' -> covers_refs refs ws H m -> covers_refs refs ws H m'.
Proof.
  intros C K R id a k E Hk. destruct (R id a k E Hk) as [Hl|(a0 & E0 & Hk0)]; [by left|right].
  destruct (C id _ E) as (mode & Hl & Hd). exists a0. split; [|done]. destruct (K id mode Hl) as [_ Es].
  rewrite Es; [done|]. by destruct Hd as [->|[-> _]].
Qed.

Context `{EqDecision A}.
Lemma elem_of_table_locks t refs (old new : table A) id l :
  rows old !! id <> rows new !! id -> l ∈ row_locks t refs (rows old) (id, rows new !! id) ->
  l ∈ table_locks t refs old new.
Proof.
  intros Hn Hl. unfold table_locks. apply list_elem_of_In, in_concat. exists (row_locks t refs (rows old) (id, rows new !! id)).
  split; [|by apply list_elem_of_In]. apply in_map, list_elem_of_In, elem_of_map_to_list.
  by rewrite lookup_changed_rows, decide_False.
Qed.
Lemma covers_record t refs ws H (old new : table A) :
  covers t ws H -> covers t (record_rows ws old new) (table_locks t refs old new ++ H).
Proof.
  intros C id o. rewrite lookup_record_rows. case_decide as Hd.
  - intros E. destruct (C id o E) as (mode & Hl & Ho). exists mode. split; [|done]. apply elem_of_app. by right.
  - intros [= <-]. pose proof (elem_of_table_locks t refs old new id) as Hl. unfold row_locks in Hl. cbn [fst snd] in Hl.
    destruct (rows new !! id) as [a|], (rows old !! id) as [a0|]; try done.
    + exists NoKeyUpdate. split; [|by right]. apply elem_of_app. left. apply Hl; [done|left].
    + exists ForUpdate. split; [|by left]. apply elem_of_app. left. apply Hl; [done|left].
    + exists ForUpdate. split; [|by left]. apply elem_of_app. left. apply Hl; [done|left].
Qed.
Lemma covers_refs_record t refs ws H m (old new : table A) : rows old = overlay_rows ws m ->
  covers_refs refs ws H m -> covers_refs refs (record_rows ws old new) (table_locks t refs old new ++ H) m.
Proof.
  intros Eo C id a k. rewrite lookup_record_rows. case_decide as Hd.
  - intros E Hk. destruct (C id a k E Hk) as [Hl|Hr]; [left|by right]. apply elem_of_app. by right.
  - intros [= E] Hk. pose proof (elem_of_table_locks t refs old new id (k, KeyShare) Hd) as Hl.
    unfold row_locks in Hl. cbn [fst snd] in Hl. rewrite E in Hl. rewrite Eo, lookup_overlay_rows in Hl.
    assert (Hin : forall ks, k ∈ ks -> (k, KeyShare) ∈ map (fun k => (k, KeyShare)) ks).
    { intros ks Hks. apply list_elem_of_In, (in_map (fun k => (k, KeyShare))), list_elem_of_In, Hks. }
    assert (Hcase : forall o : option A, o = match ws !! id with Some o => o | None => m !! id end ->
      (o = None \/ (exists a0, o = Some a0 /\ k ∉ refs a0)) \/ (exists a0, o = Some a0 /\ k ∈ refs a0)).
    { intros [a0|] _; [destruct (decide (k ∈ refs a0))|]; eauto 6. }
    destruct (Hcase _ eq_refl) as [Hn|(a0 & Ea & Hk0)].
    + left. apply elem_of_app. left. apply Hl. destruct Hn as [->|(a0 & -> & Hn)]; right; apply Hin; [done|].
      by apply list_elem_of_filter.
    + destruct (ws !! id) as [o|] eqn:Ew; [subst o|right; eauto]. destruct (C id a0 k Ew Hk0); [left|by right].
      apply elem_of_app. by right.
Qed.
End Tables.

(** ** The invariant *)

Section Interleave.
Context `{IS : ImageStore} `{SO : Sodium}.
Context `{TE : Terms}.

(** Every image is on a receipt of its user, no receipt has more of them than the
    cap, and a user who never insisted has no photograph on two receipts. *)
Record images_ok (d : Db) : Prop := {
  io_receipt : forall k i, rows (receipt_images d) !! k = Some i ->
    exists r, rows (receipts d) !! im_receipt_id i = Some r /\ rc_user_id r = im_user_id i;
  io_cap : forall r, image_count r d <= cap;
  io_dedup : forall k1 k2 i1 i2, rows (receipt_images d) !! k1 = Some i1 -> rows (receipt_images d) !! k2 = Some i2 ->
    im_user_id i1 = im_user_id i2 -> im_image_sha256 i1 = im_image_sha256 i2 -> ~ forced (im_user_id i1) ->
    im_receipt_id i1 = im_receipt_id i2
}.
(** Every item is on a receipt, its category on the side of the receipt's kind. *)
Definition sides_ok (d : Db) : Prop := forall k i, rows (items d) !! k = Some i ->
  exists r, rows (receipts d) !! it_receipt_id i = Some r /\
    forall c, it_category_id i = Some c ->
      exists cr, rows (categories d) !! c = Some cr /\ fits (c_is_income cr) (er_kind (rc_fields r)).

Definition born_below (b : births) (t : table receipt_row) : Prop := forall k h, b !! k = Some h -> k < seq t.
Definition fixed_kind (kind : string) : string := if kinds_fixed then kind else "".
Definition head (r : receipt_row) : Z * string := (rc_user_id r, fixed_kind (er_kind (rc_fields r))).
Definition heads_ok (b : births) (d : Db) : Prop := forall k r, rows (receipts d) !! k = Some r -> b !! k = Some (head r).
Record inv (b : births) (d : Db) : Prop := {
  inv_below : born_below b (receipts d);
  inv_heads : heads_ok b d;
  inv_images : images_ok d;
  inv_sides : kinds_fixed = true -> sides_ok d;
  inv_categories : below (categories d)
}.

(** ** What the holder of some locks relies on *)

Record rely (H : list Lock) (g g' : ghost) : Prop := {
  rl_born : g.1 ⊆ g'.1;
  rl_seq : seq (categories g.2) <= seq (categories g'.2);
  rl_item_seq : seq (items g.2) <= seq (items g'.2);
  rl_item_ids : below (items g.2) -> below (items g'.2);
  rl_receipts : kept TReceipts H (rows (receipts g.2)) (rows (receipts g'.2));
  rl_categories : kept TCategories H (rows (categories g.2)) (rows (categories g'.2));
  rl_images : kept TImages H (rows (receipt_images g.2)) (rows (receipt_images g'.2));
  rl_items : kept TItems H (rows (items g.2)) (rows (items g'.2));
  rl_image_refs : no_new_refs image_refs H (rows (receipt_images g.2)) (rows (receipt_images g'.2));
  rl_item_refs : no_new_refs item_refs H (rows (items g.2)) (rows (items g'.2));
  rl_user : forall u k i, (UserImages u, ForUpdate) ∈ H -> rows (receipt_images g'.2) !! k = Some i ->
    im_user_id i = u -> rows (receipt_images g.2) !! k = Some i
}.
Lemma rely_refl H g : rely H g g.
Proof. split; try done. all: intros id a k E Hk _; by exists a. Qed.
Lemma rely_trans H g1 g2 g3 : rely H g1 g2 -> rely H g2 g3 -> rely H g1 g3.
Proof.
  intros [] []. split; [by etransitivity|lia|lia|by auto|by eapply kept_trans..|by eapply refs_trans|by eapply refs_trans|].
  intros u k i Hu E Ei. eauto.
Qed.
(** The rows are what counts. *)
Lemma rely_rollback H b b' d d' : b ⊆ b' -> seq (categories d) <= seq (categories d') -> seq (items d) <= seq (items d') ->
  rely H (b, d) (b', rollback_db d d').
Proof.
  intros Hb Hq Hi. split; try done; [by intros B; apply below_keep_seq|..]. all: intros id a k E Hk _; by exists a.
Qed.

(** A transaction's changes are covered by its locks. *)
Record covered (c : Delta) (H : list Lock) (d : Db) : Prop := {
  cv_receipts : covers TReceipts (dl_receipts c) H;
  cv_categories : covers TCategories (dl_categories c) H;
  cv_images : covers TImages (dl_images c) H;
  cv_items : covers TItems (dl_items c) H;
  cv_image_refs : covers_refs image_refs (dl_images c) H (rows (receipt_images d));
  cv_item_refs : covers_refs item_refs (dl_items c) H (rows (items d));
  cv_user : forall k i, dl_images c !! k = Some (Some i) -> (UserImages (im_user_id i), ForUpdate) ∈ H;
  cv_below : below (items d);
  cv_item_ids : forall k i, dl_items c !! k = Some (Some i) -> k < seq (items d)
}.
Lemma covered_none d : below (items d) -> covered no_changes [] d.
Proof.
  intros B. split; cbn [no_changes dl_receipts dl_categories dl_images dl_items]; [..|exact B|].
  1-4: intros id o. 5-6: intros id a k. 7-8: intros k i. all: by rewrite lookup_empty.
Qed.
Lemma covered_mono c H H' d : covered c H d -> H ⊆ H' -> covered c H' d.
Proof.
  intros [] Hs. split; [by eapply covers_mono..|by eapply covers_refs_mono|by eapply covers_refs_mono| |done|done].
  intros k i E. eauto.
Qed.
Lemma covered_rely c H b d b' d' : covered c H d -> rely H (b, d) (b', d') -> covered c H d'.
Proof.
  intros [] []. split; [done..| | |done|by auto|].
  - by eapply (covers_refs_kept TImages).
  - by eapply (covers_refs_kept TItems).
  - intros k i E. cbn in *. specialize (cv_item_ids0 k i E). lia.
Qed.
(** The ids of the view's items. *)
Lemma covered_below c H d : covered c H d -> below (items (overlay c d)).
Proof.
  intros [] k i. cbn. rewrite lookup_overlay_rows. destruct (dl_items c !! k) as [o|] eqn:E; [intros ->; eauto|]. apply cv_below0.
Qed.
(** No sequence goes back, and items get their ids from theirs. *)
Definition in_order (d d' : Db) : Prop :=
  seq (categories d) <= seq (categories d') /\ seq (items d) <= seq (items d') /\ (below (items d) -> below (items d')).

(** New images only under the user's advisory lock. *)
Definition locked_images (H : list Lock) (d d' : Db) : Prop :=
  forall k i, rows (receipt_images d') !! k = Some i ->
    rows (receipt_images d) !! k = Some i \/ (UserImages (im_user_id i), ForUpdate) ∈ H.
Lemma in_order_items d d' : seq (categories d) <= seq (categories d') -> items d' = items d -> in_order d d'.
Proof. intros Hq E. unfold in_order. rewrite E. split; [done|split; [lia|done]]. Qed.
Lemma in_order_insert d row : in_order d (d <| items ::= insert_row row |>).
Proof. split; [done|split; [cbn; lia|apply below_insert]]. Qed.
Lemma in_order_fewer d d' : seq (categories d) <= seq (categories d') -> seq (items d') = seq (items d) ->
  (forall k i, rows (items d') !! k = Some i -> is_Some (rows (items d) !! k)) -> in_order d d'.
Proof.
  intros Hq E Hs. split; [done|split; [lia|]]. intros B k i Ei. rewrite E. destruct (Hs k i Ei) as [i0 E0]. exact (B k i0 E0).
Qed.
Lemma covered_record c H d d' :
  covered c H d -> locked_images H (overlay c d) d' -> in_order (overlay c d) d' ->
  covered (record_changes c (overlay c d) d') (change_locks (overlay c d) d' ++ H) (rollback_db d d').
Proof.
  intros Hcov HL (_ & Hq & Hb). specialize (Hb (covered_below _ _ _ Hcov)). destruct Hcov. unfold change_locks. set (v := overlay c d).
  assert (Hs : forall L, L ++ H ⊆ L ++ H) by done.
  split; cbn [record_changes dl_receipts dl_categories dl_images dl_items].
  - eapply covers_mono; [by apply (covers_record TReceipts receipt_refs)|]. set_solver.
  - eapply covers_mono; [by apply (covers_record TCategories category_refs)|]. set_solver.
  - eapply covers_mono; [by apply (covers_record TImages image_refs)|]. set_solver.
  - eapply covers_mono; [by apply (covers_record TItems item_refs)|]. set_solver.
  - eapply covers_refs_mono; [by apply (covers_refs_record TImages image_refs)|]. set_solver.
  - eapply covers_refs_mono; [by apply (covers_refs_record TItems item_refs)|]. set_solver.
  - intros k i. rewrite lookup_record_rows. case_decide as Hd; [intros E; apply elem_of_app; right; eauto|].
    intros [= E]. destruct (HL k i E) as [Ho|Hl]; [exfalso; apply Hd; exact (eq_trans Ho (eq_sym E))|]. apply elem_of_app. by right.
  - by apply below_keep_seq.
  - intros k i. rewrite lookup_record_rows. case_decide as Hd; [|intros [= E]; exact (Hb k i E)].
    intros E. specialize (cv_item_ids0 k i E). cbn in *. lia.
Qed.

(** A commit is within what everybody else relies on. *)
Lemma publish c H H' b d : covered c H d -> compat H H' -> rely H' (b, d) (b, overlay c d).
Proof.
  intros Hcov Hc. pose proof (covered_below _ _ _ Hcov) as Hb. destruct Hcov.
  split; cbn [fst snd overlay receipts categories receipt_images items overlay_table rows seq]; [done|lia|lia|done| | | | | | |].
  1-4: by eapply kept_publish. 1-2: by eapply refs_publish.
  intros u k i Hu. rewrite lookup_overlay_rows. destruct (dl_images c !! k) as [o|] eqn:E; [|done]. intros -> Ei.
  pose proof (cv_user0 k i E) as Hn. rewrite Ei in Hn. pose proof (Hc _ _ Hn Hu) as Hf. by rewrite clash_row in Hf.
Qed.

(** ** Safe transactions *)

Definition post (A : Type) : Type := outcome A -> Delta -> list Lock -> ghost -> Prop.

Fixpoint safe {A} (p : Tx A) (c : Delta) (H : list Lock) (Q : post A) (g : ghost) : Prop :=
  forall g', rely H g g' -> inv g'.1 g'.2 -> covered c H g'.2 ->
  let v := overlay c g'.2 in
  match p with
  | TxEnd r => Q r c H g'
  | TxLock u k => safe k c ((UserImages u, ForUpdate) :: H) Q g'
  | TxQuery f k => safe (k (f v)) c H Q g'
  | TxQueryFor mode found f k => safe (k (f v)) c (map (fun key => (key, mode)) (found v) ++ H) Q g'
  | TxChange s k =>
      forall x d', s v = Ok (x, d') ->
        exists b', g'.1 ⊆ b' /\ born_below b' (receipts d') /\ locked_images H v d' /\
          in_order v d' /\
          safe (k x) (record_changes c v d') (change_locks v d' ++ H) Q (b', rollback_db g'.2 d')
  | TxNow k => forall t, safe (k t) c H Q g'
  | TxToken n k => forall t, safe (k t) c H Q g'
  | TxPut _ _ _ k => safe k c H Q g'
  end.

(** What the machine needs of a transaction's end, and [goal] besides. *)
Definition settles {R} (goal : Delta -> list Lock -> ghost -> Prop) : post (ending R) := fun r c H g =>
  match r with Ok (Commit _) => inv g.1 (overlay c g.2) /\ goal c H g | _ => True end.
Definition no_goal : Delta -> list Lock -> ghost -> Prop := fun _ _ _ => True.

Lemma safe_later {A} (p : Tx A) c H Q g :
  (forall g', rely H g g' -> inv g'.1 g'.2 -> covered c H g'.2 -> safe p c H Q g') -> safe p c H Q g.
Proof.
  intros Hp. destruct p; intros g' Hr Hi Hv; specialize (Hp g' Hr Hi Hv g' (rely_refl H g') Hi Hv); exact Hp.
Qed.
Lemma safe_rely {A} (p : Tx A) c H Q g g' : safe p c H Q g -> rely H g g' -> safe p c H Q g'.
Proof.
  intros Hp Hr. destruct p; intros g'' Hr' Hi Hv; exact (Hp g'' (rely_trans _ _ _ _ Hr Hr') Hi Hv).
Qed.
Lemma safe_bind {A B} (p : Tx A) (k : A -> Tx B) c H (Q : post B) g :
  safe p c H (fun r c H g =>
    match r with
    | Ok a => safe (k a) c H Q g
    | Throw e => Q (Throw e) c H g
    | UB u => Q (UB u) c H g
    end) g -> safe (tbind k p) c H Q g.
Proof.
  revert c H g. induction p as [r|u p IH|B' f q IH|B' mode found f q IH|B' s q IH|q IH|n q IH|key ct bytes p IH];
    intros c H g Hp; cbn [tbind].
  1: destruct r as [a|e|u]; [apply safe_later; intros g' Hr Hi Hv; exact (Hp g' Hr Hi Hv)|done..].
  all: intros g' Hr Hi Hv; specialize (Hp g' Hr Hi Hv); cbv zeta in *; try exact (IH _ _ _ Hp); try exact (IH _ _ _ _ Hp); try (intros t; exact (IH _ _ _ _ (Hp t))).
  intros x d' E. destruct (Hp x d' E) as (b' & Hb & Hbb & HL & Hq & Hs). exists b'. do 4 (split; [done|]). exact (IH _ _ _ _ Hs).
Qed.
Lemma safe_mono {A} (p : Tx A) c H (Q Q' : post A) g :
  (forall r c H g, inv g.1 g.2 -> covered c H g.2 -> Q r c H g -> Q' r c H g) -> safe p c H Q g -> safe p c H Q' g.
Proof.
  intros HQ. revert c H g. induction p as [r|u p IH|B' f q IH|B' mode found f q IH|B' s q IH|q IH|n q IH|key ct bytes p IH];
    intros c H g Hp g' Hr Hi Hv; specialize (Hp g' Hr Hi Hv); cbv zeta in *; try exact (IH _ _ _ Hp); try exact (IH _ _ _ _ Hp); try (intros t; exact (IH _ _ _ _ (Hp t)));
    [by apply HQ|].
  intros x d' E. destruct (Hp x d' E) as (b' & Hb & Hbb & HL & Hq & Hs). exists b'. do 4 (split; [done|]). exact (IH _ _ _ _ Hs).
Qed.
(** ** The machine *)

(** What each task's commit is to meet, by its place in the list. *)
Context (goal : nat -> Delta -> list Lock -> ghost -> Prop).

Definition task_ok (b : births) (d : Db) (i : nat) (t : Task) : Prop :=
  match t_progress t with
  | Running p c H => covered c H d /\ safe p c H (settles (goal i)) (b, d)
  | Ended _ => True
  end.
Record sys_safe (b : births) (s : Sys) : Prop := {
  ss_inv : inv b (w_db (s_world s));
  ss_tasks : forall i t, s_tasks s !! i = Some t -> task_ok b (w_db (s_world s)) i t;
  ss_compat : forall i j t t', i <> j -> s_tasks s !! i = Some t -> s_tasks s !! j = Some t' ->
    compat (held_by t) (held_by t')
}.

Lemma task_ok_rely b d b' d' i t : task_ok b d i t -> rely (held_by t) (b, d) (b', d') -> task_ok b' d' i t.
Proof.
  unfold task_ok, held_by. destruct (t_progress t) as [p c H|]; [|done]. intros [Hc Hs] Hr.
  split; [by eapply covered_rely|by eapply safe_rely].
Qed.
Lemma held_beside_elem i ts l : l ∈ held_beside i ts <-> exists j t, j <> i /\ ts !! j = Some t /\ l ∈ held_by t.
Proof.
  unfold held_beside. rewrite list_elem_of_In, in_concat. split.
  - intros (x & Hx & Hl). apply list_elem_of_In, list_elem_of_lookup in Hx as (j & Hj).
    rewrite list_lookup_imap, fmap_Some in Hj. destruct Hj as (t & Ht & ->). apply list_elem_of_In in Hl.
    case_bool_decide as Hd; [by apply not_elem_of_nil in Hl|]. by exists j, t.
  - intros (j & t & Hj & Ht & Hl). exists (held_by t). rewrite <- !list_elem_of_In. split; [|done].
    apply list_elem_of_lookup. exists j. rewrite list_lookup_imap, Ht. cbn. by rewrite bool_decide_false.
Qed.

(** One task moves to [t'] while the tables go from [d] to [d'] within the others' rely. *)
Lemma sys_safe_step b b' s i R p c H ls (w' : World) (t' : Task) :
  sys_safe b s -> s_tasks s !! i = Some (mkTask R (Running p c H)) ->
  inv b' (w_db w') -> task_ok b' (w_db w') i t' ->
  (forall H', compat H H' -> rely H' (b, w_db (s_world s)) (b', w_db w')) ->
  compat ls (held_beside i (s_tasks s)) -> held_by t' ⊆ ls ++ H ->
  sys_safe b' (mkSys w' (<[i := t']> (s_tasks s))).
Proof.
  intros [Hi Ht Hc] Ei Hi' Ht' Hr Hls Hh. split; cbn [s_world s_tasks]; [done| |].
  - intros j t Ej. destruct (decide (j = i)) as [->|Hn].
    + rewrite list_lookup_insert_eq in Ej by (by eapply lookup_lt_Some). by injection Ej as <-.
    + rewrite list_lookup_insert_ne in Ej by done. eapply task_ok_rely; [by eapply Ht|].
      apply Hr. exact (Hc i j _ _ (not_eq_sym Hn) Ei Ej).
  - assert (Hnew : forall j t, j <> i -> s_tasks s !! j = Some t -> compat (held_by t') (held_by t)).
    { intros j t Hn Ej l l' Hl Hl'. apply Hh, elem_of_app in Hl as [Hl|Hl].
      - apply Hls; [done|]. apply held_beside_elem. eauto.
      - exact (Hc i j _ _ (not_eq_sym Hn) Ei Ej l l' Hl Hl'). }
    intros j k t u Hjk. pose proof (lookup_lt_Some _ _ _ Ei) as Hlt.
    destruct (decide (j = i)) as [->|Hj], (decide (k = i)) as [->|Hk]; [done|..].
    + rewrite list_lookup_insert_eq, list_lookup_insert_ne by done. intros [= <-] Ek. by apply (Hnew k).
    + rewrite list_lookup_insert_ne, list_lookup_insert_eq by done. intros Ej [= <-]. by apply compat_sym, (Hnew j).
    + rewrite !list_lookup_insert_ne by done. by apply Hc.
Qed.
Lemma born_rollback b b' d d' : inv b d -> b ⊆ b' -> born_below b' (receipts d') ->
  seq (categories d) <= seq (categories d') -> inv b' (rollback_db d d').
Proof.
  intros [Hb Hh Hi Hs Hc] Hsub Hbb Hq. split; [exact Hbb| |by destruct Hi|done|by apply below_keep_seq].
  intros k r E. eapply lookup_weaken; [by apply Hh|done].
Qed.

Lemma sys_safe_turn b s i : sys_safe b s -> exists b', sys_safe b' (turn i s).
Proof.
  intros Hs. unfold turn. destruct (s_tasks s !! i) as [[R [p c H|]]|] eqn:Ei; [|by exists b..].
  pose proof (ss_inv _ _ Hs) as Hi. destruct (ss_tasks _ _ Hs i _ Ei) as [Hc Hp].
  set (d := w_db (s_world s)) in *. set (others := held_beside i (s_tasks s)).
  assert (Hsame : forall H', compat H H' -> rely H' (b, d) (b, d)) by (intros; apply rely_refl).
  assert (Hnil : compat [] others) by apply compat_nil.
  (* a step that leaves the tables as they are *)
  assert (Hstay : forall w' g, w_db w' = d -> task_ok b d i (mkTask R g) ->
    (exists ls, compat ls others /\ held_by (mkTask R g) ⊆ ls ++ H) ->
    exists b', sys_safe b' (mkSys w' (<[i := mkTask R g]> (s_tasks s)))).
  { intros w' g E Hg (ls & Hls & Hh). exists b. eapply sys_safe_step; try done; by rewrite E. }
  assert (Hover : forall w' r, w_db w' = d -> exists b', sys_safe b' (mkSys w' (<[i := mkTask R (Ended r)]> (s_tasks s)))).
  { intros w' r E. apply Hstay; [done|done|]. exists []. split; [done|]. cbn. set_solver. }
  assert (Hmore : forall ls, free ls others = true -> compat ls others /\ ls ++ H ⊆ ls ++ H).
  { intros ls E. split; [by apply free_compat|done]. }
  assert (Hadd : forall ls, covered c (ls ++ H) d) by (intros ls; eapply covered_mono; [done|set_solver]).
  destruct p as [r|u p|B f k|B mode found f k|B st k|k|n k|key ct bytes p]; cbn [advance];
    specialize (Hp (b, d) (rely_refl H (b, d)) Hi Hc); cbn [fst snd] in Hp; cbv zeta in Hp |- *; fold d.
  - destruct r as [[a|a]|e|u]; [|by apply Hover..]. exists b.
    eapply (sys_safe_step b b _ i R _ c H []); [done|done|exact (proj1 Hp)|done| |done|by cbn; set_solver].
    intros H' Hc'. by eapply publish.
  - destruct (free _ _) eqn:Ef; [|by exists b]. apply Hstay; [done|split; [apply (Hadd [_])|exact Hp]|].
    exists [(UserImages u, ForUpdate)]. by apply Hmore.
  - apply Hstay; [done|by split|]. by exists [].
  - destruct (free _ _) eqn:Ef; [|by exists b]. apply Hstay; [done|split; [apply Hadd|exact Hp]|].
    eexists. by apply Hmore.
  - destruct (st (overlay c d)) as [[x d']|e|u] eqn:Est; [|by apply Hover..]. cbv zeta.
    destruct (free _ _) eqn:Ef; [|by exists b]. destruct (Hp x d' eq_refl) as (b' & Hb & Hbb & HL & Hq & Hk). exists b'.
    eapply (sys_safe_step b b' _ i R _ c H (change_locks (overlay c d) d')); try done.
    + apply (born_rollback b); [done..|apply Hq].
    + split; [by apply covered_record|exact Hk].
    + intros H' _. apply rely_rollback; [done|apply Hq..].
    + by apply Hmore.
  - apply Hstay; [done|split; [done|apply Hp]|]. by exists [].
  - apply Hstay; [done|split; [done|apply Hp]|]. by exists [].
  - unfold store_put. destruct (put _ _ _ _) as [[[]|e|u] s']; [|by apply Hover..].
    apply Hstay; [done|by split|]. by exists [].
Qed.

Lemma sys_safe_happen b s e : sys_safe b s -> exists b', sys_safe b' (happen s e).
Proof.
  intros Hs. destruct e as [i|i|time]; cbn [happen]; [by eapply sys_safe_turn| |].
  - destruct (s_tasks s !! i) as [[R [p c H|]]|] eqn:Ei; [|by exists b..]. exists b.
    apply (sys_safe_step b b _ i R p c H []); [done|done|exact (ss_inv _ _ Hs)|done| |apply compat_nil|cbn; set_solver].
    intros H' _. apply rely_refl.
  - exists b. destruct Hs as [Hi Ht Hc]. by split.
Qed.

(** A machine of safe transactions, all at their beginning. *)
Definition safe_start (b : births) (d : Db) (i : nat) (t : Task) : Prop :=
  exists R (p : Tx (ending R)), t = start p /\ safe p no_changes [] (settles (goal i)) (b, d).
Lemma run_safe b w ts schedule :
  inv b (w_db w) -> below (items (w_db w)) -> (forall i t, ts !! i = Some t -> safe_start b (w_db w) i t) ->
  exists b', sys_safe b' (run schedule (mkSys w ts)).
Proof.
  intros Hi Hit Hts. assert (Hs : sys_safe b (mkSys w ts)).
  { split; cbn [s_world s_tasks]; [done| |].
    - intros i t E. destruct (Hts i t E) as (R & p & -> & Hp). split; [by apply covered_none|exact Hp].
    - intros i j t t' _ E _. destruct (Hts i t E) as (R & p & -> & _). apply compat_nil. }
  clear Hi Hit Hts. revert b Hs. generalize (mkSys w ts) as s. induction schedule as [|e schedule IH]; intros s b Hs; [by exists b|].
  destruct (sys_safe_happen b s e Hs) as [b' Hs']. exact (IH _ b' Hs').
Qed.

(** A turn changes the committed receipts and items only when it commits, and then to
    what the transaction saw. *)
Definition same_entries (d d' : Db) : Prop := rows (receipts d') = rows (receipts d) /\ rows (items d') = rows (items d).
Lemma turn_commits b s i : sys_safe b s ->
  same_entries (w_db (s_world s)) (w_db (s_world (turn i s))) \/
  exists c H, goal i c H (b, w_db (s_world s)) /\ w_db (s_world (turn i s)) = overlay c (w_db (s_world s)).
Proof.
  intros Hs. unfold turn. destruct (s_tasks s !! i) as [[R [p c H|]]|] eqn:Ei; [|by left..].
  destruct (ss_tasks _ _ Hs i _ Ei) as [Hc Hp]. destruct p as [r|u p|B f k|B mode found f k|B st k|k|n k|key ct bytes p]; cbn [advance].
  - specialize (Hp _ (rely_refl H _) (ss_inv _ _ Hs) Hc). destruct r as [[a|a]|e|u]; [|by left..]. right. exists c, H.
    split; [exact (proj2 Hp)|done].
  - by destruct (free _ _); left.
  - by left.
  - by destruct (free _ _); left.
  - destruct (st _) as [[x d']|e|u]; [|by left..]. cbv zeta. by destruct (free _ _); left.
  - by left.
  - by left.
  - unfold store_put. by destruct (put _ _ _ _) as [[[]|e|u] s']; left.
Qed.

(** The births of a consistent database. *)
Definition births_of (d : Db) : births := head <$> rows (receipts d).
Lemma inv_births d : below (receipts d) -> below (categories d) -> images_ok d ->
  (kinds_fixed = true -> sides_ok d) -> inv (births_of d) d.
Proof.
  intros B Bc Hi Hs. split; [| |done..].
  - intros k h. unfold births_of. rewrite lookup_fmap_Some. intros (r & _ & E). exact (B k r E).
  - intros k r E. unfold births_of. by rewrite lookup_fmap, E.
Qed.
End Interleave.
