(* ===== verification/TxLogic.v ===== *)
(** * Rules for transactions among others

    [triple P p Q]: begun in a state where [P] holds, the part [p] of a transaction
    is safe, and leaves [Q a] when it returns [a].  Assertions speak of the
    transaction's own changes, its locks and the committed tables; a [stable] one
    stays true whatever the others do within [rely]. *)
From S2P Require Import Prelude CString Binary64 Json Kinds JsonInput LedgerInput TokenUtils RateLimiter Env Db World.
From S2P Require Import ItemService ReceiptService Invariant Transactions Interleave.

Definition Asn : Type := Delta -> list Lock -> ghost -> Prop.
(** The same rows of receipts, categories, images and items were written. *)
Definition same_writes (c c' : Delta) : Prop :=
  dl_receipts c' = dl_receipts c /\ dl_categories c' = dl_categories c /\
  dl_images c' = dl_images c /\ dl_items c' = dl_items c.
Record stable (P : Asn) : Prop := {
  st_rely : forall c H g g', P c H g -> rely H g g' -> P c H g';
  st_locks : forall c H H' g, P c H g -> H ⊆ H' -> P c H' g;
  st_writes : forall c c' H g, P c H g -> same_writes c c' -> P c' H g
}.
Definition both (P Q : Asn) : Asn := fun c H g => P c H g /\ Q c H g.

Lemma stable_and P Q : stable P -> stable Q -> stable (both P Q).
Proof.
  intros [R1 L1 W1] [R2 L2 W2]. split.
  - intros c H g g' [HP HQ] Hr. split; eauto.
  - intros c H H' g [HP HQ] Hs. split; eauto.
  - intros c c' H g [HP HQ] Hw. split; eauto.
Qed.
Lemma stable_const (F : Prop) : stable (fun _ _ _ => F).
Proof. by split. Qed.
(** A receipt's owner and kind, once known. *)
Definition born (k : Z) (h : Z * string) : Asn := fun _ _ g => g.1 !! k = Some h.
Lemma stable_born k h : stable (born k h).
Proof. split; [|done..]. intros c H g g' E []. by eapply lookup_weaken. Qed.
Definition holding (l : Lock) : Asn := fun _ H _ => l ∈ H.
Lemma stable_holding l : stable (holding l).
Proof. split; [done| |done]. intros c H H' g Hl Hs. by apply Hs. Qed.
(** Nothing written so far. *)
Definition clean : Asn := fun c _ _ => same_writes no_changes c.
Lemma stable_clean : stable clean.
Proof. split; [done..|]. intros c c' H g (E1 & E2 & E3 & E4) (F1 & F2 & F3 & F4). repeat split; congruence. Qed.

Section Triples.
Context `{IS : ImageStore} `{SO : Sodium}.
Context `{TE : Terms}.

Definition triple {A} (P : Asn) (p : Tx A) (Q : A -> Asn) : Prop :=
  forall c H g, P c H g ->
    safe p c H (fun r c H g => match r with Ok a => Q a c H g | _ => True end) g.

Lemma triple_bind {A B} (P : Asn) (p : Tx A) (k : A -> Tx B) (K : A -> Asn) (Q : B -> Asn) :
  triple P p K -> (forall a, triple (K a) (k a) Q) -> triple P (tbind k p) Q.
Proof.
  intros Hp Hk c H g HP. apply safe_bind. eapply safe_mono; [|by apply Hp].
  intros [a| |] c' H' g' _ _ HK; [|done..]. by apply Hk.
Qed.
Lemma triple_weaken {A} (P P' : Asn) (p : Tx A) (Q Q' : A -> Asn) :
  triple P p Q -> (forall c H g, P' c H g -> P c H g) -> (forall a c H g, Q a c H g -> Q' a c H g) -> triple P' p Q'.
Proof.
  intros Hp HP HQ c H g Hg. eapply safe_mono; [|by apply Hp, HP]. intros [a| |] c' H' g' _ _; auto.
Qed.
Lemma triple_ret {A} (P : Asn) (a : A) (Q : A -> Asn) :
  stable P -> (forall c H g, P c H g -> Q a c H g) -> triple P (tret a) Q.
Proof. intros HS HQ c H g HP g' Hr _ _. apply HQ. by eapply st_rely. Qed.
Lemma triple_throw {A} (P : Asn) e (Q : A -> Asn) : triple P (tthrow e) Q.
Proof. intros c H g _ g' _ _ _. exact I. Qed.
Lemma triple_lift {A} (P : Asn) (m : outcome A) (Q : A -> Asn) :
  stable P -> (forall a, m = Ok a -> forall c H g, P c H g -> Q a c H g) -> triple P (tlift m) Q.
Proof.
  intros HS HQ c H g HP g' Hr _ _. destruct m as [a| |]; [|exact I..]. apply HQ; [done|]. by eapply st_rely.
Qed.
Lemma triple_query {B} (P : Asn) (f : Db -> B) (Q : B -> Asn) : stable P -> (forall b, stable (Q b)) ->
  (forall c H g, inv g.1 g.2 -> P c H g -> Q (f (overlay c g.2)) c H g) -> triple P (tquery f) Q.
Proof.
  intros HP HQ Hf c H g Hg g' Hr Hi _ v g'' Hr' _ _. eapply st_rely; [apply HQ| |exact Hr'].
  apply Hf; [done|]. by eapply st_rely.
Qed.
Lemma triple_query_for {B} (P : Asn) mode found (f : Db -> B) (Q : B -> Asn) :
  stable P -> (forall b, stable (Q b)) ->
  (forall c H g, inv g.1 g.2 -> P c H g -> Forall (fun k => (k, mode) ∈ H) (found (overlay c g.2)) ->
     Q (f (overlay c g.2)) c H g) ->
  triple P (TxQueryFor mode found f tret) Q.
Proof.
  intros HP HQ Hf c H g Hg g' Hr Hi _ v g'' Hr' _ _. eapply st_rely; [apply HQ| |exact Hr'].
  apply Hf; [done| |].
  - apply (st_locks P HP c H); [by eapply st_rely|set_solver].
  - apply Forall_forall. intros k Hk. apply elem_of_app. left. by apply (list_elem_of_fmap_2 (fun key => (key, mode))).
Qed.
Lemma triple_lock u (P : Asn) : stable P -> triple P (tlock u) (fun _ => both P (holding (UserImages u, ForUpdate))).
Proof.
  intros HP c H g Hg g' Hr _ _ v g'' Hr' _ _. split; [|left].
  eapply st_rely; [done| |exact Hr']. apply (st_locks P HP c H); [by eapply st_rely|set_solver].
Qed.
Lemma triple_change {B} (P : Asn) (s : Db -> outcome (B * Db)) (Q : B -> Asn) : stable P -> (forall b, stable (Q b)) ->
  (forall c H g x d', inv g.1 g.2 -> covered c H g.2 -> P c H g -> s (overlay c g.2) = Ok (x, d') ->
     locked_images H (overlay c g.2) d' /\
     exists b', g.1 ⊆ b' /\ born_below b' (receipts d') /\ in_order (overlay c g.2) d' /\
       (covered (record_changes c (overlay c g.2) d') (change_locks (overlay c g.2) d' ++ H) (rollback_db g.2 d') ->
        P c (change_locks (overlay c g.2) d' ++ H) (b', rollback_db g.2 d') ->
        Q x (record_changes c (overlay c g.2) d') (change_locks (overlay c g.2) d' ++ H) (b', rollback_db g.2 d'))) ->
  triple P (tchange s) Q.
Proof.
  intros HP HQ Hs c H g Hg g' Hr Hi Hc v x d' E.
  destruct (Hs c H g' x d' Hi Hc) as (HL & b' & Hb & Hbb & Hq & Hk); [by eapply st_rely|done|].
  exists b'. do 4 (split; [done|]). intros g'' Hr' _ _. eapply st_rely; [apply HQ| |exact Hr']. apply Hk.
  - by apply covered_record.
  - eapply (st_rely P HP _ _ g'); [|destruct g'; apply rely_rollback; [done|apply Hq..]].
    apply (st_locks P HP c H); [by eapply st_rely|set_solver].
Qed.
Lemma triple_change_ (P : Asn) (s : Db -> outcome Db) (Q : () -> Asn) : stable P -> (forall b, stable (Q b)) ->
  (forall c H g d', inv g.1 g.2 -> covered c H g.2 -> P c H g -> s (overlay c g.2) = Ok d' ->
     locked_images H (overlay c g.2) d' /\
     exists b', g.1 ⊆ b' /\ born_below b' (receipts d') /\ in_order (overlay c g.2) d' /\
       (covered (record_changes c (overlay c g.2) d') (change_locks (overlay c g.2) d' ++ H) (rollback_db g.2 d') ->
        P c (change_locks (overlay c g.2) d' ++ H) (b', rollback_db g.2 d') ->
        Q () (record_changes c (overlay c g.2) d') (change_locks (overlay c g.2) d' ++ H) (b', rollback_db g.2 d'))) ->
  triple P (tchange_ s) Q.
Proof.
  intros HP HQ Hs. apply triple_change; [done..|]. intros c H g [] d' Hi Hc Hg E. eapply Hs; [done..|].
  destruct (s (overlay c g.2)); [|done..]. by injection E as ->.
Qed.
(** A statement that writes links only. *)
Definition links_only (s : Db -> outcome Db) : Prop := forall d d', s d = Ok d' -> exists l, d' = d <| item_tags := l |>.
Lemma record_links_only c d l : same_writes c (record_changes c d (d <| item_tags := l |>)).
Proof. repeat split; by apply record_rows_same. Qed.
Lemma triple_links (P : Asn) (s : Db -> outcome Db) : stable P -> links_only s -> triple P (tchange_ s) (fun _ => P).
Proof.
  intros HP Hs. apply triple_change_; [done..|]. intros c H g d' Hi _ Hg E. destruct (Hs _ _ E) as [l ->].
  split; [intros k i; by left|]. exists g.1. split; [done|]. split; [exact (inv_below _ _ Hi)|]. split; [by apply in_order_items|].
  intros _ HP'. eapply st_writes; [exact HP|exact HP'|]. apply record_links_only.
Qed.
Lemma triple_now (P : Asn) : stable P -> triple P tnow (fun _ => P).
Proof. intros HP c H g Hg g' Hr _ _ v t g'' Hr' _ _. eapply st_rely; [done| |exact Hr']. by eapply st_rely. Qed.
Lemma triple_token n (P : Asn) : stable P -> triple P (ttoken n) (fun _ => P).
Proof. intros HP c H g Hg g' Hr _ _ v t g'' Hr' _ _. eapply st_rely; [done| |exact Hr']. by eapply st_rely. Qed.
Lemma triple_put key ct bytes (P : Asn) : stable P -> triple P (tput key ct bytes) (fun _ => P).
Proof. intros HP c H g Hg g' Hr _ _ v g'' Hr' _ _. eapply st_rely; [done| |exact Hr']. by eapply st_rely. Qed.
Lemma triple_for_each {A} (P : Asn) (body : A -> Tx ()) xs : stable P ->
  (forall x, x ∈ xs -> triple P (body x) (fun _ => P)) -> triple P (tfor_each body xs) (fun _ => P).
Proof.
  intros HP. induction xs as [|x xs IH]; intros Hb; cbn [tfor_each]; [by apply triple_ret|].
  eapply triple_bind; [apply Hb; left|]. intros []. apply IH. intros y Hy. apply Hb. by right.
Qed.

(** A whole transaction: what it commits has to be consistent. *)
Definition commits {R} (Q : ending R -> Asn) : Prop := forall a c H g,
  inv g.1 g.2 -> covered c H g.2 -> Q (Commit a) c H g -> inv g.1 (overlay c g.2).
Lemma triple_meets {R} (goal : Asn) (p : Tx (ending R)) (Q : ending R -> Asn) b d :
  triple clean p Q ->
  (forall a c H g, inv g.1 g.2 -> covered c H g.2 -> Q (Commit a) c H g -> inv g.1 (overlay c g.2) /\ goal c H g) ->
  safe p no_changes [] (settles goal) (b, d).
Proof.
  intros Hp HQ. eapply safe_mono; [|by apply Hp]. intros [[a|a]| |] c H g Hi Hc HQ'; try done. by eapply HQ.
Qed.
Lemma triple_safe {R} (p : Tx (ending R)) (Q : ending R -> Asn) b d :
  triple clean p Q -> commits Q -> safe p no_changes [] (settles no_goal) (b, d).
Proof. intros Hp HQ. eapply triple_meets; [exact Hp|]. intros a c H g Hi Hc HQ'. split; [by eapply HQ|done]. Qed.
End Triples.

Create HintDb stable.
#[export] Hint Resolve stable_and stable_const stable_born stable_holding stable_clean : stable.
