(* ===== verification/TxAssertions.v ===== *)
(** * What the services' transactions have written by the time they commit

    [ledger]: receipts, items and images added or edited; [photos]: the images of
    one upload; [drops]: rows deleted, with what hangs on them; [flips]: a category
    edited.  Each is stable, and is enough for the commit to keep [inv]. *)
From S2P Require Import Prelude CString Binary64 Json Kinds JsonInput LedgerInput TokenUtils RateLimiter Env Db World.
From S2P Require Import ItemService ReceiptService ReferenceData Invariant Transactions Interleave TxLogic.

(** ** Rows of the view and rows as committed *)

Lemma record_insert {A} `{EqDecision A} (ws : writes A) (old new : table A) k a j o :
  rows new = <[k := a]> (rows old) -> record_rows ws old new !! j = Some o -> ws !! j = Some o \/ j = k /\ o = Some a.
Proof.
  intros E. rewrite lookup_record_rows, E. case_decide as Hd; [by left|]. intros [= <-].
  destruct (decide (j = k)) as [->|Hn]; [right; by rewrite lookup_insert_eq|].
  by rewrite lookup_insert_ne in Hd.
Qed.
Lemma record_insert_size {A} `{EqDecision A} (ws : writes A) (old new : table A) k a :
  rows new = <[k := a]> (rows old) -> (base.size (record_rows ws old new) <= S (base.size ws))%nat.
Proof.
  intros E. rewrite <- !size_dom.
  transitivity (base.size ({[k]} ∪ dom ws)); [|rewrite size_union_alt, size_singleton; cbn;
    apply le_n_S, subseteq_size; set_solver].
  apply subseteq_size. intros j [o Hj]%elem_of_dom.
  destruct (record_insert ws old new k a j o E Hj) as [Hw|[-> ->]]; [|set_solver].
  apply elem_of_union_r, elem_of_dom. eauto.
Qed.

(** A receipt that will be there at the end: the transaction's own, or one it has
    locked by a reference. *)
Definition present (k : Z) : Asn := fun c H g =>
  (exists r, dl_receipts c !! k = Some (Some r)) \/
  ((Row TReceipts k, KeyShare) ∈ H /\ is_Some (rows (receipts g.2) !! k)).
(** A row of a table that the transaction has locked against change. *)
Definition pinned {A} (t : Tbl) (f : Db -> table A) (k : Z) (a : A) : Asn := fun _ H g =>
  (exists mode, mode <> KeyShare /\ (Row t k, mode) ∈ H) /\ rows (f g.2) !! k = Some a.
Definition item_pinned (k : Z) (i : item_row) : Asn := pinned TItems items k i.
Definition image_pinned (k : Z) (i : image_row) : Asn := pinned TImages receipt_images k i.
(** A category whose side is known until the end. *)
Definition side_held (cat : Z) (kind : string) : Asn := fun c H g =>
  exists cr, pinned TCategories categories cat cr c H g /\ fits (c_is_income cr) kind.

Lemma stable_present k : stable (present k).
Proof.
  split.
  - intros c H g g' [Ho|[Hl Hp]] Hr; [by left|right]. split; [done|].
    by destruct (rl_receipts _ _ _ Hr k KeyShare Hl) as [Hk _]; apply Hk.
  - intros c H H' g [Ho|[Hl Hp]] Hs; [by left|right]. split; [by apply Hs|done].
  - intros c c' H g [Ho|Hp] (E & _); [left; by rewrite E|by right].
Qed.
Lemma stable_pinned {A} t (f : Db -> table A) k a :
  (forall H g g', rely H g g' -> kept t H (rows (f g.2)) (rows (f g'.2))) -> stable (pinned t f k a).
Proof.
  intros Hk. split; [| |done].
  - intros c H g g' [(mode & Hm & Hl) E] Hr. split; [eauto|]. destruct (Hk H g g' Hr k mode Hl) as [_ Es].
    by rewrite Es.
  - intros c H H' g [(mode & Hm & Hl) E] Hs. split; [|done]. exists mode. split; [done|by apply Hs].
Qed.
Lemma stable_item_pinned k i : stable (item_pinned k i).
Proof. apply stable_pinned. by intros H g g' []. Qed.
Lemma stable_image_pinned k i : stable (image_pinned k i).
Proof. apply stable_pinned. by intros H g g' []. Qed.
Lemma stable_category_pinned k a : stable (pinned TCategories categories k a).
Proof. apply stable_pinned. by intros H g g' []. Qed.
Lemma stable_receipt_pinned k a : stable (pinned TReceipts receipts k a).
Proof. apply stable_pinned. by intros H g g' []. Qed.
Lemma stable_ex {X} (P : X -> Asn) : (forall x, stable (P x)) -> stable (fun c H g => exists x, P x c H g).
Proof.
  intros HP. split.
  - intros c H g g' [x Hx] Hr. exists x. by eapply st_rely.
  - intros c H H' g [x Hx] Hs. exists x. by eapply st_locks.
  - intros c c' H g [x Hx] Hw. exists x. by eapply st_writes.
Qed.
Lemma stable_or P Q : stable P -> stable Q -> stable (fun c H g => P c H g \/ Q c H g).
Proof.
  intros [R1 L1 W1] [R2 L2 W2]. split.
  - intros c H g g' [HP|HQ] Hr; [left|right]; eauto.
  - intros c H H' g [HP|HQ] Hs; [left|right]; eauto.
  - intros c c' H g [HP|HQ] Hw; [left|right]; eauto.
Qed.
Lemma stable_side_held cat kind : stable (side_held cat kind).
Proof.
  apply stable_ex. intros cr. apply (stable_and _ (fun _ _ _ => fits (c_is_income cr) kind)); [apply stable_category_pinned|apply stable_const].
Qed.

(** ** Rows added or edited *)

Section Ledger.
Context `{TE : Terms}.

Definition item_anchored (k : Z) (i : item_row) : Asn := fun c H g =>
  present (it_receipt_id i) c H g \/ exists i0, item_pinned k i0 c H g /\ it_receipt_id i0 = it_receipt_id i.
Definition category_fixed (k : Z) (i : item_row) (kind : string) : Asn := fun c H g =>
  forall cat, it_category_id i = Some cat ->
    side_held cat kind c H g \/
    exists i0, item_pinned k i0 c H g /\ it_receipt_id i0 = it_receipt_id i /\ it_category_id i0 = Some cat.
Definition item_sound (k : Z) (i : item_row) : Asn := fun c H g => kinds_fixed = true ->
  exists h, born (it_receipt_id i) h c H g /\ item_anchored k i c H g /\ category_fixed k i h.2 c H g.
Definition receipt_sound (k : Z) (r : receipt_row) : Asn := born k (head r).

Record ledger (c : Delta) (H : list Lock) (g : ghost) : Prop := {
  lg_categories : dl_categories c = ∅;
  lg_receipts : forall k o, dl_receipts c !! k = Some o -> exists r, o = Some r /\ receipt_sound k r c H g;
  lg_items : forall k o, dl_items c !! k = Some o -> exists i, o = Some i /\ item_sound k i c H g
}.
Definition no_images : Asn := fun c _ _ => dl_images c = ∅.

Lemma stable_item_anchored k i : stable (item_anchored k i).
Proof.
  apply stable_or; [apply stable_present|]. apply stable_ex. intros i0.
  apply (stable_and _ (fun _ _ _ => it_receipt_id i0 = it_receipt_id i)); [apply stable_item_pinned|apply stable_const].
Qed.
Lemma stable_all {X} (F : X -> Prop) (P : X -> Asn) : (forall x, stable (P x)) -> stable (fun c H g => forall x, F x -> P x c H g).
Proof.
  intros HP. split.
  - intros c H g g' Ha Hr x Hx. eapply st_rely; eauto.
  - intros c H H' g Ha Hs x Hx. eapply st_locks; eauto.
  - intros c c' H g Ha Hw x Hx. eapply st_writes; eauto.
Qed.
Lemma stable_impl (F : Prop) (P : Asn) : stable P -> stable (fun c H g => F -> P c H g).
Proof.
  intros HP. split.
  - intros c H g g' Ha Hr HF. eapply st_rely; eauto.
  - intros c H H' g Ha Hs HF. eapply st_locks; eauto.
  - intros c c' H g Ha Hw HF. eapply st_writes; eauto.
Qed.
Lemma stable_category_fixed k i kind : stable (category_fixed k i kind).
Proof.
  apply stable_all. intros cat. apply stable_or; [apply stable_side_held|]. apply stable_ex. intros i0.
  apply (stable_and _ (fun _ _ _ => it_receipt_id i0 = it_receipt_id i /\ it_category_id i0 = Some cat));
    [apply stable_item_pinned|apply stable_const].
Qed.
Lemma stable_item_sound k i : stable (item_sound k i).
Proof.
  apply (stable_impl (kinds_fixed = true)).
  apply stable_ex. intros h. apply (stable_and _ (both (item_anchored k i) (category_fixed k i h.2))); [apply stable_born|].
  apply stable_and; [apply stable_item_anchored|apply stable_category_fixed].
Qed.
Lemma stable_no_images : stable no_images.
Proof. split; [done..|]. intros c c' H g E (_ & _ & Ei & _). unfold no_images. by rewrite Ei. Qed.

(** An entry-by-entry claim about what was written. *)
Definition written {A} (f : Delta -> writes A) (P : Z -> option A -> Asn) : Asn := fun c H g =>
  forall k o, f c !! k = Some o -> P k o c H g.
Lemma stable_written {A} (f : Delta -> writes A) (P : Z -> option A -> Asn) :
  (forall c c', same_writes c c' -> f c' = f c) -> (forall k o, stable (P k o)) -> stable (written f P).
Proof.
  intros Hf HP. split.
  - intros c H g g' Ha Hr k o E. eapply st_rely; eauto.
  - intros c H H' g Ha Hs k o E. eapply st_locks; eauto.
  - intros c c' H g Ha Hw k o E. rewrite (Hf _ _ Hw) in E. eapply st_writes; eauto.
Qed.
Definition some_sound {A} (P : Z -> A -> Asn) (k : Z) (o : option A) : Asn := fun c H g =>
  exists a, o = Some a /\ P k a c H g.
Lemma stable_some_sound {A} (P : Z -> A -> Asn) k o : (forall a, stable (P k a)) -> stable (some_sound P k o).
Proof.
  intros HP. apply stable_ex. intros a. apply (stable_and (fun _ _ _ => o = Some a)); [apply stable_const|apply HP].
Qed.
Lemma ledger_parts c H g : ledger c H g <->
  dl_categories c = ∅ /\ written dl_receipts (some_sound receipt_sound) c H g /\ written dl_items (some_sound item_sound) c H g.
Proof. split; [by intros []|by intros (? & ? & ?)]. Qed.
Lemma stable_ledger : stable ledger.
Proof.
  assert (HR : stable (written dl_receipts (some_sound receipt_sound))).
  { apply stable_written; [by intros c c' (E & _)|]. intros k o. apply stable_some_sound. intros r. apply stable_born. }
  assert (HI : stable (written dl_items (some_sound item_sound))).
  { apply stable_written; [by intros c c' (_ & _ & _ & E)|]. intros k o. apply stable_some_sound. apply stable_item_sound. }
  destruct HR as [R1 L1 W1], HI as [R2 L2 W2]. split.
  - intros c H g g' (E & HR & HI)%ledger_parts Hr. apply ledger_parts. eauto.
  - intros c H H' g (E & HR & HI)%ledger_parts Hs. apply ledger_parts. eauto.
  - intros c c' H g (E & HR & HI)%ledger_parts Hw. apply ledger_parts. repeat split; [|eauto..].
    destruct Hw as (_ & Ec & _). congruence.
Qed.
End Ledger.
#[export] Hint Resolve stable_present stable_item_pinned stable_image_pinned stable_category_pinned stable_receipt_pinned
  stable_side_held stable_no_images stable_ledger : stable.

Lemma see_receipt c d k : rows (receipts (overlay c d)) !! k = match dl_receipts c !! k with Some o => o | None => rows (receipts d) !! k end.
Proof. apply lookup_overlay_rows. Qed.
Lemma see_category c d k :
  rows (categories (overlay c d)) !! k = match dl_categories c !! k with Some o => o | None => rows (categories d) !! k end.
Proof. apply lookup_overlay_rows. Qed.
Lemma see_image c d k :
  rows (receipt_images (overlay c d)) !! k = match dl_images c !! k with Some o => o | None => rows (receipt_images d) !! k end.
Proof. apply lookup_overlay_rows. Qed.
Lemma see_item c d k : rows (items (overlay c d)) !! k = match dl_items c !! k with Some o => o | None => rows (items d) !! k end.
Proof. apply lookup_overlay_rows. Qed.

(** A transaction that has written nothing sees what is committed. *)
Lemma clean_view c H g : clean c H g ->
  rows (receipts (overlay c g.2)) = rows (receipts g.2) /\ rows (categories (overlay c g.2)) = rows (categories g.2) /\
  rows (receipt_images (overlay c g.2)) = rows (receipt_images g.2) /\ rows (items (overlay c g.2)) = rows (items g.2).
Proof. intros (E1 & E2 & E3 & E4). cbn in *. rewrite E1, E2, E3, E4. by rewrite !overlay_rows_empty. Qed.

Section Commit.
Context `{IS : ImageStore} `{SO : Sodium}.
Context `{TE : Terms}.

(** Receipts edited or added leave every head as it was. *)
Definition keeps_receipts (c : Delta) (d : Db) : Prop := forall k r, rows (receipts d) !! k = Some r ->
  exists r', rows (receipts (overlay c d)) !! k = Some r' /\ head r' = head r.

Lemma ledger_heads c H g : inv g.1 g.2 -> ledger c H g -> heads_ok g.1 (overlay c g.2).
Proof.
  intros Hi Hl k r. rewrite see_receipt. destruct (dl_receipts c !! k) as [o|] eqn:E; [|apply (inv_heads _ _ Hi)].
  intros ->. destruct (lg_receipts _ _ _ Hl k _ E) as (r' & [= ->] & Hb). exact Hb.
Qed.
Lemma ledger_keeps c H g : inv g.1 g.2 -> ledger c H g -> keeps_receipts c g.2.
Proof.
  intros Hi Hl k r Er. rewrite see_receipt. destruct (dl_receipts c !! k) as [o|] eqn:E; [|by exists r].
  destruct (lg_receipts _ _ _ Hl k _ E) as (r' & -> & Hb). exists r'. split; [done|].
  pose proof (inv_heads _ _ Hi k r Er) as Hb'. unfold receipt_sound, born in Hb. rewrite Hb in Hb'. by apply (inj Some) in Hb'.
Qed.
Lemma head_user r r' : head r' = head r -> rc_user_id r' = rc_user_id r.
Proof. by intros [= E _]. Qed.
Lemma head_kind r h : kinds_fixed = true -> head r = h -> er_kind (rc_fields r) = h.2.
Proof. unfold head, fixed_kind. by intros -> <-. Qed.
(** What the view shows of a receipt agrees with its birth. *)
Lemma seen_kind c d b k r h : kinds_fixed = true -> heads_ok b (overlay c d) -> rows (receipts (overlay c d)) !! k = Some r ->
  b !! k = Some h -> er_kind (rc_fields r) = h.2.
Proof. intros Hs Hh E Hb. rewrite (Hh k r E) in Hb. apply (inj Some) in Hb. by apply head_kind. Qed.
Lemma present_seen c H g k : keeps_receipts c g.2 -> present k c H g -> is_Some (rows (receipts (overlay c g.2)) !! k).
Proof.
  intros Hk [[r E]|[_ [r E]]]; [rewrite see_receipt, E; by exists r|]. destruct (Hk k r E) as (r' & -> & _). by exists r'.
Qed.
Lemma anchored_seen c H g k i : kinds_fixed = true -> inv g.1 g.2 -> keeps_receipts c g.2 -> item_anchored k i c H g ->
  is_Some (rows (receipts (overlay c g.2)) !! it_receipt_id i).
Proof.
  intros Hs Hi Hk [Hp|(i0 & [_ E] & <-)]; [by eapply present_seen|].
  destruct (inv_sides _ _ Hi Hs k i0 E) as (r & Er & _). destruct (Hk _ r Er) as (r' & -> & _). by exists r'.
Qed.
Lemma ledger_sides c H g : inv g.1 g.2 -> ledger c H g -> kinds_fixed = true -> sides_ok (overlay c g.2).
Proof.
  intros Hi Hl Hs. pose proof (ledger_heads _ _ _ Hi Hl) as Hh. pose proof (ledger_keeps _ _ _ Hi Hl) as Hk.
  assert (Hcat : forall cat, rows (categories (overlay c g.2)) !! cat = rows (categories g.2) !! cat).
  { intros cat. by rewrite see_category, (lg_categories _ _ _ Hl), lookup_empty. }
  intros k i. rewrite see_item. destruct (dl_items c !! k) as [o|] eqn:E.
  - intros ->. destruct (lg_items _ _ _ Hl k _ E) as (i' & [= <-] & Hsd). destruct (Hsd Hs) as (h & Hb & Ha & Hf).
    destruct (anchored_seen _ _ _ _ _ Hs Hi Hk Ha) as [r Er]. exists r. split; [done|].
    intros cat Ec. rewrite Hcat, (seen_kind _ _ _ _ _ _ Hs Hh Er Hb).
    destruct (Hf cat Ec) as [(cr & [_ Ecr] & Hfit)|(i0 & [_ E0] & ER & EC)]; [by exists cr|].
    destruct (inv_sides _ _ Hi Hs k i0 E0) as (r0 & Er0 & Hc0). destruct (Hc0 cat EC) as (cr & Ecr & Hfit).
    exists cr. split; [done|]. rewrite ER in Er0. pose proof (inv_heads _ _ Hi _ _ Er0) as Hb0.
    unfold born in Hb. rewrite Hb in Hb0. apply (inj Some) in Hb0. by rewrite <- (head_kind _ _ Hs (eq_sym Hb0)).
  - intros Ei. destruct (inv_sides _ _ Hi Hs k i Ei) as (r & Er & Hc). destruct (Hk _ r Er) as (r' & Er' & Eh).
    exists r'. split; [done|]. intros cat Ec. rewrite Hcat, (head_kind _ _ Hs Eh), <- (head_kind _ _ Hs eq_refl). by apply Hc.
Qed.
Lemma ledger_images c H g : inv g.1 g.2 -> ledger c H g -> no_images c H g -> images_ok (overlay c g.2).
Proof.
  intros Hi Hl Hn. pose proof (ledger_keeps _ _ _ Hi Hl) as Hk. destruct (inv_images _ _ Hi) as [Hr Hc Hd].
  assert (Hs : receipt_images (overlay c g.2) = receipt_images g.2).
  { cbn. unfold no_images in Hn. rewrite Hn. apply overlay_table_empty. }
  split; [|unfold image_count; by rewrite Hs|by rewrite Hs].
  intros k i. rewrite Hs. intros Ei. destruct (Hr k i Ei) as (r & Er & Eu). destruct (Hk _ r Er) as (r' & Er' & Eu'%head_user).
  exists r'. split; [done|congruence].
Qed.
Lemma ledger_categories c H g : inv g.1 g.2 -> ledger c H g -> below (categories (overlay c g.2)).
Proof.
  intros Hi Hl k a. rewrite see_category, (lg_categories _ _ _ Hl), lookup_empty. apply (inv_categories _ _ Hi).
Qed.
Lemma ledger_commits c H g : inv g.1 g.2 -> ledger c H g -> no_images c H g -> inv g.1 (overlay c g.2).
Proof.
  intros Hi Hl Hn. split; [exact (inv_below _ _ Hi)|by eapply ledger_heads|by eapply ledger_images|by eapply ledger_sides|
    by eapply ledger_categories].
Qed.
End Commit.
