(* ===== verification/TxLedger.v ===== *)
(** * Items, manual entries and edits among others

    The transactions of ItemService and of manual entry, and an edit that leaves
    the kind alone, end with a [ledger]: what they add or edit is anchored on a
    receipt that stays and on categories that keep their side. *)
From S2P Require Import Prelude CString Binary64 Json Kinds JsonInput LedgerInput TokenUtils RateLimiter Env Db World.
From S2P Require Import ItemService ReceiptService ReferenceData Invariant Safety Transactions TxServices.
From S2P Require Import Interleave TxLogic TxAssertions.

(** ** One row put into the ledger *)

Section Put.
Context `{TE : Terms}.
Lemma present_writes k c c' H g :
  (forall r, dl_receipts c !! k = Some (Some r) -> exists r', dl_receipts c' !! k = Some (Some r')) ->
  present k c H g -> present k c' H g.
Proof. intros E [[r Er]|Hp]; [left; by eapply E|by right]. Qed.
Lemma item_sound_writes k i c c' H g :
  (forall k r, dl_receipts c !! k = Some (Some r) -> exists r', dl_receipts c' !! k = Some (Some r')) ->
  item_sound k i c H g -> item_sound k i c' H g.
Proof.
  intros E Hs Hk. destruct (Hs Hk) as (h & Hb & Ha & Hc). exists h. split; [done|]. split; [|done].
  destruct Ha as [Hp|Ha]; [left|by right]. eapply present_writes; [apply E|exact Hp].
Qed.

(** The reference of a row just written anchors it. *)
Lemma written_anchored c H g k row :
  covered c H g.2 -> dl_items c !! k = Some (Some row) ->
  (forall k o, dl_receipts c !! k = Some o -> is_Some o) ->
  is_Some (rows (receipts (overlay c g.2)) !! it_receipt_id row) -> item_anchored k row c H g.
Proof.
  intros Hc Ek Hr Hp. rewrite see_receipt in Hp. destruct (dl_receipts c !! it_receipt_id row) as [o|] eqn:E.
  { left. left. destruct (Hr _ _ E) as [r ->]. by exists r. }
  destruct (cv_item_refs _ _ _ Hc k row (Row TReceipts (it_receipt_id row)) Ek) as [Hl|(a0 & Ea & Href)]; [left|..].
  { left. right. by split. }
  right. exists a0. split.
  - split; [|done]. destruct (cv_items _ _ _ Hc k _ Ek) as (mode & Hm & Hd). exists mode. split; [|done].
    by destruct Hd as [->|[-> _]].
  - unfold item_refs in Href. apply elem_of_cons in Href as [[= ->]|Href]; [done|].
    destruct (it_category_id a0); cbn in Href; [|by apply not_elem_of_nil in Href].
    apply elem_of_cons in Href as [Href|Href]; [done|by apply not_elem_of_nil in Href].
Qed.
Lemma ledger_put_item c c' H g k row h :
  ledger c H g -> covered c' H g.2 -> dl_receipts c' = dl_receipts c -> dl_categories c' = dl_categories c ->
  (forall j o, dl_items c' !! j = Some o -> dl_items c !! j = Some o \/ j = k /\ o = Some row) ->
  born (it_receipt_id row) h c H g ->
  is_Some (rows (receipts (overlay c g.2)) !! it_receipt_id row) \/ item_anchored k row c H g ->
  (kinds_fixed = true -> category_fixed k row h.2 c H g) -> ledger c' H g.
Proof.
  intros [L1 L2 L3] Hc Er Ec Hi Hb Hp Hf. split; [congruence| |].
  - intros j o. rewrite Er. apply L2.
  - intros j o Ej. assert (Hrw : forall k r, dl_receipts c !! k = Some (Some r) -> exists r', dl_receipts c' !! k = Some (Some r'))
      by (intros j' r; rewrite Er; eauto).
    destruct (Hi j o Ej) as [Eo|[-> ->]].
    + destruct (L3 j o Eo) as (i & -> & Hs). exists i. split; [done|]. by eapply item_sound_writes.
    + exists row. split; [done|]. intros Hk. exists h. split; [done|]. split; [|by apply Hf]. destruct Hp as [Hp|Ha].
      * apply written_anchored; [done|done| |].
        -- intros k' o'. rewrite Er. intros E. destruct (L2 k' o' E) as (r & -> & _). by exists r.
        -- rewrite see_receipt, Er. by rewrite see_receipt in Hp.
      * destruct Ha as [Ha|Ha]; [left; eapply present_writes; [apply Hrw|exact Ha]|by right].
Qed.
Lemma ledger_put_receipt c c' H g k row :
  ledger c H g -> dl_items c' = dl_items c -> dl_categories c' = dl_categories c ->
  (forall j o, dl_receipts c' !! j = Some o -> dl_receipts c !! j = Some o \/ j = k /\ o = Some row) ->
  (forall j r, dl_receipts c !! j = Some (Some r) -> exists r', dl_receipts c' !! j = Some (Some r')) ->
  receipt_sound k row c H g -> ledger c' H g.
Proof.
  intros [L1 L2 L3] Ei Ec Hr Hrw Hs. split; [congruence| |].
  - intros j o Ej. destruct (Hr j o Ej) as [Eo|[-> ->]]; [by apply L2|by exists row].
  - intros j o. rewrite Ei. intros E. destruct (L3 j o E) as (i & -> & Hi). exists i. split; [done|]. by eapply item_sound_writes.
Qed.
(** A written row stays written. *)
Lemma record_persists {A} `{EqDecision A} (ws : writes A) (old new : table A) k a j r :
  rows new = <[k := a]> (rows old) -> ws !! j = Some (Some r) -> rows old !! j = Some r ->
  exists r', record_rows ws old new !! j = Some (Some r').
Proof.
  intros E Ej Eo. rewrite lookup_record_rows, E. case_decide as Hd; [eauto|].
  destruct (decide (j = k)) as [->|Hn]; [rewrite lookup_insert_eq; eauto|by rewrite lookup_insert_ne in Hd].
Qed.
End Put.

Section Ledger.
Context `{PG : Postgres} `{IS : ImageStore} `{SO : Sodium} `{EN : Environment} `{VI : Vips} `{PL : Platform}.
Context `{TE : Terms}.

(** The assertion all of these keep. *)
Definition entries : Asn := both ledger no_images.
Lemma stable_entries : stable entries.
Proof. apply stable_and; auto with stable. Qed.
Hint Resolve stable_entries : stable.
Lemma entries_seen_receipt c H g u R r : inv g.1 g.2 -> ledger c H g ->
  owned_receipt u R (overlay c g.2) = Some r -> born R (u, fixed_kind (er_kind (rc_fields r))) c H g.
Proof.
  intros Hi Hl E. unfold owned_receipt in E. destruct (rows (receipts _) !! R) as [r0|] eqn:Er; [|done].
  destruct (Z.eqb_spec (rc_user_id r0) u) as [Hu|]; [|done]. injection E as ->.
  pose proof (ledger_heads _ _ _ Hi Hl R r Er) as Hb. unfold head in Hb. by rewrite Hu in Hb.
Qed.

Lemma triple_ownedReceiptKind u R (P : Asn) : stable P -> (forall c H g, P c H g -> ledger c H g) ->
  triple P (tx_ownedReceiptKind u R) (fun kind => both P (born R (u, fixed_kind kind))).
Proof.
  intros HP Hl. unfold tx_ownedReceiptKind.
  eapply (triple_bind _ _ _ (fun o => both P (fun c H g => match o with Some r => born R (u, fixed_kind (er_kind (rc_fields r))) c H g | None => True end))).
  - apply triple_query; [done| |].
    + intros o. apply stable_and; [done|]. destruct o; auto with stable.
    + intros c H g Hi He. split; [done|]. destruct (owned_receipt _ _ _) as [r|] eqn:E; [|done].
      by apply (entries_seen_receipt _ _ _ _ _ _ Hi (Hl _ _ _ He)).
  - intros [r|]; [|apply triple_throw]. apply triple_ret; auto with stable.
Qed.

Lemma links_clear i : links_only (sql_clear_item_tags i).
Proof. intros d d' [= <-]. eauto. Qed.
Lemma links_add i t : links_only (sql_insert_item_tag i t).
Proof. intros d d' E. unfold sql_insert_item_tag in E. ok_inv. eauto. Qed.
Lemma triple_replaceTags u i ids P : stable P -> triple P (tx_replaceTags u i ids) (fun _ => P).
Proof.
  intros HP. unfold tx_replaceTags. eapply triple_bind; [by apply triple_links, links_clear|]. intros [].
  apply triple_for_each; [done|]. intros t _. unfold tx_add_tag.
  eapply triple_bind; [apply (triple_query P _ (fun _ => P)); auto|]. intros [tag|]; [|apply triple_throw].
  apply triple_links; [done|apply links_add].
Qed.

Lemma triple_require u cat kind (P : Asn) : stable P -> (forall c H g, P c H g -> dl_categories c = ∅) ->
  triple P (tx_requireCategoryFitsKind u cat kind) (fun _ => both P (side_held cat kind)).
Proof.
  intros HP Hcat. unfold tx_requireCategoryFitsKind.
  eapply (triple_bind _ _ _ (fun o => both P (fun c H g => match o with Some cr => pinned TCategories categories cat cr c H g | None => True end))).
  - apply triple_query_for; [done| |].
    + intros o. apply stable_and; [done|]. destruct o; auto with stable.
    + intros c H g Hi Hg Hl. split; [done|]. unfold owned_category in *. rewrite see_category, (Hcat _ _ _ Hg), lookup_empty in *.
      destruct (rows (categories g.2) !! cat) as [cr|] eqn:E; [|done]. destruct (c_user_id cr =? u); [|done].
      apply Forall_cons in Hl as [Hl _]. split; [|done]. by exists Share.
  - intros [cr|]; [|apply triple_throw].
    eapply (triple_bind _ _ _ (fun b : bool => both P (if b then side_held cat kind else fun _ _ _ => True))).
    + apply triple_lift; [auto with stable|]. intros b Hb c H g [Hg Hp]. split; [done|].
      destruct b; [by exists cr|done].
    + intros []; [|eapply triple_bind; [apply (triple_lift _ _ (fun _ _ _ _ => True)); auto with stable|intros ?; apply triple_throw]].
      apply triple_ret; auto with stable.
Qed.

(** The category an item asks for, checked or absent. *)
Definition category_held (o : option Z) (kind : string) : Asn :=
  match o with Some cat => side_held cat kind | None => fun _ _ _ => True end.
Lemma stable_category_held o kind : stable (category_held o kind).
Proof. destruct o; cbn; auto with stable. Qed.
Hint Resolve stable_category_held : stable.

Lemma triple_put_item (P : Asn) R h row (s : Db -> outcome (Z * Db)) :
  stable P -> (forall c H g, P c H g -> entries c H g /\ born R h c H g /\ forall k, kinds_fixed = true -> category_fixed k row h.2 c H g) ->
  it_receipt_id row = R -> s = sql_insert_item row ->
  triple P (tchange s) (fun _ => both entries (born R h)).
Proof.
  intros HP HE HR ->. apply triple_change; [done|auto with stable|]. intros c H g x d' Hi Hc Hg E.
  unfold sql_insert_item in E. apply obind_Ok in E as ([] & Hfk & [= <- <-]).
  split; [intros k i; by left|]. exists g.1. split; [done|]. split; [exact (inv_below _ _ Hi)|]. split; [apply in_order_insert|].
  intros Hc' HP'. destruct (HE _ _ _ HP') as ([Hl Hn] & Hb & Hf). split; [|done]. split.
  - eapply (ledger_put_item c _ _ _ (seq (items g.2)) row h); [exact Hl|exact Hc'|by apply record_rows_same..| |by rewrite HR| |apply Hf].
    + intros j o. by apply record_insert.
    + left. unfold guard in Hfk. destruct (fk _ (receipts _) && _) eqn:Ef; [|done].
      apply andb_prop in Ef as [Ef _]. by apply bool_decide_eq_true in Ef.
  - transitivity (dl_images c); [by apply record_rows_same|exact Hn].
Qed.
Lemma category_held_fixed k row kind c H g : category_held (it_category_id row) kind c H g -> category_fixed k row kind c H g.
Proof. intros Hh cat Ec. rewrite Ec in Hh. by left. Qed.

Lemma fixed_kind_eq kind : kinds_fixed = true -> fixed_kind kind = kind.
Proof. unfold fixed_kind. by intros ->. Qed.
Lemma triple_insert_item u R v kind item :
  triple (both entries (born R (v, fixed_kind kind))) (tx_insert_item u R kind item)
    (fun _ => both entries (born R (v, fixed_kind kind))).
Proof.
  set (h := (v, fixed_kind kind)). unfold tx_insert_item.
  eapply (triple_bind _ _ _ (fun _ => both (both entries (born R h)) (category_held (ii_categoryId item) kind))).
  - destruct (ii_categoryId item) as [cat|] eqn:Ec; cbn.
    + apply triple_require; [auto with stable|]. by intros c H g [[Hl _] _]; apply lg_categories in Hl.
    + apply triple_ret; [auto with stable|done].
  - intros []. eapply triple_bind.
    + eapply (triple_put_item _ R h (ItemService.input_row R item)); [| |reflexivity|reflexivity]; [auto with stable|].
      intros c H g [[He Hb] Hh]. split; [done|]. split; [done|]. intros k Hk. cbn [snd h]. rewrite fixed_kind_eq by done.
      by apply category_held_fixed.
    + intros itemId. eapply triple_bind; [apply triple_replaceTags; auto with stable|]. intros [].
      apply triple_ret; auto with stable.
Qed.

Lemma triple_fetchItem i P : stable P -> triple P (tx_fetchItem i) (fun _ => P).
Proof.
  intros HP. unfold tx_fetchItem. eapply triple_bind; [apply (triple_query P _ (fun _ => P)); auto|]. intros [row|].
  - eapply triple_bind; [apply (triple_query P _ (fun _ => P)); auto|]. intros ids. by apply triple_ret.
  - apply triple_lift; auto.
Qed.
Lemma clean_entries c H g : clean c H g -> entries c H g.
Proof.
  intros (E1 & E2 & E3 & E4). cbn in *. split; [|done].
  split; [done|..]; intros k o; rewrite ?E1, ?E4; by rewrite lookup_empty.
Qed.
Lemma commits_entries {R} : commits (fun _ : ending R => entries).
Proof. intros a c H g Hi _ [Hl Hn]. by eapply ledger_commits. Qed.

Lemma triple_create_item u R input : triple clean (tx_create_item u R input) (fun _ => entries).
Proof.
  unfold tx_create_item. eapply triple_bind.
  { eapply triple_weaken; [apply (triple_ownedReceiptKind u R entries); [auto with stable|by intros c H g []]|apply clean_entries|done]. }
  intros kind. eapply triple_bind; [apply (triple_insert_item u R u kind)|]. intros itemId.
  eapply triple_bind; [apply triple_fetchItem; auto with stable|]. intros item.
  apply triple_ret; [auto with stable|by intros c H g []].
Qed.

(** The item being patched: locked, so its receipt and category are what was read. *)
Definition patching (R : Z) (h : Z * string) (itemId : Z) (row : item_row) : Asn :=
  both (both clean (born R h)) (both (item_pinned itemId row) (fun _ _ _ => it_receipt_id row = R)).
Lemma stable_patching R h itemId row : stable (patching R h itemId row).
Proof. apply stable_and; auto with stable. Qed.
Hint Resolve stable_patching : stable.
Lemma triple_patched R u kind itemId row item :
  triple (both (patching R (u, fixed_kind kind) itemId row) (fun c H g => category_held (ii_categoryId item) kind c H g \/ ii_categoryId item = it_category_id row))
    (tchange_ (sql_update_item itemId (ItemService.input_row R item))) (fun _ => entries).
Proof.
  apply triple_change_; [|auto with stable|].
  { apply stable_and; [auto with stable|]. apply stable_or; auto with stable. }
  intros c H g d' Hi Hc Hg E. unfold sql_update_item in E. apply obind_Ok in E as ([] & _ & [= <-]).
  split; [intros k i; by left|]. exists g.1. split; [done|]. split; [exact (inv_below _ _ Hi)|]. split.
  { apply in_order_fewer; [done|done|]. intros k i E. destruct (decide (k = itemId)) as [->|Hk].
    - destruct Hg as [[[Hcl _] [[_ Er] _]] _]. destruct (clean_view _ _ _ Hcl) as (_ & _ & _ & V). rewrite V. by exists row.
    - exists i. cbn in *. by rewrite lookup_insert_ne in E. }
  intros Hc' [[[Hcl Hb] [Hp Hr]] Hcat]. destruct (clean_entries _ _ _ Hcl) as [Hl Hn]. split.
  - eapply (ledger_put_item c _ _ _ itemId (ItemService.input_row R item) (u, fixed_kind kind));
      [exact Hl|exact Hc'|by apply record_rows_same..| |exact Hb| |].
    + intros j o. by apply record_insert.
    + right. right. by exists row.
    + intros Hk cat Ec. cbn [snd]. rewrite fixed_kind_eq by done.
      destruct Hcat as [Hh|Hs]; [by apply (category_held_fixed itemId (ItemService.input_row R item) kind)|].
      right. exists row. split; [done|]. split; [done|]. cbn in Ec. congruence.
  - transitivity (dl_images c); [by apply record_rows_same|exact Hn].
Qed.
Lemma triple_update_item u R itemId body : triple clean (tx_update_item u R itemId body) (fun _ => entries).
Proof.
  unfold tx_update_item. eapply triple_bind.
  { apply (triple_ownedReceiptKind u R clean); [auto with stable|]. by intros c H g [? _]%clean_entries. }
  intros kind.
  eapply (triple_bind _ _ _ (fun o => match o with Some row => patching R (u, fixed_kind kind) itemId row | None => fun _ _ _ => True end)).
  - apply triple_query_for; [auto with stable|intros []; auto with stable|].
    intros c H g Hi [Hcl Hb] Hl. unfold item_of in *. rewrite see_item in *.
    assert (Ec : dl_items c !! itemId = None) by (destruct Hcl as (_ & _ & _ & ->); apply lookup_empty).
    rewrite Ec in *. destruct (rows (items g.2) !! itemId) as [row|] eqn:Er; [|done].
    destruct (Z.eqb_spec (it_receipt_id row) R) as [ER|]; [|done]. apply Forall_cons in Hl as [Hl _].
    split; [by split|]. split; [|done]. split; [by exists ForUpdate|done].
  - intros [row|]; [|apply triple_throw].
    eapply (triple_bind _ _ _ (fun p => both (patching R (u, fixed_kind kind) itemId row)
      (fun _ _ _ => applyItemPatch (ItemService.itemToInput (mkItem itemId row [])) body = Ok p))).
    { apply triple_lift; [auto with stable|]. intros p Ep c H g Hp. by split. }
    intros [item given]. eapply (triple_bind _ _ _ (fun _ => both (patching R (u, fixed_kind kind) itemId row)
      (fun c H g => category_held (ii_categoryId item) kind c H g \/ ii_categoryId item = it_category_id row)));
      [|intros []; eapply triple_bind; [apply (triple_patched R u kind)|]].
    + destruct (ii_categoryId item) as [cat|] eqn:Ec.
      * destruct (has "category_id" body) eqn:Eh.
        -- eapply triple_weaken; [apply (triple_require u cat kind (patching R (u, fixed_kind kind) itemId row)); [auto with stable|]| |].
           ++ by intros c H g [[(_ & -> & _) _] _].
           ++ by intros c H g [].
           ++ intros [] c H g [Hp Hs]. split; [done|by left].
        -- apply triple_ret; [auto with stable|]. intros c H g [Hp Ep]. split; [done|]. right.
           rewrite <- Ec. exact (applyItemPatch_category _ _ _ _ Ep Eh).
      * apply triple_ret; [auto with stable|]. intros c H g [Hp Ep]. split; [done|by left].
    + intros []. eapply (triple_bind _ _ _ (fun _ => entries)).
      * destruct given; [apply triple_replaceTags; auto with stable|apply triple_ret; auto with stable].
      * intros []. eapply triple_bind; [apply triple_fetchItem; auto with stable|]. intros it.
        apply triple_ret; auto with stable.
Qed.

(** ** Receipts *)

Lemma born_fresh b d : inv b d -> b !! seq (receipts d) = None.
Proof.
  intros Hi. destruct (b !! seq (receipts d)) as [h|] eqn:E; [|done]. pose proof (inv_below _ _ Hi _ _ E). lia.
Qed.
(** A new receipt is born: under an id no receipt ever had. *)
Lemma triple_insert_receipt row (P : Asn) (Q : Z -> Asn) : stable P -> (forall id, stable (Q id)) ->
  (forall c H g, P c H g -> ledger c H g) ->
  (forall c c' H g b id, inv b g.2 -> b !! id = None -> born id (head row) c H g ->
     P c H g -> ledger c' H g -> dl_images c' = dl_images c -> Q id c' H g) ->
  triple P (tchange (insert_receipt row)) Q.
Proof.
  intros HP HQ HL HPQ. apply triple_change; [done..|]. intros c H g x d' Hi Hc Hg E.
  unfold insert_receipt in E. apply obind_Ok in E as ([] & _ & E). apply obind_Ok in E as ([] & _ & [= <- <-]).
  split; [intros k i; by left|]. set (id := seq (receipts g.2)). set (h := head row).
  pose proof (born_fresh _ _ Hi) as Hf. exists (<[id := h]> g.1).
  assert (Hb : born id h c H (<[id := h]> g.1, g.2)) by apply lookup_insert_eq.
  split; [by apply insert_subseteq|]. split.
  { intros k h'. rewrite lookup_insert_Some. intros [[<- _]|[_ Ek]]; [cbn; lia|].
    pose proof (inv_below _ _ Hi _ _ Ek). cbn. lia. }
  split; [done|]. intros Hc' HP'. eapply (HPQ c _ _ _ g.1 id); [|exact Hf|exact Hb|exact HP'| |by apply record_rows_same].
  { destruct Hi as [Hbb Hh Him Hs Hcb]. split; [|exact Hh|by destruct Him|exact Hs|exact Hcb].
    intros k h' Ek. pose proof (Hbb k h' Ek). cbn. lia. }
  eapply (ledger_put_receipt c _ _ _ id row); [by apply HL|by apply record_rows_same..| | |exact Hb].
  - intros j o. by apply record_insert.
  - intros j r Ej. eapply record_persists; [reflexivity|exact Ej|]. by rewrite see_receipt, Ej.
Qed.

Lemma triple_validateReferences u rid r P : stable P -> triple P (tx_validateReferences u rid r) (fun _ => P).
Proof.
  intros HP. unfold tx_validateReferences. eapply (triple_bind _ _ _ (fun _ => P)).
  - destruct (er_paymentMethodId r) as [pm|]; [|by apply triple_ret].
    eapply triple_bind; [apply (triple_query P _ (fun _ => P)); auto|].
    intros []; [by apply triple_ret|apply triple_throw].
  - intros []. destruct (er_offsetsReceiptId r) as [o|]; [|by apply triple_ret].
    destruct (bool_decide _); [apply triple_throw|].
    eapply triple_bind; [apply (triple_query P _ (fun _ => P)); auto|]. intros [t|]; [|apply triple_throw].
    cbv zeta. eapply triple_bind; [apply (triple_lift P _ (fun _ => P)); auto|]. intros rules.
    destruct (isOffsetTarget rules); [by apply triple_ret|apply triple_throw].
Qed.

Lemma triple_insert_items u R v kind its :
  triple (both entries (born R (v, fixed_kind kind))) (tx_insert_items u R kind its)
    (fun _ => both entries (born R (v, fixed_kind kind))).
Proof.
  apply triple_for_each; [auto with stable|]. intros item _. eapply triple_bind; [apply triple_insert_item|].
  intros id. apply triple_ret; auto with stable.
Qed.
Lemma triple_createManual u input : triple clean (tx_createManual u input) (fun _ => entries).
Proof.
  unfold tx_createManual. cbv zeta.
  eapply triple_bind; [apply triple_validateReferences; auto with stable|]. intros [].
  eapply triple_bind; [apply triple_now; auto with stable|]. intros t.
  eapply triple_bind; [apply (triple_lift clean _ (fun _ => clean)); auto with stable|]. intros date.
  set (h := (u, fixed_kind (er_kind (me_receipt input)))).
  eapply (triple_bind _ _ _ (fun id => both entries (born id h))).
  - apply triple_insert_receipt; [auto with stable..| |].
    + by intros c H g [? _]%clean_entries.
    + intros c c' H g b id _ _ Hb [_ Hn]%clean_entries Hl E. split; [|exact Hb]. split; [done|].
      unfold no_images in *. congruence.
  - intros id. eapply (triple_bind _ _ _ (fun _ => both entries (born id h))).
    + case_bool_decide; apply (triple_insert_items u id u).
    + intros []. apply triple_ret; [auto with stable|by intros c H g []].
Qed.

(** ** Edits *)

Lemma patch_same_kind r body r' m : applyReceiptPatch r body = Ok (r', m) -> has "kind" body = false -> er_kind r' = er_kind r.
Proof.
  intros Hs%applyReceiptPatch_Ok Hb. pose proof (ps_kind _ _ _ _ Hs) as Hk. unfold patched, has in *.
  by destruct (find "kind" body).
Qed.

(** An UPDATE of the receipt that leaves owner and kind alone. *)
Lemma triple_update_receipt R h f (P : Asn) : stable P ->
  (forall c H g, P c H g -> ledger c H g /\ born R h c H g) ->
  (forall r, head r = h -> head (f r) = h) ->
  (forall c c' H g, P c H g -> dl_images c' = dl_images c -> ledger c' H g ->
     (forall j r, dl_receipts c !! j = Some (Some r) -> exists r', dl_receipts c' !! j = Some (Some r')) -> P c' H g) ->
  triple P (tchange_ (sql_update_receipt R f)) (fun _ => P).
Proof.
  intros HP HL Hf HPP. apply triple_change_; [done..|]. intros c H g d' Hi Hc Hg E.
  destruct (HL _ _ _ Hg) as [Hl Hb]. unfold sql_update_receipt in E.
  destruct (rows (receipts (overlay c g.2)) !! R) as [r|] eqn:Er.
  - pose proof (ledger_heads _ _ _ Hi Hl R r Er) as Hh. unfold born in Hb. rewrite Hb in Hh. apply (inj Some) in Hh.
    apply put_receipt_Ok in E as [-> _].
    split; [intros k i; by left|]. exists g.1. split; [done|]. split; [exact (inv_below _ _ Hi)|]. split; [by apply in_order_items|].
    intros Hc' HP'. destruct (HL _ _ _ HP') as [Hl' Hb'].
    assert (Hpers : forall j r', dl_receipts c !! j = Some (Some r') -> exists r'',
      dl_receipts (record_changes c (overlay c g.2) ((overlay c g.2) <| receipts ::= update_row R (f r) |>)) !! j = Some (Some r'')).
    { intros j r' Ej. eapply record_persists; [reflexivity|exact Ej|]. by rewrite see_receipt, Ej. }
    eapply HPP; [exact HP'|by apply record_rows_same| |exact Hpers].
    eapply (ledger_put_receipt c _ _ _ R (f r)); [exact Hl'|by apply record_rows_same..| |exact Hpers|].
    + intros j o. by apply record_insert.
    + unfold receipt_sound. rewrite (Hf r (eq_sym Hh)). exact Hb'.
  - injection E as <-. split; [intros k i; by left|]. exists g.1. split; [done|]. split; [exact (inv_below _ _ Hi)|]. split; [by apply in_order_items|].
    intros _ HP'. eapply st_writes; [exact HP|exact HP'|]. repeat split; by apply record_rows_same.
Qed.

(** An edit that does not name the kind. *)
Lemma triple_updateReceipt u R body : (kinds_fixed = true -> has "kind" body = false) ->
  triple clean (tx_updateReceipt u R body) (fun _ => entries).
Proof.
  intros Hkind. unfold tx_updateReceipt.
  eapply (triple_bind _ _ _ (fun o => both entries (match o with Some r => born R (u, fixed_kind (er_kind (rc_fields r))) | None => fun _ _ _ => True end))).
  - apply triple_query_for; [auto with stable|intros []; apply stable_and; auto with stable|].
    intros c H g Hi He%clean_entries _. split; [done|]. destruct (owned_receipt _ _ _) as [r|] eqn:E; [|done].
    exact (entries_seen_receipt _ _ _ _ _ _ Hi (proj1 He) E).
  - intros [row|]; [|apply triple_throw]. cbv zeta. set (P := both entries (born R (u, fixed_kind (er_kind (rc_fields row))))).
    assert (HP : stable P) by (unfold P; auto with stable).
    eapply triple_bind; [apply (triple_lift P _ (fun _ => P)); auto|]. intros before.
    eapply (triple_bind _ _ _ (fun p => both P (fun _ _ _ => fixed_kind (er_kind p.1) = fixed_kind (er_kind (rc_fields row))))).
    { apply triple_lift; [auto|]. intros [r' m] E c H g Hg. split; [done|].
      unfold fixed_kind. destruct kinds_fixed; [|done]. exact (patch_same_kind _ _ _ _ E (Hkind eq_refl)). }
    intros [r mark]. cbn [fst]. set (P' := both P (fun _ _ _ => fixed_kind (er_kind r) = fixed_kind (er_kind (rc_fields row)))).
    assert (HP' : stable P') by (unfold P'; auto with stable).
    eapply triple_bind; [by apply triple_validateReferences|]. intros [].
    eapply triple_bind; [apply (triple_lift P' _ (fun _ => P')); auto|]. intros after.
    eapply (triple_bind _ _ _ (fun _ => P')).
    { destruct (eqb _ _); [by apply triple_ret|].
      eapply triple_bind; [apply (triple_query P' _ (fun _ => P')); auto|]. intros ids.
      eapply triple_bind; [apply (triple_query_for P' _ _ _ (fun _ => P')); auto|]. intros sides.
      destruct (existsb _ _); [apply triple_throw|by apply triple_ret]. }
    intros []. eapply triple_bind; [by apply triple_now|]. intros t.
    eapply triple_bind; [apply (triple_lift P' _ (fun _ => P')); auto|]. intros date.
    eapply (triple_bind _ _ _ (fun _ => P')).
    { destruct (decide (fixed_kind (er_kind r) = fixed_kind (er_kind (rc_fields row)))) as [Ek|Hn]; [|intros c H g [_ Hk]; exfalso; exact (Hn Hk)].
      apply (triple_update_receipt R (u, fixed_kind (er_kind (rc_fields row)))); [done| | |].
      - by intros c H g [[[Hl _] Hb] _].
      - intros r0 [= Hu Hk]. unfold head. cbn. by rewrite Hu, Ek.
      - intros c c' H g [[[_ Hn] Hb] _] Ei Hl _. split; [|done]. split; [|done]. split; [done|]. unfold no_images in *. congruence. }
    intros []. eapply triple_bind; [apply (triple_query P' _ (fun _ => P')); auto|].
    intros [row'|]; [|apply triple_lift; [done|done]]. apply triple_ret; [done|]. by intros c H g [[He _] _].
Qed.
End Ledger.
