(* ===== verification/TxPhotos.v ===== *)
(** * Uploads among others

    [photos]: the images one upload or addition has written so far.  Under the
    user's advisory lock nobody else adds an image of his, so what was counted and
    compared before the first insert still holds when the transaction commits. *)
From S2P Require Import Prelude CString Binary64 Json Kinds JsonInput LedgerInput TokenUtils RateLimiter Env Db World.
From S2P Require Import ItemService ReceiptService ReferenceData Invariant Safety Transactions TxServices.
From S2P Require Import Interleave TxLogic TxAssertions TxLedger.

(** ** What the advisory lock keeps *)

Definition mine (u : Z) (d : Db) : gmap Z image_row := filter (fun kv => im_user_id kv.2 = u) (rows (receipt_images d)).
Definition of_receipt (rid : Z) (m : gmap Z image_row) : gmap Z image_row := filter (fun kv => im_receipt_id kv.2 = rid) m.
Definition antitone (F : gmap Z image_row -> Prop) : Prop := forall m m', m' ⊆ m -> F m -> F m'.
Definition guarded (u : Z) (F : gmap Z image_row -> Prop) : Asn := fun _ H g =>
  (UserImages u, ForUpdate) ∈ H /\ F (mine u g.2).
(** None of the user's photographs is among [hashes]; at most [n] are on the receipt. *)
Definition unseen (hashes : list string) (m : gmap Z image_row) : Prop := map_Forall (fun _ i => im_image_sha256 i ∉ hashes) m.
Definition at_most (rid n : Z) (m : gmap Z image_row) : Prop := Z.of_nat (base.size (of_receipt rid m)) <= n.

Lemma stable_guarded u F : antitone F -> stable (guarded u F).
Proof.
  intros HF. split; [| |done].
  - intros c H g g' [Hl Hm] Hr. split; [done|]. eapply HF; [|exact Hm]. apply map_subseteq_spec. intros k i.
    unfold mine. rewrite !map_lookup_filter_Some. intros [E Eu]. split; [|done]. by eapply rl_user.
  - intros c H H' g [Hl Hm] Hs. split; [by apply Hs|done].
Qed.
Lemma antitone_unseen hashes : antitone (unseen hashes).
Proof. intros m m' Hs Hm k i E. eapply Hm, lookup_weaken; eassumption. Qed.
Lemma antitone_at_most rid n : antitone (at_most rid n).
Proof.
  intros m m' Hs Hm. unfold at_most in *. assert (base.size (of_receipt rid m') <= base.size (of_receipt rid m))%nat; [|lia].
  apply map_subseteq_size, map_subseteq_spec. intros k i. unfold of_receipt.
  rewrite !map_lookup_filter_Some. intros [E ?]. split; [by eapply lookup_weaken|done].
Qed.
Lemma image_count_size rid d : image_count rid d = Z.of_nat (base.size (of_receipt rid (rows (receipt_images d)))).
Proof.
  unfold image_count, select, of_receipt. rewrite length_map_to_list. do 2 f_equal. apply map_filter_ext.
  intros k i _. cbn. by rewrite Z.eqb_eq.
Qed.

(** ** What an upload has written *)

Definition image_anchored (k : Z) (i : image_row) : Asn := fun c H g =>
  present (im_receipt_id i) c H g \/ exists i0, image_pinned k i0 c H g /\ im_receipt_id i0 = im_receipt_id i.
Definition image_sound (u rid : Z) (hashes : list string) (k : Z) (i : image_row) : Asn := fun c H g =>
  (im_user_id i = u /\ im_receipt_id i = rid /\ im_image_sha256 i ∈ hashes) /\ image_anchored k i c H g.
Definition photos (u rid : Z) (hashes : list string) (n : nat) : Asn := fun c H g =>
  written dl_images (some_sound (image_sound u rid hashes)) c H g /\ (base.size (dl_images c) <= n)%nat.

Lemma stable_image_anchored k i : stable (image_anchored k i).
Proof.
  apply stable_or; [apply stable_present|]. apply stable_ex. intros i0.
  apply (stable_and _ (fun _ _ _ => im_receipt_id i0 = im_receipt_id i)); [apply stable_image_pinned|apply stable_const].
Qed.
Lemma stable_photos u rid hashes n : stable (photos u rid hashes n).
Proof.
  apply (stable_and _ (fun c _ _ => (base.size (dl_images c) <= n)%nat)).
  - apply stable_written; [by intros c c' (_ & _ & E & _)|]. intros k o. apply stable_some_sound. intros i.
    apply (stable_and (fun _ _ _ => im_user_id i = u /\ im_receipt_id i = rid /\ im_image_sha256 i ∈ hashes));
      [apply stable_const|apply stable_image_anchored].
  - split; [done..|]. intros c c' H g Hn (_ & _ & E & _). by rewrite E.
Qed.
Lemma photos_none u rid hashes c H g : dl_images c = ∅ -> photos u rid hashes 0 c H g.
Proof. intros E. split; [intros k o; by rewrite E, lookup_empty|]. rewrite E, map_size_empty. lia. Qed.
Lemma photos_writes u rid hashes n c c' H g : dl_images c' = dl_images c ->
  (forall k r, dl_receipts c !! k = Some (Some r) -> exists r', dl_receipts c' !! k = Some (Some r')) ->
  photos u rid hashes n c H g -> photos u rid hashes n c' H g.
Proof.
  intros E Hr [Hw Hn]. split; [|by rewrite E]. intros k o. rewrite E. intros Ek.
  destruct (Hw k o Ek) as (i & -> & Hi & Ha). exists i. split; [done|]. split; [done|].
  destruct Ha as [Hp|Ha]; [left; eapply present_writes; [apply Hr|exact Hp]|by right].
Qed.
(** The reference of an image just written anchors it. *)
Lemma written_image_anchored c H g k row :
  covered c H g.2 -> dl_images c !! k = Some (Some row) ->
  (forall k o, dl_receipts c !! k = Some o -> is_Some o) ->
  is_Some (rows (receipts (overlay c g.2)) !! im_receipt_id row) -> image_anchored k row c H g.
Proof.
  intros Hc Ek Hr Hp. rewrite see_receipt in Hp. destruct (dl_receipts c !! im_receipt_id row) as [o|] eqn:E.
  { left. left. destruct (Hr _ _ E) as [r ->]. by exists r. }
  destruct (cv_image_refs _ _ _ Hc k row (Row TReceipts (im_receipt_id row)) Ek) as [Hl|(a0 & Ea & Href)]; [left|..].
  { left. right. by split. }
  right. exists a0. split.
  - split; [|done]. destruct (cv_images _ _ _ Hc k _ Ek) as (mode & Hm & Hd). exists mode. split; [|done].
    by destruct Hd as [->|[-> _]].
  - unfold image_refs in Href. apply elem_of_cons in Href as [[= ->]|Href]; [done|].
    apply elem_of_cons in Href as [Href|Href]; [done|by apply not_elem_of_nil in Href].
Qed.

Section Photos.
Context `{PG : Postgres} `{IS : ImageStore} `{SO : Sodium} `{EN : Environment} `{VI : Vips} `{PL : Platform}.
Context `{TE : Terms}.

(** An upload of [n] out of [total] photographs for receipt [rid]. *)
Definition storing (u rid : Z) (kind : string) (hashes : list string) (total : Z) (n : nat) : Asn :=
  both (both ledger (born rid (u, kind)))
    (both (both (photos u rid hashes n) (guarded u (at_most rid (cap - total))))
       (fun c H g => forced u \/ guarded u (unseen hashes) c H g)).
Lemma stable_storing u rid kind hashes total n : stable (storing u rid kind hashes total n).
Proof.
  apply stable_and; [auto with stable|]. apply stable_and.
  - apply stable_and; [apply stable_photos|apply stable_guarded, antitone_at_most].
  - apply (stable_or (fun _ _ _ => forced u)); [apply stable_const|apply stable_guarded, antitone_unseen].
Qed.
Hint Resolve stable_storing : stable.

Lemma storing_cap u rid kind hashes total n c H g r : inv g.1 g.2 -> Z.of_nat n <= total ->
  storing u rid kind hashes total n c H g -> image_count r (overlay c g.2) <= cap.
Proof.
  intros Hi Hn [[Hl Hb] [[[Hw Hs] [_ Hm]] _]]. rewrite image_count_size. unfold at_most in Hm.
  pose proof (io_cap _ (inv_images _ _ Hi) r) as Hcap. rewrite image_count_size in Hcap.
  destruct (decide (r = rid)) as [->|Hr].
  - assert (base.size (of_receipt rid (rows (receipt_images (overlay c g.2)))) <=
            base.size (of_receipt rid (mine u g.2)) + base.size (dl_images c))%nat; [|lia].
    rewrite <- !size_dom. etransitivity; [|apply Nat.eq_le_incl; reflexivity].
    etransitivity; [apply (subseteq_size _ (dom (of_receipt rid (mine u g.2)) ∪ dom (dl_images c)))|].
    + intros k [i [E Er]%map_lookup_filter_Some]%elem_of_dom. rewrite see_image in E. cbn in Er.
      destruct (dl_images c !! k) as [o|] eqn:Ek; [apply elem_of_union_r, elem_of_dom; eauto|].
      apply elem_of_union_l, elem_of_dom. exists i. apply map_lookup_filter_Some. split; [|done].
      apply map_lookup_filter_Some. split; [done|]. cbn.
      destruct (io_receipt _ (inv_images _ _ Hi) k i E) as (r0 & E0 & <-). rewrite Er in E0.
      pose proof (inv_heads _ _ Hi rid r0 E0) as Hb'. unfold born in Hb. rewrite Hb in Hb'. by injection Hb'.
    + rewrite size_union_alt. apply Nat.add_le_mono_l, subseteq_size. set_solver.
  - assert (base.size (of_receipt r (rows (receipt_images (overlay c g.2)))) <=
            base.size (of_receipt r (rows (receipt_images g.2))))%nat; [|lia].
    apply map_subseteq_size, map_subseteq_spec. intros k i. unfold of_receipt. rewrite !map_lookup_filter_Some.
    rewrite see_image. intros [E Er]. cbn in Er. split; [|done].
    destruct (dl_images c !! k) as [o|] eqn:Ek; [|done]. subst o.
    destruct (Hw k _ Ek) as (i' & [= <-] & (_ & Hrid & _) & _). congruence.
Qed.
Lemma storing_dedup u rid kind hashes total n c H g k1 k2 i1 i2 : inv g.1 g.2 ->
  storing u rid kind hashes total n c H g ->
  rows (receipt_images (overlay c g.2)) !! k1 = Some i1 -> rows (receipt_images (overlay c g.2)) !! k2 = Some i2 ->
  im_user_id i1 = im_user_id i2 -> im_image_sha256 i1 = im_image_sha256 i2 -> ~ forced (im_user_id i1) ->
  im_receipt_id i1 = im_receipt_id i2.
Proof.
  intros Hi [_ [[[Hw _] _] Hf]] E1 E2 Eu Es Hn.
  assert (Hnew : forall k i i', dl_images c !! k = Some (Some i) -> rows (receipt_images g.2) !! k2 = Some i' \/ rows (receipt_images g.2) !! k1 = Some i' ->
    im_user_id i = im_user_id i' -> im_image_sha256 i = im_image_sha256 i' -> ~ forced (im_user_id i) -> False).
  { intros k i i' Ek E' Eu' Es' Hnf. destruct (Hw k _ Ek) as (j & [= <-] & (Hu & _ & Hh) & _).
    destruct Hf as [Hf|[_ Hf]]; [congruence|].
    assert (Hin : exists k', mine u g.2 !! k' = Some i').
    { destruct E' as [E'|E']; eexists; apply map_lookup_filter_Some; (split; [exact E'|cbn; congruence]). }
    destruct Hin as [k' Hin]. apply (Hf k' i' Hin). by rewrite <- Es'. }
  rewrite see_image in E1, E2. destruct (dl_images c !! k1) as [o1|] eqn:K1, (dl_images c !! k2) as [o2|] eqn:K2; subst.
  - destruct (Hw k1 _ K1) as (? & [= <-] & (_ & -> & _) & _), (Hw k2 _ K2) as (? & [= <-] & (_ & -> & _) & _). done.
  - exfalso. eapply (Hnew k1 i1 i2); eauto.
  - exfalso. eapply (Hnew k2 i2 i1); eauto. by rewrite <- Eu.
  - by apply (io_dedup _ (inv_images _ _ Hi) k1 k2).
Qed.
Lemma storing_commits u rid kind hashes total n c H g : inv g.1 g.2 -> Z.of_nat n <= total ->
  storing u rid kind hashes total n c H g -> inv g.1 (overlay c g.2).
Proof.
  intros Hi Hn Hs. pose proof Hs as [[Hl Hb] [[[Hw _] _] _]].
  pose proof (ledger_heads _ _ _ Hi Hl) as Hh. pose proof (ledger_keeps _ _ _ Hi Hl) as Hk.
  split; [exact (inv_below _ _ Hi)|exact Hh| |by eapply ledger_sides|by eapply ledger_categories]. split.
  - intros k i. rewrite see_image. destruct (dl_images c !! k) as [o|] eqn:E.
    + intros ->. destruct (Hw k _ E) as (i' & [= <-] & (Hu & Hr & _) & Ha).
      assert (Hex : is_Some (rows (receipts (overlay c g.2)) !! im_receipt_id i)).
      { destruct Ha as [Hp|(i0 & [_ E0] & <-)]; [by eapply present_seen|].
        destruct (io_receipt _ (inv_images _ _ Hi) k i0 E0) as (r & Er & _).
        destruct (Hk _ r Er) as (r' & -> & _). by exists r'. }
      destruct Hex as [r Er]. exists r. split; [done|]. pose proof (Hh _ _ Er) as Hb'. rewrite Hr in Hb'.
      unfold born in Hb. rewrite Hb in Hb'. injection Hb' as Hu' _. congruence.
    + intros Ei. destruct (io_receipt _ (inv_images _ _ Hi) k i Ei) as (r & Er & Eu).
      destruct (Hk _ r Er) as (r' & Er' & Eu'%head_user). exists r'. split; [done|congruence].
  - intros r. by eapply storing_cap.
  - intros k1 k2 i1 i2. by eapply storing_dedup.
Qed.

(** ** The programs *)

Lemma triple_store_image u rid kind hashes total n prep : pi_sha256Hex prep ∈ hashes ->
  triple (both (storing u rid kind hashes total n) (holding (UserImages u, ForUpdate))) (tx_store_image u rid prep)
    (fun _ => both (storing u rid kind hashes total (S n)) (holding (UserImages u, ForUpdate))).
Proof.
  intros Hh. set (P := both (storing u rid kind hashes total n) (holding (UserImages u, ForUpdate))).
  assert (HP : stable P) by (unfold P; auto with stable). unfold tx_store_image.
  eapply (triple_bind _ _ _ (fun _ => P)).
  { eapply triple_bind; [by apply triple_token|]. intros token. by apply triple_ret. }
  intros key. eapply triple_bind; [by apply triple_put|]. intros [].
  eapply triple_bind; [by apply triple_now|]. intros t. set (row := mkImage rid u key (pi_sha256Hex prep) t).
  apply triple_change_; [done|auto with stable|]. intros c H g d' Hi Hc Hg E.
  unfold sql_insert_image in E. apply obind_Ok in E as ([] & Hfk & [= <-]).
  destruct Hg as [Hs Hl]. split.
  { intros k i. cbn [receipt_images set_field]. unfold insert_row. cbn [rows]. rewrite lookup_insert_Some.
    intros [[_ <-]|[_ Ek]]; [by right|by left]. }
  exists g.1. split; [done|]. split; [exact (inv_below _ _ Hi)|]. split; [by apply in_order_items|].
  intros Hc' [[[Hled Hb] [[Hph Hm] Hf]] Hl']. split; [|done].
  set (c' := record_changes _ _ _) in *.
  assert (Er : dl_receipts c' = dl_receipts c) by by apply record_rows_same.
  assert (Hrw : forall k r, dl_receipts c !! k = Some (Some r) -> exists r', dl_receipts c' !! k = Some (Some r'))
    by (intros k r; rewrite Er; eauto).
  assert (Hledger : ledger c' (change_locks (overlay c g.2) ((overlay c g.2) <| receipt_images ::= insert_row row |>) ++ H) (g.1, rollback_db g.2 ((overlay c g.2) <| receipt_images ::= insert_row row |>))).
  { destruct Hled as [L1 L2 L3]. split; [transitivity (dl_categories c); [by apply record_rows_same|exact L1]|by rewrite Er|].
    intros k o. assert (dl_items c' = dl_items c) as -> by by apply record_rows_same. intros Ek.
    destruct (L3 k o Ek) as (i & -> & Hsd). exists i. split; [done|]. by eapply item_sound_writes. }
  split; [by split|]. split; [|done]. split; [|done]. destruct Hph as [Hw Hn]. split.
  - intros k o Ek. destruct (record_insert (dl_images c) (receipt_images (overlay c g.2))
      (insert_row row (receipt_images (overlay c g.2))) (seq (receipt_images g.2)) row k o eq_refl Ek) as [Eo|[-> ->]].
    + destruct (Hw k o Eo) as (i & -> & Hi' & Ha). exists i. split; [done|]. split; [done|].
      destruct Ha as [Hp|Ha]; [left; eapply present_writes; [apply Hrw|exact Hp]|by right].
    + exists row. split; [done|]. split; [done|]. apply written_image_anchored; [done|done| |].
      * intros k' o'. rewrite Er. intros E'. destruct (lg_receipts _ _ _ Hled k' o' E') as (r & -> & _). by exists r.
      * unfold guard in Hfk. destruct (fk _ (receipts _) && _) eqn:Ef; [|done].
        apply andb_prop in Ef as [Ef _]. apply bool_decide_eq_true in Ef. rewrite see_receipt, Er. by rewrite see_receipt in Ef.
  - etransitivity; [by apply (record_insert_size _ _ _ (seq (receipt_images g.2)) row)|lia].
Qed.
Lemma triple_storeImages u rid kind hashes total n prepared : Forall (fun p => pi_sha256Hex p ∈ hashes) prepared ->
  triple (both (storing u rid kind hashes total n) (holding (UserImages u, ForUpdate))) (tx_storeImages u rid prepared)
    (fun _ => both (storing u rid kind hashes total (n + length prepared)) (holding (UserImages u, ForUpdate))).
Proof.
  unfold tx_storeImages. revert n. induction prepared as [|prep prepared IH]; intros n Hh; cbn [tfor_each length].
  - rewrite Nat.add_0_r. apply triple_ret; auto with stable.
  - apply Forall_cons in Hh as [Hh Hhs]. eapply triple_bind; [by apply triple_store_image|]. intros [].
    replace (n + S (length prepared))%nat with (S n + length prepared)%nat by lia. by apply IH.
Qed.

Lemma triple_findConflict u (P : Asn) prepared : stable P ->
  (forall c H g, P c H g -> clean c H g /\ holding (UserImages u, ForUpdate) c H g) ->
  triple P (tx_findConflict u prepared)
    (fun o => both P (match o with None => guarded u (unseen (map pi_sha256Hex prepared)) | Some _ => fun _ _ _ => True end)).
Proof.
  revert P. induction prepared as [|prep prepared IH]; intros P HP Hcl; cbn [tx_findConflict map].
  - apply triple_ret; [done|]. intros c H g Hg. split; [done|]. split; [by apply (Hcl _ _ _ Hg)|].
    intros k i _. apply not_elem_of_nil.
  - eapply (triple_bind _ _ _ (fun dup => both P (match dup with [] => guarded u (unseen [pi_sha256Hex prep]) | _ => fun _ _ _ => True end))).
    + apply triple_query; [done|intros []; apply stable_and; auto with stable; apply stable_guarded, antitone_unseen|].
      intros c H g Hi Hg. split; [done|]. destruct (select _ _) as [|x l] eqn:Es; [|done].
      destruct (Hcl _ _ _ Hg) as [(_ & _ & Ei & _) Hl]. split; [done|]. intros k i [E Eu]%map_lookup_filter_Some Hh.
      apply list_elem_of_singleton in Hh. cbn in Eu. apply (not_elem_of_nil (k, i)). rewrite <- Es. apply select_spec.
      * rewrite see_image, Ei. exact E.
      * rewrite (proj2 (Z.eqb_eq _ _) Eu). by rewrite bool_decide_true.
    + intros [|[id dup] l]; [|apply triple_ret; auto with stable; by intros c H g []].
      eapply triple_weaken; [apply (IH (both P (guarded u (unseen [pi_sha256Hex prep]))))|done|].
      * apply stable_and; [done|apply stable_guarded, antitone_unseen].
      * intros c H g [Hg _]. by apply Hcl.
      * intros [o|] c H g [[Hg [Hl H1]] H2]; (split; [done|]); [done|]. destruct H2 as [_ H2]. split; [done|].
        intros k i E [Hh|Hh]%elem_of_cons; [by apply (H1 k i E), list_elem_of_singleton|by apply (H2 k i E)].
Qed.
(** The dedup check as it is called, [force] included. *)
Lemma triple_checked u (P : Asn) force prepared : stable P -> (force = true -> forced u) ->
  (forall c H g, P c H g -> clean c H g /\ holding (UserImages u, ForUpdate) c H g) ->
  triple P (if force then tret None else tx_findConflict u prepared)
    (fun o => both P (match o with
                      | None => fun c H g => forced u \/ guarded u (unseen (map pi_sha256Hex prepared)) c H g
                      | Some _ => fun _ _ _ => True
                      end)).
Proof.
  intros HP Hf Hcl. destruct force.
  - apply triple_ret; [done|]. intros c H g Hg. split; [done|]. left. by apply Hf.
  - eapply triple_weaken; [by apply triple_findConflict|done|]. intros [o|] c H g [Hg Hs]; split; try done. by right.
Qed.
Lemma hashes_in prepared : Forall (fun p => pi_sha256Hex p ∈ map pi_sha256Hex prepared) prepared.
Proof. apply Forall_forall. intros p Hp. by apply list_elem_of_fmap_2. Qed.

(** What an upload that commits has stored: all its photographs. *)
Definition stored {A} (u : Z) (prepared : list PreparedImage) (e : ending A) : Asn :=
  match e with
  | Commit _ => fun c H g => exists rid kind,
      storing u rid kind (map pi_sha256Hex prepared) (Z.of_nat (length prepared)) (length prepared) c H g
  | Rollback _ => fun _ _ _ => True
  end.
Lemma commits_stored {A} u prepared : commits (stored (A := A) u prepared).
Proof. intros a c H g Hi _ (rid & kind & Hs). by eapply storing_commits. Qed.

Lemma triple_uploadReceipt u dir prepared force : Z.of_nat (length prepared) <= cap -> (force = true -> forced u) ->
  triple clean (tx_uploadReceipt u dir prepared force) (stored u prepared).
Proof.
  intros Hcap Hf. unfold tx_uploadReceipt, lockUserImages. set (hashes := map pi_sha256Hex prepared).
  set (P := both clean (holding (UserImages u, ForUpdate))). assert (HP : stable P) by (unfold P; auto with stable).
  eapply triple_bind; [apply triple_lock; auto with stable|]. intros [].
  eapply triple_bind; [apply (triple_checked u P); [done|done|by intros c H g []]|].
  intros [conflict|]; [by apply triple_ret; [auto with stable|]|].
  set (P' := both P (fun c H g => forced u \/ guarded u (unseen hashes) c H g)).
  assert (HP' : stable P').
  { apply stable_and; [done|]. apply (stable_or (fun _ _ _ => forced u)); [apply stable_const|apply stable_guarded, antitone_unseen]. }
  eapply triple_bind; [apply (triple_now P' HP')|]. intros t.
  eapply (triple_bind _ _ _ (fun rid => both (storing u rid (fixed_kind kDefaultKind) hashes (Z.of_nat (length prepared)) 0)
    (holding (UserImages u, ForUpdate)))).
  - apply triple_insert_receipt; [done|auto with stable|by intros c H g [[[? _]%clean_entries _] _]|].
    intros c c' H g b id Hi Hid Hb [[Hcl Hl] Hu] Hled Ei. split; [|done]. split; [by split|]. split; [|exact Hu].
    pose proof Hcl as (_ & _ & Eim & _). split; [apply photos_none; by rewrite Ei, Eim|]. split; [exact Hl|].
    assert (Hno : of_receipt id (mine u g.2) = ∅).
    { apply map_empty. intros k. apply eq_None_not_Some. intros [i [[E _]%map_lookup_filter_Some Er]%map_lookup_filter_Some].
      destruct (io_receipt _ (inv_images _ _ Hi) k i E) as (r & E' & _). cbn in Er. rewrite Er in E'.
      pose proof (inv_heads _ _ Hi id r E') as Hb'. by rewrite Hid in Hb'. }
    unfold at_most. rewrite Hno, map_size_empty. lia.
  - intros rid. eapply triple_bind; [apply triple_storeImages, hashes_in|]. intros [].
    apply triple_ret; [auto with stable|]. intros c H g [Hs _]. by exists rid, (fixed_kind kDefaultKind).
Qed.

Lemma triple_addImages u R images force : (forall m, maxImagesPerReceipt = Ok m -> m <= cap) -> (force = true -> forced u) ->
  triple clean (tx_addImages u R images force) (fun e c H g => exists prepared, stored u prepared e c H g).
Proof.
  intros Hmax Hf. unfold tx_addImages.
  eapply (triple_bind _ _ _ (fun o => both clean (match o with Some r => born R (u, fixed_kind (er_kind (rc_fields r))) | None => fun _ _ _ => True end))).
  { apply triple_query; [auto with stable|intros []; apply stable_and; auto with stable|].
    intros c H g Hi Hcl. split; [done|]. destruct (owned_receipt _ _ _) as [r|] eqn:E; [|done].
    exact (entries_seen_receipt _ _ _ _ _ _ Hi (proj1 (clean_entries _ _ _ Hcl)) E). }
  intros [row|]; [|apply triple_throw]. set (kind := fixed_kind (er_kind (rc_fields row))). set (P := both clean (born R (u, kind))).
  assert (HP : stable P) by (unfold P; auto with stable).
  eapply triple_bind; [apply (triple_lift P _ (fun _ => P)); auto|]. intros prepared. unfold lockUserImages.
  set (hashes := map pi_sha256Hex prepared). set (N := Z.of_nat (length prepared)).
  eapply triple_bind; [by apply triple_lock|]. intros [].
  set (P1 := both P (holding (UserImages u, ForUpdate))). assert (HP1 : stable P1) by (unfold P1; auto with stable).
  eapply (triple_bind _ _ _ (fun n => both P1 (guarded u (at_most R n)))).
  { apply triple_query; [done|intros n; apply stable_and; [done|apply stable_guarded, antitone_at_most]|].
    intros c H g Hi [[Hcl Hb] Hl]. split; [by split|]. split; [exact Hl|]. rewrite image_count_size.
    destruct Hcl as (_ & _ & Eim & _). apply Nat2Z.inj_le, map_subseteq_size, map_subseteq_spec. intros k i.
    unfold of_receipt, mine. rewrite !map_lookup_filter_Some. intros [[E _] Er]. split; [|done].
    by rewrite see_image, Eim. }
  intros n. set (P2 := both P1 (guarded u (at_most R n))).
  assert (HP2 : stable P2) by (apply stable_and; [done|apply stable_guarded, antitone_at_most]).
  eapply (triple_bind _ _ _ (fun m => both P2 (fun _ _ _ => m <= cap))).
  { apply triple_lift; [done|]. intros m Hm c H g Hg. split; [done|]. by apply Hmax. }
  intros m. destruct (Z.ltb_spec m (n + N)) as [|Hle]; [apply triple_throw|].
  set (P3 := both P2 (fun _ _ _ => m <= cap)). assert (HP3 : stable P3) by (unfold P3; auto with stable).
  eapply triple_bind; [apply (triple_checked u P3); [done|done|by intros c H g [[[[? _] ?] _] _]]|].
  intros [conflict|].
  { apply triple_ret; [auto with stable|]. intros c H g _. by exists []. }
  set (S n := both (storing u R kind hashes N n) (holding (UserImages u, ForUpdate))).
  assert (HS : forall n, stable (S n)) by (intros; unfold S; auto with stable).
  eapply (triple_bind _ _ _ (fun _ => S (length prepared))).
  { eapply triple_weaken; [apply (triple_storeImages u R kind hashes N 0), hashes_in| |done].
    intros c H g [[[[[Hcl Hb] Hl] [_ Hm]] Hmc] Hu]. split; [|exact Hl].
    pose proof (clean_entries _ _ _ Hcl) as [Hled Hn]. split; [by split|]. split; [|exact Hu]. split; [by apply photos_none|].
    split; [exact Hl|]. unfold at_most in *. lia. }
  intros []. eapply (triple_bind _ _ _ (fun _ => S (length prepared))).
  { apply (triple_update_receipt R (u, kind)); [done|by intros c H g [[[? ?] _] _]|by intros r|].
    intros c c' H g [[[_ Hb] [[Hph Hm] Hu]] Hl] Ei Hled Hrw. split; [|exact Hl]. split; [by split|]. split; [|exact Hu].
    split; [|exact Hm]. by eapply photos_writes. }
  intros []. apply triple_ret; [done|]. intros c H g [Hs _]. exists prepared, R, kind. exact Hs.
Qed.
End Photos.
