(* ===== verification/TxRemovals.v ===== *)
(** * Deletions among others

    [drops]: what a delete has removed, with everything that hung on it; the row
    locks keep new references away until it commits. *)
From S2P Require Import Prelude CString Binary64 Json Kinds JsonInput LedgerInput TokenUtils RateLimiter Env Db World.
From S2P Require Import ItemService ReceiptService ReferenceData Invariant Safety Transactions TxServices.
From S2P Require Import Interleave TxLogic TxAssertions TxLedger.

(** ** Rows deleted *)

Section Drops.
Context `{TE : Terms}.

Record drops (c : Delta) (H : list Lock) (g : ghost) : Prop := {
  dr_receipts : forall k o, dl_receipts c !! k = Some o ->
    match o with Some r => receipt_sound k r c H g | None => (Row TReceipts k, ForUpdate) ∈ H end;
  dr_categories : forall k o, dl_categories c !! k = Some o -> o = None /\ (Row TCategories k, ForUpdate) ∈ H;
  dr_images : forall k o, dl_images c !! k = Some o -> o = None;
  dr_items : forall k i, dl_items c !! k = Some (Some i) ->
    it_category_id i = None /\ exists i0, item_pinned k i0 c H g /\ it_receipt_id i0 = it_receipt_id i;
  dr_image_refs : forall r k i, dl_receipts c !! r = Some None -> rows (receipt_images g.2) !! k = Some i ->
    im_receipt_id i = r -> dl_images c !! k = Some None;
  dr_item_refs : forall r k i, dl_receipts c !! r = Some None -> rows (items g.2) !! k = Some i ->
    it_receipt_id i = r -> dl_items c !! k = Some None;
  dr_category_refs : forall cat k i, dl_categories c !! cat = Some None -> rows (items g.2) !! k = Some i ->
    it_category_id i = Some cat -> is_Some (dl_items c !! k)
}.

Lemma category_ref cat i : Row TCategories cat ∈ item_refs i <-> it_category_id i = Some cat.
Proof.
  unfold item_refs. rewrite elem_of_cons. destruct (it_category_id i) as [x|]; cbn; [rewrite list_elem_of_singleton|rewrite elem_of_nil].
  - split; [intros [?|[= ->]]; done|intros [= ->]; by right].
  - split; [intros [?|?]; done|done].
Qed.
Lemma receipt_ref r i : Row TReceipts r ∈ item_refs i <-> it_receipt_id i = r.
Proof.
  unfold item_refs. rewrite elem_of_cons. split; [|intros <-; by left]. intros [[= ->]|Hr]; [done|].
  destruct (it_category_id i); cbn in Hr; [by apply list_elem_of_singleton in Hr|by apply not_elem_of_nil in Hr].
Qed.
Lemma image_receipt_ref r i : Row TReceipts r ∈ image_refs i <-> im_receipt_id i = r.
Proof.
  unfold image_refs. rewrite !elem_of_cons, elem_of_nil. split; [by intros [[= ->]|[?|?]]|intros <-; by left].
Qed.

Lemma stable_drops : stable drops.
Proof.
  split.
  - intros c H g g' [D1 D2 D3 D4 D5 D6 D7] Hr. split.
    + intros k [r|] E; [|exact (D1 k _ E)]. exact (st_rely _ (stable_born _ _) c H _ _ (D1 k _ E) Hr).
    + exact D2.
    + exact D3.
    + intros k i E. destruct (D4 k i E) as (Hc & i0 & Hp & Er). split; [done|]. exists i0. split; [|done].
      exact (st_rely _ (stable_item_pinned _ _) c H _ _ Hp Hr).
    + intros r k i Er Ei Hi. apply image_receipt_ref in Hi.
      destruct (rl_image_refs _ _ _ Hr k i _ Ei Hi (D1 r None Er)) as (i0 & E0 & H0%image_receipt_ref). by apply (D5 r k i0).
    + intros r k i Er Ei Hi. apply receipt_ref in Hi.
      destruct (rl_item_refs _ _ _ Hr k i _ Ei Hi (D1 r None Er)) as (i0 & E0 & H0%receipt_ref). by apply (D6 r k i0).
    + intros cat k i Ec Ei Hi. apply category_ref in Hi. destruct (D2 cat None Ec) as [_ Hl].
      destruct (rl_item_refs _ _ _ Hr k i _ Ei Hi Hl) as (i0 & E0 & H0%category_ref). by apply (D7 cat k i0).
  - intros c H H' g [D1 D2 D3 D4 D5 D6 D7] Hs. split; [| |done| |done..].
    + intros k [r|] E; [exact (D1 k _ E)|apply Hs; exact (D1 k _ E)].
    + intros k o E. destruct (D2 k o E). split; [done|by apply Hs].
    + intros k i E. destruct (D4 k i E) as (Hc & i0 & Hp & Er). split; [done|]. exists i0. split; [|done].
      exact (st_locks _ (stable_item_pinned _ _) c H H' g Hp Hs).
  - intros c c' H g [D1 D2 D3 D4 D5 D6 D7] (E1 & E2 & E3 & E4). split; rewrite ?E1, ?E2, ?E3, ?E4; done.
Qed.

End Drops.

Section Removals.
Context `{PG : Postgres} `{IS : ImageStore} `{SO : Sodium} `{EN : Environment} `{VI : Vips} `{PL : Platform}.
Context `{TE : Terms}.

(** A receipt the view still shows has the head it had. *)
Lemma drops_receipt c H g k r : inv g.1 g.2 -> drops c H g -> rows (receipts g.2) !! k = Some r ->
  dl_receipts c !! k <> Some None ->
  exists r', rows (receipts (overlay c g.2)) !! k = Some r' /\ head r' = head r.
Proof.
  intros Hi Hd Er Hn. rewrite see_receipt. destruct (dl_receipts c !! k) as [[r'|]|] eqn:E; [|done|by exists r].
  exists r'. split; [done|]. pose proof (dr_receipts _ _ _ Hd k _ E) as Hb. pose proof (inv_heads _ _ Hi k r Er) as Hb'.
  unfold receipt_sound, born in Hb. rewrite Hb in Hb'. by apply (inj Some) in Hb'.
Qed.
Lemma drops_image c H g k i : drops c H g -> rows (receipt_images (overlay c g.2)) !! k = Some i ->
  rows (receipt_images g.2) !! k = Some i /\ dl_images c !! k = None.
Proof.
  intros Hd. rewrite see_image. destruct (dl_images c !! k) as [o|] eqn:E; [|done].
  by rewrite (dr_images _ _ _ Hd k o E).
Qed.
Lemma drops_images c H g : inv g.1 g.2 -> drops c H g -> images_ok (overlay c g.2).
Proof.
  intros Hi Hd. destruct (inv_images _ _ Hi) as [Hr Hc Hdup]. split.
  - intros k i E. destruct (drops_image _ _ _ _ _ Hd E) as [Ei En]. destruct (Hr k i Ei) as (r & Er & Eu).
    destruct (drops_receipt _ _ _ _ _ Hi Hd Er) as (r' & Er' & Eu').
    + intros Hn. by rewrite (dr_image_refs _ _ _ Hd _ _ _ Hn Ei eq_refl) in En.
    + apply head_user in Eu'. exists r'. split; [done|congruence].
  - intros r. etransitivity; [|apply (Hc r)]. unfold image_count, select. rewrite !length_map_to_list.
    apply inj_le, map_subseteq_size, map_subseteq_spec. intros k i. rewrite !map_lookup_filter_Some.
    intros [E Eq]. split; [by apply (drops_image c H)|done].
  - intros k1 k2 i1 i2 E1 E2. apply (Hdup k1 k2); by eapply (drops_image c H).
Qed.
Lemma drops_sides c H g : inv g.1 g.2 -> drops c H g -> kinds_fixed = true -> sides_ok (overlay c g.2).
Proof.
  intros Hi Hd Hs k i. rewrite see_item. destruct (dl_items c !! k) as [o|] eqn:E.
  - intros ->. destruct (dr_items _ _ _ Hd k i E) as (Hc & i0 & [_ E0] & ER).
    destruct (inv_sides _ _ Hi Hs k i0 E0) as (r & Er & _). rewrite ER in Er.
    destruct (drops_receipt _ _ _ _ _ Hi Hd Er) as (r' & Er' & _).
    + intros Hn. rewrite (dr_item_refs _ _ _ Hd _ _ _ Hn E0 ER) in E. done.
    + exists r'. split; [done|]. intros cat Ec. congruence.
  - intros Ei. destruct (inv_sides _ _ Hi Hs k i Ei) as (r & Er & Hf).
    destruct (drops_receipt _ _ _ _ _ Hi Hd Er) as (r' & Er' & Eh).
    + intros Hn. by rewrite (dr_item_refs _ _ _ Hd _ _ _ Hn Ei eq_refl) in E.
    + exists r'. split; [done|]. intros cat Ec. destruct (Hf cat Ec) as (cr & Ecr & Hfit). exists cr.
      rewrite see_category, (head_kind _ _ Hs Eh), <- (head_kind _ _ Hs eq_refl). destruct (dl_categories c !! cat) as [o|] eqn:Eo; [|done].
      destruct (dr_categories _ _ _ Hd cat o Eo) as [-> _].
      destruct (dr_category_refs _ _ _ Hd _ _ _ Eo Ei Ec) as [x Ex]. congruence.
Qed.
Lemma drops_commits c H g : inv g.1 g.2 -> drops c H g -> inv g.1 (overlay c g.2).
Proof.
  intros Hi Hd. split; [exact (inv_below _ _ Hi)| |by eapply drops_images|by eapply drops_sides|].
  2:{ intros k a. rewrite see_category. destruct (dl_categories c !! k) as [o|] eqn:E; [|apply (inv_categories _ _ Hi)].
      by destruct (dr_categories _ _ _ Hd k o E) as [-> _]. }
  intros k r. rewrite see_receipt. destruct (dl_receipts c !! k) as [o|] eqn:E; [|apply (inv_heads _ _ Hi)].
  intros ->. exact (dr_receipts _ _ _ Hd k _ E).
Qed.
Lemma clean_drops c H g : clean c H g -> drops c H g.
Proof.
  intros (E1 & E2 & E3 & E4). cbn in *.
  split; rewrite ?E1, ?E2, ?E3, ?E4; intros *; rewrite ?lookup_empty; try done; by rewrite lookup_empty.
Qed.

(** ** The deletes *)

Lemma first_record {A} `{EqDecision A} (ws : writes A) (old new : table A) k o : ws = ∅ ->
  record_rows ws old new !! k = Some o <-> rows old !! k <> rows new !! k /\ rows new !! k = o.
Proof.
  intros ->. rewrite lookup_record_rows. case_decide as Hd; rewrite ?lookup_empty; split; [done|by intros []|by intros [= <-]|].
  by intros [_ <-].
Qed.
(** A delete adds no image and no item, and moves no sequence. *)
Definition spares (d d' : Db) : Prop :=
  (forall k i, rows (receipt_images d') !! k = Some i -> rows (receipt_images d) !! k = Some i) /\
  seq (receipts d') = seq (receipts d) /\ seq (categories d') = seq (categories d) /\ seq (items d') = seq (items d) /\
  (forall k i, rows (items d') !! k = Some i -> is_Some (rows (items d) !! k)).
Lemma spares_refl d : spares d d.
Proof. do 4 (split; [done|]). by intros k i ->. Qed.
Lemma spares_item id d : spares d (delete_item id d).
Proof. do 4 (split; [done|]). cbn. intros k i [_ ->]%lookup_delete_Some. by exists i. Qed.
Lemma spares_receipt id d : spares d (delete_receipt id d).
Proof.
  split; [cbn; by intros k i [? _]%map_lookup_filter_Some|]. do 3 (split; [done|]). cbn.
  intros k i [-> _]%map_lookup_filter_Some. by exists i.
Qed.
Lemma spares_category id d : spares d (delete_category id d).
Proof. do 4 (split; [done|]). cbn. intros k i (i0 & _ & ->)%lookup_fmap_Some. by exists i0. Qed.
(** A transaction whose one write is a delete. *)
Lemma triple_delete {B} (s : Db -> outcome (B * Db)) :
  (forall d x d', s d = Ok (x, d') -> spares d d') ->
  (forall c H g x d', inv g.1 g.2 -> clean c H g -> s (overlay c g.2) = Ok (x, d') ->
     covered (record_changes c (overlay c g.2) d') H (rollback_db g.2 d') ->
     drops (record_changes c (overlay c g.2) d') H (g.1, rollback_db g.2 d')) ->
  triple clean (tchange s) (fun _ => drops).
Proof.
  intros Hd Hs. apply triple_change; [auto with stable|intros _; apply stable_drops|].
  intros c H g x d' Hi Hc Hcl E. destruct (Hd _ _ _ E) as (Him & Hseq & Hcat & Hseqi & Hit). split; [intros k i Ei; left; by apply Him|].
  exists g.1. split; [done|]. split.
  { intros k h Ek. rewrite Hseq. exact (inv_below _ _ Hi k h Ek). }
  split; [apply in_order_fewer; [by rewrite Hcat|done|exact Hit]|]. intros Hc' Hcl'. eapply Hs; [exact Hi|exact Hcl|exact E|exact Hc'].
Qed.
Lemma drops_same c H g d' : clean c H g -> rows (receipts d') = rows (receipts (overlay c g.2)) ->
  rows (categories d') = rows (categories (overlay c g.2)) -> rows (receipt_images d') = rows (receipt_images (overlay c g.2)) ->
  rows (items d') = rows (items (overlay c g.2)) -> drops (record_changes c (overlay c g.2) d') H (g.1, rollback_db g.2 d').
Proof.
  intros Hcl E1 E2 E3 E4. apply (clean_drops _ H (g.1, rollback_db g.2 d')).
  eapply (st_writes _ stable_clean c _ H (g.1, rollback_db g.2 d')); [exact Hcl|]. repeat split; by apply record_rows_same.
Qed.
Lemma lock_of_delete {A} t (ws : writes A) H k : covers t ws H -> ws !! k = Some None -> (Row t k, ForUpdate) ∈ H.
Proof. intros Hc E. destruct (Hc k _ E) as (mode & Hm & [->|[_ Hn]]); done. Qed.

Lemma drops_delete_item c H g i d' : inv g.1 g.2 -> clean c H g -> d' = delete_item i (overlay c g.2) ->
  drops (record_changes c (overlay c g.2) d') H (g.1, rollback_db g.2 d').
Proof.
  intros Hi Hcl ->. pose proof Hcl as (E1 & E2 & E3 & E4). set (c' := record_changes _ _ _).
  assert (R1 : dl_receipts c' = ∅) by (transitivity (dl_receipts c); [by apply record_rows_same|exact E1]).
  assert (R2 : dl_categories c' = ∅) by (transitivity (dl_categories c); [by apply record_rows_same|exact E2]).
  assert (R3 : dl_images c' = ∅) by (transitivity (dl_images c); [by apply record_rows_same|exact E3]).
  split; rewrite ?R1, ?R2, ?R3; intros *; rewrite ?lookup_empty; try done.
  intros [Hn Ei]%(first_record _ _ _ _ _ E4). cbn in Ei, Hn. apply lookup_delete_Some in Ei as [Hk Ei].
  exfalso. apply Hn. by rewrite lookup_delete_ne.
Qed.

Lemma drops_delete_receipt c H g R d' : inv g.1 g.2 -> clean c H g -> d' = delete_receipt R (overlay c g.2) ->
  covered (record_changes c (overlay c g.2) d') H (rollback_db g.2 d') ->
  drops (record_changes c (overlay c g.2) d') H (g.1, rollback_db g.2 d').
Proof.
  intros Hi Hcl -> Hc. pose proof Hcl as (E1 & E2 & E3 & E4). destruct (clean_view _ _ _ Hcl) as (V1 & V2 & V3 & V4).
  set (d' := delete_receipt R (overlay c g.2)) in *. set (c' := record_changes _ _ _) in *.
  assert (R2 : dl_categories c' = ∅) by (transitivity (dl_categories c); [by apply record_rows_same|exact E2]).
  assert (HR : forall k, rows (receipts d') !! k = if decide (k = R) then None else clear_offset R <$> rows (receipts g.2) !! k).
  { intros k. cbn. rewrite lookup_fmap. case_decide as Hk; [subst; by rewrite lookup_delete_eq|].
    rewrite lookup_delete_ne by done. exact (f_equal (fun m => clear_offset R <$> m !! k) V1). }
  assert (Hgone : forall r, dl_receipts c' !! r = Some None -> r = R).
  { intros r [Hn Er]%(first_record _ _ _ _ _ E1). rewrite HR in Er, Hn. rewrite V1 in Hn. case_decide as Hk; [done|].
    exfalso. apply Hn. by destruct (rows (receipts g.2) !! r). }
  split; rewrite ?R2.
  - intros k o E. pose proof E as [Hn Ek]%(first_record _ _ _ _ _ E1). destruct o as [r|].
    + rewrite HR in Ek. case_decide as Hk; [done|]. apply fmap_Some in Ek as (r0 & E0 & ->).
      pose proof (inv_heads _ _ Hi k r0 E0) as Hb. unfold receipt_sound, born, clear_offset.
      destruct (bool_decide _); exact Hb.
    + by apply (lock_of_delete _ _ _ _ (cv_receipts _ _ _ Hc)).
  - intros k o. by rewrite lookup_empty.
  - intros k o [Hn Ek]%(first_record _ _ _ _ _ E3). destruct o as [i|]; [|done]. exfalso. apply Hn.
    pose proof Ek as Ek'. cbn in Ek'. apply map_lookup_filter_Some in Ek' as [Ek' _].
    transitivity (Some i); [exact Ek'|by symmetry].
  - intros k i [Hn Ek]%(first_record _ _ _ _ _ E4). exfalso. apply Hn.
    pose proof Ek as Ek'. cbn in Ek'. apply map_lookup_filter_Some in Ek' as [Ek' _].
    transitivity (Some i); [exact Ek'|by symmetry].
  - intros r k i Er Ei Hir. rewrite (Hgone r Er) in Hir. apply (first_record _ _ _ _ _ E3).
    assert (En : rows (receipt_images d') !! k = None).
    { cbn. apply map_lookup_filter_None. right. intros j Ej Hj. apply negb_true_iff, Z.eqb_neq in Hj. apply Hj.
      assert (Ej' : rows (receipt_images g.2) !! k = Some j) by (rewrite <- V3; exact Ej).
      change (rows (receipt_images g.2) !! k = Some i) in Ei. cbn. congruence. }
    split; [|exact En]. rewrite En, V3. change (rows (receipt_images g.2) !! k = Some i) in Ei. by rewrite Ei.
  - intros r k i Er Ei Hir. rewrite (Hgone r Er) in Hir. apply (first_record _ _ _ _ _ E4).
    assert (En : rows (items d') !! k = None).
    { cbn. apply map_lookup_filter_None. right. intros j Ej Hj. apply negb_true_iff, Z.eqb_neq in Hj. apply Hj.
      assert (Ej' : rows (items g.2) !! k = Some j) by (rewrite <- V4; exact Ej).
      change (rows (items g.2) !! k = Some i) in Ei. cbn. congruence. }
    split; [|exact En]. rewrite En, V4. change (rows (items g.2) !! k = Some i) in Ei. by rewrite Ei.
  - intros cat k i. by rewrite lookup_empty.
Qed.
Lemma drops_delete_category c H g id d' : inv g.1 g.2 -> clean c H g -> d' = delete_category id (overlay c g.2) ->
  covered (record_changes c (overlay c g.2) d') H (rollback_db g.2 d') ->
  drops (record_changes c (overlay c g.2) d') H (g.1, rollback_db g.2 d').
Proof.
  intros Hi Hcl -> Hc. pose proof Hcl as (E1 & E2 & E3 & E4). destruct (clean_view _ _ _ Hcl) as (V1 & V2 & V3 & V4).
  set (d' := delete_category id (overlay c g.2)) in *. set (c' := record_changes _ _ _) in *.
  assert (R1 : dl_receipts c' = ∅) by (transitivity (dl_receipts c); [by apply record_rows_same|exact E1]).
  assert (R3 : dl_images c' = ∅) by (transitivity (dl_images c); [by apply record_rows_same|exact E3]).
  assert (HI : forall k, rows (items d') !! k = clear_category id <$> rows (items g.2) !! k).
  { intros k. cbn. rewrite lookup_fmap. exact (f_equal (fun m => clear_category id <$> m !! k) V4). }
  assert (HC : forall k o, dl_categories c' !! k = Some o -> k = id /\ o = None).
  { intros k o [Hn Ek]%(first_record _ _ _ _ _ E2). destruct (decide (k = id)) as [->|Hk].
    - split; [done|]. rewrite <- Ek. cbn. by rewrite lookup_delete_eq.
    - exfalso. apply Hn. cbn. by rewrite lookup_delete_ne. }
  split; rewrite ?R1, ?R3; try (intros *; rewrite lookup_empty; done).
  - intros k o E. destruct (HC k o E) as [-> ->]. split; [done|]. by apply (lock_of_delete _ _ _ _ (cv_categories _ _ _ Hc)).
  - intros k i E. pose proof E as [Hn Ek]%(first_record _ _ _ _ _ E4). rewrite HI in Ek, Hn. rewrite V4 in Hn.
    apply fmap_Some in Ek as (i0 & E0 & ->). rewrite E0 in Hn. cbn in Hn. unfold clear_category in *.
    case_bool_decide as Hcat; [|done]. split; [done|]. exists i0. split; [|done]. split; [|exact E0].
    destruct (cv_items _ _ _ Hc k _ E) as (mode & Hm & Hd). exists mode. split; [|done]. by destruct Hd as [->|[-> _]].
  - intros cat k i E Ei Hcat. destruct (HC cat None E) as [-> _]. exists (Some (clear_category id i)).
    apply (first_record _ _ _ _ _ E4). rewrite HI, V4. change (rows (items g.2) !! k = Some i) in Ei. rewrite Ei. cbn. split; [|done].
    unfold clear_category. rewrite bool_decide_true by done. intros [= Hx]. destruct i. cbn in *. congruence.
Qed.

Lemma triple_deleteReceipt u R : triple clean (tx_deleteReceipt u R) (fun _ => drops).
Proof.
  unfold tx_deleteReceipt. eapply triple_bind; [apply (triple_query clean _ (fun _ => clean)); auto with stable|].
  intros images. eapply triple_bind; [apply triple_delete|].
  - intros d x d' E. unfold sql_delete_receipt in E. destruct (owned_receipt u R d); injection E as <- <-;
      [apply spares_receipt|apply spares_refl].
  - intros c H g x d' Hi Hcl E Hc. unfold sql_delete_receipt in E. destruct (owned_receipt _ _ _); injection E as <- <-.
    + by eapply drops_delete_receipt.
    + by apply drops_same.
  - intros result. apply triple_ret; [apply stable_drops|done].
Qed.
Lemma triple_remove_item u R i : triple clean (tx_remove_item u R i) (fun _ => drops).
Proof.
  unfold tx_remove_item. eapply triple_bind.
  { eapply triple_weaken; [apply (triple_ownedReceiptKind u R clean); [auto with stable|]|done|].
    - by intros c H g [? _]%clean_entries.
    - intros kind c H g [Hcl _]. exact Hcl. }
  intros kind. eapply triple_bind; [apply triple_delete|].
  - intros d x d' E. unfold sql_delete_item in E. destruct (rows (items d) !! i) as [row|]; [destruct (_ =? R)|];
      injection E as <- <-; [apply spares_item|apply spares_refl..].
  - intros c H g x d' Hi Hcl E Hc. unfold sql_delete_item in E. destruct (rows (items _) !! i) as [row|]; [destruct (_ =? R)|];
      injection E as <- <-; [by eapply drops_delete_item|by apply drops_same..].
  - intros []; [apply triple_ret; [apply stable_drops|done]|apply triple_throw].
Qed.
Lemma triple_remove_category u id : triple clean (tx_remove_category u id) (fun _ => drops).
Proof.
  unfold tx_remove_category, tx_statement. eapply triple_bind; [apply triple_delete|].
  - intros d x d' E. unfold delete_owned in E.
    destruct (owned_category u id d); injection E as <- <-; [apply spares_category|apply spares_refl].
  - intros c H g x d' Hi Hcl E Hc. unfold delete_owned in E. destruct (owned_category _ _ _); injection E as <- <-.
    + by eapply drops_delete_category.
    + by apply drops_same.
  - intros b. apply triple_ret; [apply stable_drops|done].
Qed.
(** A payment method goes; the receipts paid with it stay as they are but for the reference. *)
Lemma triple_remove_payment_method u id : triple clean (tx_remove_payment_method u id) (fun _ => drops).
Proof.
  unfold tx_remove_payment_method, tx_statement. eapply triple_bind; [apply triple_delete|].
  - intros d x d' E. unfold delete_owned in E. destruct (owned_payment_method u id d); injection E as <- <-;
      exact (spares_refl d).
  - intros c H g x d' Hi Hcl E Hc. unfold delete_owned in E. destruct (owned_payment_method _ _ _); injection E as <- <-;
      [|by apply drops_same].
    pose proof Hcl as (E1 & E2 & E3 & E4). destruct (clean_view _ _ _ Hcl) as (V1 & _ & _ & _).
    set (d' := delete_payment_method id (overlay c g.2)) in *. set (c' := record_changes _ _ _) in *.
    assert (R2 : dl_categories c' = ∅) by (transitivity (dl_categories c); [by apply record_rows_same|exact E2]).
    assert (R3 : dl_images c' = ∅) by (transitivity (dl_images c); [by apply record_rows_same|exact E3]).
    assert (R4 : dl_items c' = ∅) by (transitivity (dl_items c); [by apply record_rows_same|exact E4]).
    assert (Hr : forall k o, dl_receipts c' !! k = Some o -> exists r0, rows (receipts g.2) !! k = Some r0 /\ o = Some (clear_payment id r0)).
    { intros k o [Hn Ek]%(first_record _ _ _ _ _ E1). cbn in Ek. rewrite lookup_fmap in Ek.
      assert (Ev : clear_payment id <$> rows (receipts g.2) !! k = o) by (rewrite <- Ek; symmetry; exact (f_equal (fun m => clear_payment id <$> m !! k) V1)).
      destruct (rows (receipts g.2) !! k) as [r0|] eqn:Er; [by exists r0|]. exfalso. apply Hn. rewrite V1, Er.
      pose proof (f_equal (fun m => clear_payment id <$> m !! k) V1) as Ek'. cbn in Ek' |- *. by rewrite lookup_fmap, Ek', Er. }
    split; rewrite ?R2, ?R3, ?R4; try (intros *; rewrite lookup_empty; done).
    + intros k o (r0 & E0 & ->)%Hr. unfold receipt_sound, born. cbn [fst]. rewrite (inv_heads _ _ Hi k r0 E0).
      unfold clear_payment. by destruct (bool_decide _).
    + by intros r k i (r0 & _ & ?)%Hr.
    + by intros r k i (r0 & _ & ?)%Hr.
  - intros b. apply triple_ret; [apply stable_drops|done].
Qed.
End Removals.
#[export] Hint Resolve stable_drops : stable.
