(* ===== verification/TxReference.v ===== *)
(** * Categories and the other lists among others

    [flips]: an edited category, locked FOR UPDATE since its items were looked at;
    [category_added]: a new one, under an id nobody has.  Tags and payment methods
    are tables the invariant does not speak of. *)
From S2P Require Import Prelude CString Binary64 Json Kinds JsonInput LedgerInput TokenUtils RateLimiter Env Db World.
From S2P Require Import ItemService ReceiptService ReferenceData Invariant Safety Transactions TxServices.
From S2P Require Import Interleave TxLogic TxAssertions TxLedger TxRemovals.

Section Reference.
Context `{PG : Postgres} `{IS : ImageStore} `{SO : Sodium} `{EN : Environment} `{VI : Vips} `{PL : Platform}.
Context `{TE : Terms}.

(** ** A category edited *)

Definition editing (id : Z) (cr : category_row) : Asn :=
  both clean (both (holding (Row TCategories id, ForUpdate)) (pinned TCategories categories id cr)).
(** No item is in the category. *)
Definition unused (id : Z) : Asn := both (holding (Row TCategories id, ForUpdate))
  (fun _ _ g => forall k i, rows (items g.2) !! k = Some i -> it_category_id i <> Some id).
Definition may_flip (id : Z) (cr : category_row) (side : bool) : Asn := fun c H g =>
  c_is_income cr = side \/ unused id c H g.
(** Nothing but the category was written, and its side is the old one unless it is unused. *)
Definition flips (id : Z) (row : category_row) : Asn := fun c H g =>
  dl_receipts c = ∅ /\ dl_images c = ∅ /\ dl_items c = ∅ /\
  (forall k o, dl_categories c !! k = Some o -> k = id /\ o = Some row) /\
  exists cr, pinned TCategories categories id cr c H g /\
    (kinds_fixed = true -> may_flip id cr (c_is_income row) c H g).

Lemma stable_unused id : stable (unused id).
Proof.
  split; [| |done].
  - intros c H g g' [Hl Hu] Hr. split; [done|]. intros k i E Ei. apply category_ref in Ei.
    destruct (rl_item_refs _ _ _ Hr k i _ E Ei Hl) as (i0 & E0 & H0%category_ref). by apply (Hu k i0).
  - intros c H H' g [Hl Hu] Hs. split; [by apply Hs|done].
Qed.
Lemma stable_may_flip id cr side : stable (may_flip id cr side).
Proof. apply (stable_or (fun _ _ _ => c_is_income cr = side)); [apply stable_const|apply stable_unused]. Qed.
Lemma stable_editing id cr : stable (editing id cr).
Proof. apply stable_and; auto with stable. Qed.
Lemma stable_flips id row : stable (flips id row).
Proof.
  assert (HS : stable (fun c H g => exists cr, pinned TCategories categories id cr c H g /\
    (kinds_fixed = true -> may_flip id cr (c_is_income row) c H g))).
  { apply stable_ex. intros cr. apply (stable_and _ (fun c H g => kinds_fixed = true -> may_flip id cr (c_is_income row) c H g));
      [auto with stable|apply stable_impl, stable_may_flip]. }
  destruct HS as [SR SL SW]. split.
  - intros c H g g' (E1 & E3 & E4 & E2 & Hx) Hr. repeat split; try done; [by eapply E2..|by eapply SR].
  - intros c H H' g (E1 & E3 & E4 & E2 & Hx) Hs. repeat split; try done; [by eapply E2..|by eapply SL].
  - intros c c' H g (E1 & E3 & E4 & E2 & Hx) Hw. pose proof Hw as (W1 & W2 & W3 & W4).
    split; [congruence|]. split; [congruence|]. split; [congruence|]. split; [by rewrite W2|by eapply SW].
Qed.
Hint Resolve stable_editing stable_flips stable_unused stable_may_flip stable_impl : stable.

Lemma flips_commits id row c H g : inv g.1 g.2 -> flips id row c H g -> inv g.1 (overlay c g.2).
Proof.
  intros Hi (E1 & E3 & E4 & E2 & cr & [_ Ecr] & Hm). destruct Hi as [Hb Hh [Hr Hc Hd] Hs Hcb].
  assert (R1 : receipts (overlay c g.2) = receipts g.2) by (cbn; rewrite E1; apply overlay_table_empty).
  assert (R3 : receipt_images (overlay c g.2) = receipt_images g.2) by (cbn; rewrite E3; apply overlay_table_empty).
  split; [exact Hb|intros k r; rewrite R1; apply Hh| | |].
  - split; [rewrite R3, R1; exact Hr|unfold image_count; rewrite R3; exact Hc|rewrite R3; exact Hd].
  - intros Hk k i. rewrite see_item, E4, lookup_empty, R1. intros Ei. destruct (Hs Hk k i Ei) as (r & Er & Hf).
    exists r. split; [done|]. intros cat Ec. destruct (Hf cat Ec) as (cr' & Ecr' & Hfit).
    rewrite see_category. destruct (dl_categories c !! cat) as [o|] eqn:Eo; [|by exists cr'].
    destruct (E2 cat o Eo) as [-> ->]. exists row. split; [done|]. rewrite Ecr in Ecr'. injection Ecr' as <-.
    destruct (Hm Hk) as [<-|[_ Hu]]; [done|]. by destruct (Hu k i Ei).
  - intros k a. rewrite see_category. destruct (dl_categories c !! k) as [o|] eqn:Eo; [|apply Hcb].
    destruct (E2 k o Eo) as [-> ->]. intros _. exact (Hcb id cr Ecr).
Qed.

Lemma fits_known side kind : fits side kind -> is_Some (findKind kind).
Proof. unfold fits, categoryFitsKind, rulesFor. by destruct (findKind kind). Qed.
Lemma fits_unique side side' kind : fits side kind -> fits side' kind -> side = side'.
Proof.
  unfold fits, categoryFitsKind. destruct (rulesFor kind) as [rules| |]; [|done..]. cbn. intros [= H1] [= H2].
  by destruct side, side', (usesIncomeCategories rules).
Qed.
(** The clash query under the lock: to be flipped, a category has to be unused. *)
Lemma no_clash_unused id cr side d b : kinds_fixed = true -> inv b d -> rows (categories d) !! id = Some cr -> c_is_income cr <> side ->
  category_clash id side d = false -> forall k i, rows (items d) !! k = Some i -> it_category_id i <> Some id.
Proof.
  intros Hs Hi Ecr Hn Hcl k i Ei Ec. destruct (inv_sides _ _ Hi Hs k i Ei) as (r & Er & Hf).
  destruct (Hf id Ec) as (cr' & Ecr' & Hfit). rewrite Ecr in Ecr'. injection Ecr' as <-. apply Hn.
  apply (fits_unique _ _ _ Hfit), kind_side; [by eapply fits_known|].
  pose proof (existsb_false _ _ (k, i) Hcl (select_spec _ _ k i Ei (bool_decide_eq_true_2 _ Ec))) as Hb.
  cbv beta iota in Hb. cbn [snd] in Hb. rewrite Er in Hb. by apply negb_false_iff, eqb_prop in Hb.
Qed.
Lemma clash_view id side c d : dl_receipts c = ∅ -> dl_items c = ∅ ->
  category_clash id side (overlay c d) = category_clash id side d.
Proof.
  intros E1 E4. unfold category_clash. cbn [overlay receipts items]. by rewrite E1, E4, !overlay_table_empty.
Qed.

Lemma triple_update_category u id nm isIncome :
  triple clean (tx_update_category u id nm isIncome) (fun _ c H g => exists row, flips id row c H g).
Proof.
  unfold tx_update_category.
  eapply (triple_bind _ _ _ (fun o => match o with Some cr => editing id cr | None => fun _ _ _ => True end)).
  { apply triple_query_for; [auto with stable|intros []; auto with stable|].
    intros c H g Hi Hcl Hl. unfold owned_category in *. destruct (clean_view _ _ _ Hcl) as (_ & V2 & _ & _).
    rewrite V2 in *. destruct (rows (categories g.2) !! id) as [cr|] eqn:E; [|done]. destruct (c_user_id cr =? u); [|done].
    apply Forall_cons in Hl as [Hl _]. split; [done|]. split; [done|]. split; [by exists ForUpdate|done]. }
  intros [cr|]; [|apply triple_throw]. set (side := default (c_is_income cr) isIncome).
  eapply (triple_bind _ _ _ (fun _ => both (editing id cr) (fun c H g => kinds_fixed = true -> may_flip id cr side c H g))).
  - subst side. destruct isIncome as [side|]; cbn [default]; [|apply triple_ret; auto with stable; intros c H g He; split; [done|intros _; by left]].
    destruct (eqb side (c_is_income cr)) eqn:Eb.
    { apply eqb_prop in Eb as ->. apply triple_ret; auto with stable. intros c H g He. split; [done|intros _; by left]. }
    eapply (triple_bind _ _ _ (fun b : bool => both (editing id cr) (if b then fun _ _ _ => True else fun c H g => kinds_fixed = true -> unused id c H g))).
    + apply triple_query; [auto with stable|intros []; apply stable_and; auto with stable|].
      intros c H g Hi He. split; [exact He|]. destruct He as (Hcl & Hl & Hp).
      destruct (category_clash _ _ _) eqn:Hcla; [done|]. intros Hk. split; [done|]. pose proof Hcl as (C1 & _ & _ & C4).
      rewrite clash_view in Hcla by done. apply (no_clash_unused id cr side g.2 g.1 Hk Hi); [by destruct Hp|by intros <-; rewrite eqb_reflx in Eb|done].
    + intros []; [apply triple_throw|]. apply triple_ret; [auto with stable|]. intros c H g [He Hu]. split; [done|]. intros Hk. right. by apply Hu.
  - intros []. cbv zeta. set (row := mkCategory (c_user_id cr) (default (c_name cr) nm) side).
    eapply (triple_bind _ _ _ (fun _ => flips id row)).
    + apply triple_change_; [auto with stable..|]. intros c H g d' Hi Hc He E. apply update_unique_Ok in E as ->.
      split; [intros k i; by left|]. exists g.1. split; [done|]. split; [exact (inv_below _ _ Hi)|]. split; [by apply in_order_items|].
      intros Hc' [(Hcl & Hl & Hp) Hm]. pose proof Hcl as (C1 & C2 & C3 & C4).
      split; [transitivity (dl_receipts c); [by apply record_rows_same|exact C1]|].
      split; [transitivity (dl_images c); [by apply record_rows_same|exact C3]|].
      split; [transitivity (dl_items c); [by apply record_rows_same|exact C4]|]. split.
      * intros k o Ek. destruct (record_insert (dl_categories c) (categories (overlay c g.2))
          (update_row id row (categories (overlay c g.2))) id row k o eq_refl Ek) as [Eo|]; [|done].
        rewrite C2 in Eo. cbn in Eo. by rewrite lookup_empty in Eo.
      * exists cr. split; [exact Hp|exact Hm].
    + intros []. apply triple_ret; [auto with stable|]. intros c H g Hf. by exists row.
Qed.

(** ** New categories, and tables nobody else depends on *)

Definition category_added (id : Z) (row : category_row) : Asn := fun c H g =>
  dl_receipts c = ∅ /\ dl_images c = ∅ /\ dl_items c = ∅ /\
  (forall k o, dl_categories c !! k = Some o -> k = id /\ o = Some row) /\
  ((exists mode, mode <> KeyShare /\ (Row TCategories id, mode) ∈ H) /\
   rows (categories g.2) !! id = None) /\ id < seq (categories g.2).
Lemma stable_category_added id row : stable (category_added id row).
Proof.
  split.
  - intros c H g g' (E1 & E3 & E4 & E2 & [(mode & Hm & Hl) En] & Hlt) Hr. repeat split; try done; [by eapply E2..| | |].
    + by exists mode.
    + destruct (rl_categories _ _ _ Hr id mode Hl) as [_ Es]. by rewrite Es.
    + pose proof (rl_seq _ _ _ Hr). lia.
  - intros c H H' g (E1 & E3 & E4 & E2 & [(mode & Hm & Hl) En] & Hlt) Hs. repeat split; try done; [by eapply E2..|].
    exists mode. split; [done|by apply Hs].
  - intros c c' H g (E1 & E3 & E4 & E2 & Hx & Hlt) (W1 & W2 & W3 & W4).
    split; [congruence|]. split; [congruence|]. split; [congruence|]. split; [by rewrite W2|done].
Qed.
Lemma category_added_commits id row c H g : inv g.1 g.2 -> category_added id row c H g -> inv g.1 (overlay c g.2).
Proof.
  intros [Hb Hh [Hr Hc Hd] Hs Hcb] (E1 & E3 & E4 & E2 & [_ En] & Hlt).
  assert (R1 : receipts (overlay c g.2) = receipts g.2) by (cbn; rewrite E1; apply overlay_table_empty).
  assert (R3 : receipt_images (overlay c g.2) = receipt_images g.2) by (cbn; rewrite E3; apply overlay_table_empty).
  split; [exact Hb|intros k r; rewrite R1; apply Hh| | |].
  - split; [rewrite R3, R1; exact Hr|unfold image_count; rewrite R3; exact Hc|rewrite R3; exact Hd].
  - intros Hk k i. rewrite see_item, E4, lookup_empty, R1. intros Ei. destruct (Hs Hk k i Ei) as (r & Er & Hf).
    exists r. split; [done|]. intros cat Ec. destruct (Hf cat Ec) as (cr & Ecr & Hfit). exists cr. split; [|done].
    rewrite see_category. destruct (dl_categories c !! cat) as [o|] eqn:Eo; [|done].
    destruct (E2 cat o Eo) as [-> _]. congruence.
  - intros k a. rewrite see_category. destruct (dl_categories c !! k) as [o|] eqn:Eo; [|apply Hcb].
    by destruct (E2 k o Eo) as [-> _].
Qed.
Lemma triple_create_category row :
  triple clean (tx_create_category row) (fun _ c H g => exists id, category_added id row c H g).
Proof.
  unfold tx_create_category, tx_statement. eapply (triple_bind _ _ _ (fun id => category_added id row)).
  - apply triple_change; [auto with stable|intros id; apply stable_category_added|]. intros c H g x d' Hi Hc Hcl E.
    unfold insert_unique in E. apply obind_Ok in E as ([] & _ & E). apply obind_Ok in E as ([] & _ & [= <- <-]).
    split; [intros k i; by left|]. exists g.1. split; [done|]. split; [exact (inv_below _ _ Hi)|]. split; [apply in_order_items; [cbn; lia|done]|].
    intros Hc' Hcl'. pose proof Hcl as (C1 & C2 & C3 & C4). destruct (clean_view _ _ _ Hcl) as (_ & V2 & _ & _).
    set (id := seq (categories g.2)). assert (En : rows (categories g.2) !! id = None) by exact (below_fresh _ (inv_categories _ _ Hi)).
    split; [transitivity (dl_receipts c); [by apply record_rows_same|exact C1]|].
    split; [transitivity (dl_images c); [by apply record_rows_same|exact C3]|].
    split; [transitivity (dl_items c); [by apply record_rows_same|exact C4]|]. split.
    { intros k o Ek. destruct (record_insert (dl_categories c) (categories (overlay c g.2))
        (insert_row row (categories (overlay c g.2))) id row k o eq_refl Ek) as [Eo|]; [|done].
      rewrite C2 in Eo. cbn in Eo. by rewrite lookup_empty in Eo. }
    split; [|cbn; lia]. split; [|exact En].
    assert (Ee : dl_categories (record_changes c (overlay c g.2)
        ((overlay c g.2) <| categories ::= insert_row row |>)) !! id = Some (Some row)).
    { apply (first_record (dl_categories c) (categories (overlay c g.2)) _ id _ C2). rewrite V2, En. cbn.
      by rewrite lookup_insert_eq. }
    destruct (cv_categories _ _ _ Hc' id _ Ee) as (mode & Hm & Hd). exists mode. split; [|exact Hm].
    by destruct Hd as [->|[-> _]].
  - intros id. apply triple_ret; [apply stable_category_added|]. intros c H g Ha. by exists id.
Qed.

(** A statement that leaves receipts, images, items and categories alone. *)
Definition elsewhere (d d' : Db) : Prop := receipts d' = receipts d /\ receipt_images d' = receipt_images d /\
  items d' = items d /\ categories d' = categories d.
Lemma triple_elsewhere {B R} (s : Db -> outcome (B * Db)) (k : B -> R) :
  (forall d b d', s d = Ok (b, d') -> elsewhere d d') -> triple clean (tx_statement s k) (fun _ => clean).
Proof.
  intros Hs. unfold tx_statement. eapply (triple_bind _ _ _ (fun _ => clean)); [|intros b; apply triple_ret; auto with stable].
  apply triple_change; [auto with stable..|]. intros c H g x d' Hi Hc Hcl E. destruct (Hs _ _ _ E) as (E1 & E2 & E3 & E4).
  split; [intros i r; rewrite E2; by left|]. exists g.1. split; [done|].
  split; [rewrite E1; exact (inv_below _ _ Hi)|]. split; [apply in_order_items; [by rewrite E4|done]|].
  intros _ Hcl'. eapply (st_writes _ stable_clean c); [exact Hcl'|].
  repeat split; apply record_rows_same; congruence.
Qed.
Lemma insert_elsewhere {A} same owner (f : Db -> table A) `{!Setter f} row :
  (forall u d, elsewhere d (set_field f u d)) ->
  forall d b d', insert_unique same owner f row d = Ok (b, d') -> elsewhere d d'.
Proof.
  intros He d b d' E. unfold insert_unique in E. apply obind_Ok in E as ([] & _ & E). apply obind_Ok in E as ([] & _ & [= _ <-]).
  apply He.
Qed.

(** A statement that rewrites receipts, each keeping its owner and kind. *)
Record keeps_heads (d d' : Db) : Prop := {
  kh_seq : seq (receipts d') = seq (receipts d);
  kh_heads : forall k, head <$> rows (receipts d') !! k = head <$> rows (receipts d) !! k;
  kh_images : receipt_images d' = receipt_images d;
  kh_items : items d' = items d;
  kh_categories : categories d' = categories d
}.
Lemma triple_keeps_heads {B R} (s : Db -> outcome (B * Db)) (k : B -> R) :
  (forall d b d', s d = Ok (b, d') -> keeps_heads d d') -> triple clean (tx_statement s k) (fun _ => entries).
Proof.
  intros Hs. unfold tx_statement. eapply (triple_bind _ _ _ (fun _ => entries)); [|intros b; apply triple_ret; auto with stable; apply stable_entries].
  apply triple_change; [auto with stable|intros b; apply stable_entries|]. intros c H g x d' Hi Hc Hcl E.
  destruct (Hs _ _ _ E) as [Eq Eh Ei Et Ec]. split; [intros i r; rewrite Ei; by left|]. exists g.1. split; [done|].
  split; [intros i h; rewrite Eq; exact (inv_below _ _ Hi i h)|]. split; [apply in_order_items; [by rewrite Ec|done]|]. intros _ _.
  pose proof Hcl as (C1 & C2 & C3 & C4). destruct (clean_view _ _ _ Hcl) as (V1 & _).
  split; [|transitivity (dl_images c); [apply record_rows_same; by rewrite Ei|exact C3]]. split.
  - transitivity (dl_categories c); [apply record_rows_same; by rewrite Ec|exact C2].
  - intros i o [Hn Eo]%(first_record _ _ _ _ _ C1). specialize (Eh i). rewrite V1 in Eh, Hn. rewrite Eo in Eh, Hn.
    destruct (rows (receipts g.2) !! i) as [r|] eqn:Er, o as [r'|]; try done. injection Eh as Eh. exists r'. split; [done|].
    pose proof (inv_heads _ _ Hi i r Er) as Hb. unfold receipt_sound, born. cbn [fst]. rewrite Hb. f_equal.
    unfold head. by f_equal.
  - intros i o. change (dl_items (record_changes c (overlay c g.2) d')) with (record_rows (dl_items c) (items (overlay c g.2)) (items d')).
    rewrite record_rows_same by (by rewrite Et). rewrite C4. cbn. by rewrite lookup_empty.
Qed.
Lemma keeps_heads_refl d : keeps_heads d d.
Proof. by split. Qed.
Lemma keeps_heads_one d k r r' : rows (receipts d) !! k = Some r -> head r' = head r ->
  keeps_heads d (d <| receipts ::= update_row k r' |>).
Proof.
  intros Er Eh. split; try done. intros i. cbn. destruct (decide (i = k)) as [->|Hn].
  - by rewrite lookup_insert_eq, Er; cbn; rewrite Eh.
  - by rewrite lookup_insert_ne.
Qed.
Lemma keeps_heads_all d f : (forall k r, head (f k r) = head r) ->
  keeps_heads d (d <| receipts ::= map_rows (fun k r => Some (f k r)) |>).
Proof.
  intros Hf. split; try done. intros k. cbn. rewrite map_lookup_imap. destruct (rows (receipts d) !! k) as [r|]; [|done].
  cbn. by rewrite Hf.
Qed.

(** A scan queued again. *)
Lemma triple_retryScan u R : triple clean (tx_retryScan u R) (fun _ => entries).
Proof.
  unfold tx_retryScan. eapply triple_bind; [apply (triple_now clean); auto with stable|]. intros t.
  apply triple_keeps_heads. intros d b d' E. unfold sql_requeue, owned_receipt in E.
  destruct (rows (receipts d) !! R) as [r|] eqn:Er; [|injection E as _ <-; apply keeps_heads_refl].
  destruct (rc_user_id r =? u); [|injection E as _ <-; apply keeps_heads_refl].
  destruct (bool_decide _); [|injection E as _ <-; apply keeps_heads_refl].
  apply obind_Ok in E as (d1 & [-> _]%put_receipt_Ok & [= _ <-]). by apply (keeps_heads_one d R r).
Qed.
End Reference.
