(* ===== verification/TxWorker.v ===== *)
(** * The scan worker's transactions, statement by statement

    The writes of ScanWorker as programs of Transactions: the transaction that puts a
    scan's result on a receipt, and the three single statements that book a
    failure, free stuck scans and claim queued receipts.  The names are those of
    ScanWorker with the prefix [tx_]; run alone they are the functions there. *)
From stdpp Require Import sorting.
From S2P Require Import Prelude CString Binary64 Json Kinds JsonInput LedgerInput TokenUtils RateLimiter Env Db World.
From S2P Require Import ItemService ReceiptService ReferenceData ScanWorker Safety Transactions TxServices TxAlone.
#[local] Open Scope tx_scope.

Section TxWorker.
Context `{PG : Postgres} `{IS : ImageStore} `{SO : Sodium} `{JT : JsonText}.
Context (config_ : ScanWorkerConfig).

(** ** The result of a scan *)

Definition tx_insert_scanned (claim : Claim) (kind : string) (taxonomy : Taxonomy) (scanned : ScannedItem) : Tx () :=
  let! input := tlift (toItemInput scanned kind taxonomy) in
  tx_insert_item (cl_userId claim) (cl_receiptId claim) kind input ;!
  tret ().
Definition tx_insertScannedItems (claim : Claim) (kind : string) (scanned : list ScannedItem) (taxonomy : Taxonomy)
    : Tx () :=
  tfor_each (tx_insert_scanned claim kind taxonomy) scanned.

Definition tx_writeExtraction (claim : Claim) (result : ScanResult) (taxonomy : Taxonomy) (snapshot : Snapshot) : Tx () :=
  let! rules := tlift (rulesFor (sr_kind result)) in
  match canonicalDirection rules with
  | None => tlift (UB "dereference of an empty optional")
  | Some direction =>
      let taxDeductible := sn_taxDeductible snapshot && allowsTaxDeductible rules in
      let offsets := if canOffset rules then sn_offsetsReceiptId snapshot else None in
      let! t := tnow in
      let! raw := tlift (raw_column result) in
      let! date := tlift (sql_date (sr_purchaseDate result)) in
      tchange_ (sql_update_receipt (cl_receiptId claim)
                  (extracted_row result direction date raw taxDeductible offsets t)) ;!
      tchange_ (fun d => Ok (delete_items_of (cl_receiptId claim) d)) ;!
      tx_insertScannedItems claim (sr_kind result) (sr_items result) taxonomy
  end.
Definition tx_writeVerify (claim : Claim) (result : ScanResult) (taxonomy : Taxonomy) (snapshot : Snapshot)
    (allMatch : bool) : Tx () :=
  let! t := tnow in
  let! raw := tlift (raw_column result) in
  let! date := tlift (sql_date (sr_purchaseDate result)) in
  tchange_ (sql_update_receipt (cl_receiptId claim) (verified_row result date raw allMatch t)) ;!
  (if sn_itemCount snapshot =? 0
   then tx_insertScannedItems claim (sn_kind snapshot) (sr_items result) taxonomy
   else tret ()).

(** What follows the locked read. *)
Definition tx_write (claim : Claim) (result : ScanResult) (taxonomy : Taxonomy) (before : Snapshot) (allMatch : bool)
    (locked : option Snapshot) : Tx (ending bool) :=
  match locked with
  | None => tret (Rollback true)
  | Some l =>
      if unchanged before l then
        (if sn_reviewed l then tx_writeVerify claim result taxonomy l allMatch
         else tx_writeExtraction claim result taxonomy l) ;!
        tret (Commit true)
      else tret (Rollback false)
  end.
(** The row is read again, now locked FOR UPDATE.  The statement counts the items
    when it begins; it may then wait for the row. *)
Definition with_count (itemCount : Z) (s : Snapshot) : Snapshot :=
  mkSnapshot (sn_reviewed s) (sn_kind s) (sn_totalCents s) (sn_currency s) (sn_merchant s) (sn_purchaseDate s)
    (sn_taxDeductible s) (sn_offsetsReceiptId s) (sn_updatedAt s) itemCount.
Definition tx_write_attempt (claim : Claim) (result : ScanResult) (taxonomy : Taxonomy) (before : Snapshot)
    (allMatch : bool) : Tx (ending bool) :=
  let! itemCount := tquery (item_count (cl_receiptId claim)) in
  let! locked := tquery_for ForUpdate TReceipts (cl_receiptId claim)
                   (fun d => with_count itemCount <$> readSnapshot claim d) in
  tx_write claim result taxonomy before allMatch locked.

(** ** Single statements *)

Definition tx_fail (claim : Claim) (scanError : bool) (cap : Z) : Tx (ending (option string)) :=
  tx_statement (sql_fail claim scanError cap) (fun s => s).
Definition tx_reclaim : Tx (ending (list (Z * receipt_row))) :=
  let! t := tnow in
  tx_statement (sql_reclaim config_ t) (fun rows => rows).
(** SKIP LOCKED leaves out the rows locked at the moment; [skipped] says which. *)
Definition claimable_beside (skipped : list Z) (d : Db) : list (Z * receipt_row) :=
  take (Z.to_nat (Z.max (concurrency config_ - Z.of_nat (length (select (in_state scan_state.kScanning) (receipts d)))) 0))
    (filter (fun kv => kv.1 ∉ skipped) (merge_sort queue_le (select (in_state scan_state.kUploaded) (receipts d)))).
Definition sql_claim_beside (skipped : list Z) (t : Z) (d : Db) : outcome (list Claim * Db) :=
  let ids := map fst (claimable_beside skipped d) in
  Ok (map (fun kv => mkClaim kv.1 (rc_user_id kv.2) (pg_ts_out (pg_clock_timestamp t kv.1))) (claimable_beside skipped d),
      d <| receipts ::= map_rows (fun id r => Some (if bool_decide (id ∈ ids) then claimed_row (pg_clock_timestamp t id) r else r)) |>).
Definition tx_claim (skipped : list Z) : Tx (ending (list Claim)) :=
  let! t := tnow in
  tx_statement (sql_claim_beside skipped t) (fun claims => claims).

(** What the worker may have under way beside the requests. *)
Inductive work :=
| WriteScan (claim : Claim) (result : ScanResult) (taxonomy : Taxonomy) (before : Snapshot) (allMatch : bool)
| BookFailure (claim : Claim) (scanError : bool) (cap : Z)
| FreeStuck
| TakeClaims (skipped : list Z).
Definition work_task (k : work) : Task :=
  match k with
  | WriteScan claim result taxonomy before allMatch => start (tx_write_attempt claim result taxonomy before allMatch)
  | BookFailure claim scanError cap => start (tx_fail claim scanError cap)
  | FreeStuck => start tx_reclaim
  | TakeClaims skipped => start (tx_claim skipped)
  end.

(** ** Alone *)

Lemma alone_insertScannedItems claim kind its taxonomy :
  agree (alone (tx_insertScannedItems claim kind its taxonomy)) (insertScannedItems claim kind its taxonomy).
Proof. apply alone_for_each. intros x. unfold tx_insert_scanned, insert_scanned. alone_steps. Qed.
Hint Resolve alone_insertScannedItems : alone.
Lemma alone_writeVerify claim result taxonomy l m :
  agree (alone (tx_writeVerify claim result taxonomy l m)) (writeVerify claim result taxonomy l m).
Proof. unfold tx_writeVerify, writeVerify. alone_steps. Qed.
Lemma alone_writeExtraction claim result taxonomy l :
  agree (alone (tx_writeExtraction claim result taxonomy l)) (writeExtraction claim result taxonomy l).
Proof.
  unfold tx_writeExtraction, writeExtraction. alone_step; [alone_steps|].
  destruct (canonicalDirection _); [alone_steps|done].
Qed.
Hint Resolve alone_writeVerify alone_writeExtraction : alone.
Lemma count_read claim d :
  with_count (item_count (cl_receiptId claim) d) <$> readSnapshot claim d = readSnapshot claim d.
Proof. unfold readSnapshot. destruct (rows _ !! _) as [r|]; [|done]. by destruct (claimed claim r). Qed.
Lemma alone_write claim result taxonomy before m locked :
  agree (alone (tx_write claim result taxonomy before m locked))
    (match locked with
     | None => mret (Rollback true)
     | Some l =>
         if unchanged before l then
           mbind (fun _ => mret (Commit true))
             (if sn_reviewed l then writeVerify claim result taxonomy l m else writeExtraction claim result taxonomy l)
         else mret (Rollback false)
     end).
Proof. unfold tx_write. alone_steps. Qed.
Lemma ends_write_attempt claim result taxonomy before m :
  ends_as (tx_write_attempt claim result taxonomy before m) (write_attempt claim result taxonomy before m).
Proof.
  apply transactionE_agree. intros w. unfold tx_write_attempt. rewrite alone_bind. unfold mbind at 1 2, query.
  cbn [alone tquery tret]. unfold mbind at 1, query at 1, lift at 1. cbn [w_db].
  rewrite alone_bind. cbn [alone tquery_for tret]. unfold mbind at 1 2, query at 1, lift at 1. rewrite count_read. apply alone_write.
Qed.
Lemma claimable_beside_nobody d : claimable_beside [] d = claimable config_ d.
Proof.
  unfold claimable_beside, claimable. f_equal. induction (merge_sort _ _) as [|kv l IH]; [done|].
  rewrite filter_cons_True by (apply not_elem_of_nil). by rewrite IH.
Qed.
(** Run alone, with nothing locked, the statement claims what [claim] does. *)
Lemma ends_claim : ends_as (tx_claim []) (claim config_).
Proof.
  intros w. unfold tx_claim, claim, transactionE, tx_statement. cbn. unfold mbind, now, exec, sql_claim_beside, sql_claim. cbn.
  by rewrite claimable_beside_nobody.
Qed.
End TxWorker.
