(* ===== verification/TxScans.v ===== *)
(** * The scan worker among others

    Failures, freed and claimed scans leave every receipt its owner and kind, and so
    does a result written over a reviewed receipt.  A result written over one not yet
    reviewed may change the kind and replaces the items; [rewritten] is what either has
    written by its commit: the receipt's row, made from the row that is committed then,
    and items of that receipt under ids the sequence has just given. *)
From S2P Require Import Prelude CString Binary64 Json Kinds JsonInput LedgerInput TokenUtils RateLimiter Env Db World.
From S2P Require Import ItemService ReceiptService ReferenceData ScanWorker Invariant Safety Transactions TxServices TxAlone.
From S2P Require Import Interleave TxLogic TxAssertions TxLedger TxRemovals TxReference TxWorker.

Section Scans.
Context `{PG : Postgres} `{IS : ImageStore} `{SO : Sodium} `{JT : JsonText} `{EN : Environment} `{VI : Vips} `{PL : Platform}.
Context (config_ : ScanWorkerConfig).
Context `{TE : Terms}.
Hint Resolve stable_entries : stable.

(** ** The worker's single statements *)

Lemma triple_fail claim scanError cap : triple clean (tx_fail claim scanError cap) (fun _ => entries).
Proof.
  apply triple_keeps_heads. intros d b d' E. unfold sql_fail in E.
  destruct (rows (receipts d) !! cl_receiptId claim) as [r|] eqn:Er; [|injection E as _ <-; apply keeps_heads_refl].
  destruct (claimed claim r); [|injection E as _ <-; apply keeps_heads_refl]. injection E as _ <-.
  apply (keeps_heads_one _ _ r); [done|]. by destruct scanError.
Qed.
Lemma triple_reclaim : triple clean (tx_reclaim config_) (fun _ => entries).
Proof.
  unfold tx_reclaim. eapply triple_bind; [apply (triple_now clean); auto with stable|]. intros t.
  apply triple_keeps_heads. intros d b d' E. injection E as _ <-.
  apply (keeps_heads_all d (fun _ r => if stuck config_ t r then reclaimed_row config_ r else r)). intros k r.
  by destruct (stuck config_ t r).
Qed.
Lemma triple_claim skipped : triple clean (tx_claim config_ skipped) (fun _ => entries).
Proof.
  unfold tx_claim. eapply triple_bind; [apply (triple_now clean); auto with stable|]. intros t.
  apply triple_keeps_heads. intros d b d' E. injection E as _ <-.
  apply (keeps_heads_all d (fun k r => if bool_decide (k ∈ map fst (claimable_beside config_ skipped d)) then claimed_row (pg_clock_timestamp t k) r else r)).
  intros k r. by case_bool_decide.
Qed.

(** ** A result written over a reviewed receipt *)

(** The receipt's row as the locked read found it. *)
Definition found (claim : Claim) (l : Snapshot) (r : receipt_row) : Asn :=
  both (pinned TReceipts receipts (cl_receiptId claim) r)
    (fun _ _ _ => claimed claim r = true /\ exists n d, l = with_count n (snapshot_of (cl_receiptId claim) r d)).
Lemma stable_found claim l r : stable (found claim l r).
Proof. apply stable_and; auto with stable. Qed.
Hint Resolve stable_found : stable.
Lemma triple_ex {X A} (P : X -> Asn) (p : Tx A) (Q : A -> Asn) :
  (forall x, triple (P x) p Q) -> triple (fun c H g => exists x, P x c H g) p Q.
Proof. intros Hp c H g [x Hx]. by apply (Hp x). Qed.
Lemma triple_pure {A} (F : Prop) (P : Asn) (p : Tx A) (Q : A -> Asn) :
  (F -> triple P p Q) -> triple (both (fun _ _ _ => F) P) p Q.
Proof. intros Hp c H g [HF HP]. by apply (Hp HF). Qed.

Lemma triple_locked_read claim n : triple clean
  (tquery_for ForUpdate TReceipts (cl_receiptId claim) (fun d => with_count n <$> readSnapshot claim d))
  (fun o => match o with
            | Some l => fun c H g => exists r, both clean (both (found claim l r) (born (cl_receiptId claim) (head r))) c H g
            | None => fun _ _ _ => True
            end).
Proof.
  apply triple_query_for; [auto with stable|intros []; [apply stable_ex; intros r|]; auto with stable|].
  intros c H g Hi Hcl Hl. destruct (clean_view _ _ _ Hcl) as (V1 & _).
  unfold readSnapshot in *. rewrite V1 in *. destruct (rows (receipts g.2) !! cl_receiptId claim) as [r|] eqn:Er; [|done].
  destruct (claimed claim r) eqn:Ec; [|done]. cbn in Hl |- *. apply Forall_cons in Hl as [Hl _]. exists r.
  split; [done|]. split; [|exact (inv_heads _ _ Hi _ r Er)].
  split; [split; [by exists ForUpdate|done]|]. split; [done|]. by exists n, (overlay c g.2).
Qed.

Lemma triple_insertScannedItems claim u kind its taxonomy :
  triple (both entries (born (cl_receiptId claim) (u, fixed_kind kind))) (tx_insertScannedItems claim kind its taxonomy)
    (fun _ => both entries (born (cl_receiptId claim) (u, fixed_kind kind))).
Proof.
  apply triple_for_each; [auto with stable|]. intros item _. unfold tx_insert_scanned.
  eapply (triple_bind _ _ _ (fun _ => both entries (born (cl_receiptId claim) (u, fixed_kind kind)))); [apply triple_lift; auto with stable|].
  intros input. eapply triple_bind; [apply triple_insert_item|]. intros id. apply triple_ret; auto with stable.
Qed.
Lemma triple_writeVerify claim result taxonomy l m u :
  triple (both entries (born (cl_receiptId claim) (u, fixed_kind (sn_kind l)))) (tx_writeVerify claim result taxonomy l m)
    (fun _ => both entries (born (cl_receiptId claim) (u, fixed_kind (sn_kind l)))).
Proof.
  set (P := both entries (born (cl_receiptId claim) (u, fixed_kind (sn_kind l)))).
  assert (HP : stable P) by (unfold P; auto with stable). unfold tx_writeVerify.
  eapply triple_bind; [by apply triple_now|]. intros t.
  eapply triple_bind; [apply (triple_lift P _ (fun _ => P)); auto|]. intros raw.
  eapply triple_bind; [apply (triple_lift P _ (fun _ => P)); auto|]. intros date.
  eapply (triple_bind _ _ _ (fun _ => P)).
  - apply (triple_update_receipt (cl_receiptId claim) (u, fixed_kind (sn_kind l))); [done|by intros c H g [[Hl _] Hb]|done|].
    intros c c' H g [[_ Hn] Hb] Ei Hl _. split; [|done]. split; [done|]. unfold no_images in *. congruence.
  - intros []. destruct (sn_itemCount l =? 0); [apply triple_insertScannedItems|by apply triple_ret].
Qed.
Lemma triple_verify claim result taxonomy before m : sn_reviewed before = true ->
  triple clean (tx_write_attempt claim result taxonomy before m)
    (fun e => match e with Commit _ => entries | Rollback _ => fun _ _ _ => True end).
Proof.
  intros Hb. unfold tx_write_attempt. eapply triple_bind; [apply (triple_query clean _ (fun _ => clean)); auto with stable|]. intros n.
  eapply triple_bind; [apply triple_locked_read|]. intros [l|]; [|apply triple_ret; auto with stable].
  cbn [tx_write]. apply triple_ex. intros r. destruct (unchanged before l) eqn:Eu; [|apply triple_ret; auto with stable].
  assert (Hr : sn_reviewed l = true).
  { unfold unchanged in Eu. apply andb_prop in Eu as [Eu _]. apply andb_prop in Eu as [_ Eu]. apply eqb_prop in Eu. congruence. }
  rewrite Hr. eapply (triple_bind _ _ _ (fun _ => entries)); [|intros _; apply triple_ret; auto with stable].
  eapply triple_weaken; [apply (triple_writeVerify claim result taxonomy l m (rc_user_id r))| |by intros _ c H g []].
  intros c H g (Hcl & [_ (_ & k & d & ->)] & Hh). split; [by apply clean_entries|]. exact Hh.
Qed.
End Scans.

(** ** A result written over any receipt, while kinds are free to change *)

(** What the write makes of the row: [verified_row] or [extracted_row], of a row the
    comparison has seen. *)
Definition scan_edit `{PG : Postgres} (claim : Claim) (result : ScanResult) (before : Snapshot) (allMatch : bool)
    (r r' : receipt_row) : Prop :=
  claimed claim r = true /\ pg_ts_out (rc_updated_at r) = sn_updatedAt before /\
  bool_decide (is_Some (rc_reviewed_at r)) = sn_reviewed before /\
  exists date raw t,
    if sn_reviewed before then r' = verified_row result date raw allMatch t r
    else exists rules direction, rulesFor (sr_kind result) = Ok rules /\ canonicalDirection rules = Some direction /\
      r' = extracted_row result direction date raw (er_taxDeductible (rc_fields r) && allowsTaxDeductible rules)
             (if canOffset rules then er_offsetsReceiptId (rc_fields r) else None) t r.

Section Rewrites.
Context `{PG : Postgres} `{IS : ImageStore} `{SO : Sodium} `{JT : JsonText} `{EN : Environment} `{VI : Vips} `{PL : Platform}.
Context `{TE : Terms}.
Context (Hfree : kinds_fixed = false).
Hint Resolve stable_entries stable_found : stable.

(** An id no item has, nor gets while it is locked. *)
Definition item_absent (k : Z) : Asn := fun _ H g =>
  (exists mode, mode <> KeyShare /\ (Row TItems k, mode) ∈ H) /\ rows (items g.2) !! k = None.
Lemma stable_item_absent k : stable (item_absent k).
Proof.
  split; [| |done].
  - intros c H g g' [(mode & Hm & Hl) E] Hr. split; [eauto|]. destruct (rl_items _ _ _ Hr k mode Hl) as [_ Es]. by rewrite Es.
  - intros c H H' g [(mode & Hm & Hl) E] Hs. split; [|done]. exists mode. split; [done|by apply Hs].
Qed.
(** An item written is a new one of receipt [R], or, where the scan replaces, the
    deletion of one of its own. *)
Definition item_written (R : Z) (replaces : bool) (k : Z) (o : option item_row) : Asn := fun c H g =>
  match o with
  | Some i => it_receipt_id i = R /\ item_absent k c H g
  | None => replaces = true /\ exists i, item_pinned k i c H g /\ it_receipt_id i = R
  end.
Lemma stable_item_written R replaces k o : stable (item_written R replaces k o).
Proof.
  destruct o as [i|].
  - apply (stable_and (fun _ _ _ => it_receipt_id i = R)); [auto with stable|apply stable_item_absent].
  - apply (stable_and (fun _ _ _ => replaces = true)); [auto with stable|]. apply stable_ex. intros i.
    apply (stable_and _ (fun _ _ _ => it_receipt_id i = R)); auto with stable.
Qed.

(** Of receipts only [R] is written, locked as it was found; of items only its own. *)
Definition row_rewritten (R : Z) (r r' : receipt_row) : Asn := fun c H g =>
  (dl_categories c = ∅ /\ dl_images c = ∅) /\
  ((forall k o, dl_receipts c !! k = Some o -> k = R /\ o = Some r') /\ (dl_receipts c !! R = None -> r' = r)) /\
  pinned TReceipts receipts R r c H g.
Lemma stable_row_rewritten R r r' : stable (row_rewritten R r r').
Proof.
  pose proof (stable_receipt_pinned R r) as [SR SL SW]. split.
  - intros c H g g' (Hc & Hw & Hp) Hr. split; [done|]. split; [done|]. by eapply SR.
  - intros c H H' g (Hc & Hw & Hp) Hs. split; [done|]. split; [done|]. by eapply SL.
  - intros c c' H g ([E1 E2] & Hw & Hp) Hs. pose proof Hs as (W1 & W2 & W3 & _). split; [split; congruence|].
    split; [by rewrite W1|by eapply SW].
Qed.
Definition rewritten (R : Z) (replaces : bool) (r r' : receipt_row) : Asn :=
  both (row_rewritten R r r') (written dl_items (item_written R replaces)).
Lemma stable_rewritten R replaces r r' : stable (rewritten R replaces r r').
Proof.
  apply stable_and; [apply stable_row_rewritten|]. apply stable_written; [by intros c c' (_ & _ & _ & E)|].
  apply stable_item_written.
Qed.
Definition no_items : Asn := fun c _ _ => dl_items c = ∅.
Lemma stable_no_items : stable no_items.
Proof. split; [done..|]. intros c c' H g E (_ & _ & _ & Ei). unfold no_items. by rewrite Ei. Qed.
Hint Resolve stable_no_items : stable.
Hint Resolve stable_rewritten : stable.

Lemma rewritten_rows R replaces r r' c H g : rewritten R replaces r r' c H g ->
  rows (receipts (overlay c g.2)) = <[R := r']> (rows (receipts g.2)).
Proof.
  intros [(_ & [Hw Hn] & [_ Er]) _]. apply map_eq. intros k. rewrite see_receipt.
  destruct (dl_receipts c !! k) as [o|] eqn:E.
  - destruct (Hw k o E) as [-> ->]. by rewrite lookup_insert_eq.
  - destruct (decide (k = R)) as [->|Hk]; [|by rewrite lookup_insert_ne]. by rewrite lookup_insert_eq, Er, (Hn E).
Qed.
(** What becomes of the items: other receipts' stay, and all of them where the scan
    does not replace; those that come are the receipt's, under ids that were free. *)
Definition scan_items (R : Z) (replaces : bool) (old new : gmap Z item_row) : Prop :=
  (forall k i, old !! k = Some i -> it_receipt_id i <> R \/ replaces = false -> new !! k = Some i) /\
  (forall k i, new !! k = Some i -> old !! k = Some i \/ (it_receipt_id i = R /\ old !! k = None)).
Lemma rewritten_items R replaces r r' c H g : rewritten R replaces r r' c H g ->
  scan_items R replaces (rows (items g.2)) (rows (items (overlay c g.2))).
Proof.
  intros [_ Hw]. split; intros k i.
  - intros E Hk. rewrite see_item. destruct (dl_items c !! k) as [o|] eqn:Eo; [|done]. specialize (Hw k o Eo). destruct o as [i'|].
    + destruct Hw as [_ [_ En]]. by rewrite En in E.
    + destruct Hw as [-> (i0 & [_ E0] & Hi)]. rewrite E in E0. injection E0 as <-. by destruct Hk.
  - rewrite see_item. destruct (dl_items c !! k) as [o|] eqn:Eo; [|by left]. intros ->. right.
    destruct (Hw k _ Eo) as [Hi [_ En]]. done.
Qed.
Lemma rewritten_commits R replaces r r' c H g : head r' = head r -> inv g.1 g.2 -> rewritten R replaces r r' c H g ->
  inv g.1 (overlay c g.2).
Proof.
  intros Hh Hi Hw. pose proof (rewritten_rows _ _ _ _ _ _ _ Hw) as Er. destruct Hw as [([E2 E3] & _ & [_ E]) _].
  destruct Hi as [Hb Hhd [Hr Hc Hd] Hs Hcb].
  assert (R2 : categories (overlay c g.2) = categories g.2) by (cbn; rewrite E2; apply overlay_table_empty).
  assert (R3 : receipt_images (overlay c g.2) = receipt_images g.2) by (cbn; rewrite E3; apply overlay_table_empty).
  split; [exact Hb| | |by rewrite Hfree|by rewrite R2].
  - intros k a. rewrite Er. destruct (decide (k = R)) as [->|Hk]; [|rewrite lookup_insert_ne by done; apply Hhd].
    rewrite lookup_insert_eq. intros [= <-]. rewrite Hh. exact (Hhd R r E).
  - split; [|unfold image_count; rewrite R3; exact Hc|rewrite R3; exact Hd].
    intros k i. rewrite R3, Er. intros Ei. destruct (Hr k i Ei) as (a & Ea & Eu).
    destruct (decide (im_receipt_id i = R)) as [Hk|Hk]; [|rewrite lookup_insert_ne by done; by exists a].
    rewrite Hk in *. rewrite lookup_insert_eq. exists r'. split; [done|]. rewrite E in Ea. injection Ea as <-.
    by rewrite (head_user _ _ Hh).
Qed.

(** The lock of a row just written. *)
Lemma written_lock c H d k o : covered c H d -> dl_items c !! k = Some o ->
  exists mode, mode <> KeyShare /\ (Row TItems k, mode) ∈ H.
Proof. intros Hc E. destruct (cv_items _ _ _ Hc k o E) as (mode & Hl & Hm). exists mode. split; [|done]. by destruct Hm as [->|[-> _]]. Qed.
(** Statements that write items, and links, only. *)
Lemma row_rewritten_items R r r' c c' H g : row_rewritten R r r' c H g ->
  dl_receipts c' = dl_receipts c -> dl_categories c' = dl_categories c -> dl_images c' = dl_images c ->
  row_rewritten R r r' c' H g.
Proof. intros ([E1 E2] & Hw & Hp) F1 F2 F3. split; [split; congruence|]. split; [by rewrite F1|exact Hp]. Qed.
Lemma triple_add_item R replaces r r' input :
  triple (rewritten R replaces r r') (tchange (sql_insert_item (ItemService.input_row R input)))
    (fun _ => rewritten R replaces r r').
Proof.
  apply triple_change; [auto with stable..|]. intros c H g x d' Hi Hc Hw E.
  unfold sql_insert_item in E. apply obind_Ok in E as ([] & _ & [= _ <-]).
  split; [intros k i; by left|]. exists g.1. split; [done|]. split; [exact (inv_below _ _ Hi)|]. split; [apply in_order_insert|].
  intros Hc' [Hr Hs]. split; [apply (row_rewritten_items _ _ _ c); [exact Hr|by apply record_rows_same..]|].
  intros k o Ek. destruct (record_insert (dl_items c) (items (overlay c g.2)) (insert_row (ItemService.input_row R input) (items (overlay c g.2)))
    (seq (items g.2)) (ItemService.input_row R input) k o eq_refl Ek) as [Eo|[-> ->]]; [exact (Hs k o Eo)|].
  split; [done|]. split; [by eapply written_lock|]. exact (below_fresh _ (cv_below _ _ _ Hc)).
Qed.
Lemma triple_drop_items R r r' :
  triple (both (rewritten R true r r') no_items) (tchange_ (fun d => Ok (delete_items_of R d))) (fun _ => rewritten R true r r').
Proof.
  apply triple_change_; [auto with stable..|]. intros c H g d' Hi Hc [_ Hn] [= <-].
  split; [intros k i; by left|]. exists g.1. split; [done|]. split; [exact (inv_below _ _ Hi)|]. split.
  { apply in_order_fewer; [done..|]. intros k i. cbn. intros [E _]%map_lookup_filter_Some. by exists i. }
  intros Hc' [[Hr _] _]. split; [apply (row_rewritten_items _ _ _ c); [exact Hr|by apply record_rows_same..]|].
  intros k o Ek. pose proof (written_lock _ _ _ _ _ Hc' Ek) as Hl.
  apply (first_record (dl_items c) (items (overlay c g.2)) (items (delete_items_of R (overlay c g.2))) k o Hn) in Ek as [Hd Ek].
  assert (V : rows (items (overlay c g.2)) = rows (items g.2)) by (cbn; by rewrite Hn, overlay_rows_empty).
  cbn [delete_items_of items set_field keep_rows rows] in Ek, Hd. destruct o as [i|].
  - exfalso. apply Hd. rewrite Ek. by apply map_lookup_filter_Some in Ek as [Ek _].
  - rewrite Ek in Hd. destruct (rows (items (overlay c g.2)) !! k) as [i|] eqn:Ei; [|done]. split; [done|]. exists i.
    split; [split; [exact Hl|by rewrite V in Ei]|]. apply map_lookup_filter_None in Ek as [Ek|Ek]; [congruence|].
    specialize (Ek i Ei). cbn in Ek. apply not_true_is_false, negb_false_iff, Z.eqb_eq in Ek. done.
Qed.
Lemma triple_rewrite_scanned replaces r r' claim kind its taxonomy :
  triple (rewritten (cl_receiptId claim) replaces r r') (tx_insertScannedItems claim kind its taxonomy)
    (fun _ => rewritten (cl_receiptId claim) replaces r r').
Proof.
  set (P := rewritten (cl_receiptId claim) replaces r r'). assert (HP : stable P) by (unfold P; auto with stable).
  apply triple_for_each; [done|]. intros item _. unfold tx_insert_scanned, tx_insert_item.
  eapply (triple_bind _ _ _ (fun _ => P)); [by apply triple_lift|]. intros input.
  eapply (triple_bind _ _ _ (fun _ => P)); [|intros id; by apply triple_ret].
  eapply (triple_bind _ _ _ (fun _ => P)).
  - destruct (ii_categoryId input) as [cat|]; [|by apply triple_ret].
    eapply triple_weaken; [apply (triple_require (cl_userId claim) cat kind P); [done|by intros c H g [[[-> _] _] _]]|done|].
    by intros _ c H g [].
  - intros []. eapply (triple_bind _ _ _ (fun _ => P)); [apply triple_add_item|].
    intros id. eapply triple_bind; [by apply triple_replaceTags|]. intros []. by apply triple_ret.
Qed.
(** The row's UPDATE. *)
Lemma triple_rewrite R replaces r f : triple (both clean (pinned TReceipts receipts R r)) (tchange_ (sql_update_receipt R f))
  (fun _ => both (rewritten R replaces r (f r)) no_items).
Proof.
  apply triple_change_; [auto with stable..|]. intros c H g d' Hi Hc [Hcl [_ Er]] E.
  destruct (clean_view _ _ _ Hcl) as (V1 & _). unfold sql_update_receipt in E. rewrite V1, Er in E.
  apply put_receipt_Ok in E as [-> _].
  split; [intros k i; by left|]. exists g.1. split; [done|]. split; [exact (inv_below _ _ Hi)|]. split; [by apply in_order_items|].
  intros _ [_ Hp]. pose proof Hcl as (C1 & C2 & C3 & C4).
  match goal with |- both _ _ ?c0 _ _ => assert (R4 : dl_items c0 = ∅) by (transitivity (dl_items c); [by apply record_rows_same|done]) end.
  split; [split|exact R4]; [|intros k o Eo; by rewrite R4, lookup_empty in Eo].
  split; [split|split; [split|exact Hp]].
  - transitivity (dl_categories c); [by apply record_rows_same|done].
  - transitivity (dl_images c); [by apply record_rows_same|done].
  - intros k o Ek. destruct (record_insert (dl_receipts c) (receipts (overlay c g.2)) (update_row R (f r) (receipts (overlay c g.2)))
      R (f r) k o eq_refl Ek) as [Eo|]; [|done]. rewrite C1 in Eo. cbn in Eo. by rewrite lookup_empty in Eo.
  - change (dl_receipts _) with (record_rows (dl_receipts c) (receipts (overlay c g.2)) (update_row R (f r) (receipts (overlay c g.2)))).
    rewrite lookup_record_rows. case_decide as Hd; [|done]. intros _. rewrite V1, Er in Hd. cbn in Hd.
    rewrite lookup_insert_eq in Hd. by injection Hd.
Qed.

(** At its commit the transaction has made the committed row what [scan_edit] says. *)
Definition scan_goal (claim : Claim) (result : ScanResult) (before : Snapshot) (m : bool) : Asn := fun c H g =>
  exists r r', rows (receipts g.2) !! cl_receiptId claim = Some r /\ scan_edit claim result before m r r' /\
    rows (receipts (overlay c g.2)) = <[cl_receiptId claim := r']> (rows (receipts g.2)) /\
    scan_items (cl_receiptId claim) (negb (sn_reviewed before)) (rows (items g.2)) (rows (items (overlay c g.2))).
Definition edited (claim : Claim) (result : ScanResult) (before : Snapshot) (m : bool) : Asn := fun c H g =>
  exists r r', (head r' = head r /\ scan_edit claim result before m r r') /\
    rewritten (cl_receiptId claim) (negb (sn_reviewed before)) r r' c H g.
Lemma stable_edited claim result before m : stable (edited claim result before m).
Proof.
  apply stable_ex. intros r. apply stable_ex. intros r'.
  apply (stable_and (fun _ _ _ => head r' = head r /\ scan_edit claim result before m r r')); auto with stable.
Qed.
Hint Resolve stable_edited : stable.
Lemma edited_commits claim result before m c H g : inv g.1 g.2 -> edited claim result before m c H g ->
  inv g.1 (overlay c g.2) /\ scan_goal claim result before m c H g.
Proof.
  intros Hi (r & r' & [Hh He] & Hw). split; [by eapply rewritten_commits|]. exists r, r'. split; [by destruct Hw as [(_ & _ & [_ ?]) _]|].
  split; [done|]. split; [by eapply rewritten_rows|by eapply rewritten_items].
Qed.

(** The two ways to write, from the locked row on. *)
Definition locked_row (R : Z) (r : receipt_row) : Asn := both clean (pinned TReceipts receipts R r).
Lemma stable_locked_row R r : stable (locked_row R r).
Proof. apply stable_and; auto with stable. Qed.
Hint Resolve stable_locked_row : stable.
Lemma triple_extract claim result taxonomy l r :
  triple (locked_row (cl_receiptId claim) r) (tx_writeExtraction claim result taxonomy l)
    (fun _ c H g => exists rules direction date raw t,
       (rulesFor (sr_kind result) = Ok rules /\ canonicalDirection rules = Some direction) /\
       rewritten (cl_receiptId claim) true r (extracted_row result direction date raw (sn_taxDeductible l && allowsTaxDeductible rules)
         (if canOffset rules then sn_offsetsReceiptId l else None) t r) c H g).
Proof.
  set (P := locked_row (cl_receiptId claim) r). assert (HP : stable P) by (unfold P; auto with stable).
  unfold tx_writeExtraction. destruct (rulesFor (sr_kind result)) as [rules|e|u]; [|by intros c H g _ g' _ _ _..].
  change (tlift (Ok rules)) with (tret rules). cbn [tbind tret].
  destruct (canonicalDirection rules) as [direction|] eqn:Ed; [|by apply triple_lift]. cbv zeta.
  eapply triple_bind; [by apply triple_now|]. intros t.
  eapply triple_bind; [apply (triple_lift P _ (fun _ => P)); auto|]. intros raw.
  eapply triple_bind; [apply (triple_lift P _ (fun _ => P)); auto|]. intros date.
  set (r' := extracted_row result direction date raw (sn_taxDeductible l && allowsTaxDeductible rules)
    (if canOffset rules then sn_offsetsReceiptId l else None) t r).
  eapply (triple_bind _ _ _ (fun _ => both (rewritten (cl_receiptId claim) true r r') no_items)); [apply triple_rewrite|]. intros [].
  eapply (triple_bind _ _ _ (fun _ => rewritten (cl_receiptId claim) true r r')); [apply triple_drop_items|].
  intros []. eapply triple_weaken; [apply triple_rewrite_scanned|done|]. intros [] c H g Hw.
  by exists rules, direction, date, raw, t.
Qed.
Lemma triple_confirm claim result taxonomy l m r :
  triple (locked_row (cl_receiptId claim) r) (tx_writeVerify claim result taxonomy l m)
    (fun _ c H g => exists date raw t, rewritten (cl_receiptId claim) false r (verified_row result date raw m t r) c H g).
Proof.
  set (P := locked_row (cl_receiptId claim) r). assert (HP : stable P) by (unfold P; auto with stable).
  unfold tx_writeVerify. eapply triple_bind; [by apply triple_now|]. intros t.
  eapply triple_bind; [apply (triple_lift P _ (fun _ => P)); auto|]. intros raw.
  eapply triple_bind; [apply (triple_lift P _ (fun _ => P)); auto|]. intros date.
  set (r' := verified_row result date raw m t r). set (K := rewritten (cl_receiptId claim) false r r').
  eapply (triple_bind _ _ _ (fun _ => K)).
  { eapply triple_weaken; [apply triple_rewrite|done|]. by intros [] c H g [Hw _]. }
  intros []. eapply (triple_weaken K _ _ (fun _ => K)); [|done|by intros _ c H g Hw; exists date, raw, t].
  destruct (sn_itemCount l =? 0); [apply triple_rewrite_scanned|apply triple_ret; unfold K; auto with stable].
Qed.
Lemma head_free r r' : rc_user_id r' = rc_user_id r -> head r' = head r.
Proof. intros E. unfold head, fixed_kind. by rewrite Hfree, E. Qed.
Lemma unchanged_seen before l : unchanged before l = true ->
  sn_updatedAt l = sn_updatedAt before /\ sn_reviewed l = sn_reviewed before.
Proof.
  unfold unchanged. intros Eu. apply andb_prop in Eu as [Eu _]. apply andb_prop in Eu as [Eu Er].
  apply bool_decide_eq_true in Eu. by apply eqb_prop in Er.
Qed.
Lemma triple_write_attempt claim result taxonomy before m :
  triple clean (tx_write_attempt claim result taxonomy before m)
    (fun e => match e with Commit _ => edited claim result before m | Rollback _ => fun _ _ _ => True end).
Proof.
  unfold tx_write_attempt. eapply triple_bind; [apply (triple_query clean _ (fun _ => clean)); auto with stable|]. intros n.
  eapply triple_bind; [apply triple_locked_read|]. intros [l|]; [|apply triple_ret; auto with stable].
  cbn [tx_write]. apply triple_ex. intros r. destruct (unchanged before l) eqn:Eu; [|apply triple_ret; auto with stable].
  apply unchanged_seen in Eu as [Eu Er].
  eapply (triple_bind _ _ _ (fun _ => edited claim result before m)); [|intros _; apply triple_ret; auto with stable].
  eapply (triple_weaken (both (fun _ _ _ => claimed claim r = true /\ exists k d, l = with_count k (snapshot_of (cl_receiptId claim) r d))
    (locked_row (cl_receiptId claim) r)) _ _ (fun _ => edited claim result before m)); [|by intros c H g (? & [? ?] & _)|done].
  apply triple_pure. intros (Hcl & k & d & El).
  assert (Hseen : pg_ts_out (rc_updated_at r) = sn_updatedAt before) by (rewrite <- Eu, El; done).
  assert (Hrev : bool_decide (is_Some (rc_reviewed_at r)) = sn_reviewed before) by (rewrite <- Er, El; done).
  rewrite Er. destruct (sn_reviewed before) eqn:Eb.
  - eapply triple_weaken; [apply triple_confirm|done|]. intros _ c H g (date & raw & t & Hw). eexists r, _.
    split; [|by rewrite Eb]. split; [by apply head_free|]. repeat split; [done..|by rewrite Eb|]. exists date, raw, t. by rewrite Eb.
  - eapply triple_weaken; [apply triple_extract|done|]. intros _ c H g (rules & direction & date & raw & t & [Hr Hd] & Hw).
    eexists r, _. split; [|by rewrite Eb]. split; [by apply head_free|]. repeat split; [done..|by rewrite Eb|]. exists date, raw, t.
    rewrite Eb. exists rules, direction. split; [done|]. split; [done|]. by rewrite El.
Qed.
End Rewrites.
