(* ===== verification/TxTheorems.v ===== *)
(** * Requests that overlap

    The results about requests and the worker's writes running statement by statement
    beside each other, on the machine of Transactions with the programs of TxServices
    and TxWorker: the advisory lock keeps the cap and the dedup check, the row locks
    keep categories on their side, a scan replaces no row but the one compared, and a
    request alone is the service method. *)
From S2P Require Import Prelude CString Binary64 Json Kinds JsonInput LedgerInput TokenUtils RateLimiter Env Db World.
From S2P Require Import ItemService ReceiptService ReferenceData ScanWorker Invariant Safety Examples ServiceTheorems ScanTheorems.
From S2P Require Import Transactions TxServices TxAlone Interleave TxLogic TxAssertions TxLedger TxPhotos TxRemovals TxReference TxWorker TxScans.
#[local] Open Scope string_scope.

(** The user a request insists for, and whether it names a receipt's kind. *)
Definition forces (Uq : Z * request) : option Z :=
  match Uq.2 with
  | Upload _ true | AddImages _ _ true => Some Uq.1
  | _ => None
  end.
Definition names_kind (q : request) : bool :=
  match q with UpdateReceipt _ body => has "kind" body | _ => false end.
(** Whether a scan's result may bring a kind: it is not written over a reviewed receipt. *)
Definition brings_kind `{PG : Postgres} (k : work) : bool :=
  match k with WriteScan _ _ _ before _ => negb (sn_reviewed before) | _ => false end.
(** At most [n] images per receipt, and no photograph twice unless its user insists. *)
Definition upload_terms (n : Z) (reqs : list (Z * request)) : Terms :=
  {| cap := n; forced := fun u => u ∈ omap forces reqs; kinds_fixed := false |}.

Section Requests.
Context `{PG : Postgres} `{IS : ImageStore} `{SO : Sodium} `{EN : Environment} `{VI : Vips} `{PL : Platform}.
Context `{JT : JsonText} (config_ : ScanWorkerConfig).

Lemma upload_prologue U images force p : prologue U (Upload images force) = Ok p ->
  exists m direction prepared, maxImagesPerReceipt = Ok m /\ Z.of_nat (length prepared) <= m /\
    p = tx_uploadReceipt U direction prepared force.
Proof.
  cbn [prologue]. intros H. apply obind_Ok in H as (m & Hm & H). destruct (Z.ltb_spec m (Z.of_nat (length images))); [done|].
  apply obind_Ok in H as (prepared & Hp & H). apply obind_Ok in H as (rules & _ & H).
  destruct (canonicalDirection rules) as [dir|]; [|done]. injection H as <-. exists m, dir, prepared.
  split; [done|]. split; [|done]. by rewrite (prepareImages_length _ _ Hp).
Qed.

(** Every request of the ledger is safe. *)
Lemma request_safe `{TE : Terms} U q p b d : prologue U q = Ok p ->
  (forall m, maxImagesPerReceipt = Ok m -> m <= cap) -> (forall u, forces (U, q) = Some u -> forced u) ->
  (kinds_fixed = true -> names_kind q = false) -> safe p no_changes [] (settles no_goal) (b, d).
Proof.
  intros Hp Hmax Hforce Hkind.
  assert (Hent : forall R (p : Tx (ending R)), triple clean p (fun _ => entries) -> safe p no_changes [] (settles no_goal) (b, d)).
  { intros R p' Ht. by apply (triple_safe _ _ _ _ Ht commits_entries). }
  assert (Hdrop : forall R (p : Tx (ending R)), triple clean p (fun _ => drops) -> safe p no_changes [] (settles no_goal) (b, d)).
  { intros R p' Ht. apply (triple_safe _ _ _ _ Ht). intros a c H g Hi _ Hd. by eapply drops_commits. }
  assert (Hclean : forall R (p : Tx (ending R)), triple clean p (fun _ => clean) -> safe p no_changes [] (settles no_goal) (b, d)).
  { intros R p' Ht. apply Hent. eapply triple_weaken; [exact Ht|done|]. intros a c H g. apply clean_entries. }
  assert (Helse : forall B R (s : Db -> outcome (B * Db)) (k : B -> R), (forall d b d', s d = Ok (b, d') -> elsewhere d d') ->
    safe (tx_statement s k) no_changes [] (settles no_goal) (b, d)).
  { intros B R s k Hs. by apply Hclean, triple_elsewhere. }
  destruct q as [r body|r i body|r i|images force|r images force|body|r body|r|r|body|id body|id|body|id body|id|body|id body|id].
  - cbn in Hp. apply obind_Ok in Hp as (input & _ & [= <-]). apply Hent, triple_create_item.
  - injection Hp as <-. apply Hent, triple_update_item.
  - injection Hp as <-. apply Hdrop, triple_remove_item.
  - apply upload_prologue in Hp as (m & dir & prepared & Hm & Hlen & ->).
    eapply triple_safe; [apply triple_uploadReceipt|apply commits_stored].
    + pose proof (Hmax m Hm). lia.
    + intros ->. by apply Hforce.
  - injection Hp as <-. eapply triple_safe; [apply triple_addImages; [exact Hmax|intros ->; by apply Hforce]|].
    intros a c H g Hi Hc [prepared Hs]. exact (commits_stored U prepared a c H g Hi Hc Hs).
  - cbn in Hp. apply obind_Ok in Hp as (input & _ & [= <-]). apply Hent, triple_createManual.
  - injection Hp as <-. by apply Hent, triple_updateReceipt.
  - injection Hp as <-. apply Hent, triple_retryScan.
  - injection Hp as <-. apply Hdrop, triple_deleteReceipt.
  - cbn in Hp. apply obind_Ok in Hp as (nm & _ & Hp). apply obind_Ok in Hp as (side & _ & [= <-]).
    eapply triple_safe; [apply triple_create_category|]. intros a c H g Hi _ [id Ha]. by eapply category_added_commits.
  - cbn in Hp. repeat (apply obind_Ok in Hp as (? & _ & Hp)). injection Hp as <-.
    eapply triple_safe; [apply triple_update_category|]. intros a c H g Hi _ [row Hf]. by eapply flips_commits.
  - injection Hp as <-. apply Hdrop, triple_remove_category.
  - cbn in Hp. apply obind_Ok in Hp as (nm & _ & [= <-]). apply Helse, (insert_elsewhere _ _ tags). by intros u d'.
  - cbn in Hp. apply obind_Ok in Hp as (nm & _ & [= <-]). apply Helse. intros d0 b0 d'.
    destruct (owned_tag U id d0); [|by intros [= _ <-]]. intros E. by apply obind_Ok in E as (d1 & ->%update_unique_Ok & [= _ <-]).
  - injection Hp as <-. apply Helse. intros d0 b0 d'. unfold delete_owned. by destruct (owned_tag U id d0); intros [= _ <-].
  - cbn in Hp. apply obind_Ok in Hp as (nm & _ & Hp). apply obind_Ok in Hp as (st & _ & [= <-]).
    apply Helse, (insert_elsewhere _ _ payment_methods). by intros u d'.
  - cbn in Hp. repeat (apply obind_Ok in Hp as (? & _ & Hp)). injection Hp as <-. apply Helse. intros d0 b0 d'.
    destruct (owned_payment_method U id d0); [|by intros [= _ <-]]. intros E.
    by apply obind_Ok in E as (d1 & ->%update_unique_Ok & [= _ <-]).
  - injection Hp as <-. apply Hdrop, triple_remove_payment_method.
Qed.

(** So is everything the scan worker does. *)
Lemma work_safe `{TE : Terms} (k : work) b d : (kinds_fixed = true -> brings_kind k = false) ->
  exists R (p : Tx (ending R)), work_task config_ k = start p /\ safe p no_changes [] (settles no_goal) (b, d).
Proof.
  intros Hk. destruct k as [claim result taxonomy before m|claim scanError cap| |skipped]; eexists _, _; (split; [reflexivity|]).
  - destruct kinds_fixed eqn:Ef.
    + eapply triple_safe; [apply triple_verify; by apply negb_false_iff, Hk|]. intros a c H g Hi Hc He. by eapply (commits_entries a).
    + eapply triple_meets; [by apply triple_write_attempt|]. intros a c H g Hi _ He. split; [|done].
      by destruct (edited_commits Ef _ _ _ _ _ _ _ Hi He).
  - eapply triple_safe; [apply triple_fail|apply commits_entries].
  - eapply triple_safe; [apply triple_reclaim|apply commits_entries].
  - eapply triple_safe; [apply triple_claim|apply commits_entries].
Qed.

(** One task for every request that gets as far as the database, one for each part of
    the worker's doing. *)
Definition tasks (reqs : list (Z * request)) (works : list work) : list Task :=
  omap task_of reqs ++ map (work_task config_) works.
Definition beside (reqs : list (Z * request)) (works : list work) (w : World) : Sys := mkSys w (tasks reqs works).
Lemma tasks_safe `{TE : Terms} reqs works b d t :
  (forall m, maxImagesPerReceipt = Ok m -> m <= cap) -> (forall u, u ∈ omap forces reqs -> forced u) ->
  (kinds_fixed = true -> Forall (fun Uq => names_kind Uq.2 = false) reqs /\ Forall (fun k => brings_kind k = false) works) ->
  t ∈ tasks reqs works -> exists R (p : Tx (ending R)), t = start p /\ safe p no_changes [] (settles no_goal) (b, d).
Proof.
  intros Hmax Hforced Hkind [Ht|Ht]%elem_of_app.
  - apply list_elem_of_omap in Ht as (Uq & Hin & Ht). unfold task_of in Ht. destruct Uq as [U q]. cbn in Ht.
    destruct (prologue U q) as [p| |] eqn:Ep; [|done..]. injection Ht as <-. exists (result q), p. split; [done|].
    eapply request_safe; [exact Ep|exact Hmax| |].
    + intros u Hu. apply Hforced, list_elem_of_omap. by exists (U, q).
    + intros [Hf _]%Hkind. rewrite Forall_forall in Hf. by apply (Hf (U, q)).
  - apply list_elem_of_In, in_map_iff in Ht as (k & <- & Hin). apply work_safe. intros [_ Hf]%Hkind.
    rewrite Forall_forall in Hf. by apply Hf, list_elem_of_In.
Qed.
Lemma start_inv `{TE : Terms} d : db_ok d -> images_ok d -> (kinds_fixed = true -> sides_ok d) -> inv (births_of d) d.
Proof. intros Hok. destruct (ok_below _ Hok) as (Bc & _ & _ & Br & _ & _). by apply inv_births. Qed.
Lemma requests_keep `{TE : Terms} reqs works (schedule : list Event) (w : World) :
  (forall m, maxImagesPerReceipt = Ok m -> m <= cap) -> (forall u, u ∈ omap forces reqs -> forced u) ->
  (kinds_fixed = true -> Forall (fun Uq => names_kind Uq.2 = false) reqs /\ Forall (fun k => brings_kind k = false) works) ->
  db_ok (w_db w) -> images_ok (w_db w) -> (kinds_fixed = true -> sides_ok (w_db w)) ->
  exists b, inv b (w_db (s_world (run schedule (beside reqs works w)))).
Proof.
  intros Hmax Hforced Hkind Hok Him Hs.
  destruct (run_safe (fun _ => no_goal) (births_of (w_db w)) w (tasks reqs works) schedule) as [b Hb];
    [by apply start_inv|apply (ok_below _ Hok)| |by exists b; apply (ss_inv _ _ _ Hb)].
  intros i t Ei%list_elem_of_lookup_2. by apply (tasks_safe reqs works).
Qed.
Lemma db_ok_sides d : db_ok d -> sides_ok d.
Proof.
  intros Hok k i Ei. destruct (ok_items _ Hok k i Ei) as (u & kind & Er & Hf).
  apply rhead_Some in Er as (r & Er & _ & <-). exists r. split; [done|]. intros c Ec.
  destruct (Hf c Ec) as (side & Es & Hfit). unfold chead in Es. rewrite lookup_fmap, fmap_Some in Es.
  destruct Es as (cr & Ecr & [= _ ->]). by exists cr.
Qed.
Lemma db_ok_image d k i : db_ok d -> rows (receipt_images d) !! k = Some i ->
  exists r, rows (receipts d) !! im_receipt_id i = Some r /\ rc_user_id r = im_user_id i.
Proof.
  intros Hok E. pose proof (ok_images _ Hok k i E) as Hi. unfold image_ok, rhead in Hi. rewrite lookup_fmap in Hi.
  destruct (rows (receipts d) !! im_receipt_id i) as [r|]; [|done]. injection Hi as Hu. by exists r.
Qed.

(** Terms anything satisfies: as many images as there are, everybody may insist. *)
Definition loose_terms (d : Db) (fixed : bool) : Terms :=
  {| cap := Z.max (Z.of_nat (base.size (rows (receipt_images d)))) (match maxImagesPerReceipt with Ok m => m | _ => 0 end);
     forced := fun _ => True; kinds_fixed := fixed |}.
Lemma loose_images d fixed : db_ok d -> images_ok (TE := loose_terms d fixed) d.
Proof.
  intros Hok. split; [by intros k i; apply db_ok_image| |by intros k1 k2 i1 i2 _ _ _ _ []].
  intros r. rewrite image_count_size. cbn. etransitivity; [|apply Z.le_max_l]. apply Nat2Z.inj_le.
  apply map_subseteq_size, map_filter_subseteq.
Qed.
Lemma loose_cap d fixed m : maxImagesPerReceipt = Ok m -> m <= cap (Terms := loose_terms d fixed).
Proof. intros Hm. unfold loose_terms. cbn [cap]. rewrite Hm. lia. Qed.

(** C3: The cap and the dedup check hold however requests and scans overlap: if, to begin
    with, no receipt has more than MAX_IMAGES_PER_RECEIPT images and no user has a
    photograph on two receipts, this stays so under every schedule of any requests
    and any work of the scan worker, statement by statement, cancelled transactions
    included.  Only users who insist ([force]) may repeat a photograph.  The images
    stay on receipts of their users. *)
Theorem uploads_serialized (n : Z) (reqs : list (Z * request)) (works : list work) (schedule : list Event) (w : World) :
  maxImagesPerReceipt = Ok n -> db_ok (w_db w) -> images_ok (TE := upload_terms n reqs) (w_db w) ->
  images_ok (TE := upload_terms n reqs) (w_db (s_world (run schedule (beside reqs works w)))).
Proof.
  intros Hn Hok Him. destruct (requests_keep (TE := upload_terms n reqs) reqs works schedule w) as [b Hi];
    [|done..|exact (inv_images _ _ Hi)].
  intros m Hm. rewrite Hn in Hm. injection Hm as ->. cbn. lia.
Qed.

(** C4: No item ends on the wrong side: while no request names the kind of an existing receipt
    and no scan is written over a receipt that awaits its first review, every item is
    on an existing receipt and its category is an existing one on the side of the
    receipt's kind, under every schedule of any requests and worker's doings: item
    writes, category flips and deletes, entries, uploads, deletes of receipts, scans that
    verify. *)
Theorem sides_serialized (reqs : list (Z * request)) (works : list work) (schedule : list Event) (w : World) :
  db_ok (w_db w) -> Forall (fun Uq => names_kind Uq.2 = false) reqs -> Forall (fun k => brings_kind k = false) works ->
  sides_ok (w_db (s_world (run schedule (beside reqs works w)))).
Proof.
  intros Hok Hkind Hwork. pose (TE := loose_terms (w_db w) true).
  destruct (requests_keep (TE := TE) reqs works schedule w) as [b Hi];
    [apply loose_cap|done|done|done|by apply loose_images|intros _; by apply db_ok_sides|exact (inv_sides _ _ Hi eq_refl)].
Qed.

(** C6: A scan's result replaces the receipt's row committed last, or nothing: however
    the write's statements interleave with requests and with other work, a turn of it
    leaves the committed receipts and items as they are, or replaces one row, the one
    committed last, by what the scan makes of that row, which the claim still holds
    and which has the update time and the review state the worker has read: an edit
    of the row that moved its update time is not overwritten.  The same turn leaves
    the items of all other receipts as they are, and adds only items of this receipt
    under ids that were free; a scan over a reviewed receipt changes and removes no
    item at all.  A scan that replaces an unreviewed entry removes that entry's items,
    among them one saved while it waited for the row ([extraction_drops_saved_item]):
    nothing is promised for those. *)
Theorem scan_replaces_last_row (reqs : list (Z * request)) (works : list work) (schedule : list Event) (w : World)
    (claim : Claim) (result : ScanResult) (taxonomy : Taxonomy) (before : Snapshot) (allMatch : bool) :
  db_ok (w_db w) ->
  let s := run schedule (mkSys w (work_task config_ (WriteScan claim result taxonomy before allMatch) :: tasks reqs works)) in
  let committed := w_db (s_world s) in
  let after := w_db (s_world (turn 0 s)) in
  (rows (receipts after) = rows (receipts committed) /\ rows (items after) = rows (items committed)) \/
  ((exists r r', rows (receipts committed) !! cl_receiptId claim = Some r /\ scan_edit claim result before allMatch r r' /\
      rows (receipts after) = <[cl_receiptId claim := r']> (rows (receipts committed))) /\
   (forall k i, rows (items committed) !! k = Some i -> it_receipt_id i <> cl_receiptId claim \/ sn_reviewed before = true ->
      rows (items after) !! k = Some i) /\
   (forall k i, rows (items after) !! k = Some i -> rows (items committed) !! k = Some i \/
      (it_receipt_id i = cl_receiptId claim /\ rows (items committed) !! k = None))).
Proof.
  intros Hok s. pose (TE := loose_terms (w_db w) false).
  pose (goal := fun i : nat => if i is O then scan_goal claim result before allMatch else no_goal).
  destruct (run_safe (TE := TE) goal (births_of (w_db w)) w
    (work_task config_ (WriteScan claim result taxonomy before allMatch) :: tasks reqs works) schedule) as [b Hb].
  - apply (start_inv (TE := TE)); [done|by apply loose_images|done].
  - apply (ok_below _ Hok).
  - intros [|i] t E.
    + injection E as <-. eexists _, _. split; [reflexivity|].
      eapply (triple_meets (TE := TE)); [by apply triple_write_attempt|]. intros a c H g Hi _ He. by eapply edited_commits.
    + change (tasks reqs works !! i = Some t) in E. apply list_elem_of_lookup_2 in E.
      apply (tasks_safe (TE := TE) reqs works); [apply loose_cap|done|done|exact E].
  - destruct (turn_commits _ _ _ 0 Hb) as [E|(c & H & (r & r' & Er & He & Eo & Hk & Hn) & E)]; [by left|right].
    cbv zeta. fold s in Hk, Hn, Eo, Er, E. cbv zeta in *. rewrite E.
    split; [by exists r, r'|]. split; [|exact Hn]. intros k i Ek Hor. apply Hk; [exact Ek|].
    destruct Hor as [|Hv]; [by left|right; by rewrite Hv].
Qed.

(** C5: A request alone on the machine is the service method: either its prologue ends it
    before the first statement, or its transaction, given turns, reaches its end, and
    the epilogue makes of that the world and the answer of the method. *)
Theorem request_alone (U : Z) (q : request) (w : World) :
  match prologue U q with
  | Ok p => exists turns r w', run (repeat (Turn 0) turns) (mkSys w [start p]) = mkSys w' [mkTask (result q) (Ended r)] /\
              perform U q w = epilogue U q r w'
  | Throw e => perform U q w = (Throw e, w)
  | UB u => perform U q w = (UB u, w)
  end.
Proof.
  pose proof (perform_alone U q w) as E. unfold in_parts in E. rewrite bind_lift in E.
  destruct (prologue U q) as [p|e|u]; [|done..]. destruct (machine_alone p w) as [turns Ht].
  destruct (transactionE (alone p) w) as [r w']. by exists turns, r, w'.
Qed.
End Requests.

(** ** Small runs *)

Definition double_tap : list (Z * request) := [(1, Upload ["pixels"] false); (1, Upload ["pixels"] false)].
(** The second upload begins first, then they take turns. *)
Definition taking_turns (n : nat) : list Event := Turn 1 :: concat (repeat [Turn 0; Turn 1] n).
Lemma uploads_serialized_witness :
  images_ok (TE := upload_terms 8 double_tap) (w_db (s_world (run (taking_turns 20) (beside default_config double_tap [] ex_manual_world)))).
Proof.
  apply (uploads_serialized default_config 8 double_tap [] (taking_turns 20) ex_manual_world); [by_vm|exact ex_manual_ok|].
  split; [intros k i; done| |intros k1 k2 i1 i2; done]. intros r. vm_compute. discriminate.
Defined.
(** Both uploads have come to an end: the first to begin stored the photograph, the
    other was told so. *)
Lemma double_tap_ends :
  map (fun t => match t_progress t with Running _ _ _ => false | Ended r => is_ok r end)
    (s_tasks (run (taking_turns 20) (beside default_config double_tap [] ex_manual_world))) = [true; true] /\
  image_count 2 (w_db (s_world (run (taking_turns 20) (beside default_config double_tap [] ex_manual_world)))) = 1.
Proof. split; vm_compute; reflexivity. Qed.

Definition a_purchase_item : json := JObject [("amount_cents", JInteger 100); ("category_id", JInteger 1)].
Definition to_income_side : json := JObject [("is_income", JBool true)].
Definition item_and_flip : list (Z * request) := [(1, ItemCreate 2 a_purchase_item); (1, CategoryUpdate 1 to_income_side)].
Lemma sides_serialized_witness :
  sides_ok (w_db (s_world (run (taking_turns 20) (beside default_config item_and_flip [] ex_uploaded)))).
Proof.
  apply (sides_serialized default_config item_and_flip [] (taking_turns 20) ex_uploaded); [exact ex_uploaded_ok| |by apply Forall_nil].
  repeat (apply Forall_cons; split; [reflexivity|]). by apply Forall_nil.
Defined.

(** The scan of an upload is about to be written while its user adds a note. *)
Definition a_note : json := JObject [("note", JString "lunch")].
Definition scan_and_note : Sys :=
  mkSys ex_claimed (work_task default_config (WriteScan ex_claim ex_ok ex_tx (ex_snapshot_of ex_claimed) true) ::
                    tasks default_config [(1, UpdateReceipt 2 a_note)] []).
(** The scan locks the receipt first, the edit waits; the next turn commits the scan. *)
Definition scan_first : list Event := [Turn 0; Turn 0; Turn 1] ++ repeat (Turn 0) 6.
Definition edit_first : list Event := [Pass 1; Turn 1; Turn 0; Turn 0] ++ repeat (Turn 1) 8 ++ repeat (Turn 0) 8.
Lemma scan_replaces_last_row_witness :
  let s := run scan_first scan_and_note in
  let committed := w_db (s_world s) in
  let after := w_db (s_world (turn 0 s)) in
  (rows (receipts after) = rows (receipts committed) /\ rows (items after) = rows (items committed)) \/
  ((exists r r', rows (receipts committed) !! 2 = Some r /\ scan_edit ex_claim ex_ok (ex_snapshot_of ex_claimed) true r r' /\
      rows (receipts after) = <[2 := r']> (rows (receipts committed))) /\
   (forall k i, rows (items committed) !! k = Some i -> it_receipt_id i <> 2 \/ sn_reviewed (ex_snapshot_of ex_claimed) = true ->
      rows (items after) !! k = Some i) /\
   (forall k i, rows (items after) !! k = Some i -> rows (items committed) !! k = Some i \/
      (it_receipt_id i = 2 /\ rows (items committed) !! k = None))).
Proof.
  apply (scan_replaces_last_row default_config [(1, UpdateReceipt 2 a_note)] [] scan_first ex_claimed
           ex_claim ex_ok ex_tx (ex_snapshot_of ex_claimed) true).
  exact ex_claimed_ok.
Defined.
Definition scan_and_note_on (w : World) : option (option string * string) :=
  (fun r => (er_note (rc_fields r), rc_scan_state r)) <$> rows (receipts (w_db w)) !! 2.
(** Both orders keep the note; the scan is written over what it has seen, or not at all. *)
Lemma scan_and_note_ends :
  scan_and_note_on (s_world (turn 0 (run scan_first scan_and_note))) = Some (None, scan_state.kIdle) /\
  scan_and_note_on (s_world (run (scan_first ++ Turn 0 :: repeat (Turn 1) 8) scan_and_note)) = Some (Some "lunch", scan_state.kIdle) /\
  scan_and_note_on (s_world (run edit_first scan_and_note)) = Some (Some "lunch", scan_state.kScanning).
Proof. split; [|split]; vm_compute; reflexivity. Qed.
