(* ===== verification/Divergences.v ===== *)
(** * Where the code and its messages part

    Small facts that show inputs on which the code does something its error messages,
    comments or schema do not say. *)
From stdpp Require Import sorting.
From S2P Require Import Prelude CString Binary64 Json Kinds JsonInput LedgerInput TokenUtils RateLimiter Env Db World.
From S2P Require Import ItemService ReceiptService ReferenceData AuthService Http ScanWorker.
From S2P Require Import Strtod Sigv4Signer Anthropic ScanServices Startup Harness Invariant Safety Examples ScanQueue.
From S2P Require Import ScanTheorems Transactions TxServices Interleave TxWorker TxTheorems.

(** JsonInput.cpp, [date]: "must be a YYYY-MM-DD string" is checked per character
    only; std::stoi stops at a dash, or reads a leading one as a sign. *)
Lemma date_accepts_dashes (f : string) :
  JsonInput.date (JString "2026-1--01") f = Ok "2026-1--01"%string.
Proof. reflexivity. Qed.
Lemma date_accepts_negative_year (f : string) : JsonInput.date (JString "-202-01-01") f = Ok "-202-01-01"%string.
Proof. reflexivity. Qed.
(** Dashes alone escape as std::invalid_argument, which the receipt routes answer with
    a 500 and the scan worker books as an infrastructure failure. *)
Lemma date_throws_stoi (f : string) : JsonInput.date (JString "2026-01---") f = Throw (InvalidArgument "stoi").
Proof. reflexivity. Qed.

(** A rate survives a re-scan that makes the receipt AUD (ScanWorker.cpp,
    [writeExtraction], does not write it); from then on every edit that touches
    neither the currency nor the rate is refused. *)
Lemma stale_rate_blocks_edits (r r' : EditableReceipt) (body : json) (m : bool) :
  er_currency r = "AUD"%string -> is_Some (er_fxRateToAud r) ->
  has "currency" body = false -> has "fx_rate_to_aud" body = false -> applyReceiptPatch r body <> Ok (r', m).
Proof.
  intros Hc Hf Hbc Hbf H. apply applyReceiptPatch_Ok in H.
  pose proof (cp_currency _ _ _ (ps_common _ _ _ _ H)) as Hpc. pose proof (cp_fx _ _ _ (ps_common _ _ _ _ H)) as Hpf.
  pose proof (ps_valid _ _ _ _ H) as Hv. unfold patched in *. unfold has in Hbc, Hbf.
  destruct (find "currency" body); [done|]. destruct (find "fx_rate_to_aud" body); [done|].
  unfold validateReceipt in Hv. ok_inv. rewrite Hpc, Hpf, Hc in Hv.
  rewrite (bool_decide_true _ Hf), bool_decide_true in Hv; done.
Qed.

Section Scan.
Context `{PG : Postgres} `{IS : ImageStore} `{SO : Sodium} `{JT : JsonText}.
Lemma extraction_keeps_rate (result : ScanResult) (direction : string) (date : option string) (raw : json) (tax : bool)
    (offsets : option Z) (t : Z) (r : receipt_row) :
  er_currency (rc_fields (extracted_row result direction date raw tax offsets t r)) = sr_currency result /\
  er_fxRateToAud (rc_fields (extracted_row result direction date raw tax offsets t r)) = er_fxRateToAud (rc_fields r) /\
  rc_aud_equivalent_cents (extracted_row result direction date raw tax offsets t r) = rc_aud_equivalent_cents r.
Proof. split; [reflexivity|split; reflexivity]. Qed.

(** ReceiptController.cpp, [list]: a paging parameter that is not a number leaves the
    handler as an exception instead of a client error. *)
Lemma bad_limit_escapes (req : Request) (U : Z) (w : World) :
  rq_param req "limit" = "many"%string -> list_handler req U w = (Throw (InvalidArgument "stoi"), w).
Proof. intros H. unfold list_handler, mbind, lift, page_limit. by rewrite H. Qed.
End Scan.

(** ScanServices.cpp, [checkedAnthropicConfig]: a time-out that is not a number compares
    false with everything, so the check lets it through; so does 0, which Drogon takes as
    no time-out at all. *)
Definition env_with_timeout (timeout : string) : Environment := fun name =>
  if decide (name = "ANTHROPIC_API_KEY"%string) then Some "key"%string
  else if decide (name = "SCAN_TIMEOUT_SECONDS"%string) then Some timeout else None.
Lemma nan_timeout_accepted : exists config,
  checkedAnthropicConfig (EN := env_with_timeout "nan") = Ok config /\ timeoutSeconds config = SpecFloat.S754_nan.
Proof. eexists. split; vm_compute; reflexivity. Qed.
Lemma zero_timeout_accepted : exists config,
  checkedAnthropicConfig (EN := env_with_timeout "0") = Ok config /\ timeoutSeconds config = dzero.
Proof. eexists. split; vm_compute; reflexivity. Qed.

Section Reply.
Context `{JT : JsonText}.
(** AnthropicScanProvider.cpp, [parseResponse]: only the reading of the model's text is
    inside the [try]; a content block that is not an object lets the JSON library's
    exception out, which the worker books as an infrastructure failure. *)
Lemma malformed_block_escapes (body : string) (context : ScanContext) `{PL : Platform} :
  json_parse body = Ok (JObject [("content", JArray [JString "text"])]%string) ->
  parseResponse body context = Throw (JsonException "cannot use value()").
Proof. intros H. unfold parseResponse, parse_or_discard. rewrite H. reflexivity. Qed.

(** [toCents] of a number whose cents exceed int64 is whatever [std::llround] returns
    then, on x86-64 the smallest int64, whose magnitude [std::llabs] does not have. *)
Lemma huge_total_undefined : llabs (toCents (PL := x86_platform) (of_int (10 ^ 18))) = UB "llabs overflow".
Proof. vm_compute. reflexivity. Qed.

(** golden_harness.cpp reads [want["name"]] of a constant label after [value] has
    supplied a default for it: a label without a name is undefined behaviour. *)
Lemma unnamed_label_undefined (group : string) (result : option ScanResult) (acc : list bool * Score) `{PL : Platform} :
  score_item group result acc (JObject [("amount", JUnsigned 4)]%string) = UB "operator[] of a missing key".
Proof. by destruct acc. Qed.
End Reply.

(** golden_harness.cpp, [merchantMatches]: a name without ASCII letters and digits is
    squashed to nothing and matches no name, not even itself. *)
Lemma foreign_name_unmatched : merchantMatches "***" (Some "***"%string) = false.
Proof. reflexivity. Qed.

(** main.cpp casts the port to 16 bits: one out of range is another port, not an error. *)
Definition env_with (name' value : string) : Environment := fun name =>
  if decide (name = name') then Some value else None.
Lemma port_wraps : exists config, dbConfig (EN := env_with "DB_PORT" "70968") = Ok config /\ pc_port config = 5432.
Proof. eexists. split; vm_compute; reflexivity. Qed.
(** The body limit is fixed for eight images of the largest size, while the cap is read
    from the environment: with a cap of nine, nine such images are no request. *)
Lemma nine_images_too_large :
  maxImagesPerReceipt (EN := env_with "MAX_IMAGES_PER_RECEIPT" "9") = Ok 9 /\ clientMaxBodySize < 9 * kMaxImageBytes.
Proof. split; [vm_compute; reflexivity|reflexivity]. Qed.

(** ItemService.cpp, [create] reads the receipt's kind without a lock.  If the receipt is
    made an income entry between that read and the insert, both requests succeed and a
    spending category ends on an income receipt.  So [sides_serialized] needs that
    no request names a kind. *)
Definition to_income : json := JObject [("kind", JString "income")]%string.
Definition race : list (Z * request) := [(1, ItemCreate 2 a_purchase_item); (1, UpdateReceipt 2 to_income)].
(** The first request reads the kind, the second runs to its end, the first goes on. *)
Definition racing : list Event := Turn 0 :: repeat (Turn 1) 12 ++ repeat (Turn 0) 15.
Definition raced : Sys := run racing (beside default_config race [] ex_uploaded).
Definition ended_well (t : Task) : bool := match t_progress t with Ended r => is_ok r | _ => false end.
Lemma unlocked_kind_race :
  map ended_well (s_tasks raced) = [true; true] /\ sides_ok (w_db ex_uploaded) /\ ~ sides_ok (w_db (s_world raced)).
Proof.
  split; [by_vm|]. split; [apply db_ok_sides, ex_uploaded_ok|]. intros Hs.
  assert (E : it_category_id <$> rows (items (w_db (s_world raced))) !! 2 = Some (Some 1)) by by_vm.
  destruct (rows (items (w_db (s_world raced))) !! 2) as [i|] eqn:Ei; [|done]. injection E as Ec.
  destruct (Hs 2 i Ei) as (r & Er & Hc). destruct (Hc 1 Ec) as (cr & Ecr & Hf).
  assert (Ek : (fun r => er_kind (rc_fields r)) <$> rows (receipts (w_db (s_world raced))) !! 2 = Some "income"%string) by by_vm.
  assert (Ed : c_is_income <$> rows (categories (w_db (s_world raced))) !! 1 = Some false) by by_vm.
  assert (Er2 : it_receipt_id <$> rows (items (w_db (s_world raced))) !! 2 = Some 2) by by_vm.
  rewrite Ei in Er2. injection Er2 as Er2. rewrite Er2 in Er. rewrite Er in Ek. rewrite Ecr in Ed.
  injection Ek as Ek. injection Ed as Ed. rewrite Ek, Ed in Hf. vm_compute in Hf. discriminate Hf.
Qed.

(** ScanWorker.cpp, [applyResult]: the write re-reads the row under its lock and starts
    over when the items have changed, so that a verify scan only adds items where
    there are none.  But the count is taken as of the beginning of the statement that
    waits for the lock: an item committed during that wait is not counted, and the
    scan's items are put beside it. *)
Definition adding_while_scanned : Sys :=
  mkSys ex_reviewed (work_task default_config (WriteScan ex_claim ex_ok ex_tx (ex_snapshot_of ex_reviewed) false) ::
                     tasks default_config [(1, ItemCreate 2 a_purchase_item)] []).
(** The item is inserted, the scan begins to wait, the item is committed, the scan goes on. *)
Definition added_meanwhile : Sys :=
  run (repeat (Turn 1) 6 ++ [Turn 0; Turn 0] ++ repeat (Turn 1) 5 ++ repeat (Turn 0) 12) adding_while_scanned.
Lemma verify_adds_beside :
  item_count 2 (w_db ex_reviewed) = 0 /\ sn_reviewed (ex_snapshot_of ex_reviewed) = true /\
  map ended_well (s_tasks added_meanwhile) = [true; true] /\ item_count 2 (w_db (s_world added_meanwhile)) = 2.
Proof. repeat split; by_vm. Qed.

(** The same wait in front of an extraction scan.  [writeExtraction] first deletes the
    items of the receipt; that statement begins after the wait and sees the item
    committed meanwhile, which the comparison did not: an item the user has saved, and
    was told so, is deleted unread.  Item 2 is the user's; what is left is the scan's. *)
Definition adding_while_extracted : Sys :=
  mkSys ex_claimed (work_task default_config (WriteScan ex_claim ex_ok ex_tx (ex_snapshot_of ex_claimed) true) ::
                    tasks default_config [(1, ItemCreate 2 a_purchase_item)] []).
Definition waiting : list Event := repeat (Turn 1) 6 ++ [Turn 0; Turn 0] ++ repeat (Turn 1) 5.
Definition extraction_waited : Sys := run waiting adding_while_extracted.
Definition extraction_went_on : Sys := run (repeat (Turn 0) 12) extraction_waited.
Definition items_of (s : Sys) : list (Z * Z) := map_to_list (it_receipt_id <$> rows (items (w_db (s_world s)))).
Lemma extraction_drops_saved_item :
  sn_itemCount (ex_snapshot_of ex_claimed) = 0 /\
  map ended_well (s_tasks extraction_waited) = [false; true] /\ items_of extraction_waited = [(2, 2); (1, 1)] /\
  map ended_well (s_tasks extraction_went_on) = [true; true] /\ items_of extraction_went_on = [(3, 2); (1, 1)].
Proof. repeat split; by_vm. Qed.

(** ReceiptService.cpp, [listImages]: created_at is selected as it is, so the list of a
    receipt's photographs carries the text Postgres writes for a timestamptz, while
    every other time of the interface is converted to ISO-8601 UTC. *)
Lemma image_times_raw `{PG : Postgres} `{IS : ImageStore} (U rid : Z) (w w' : World) (l : list ImageRef) :
  listImages U rid w = (Ok l, w') ->
  forall i, i ∈ l -> exists im, rows (receipt_images (w_db w)) !! ir_id i = Some im /\
    ir_createdAt i = pg_ts_out (im_created_at im).
Proof.
  unfold listImages, mbind, query. destruct (owned_receipt U rid (w_db w)); [|done]. cbn. intros [= <- <-] i Hi.
  change (i ∈ (fun kv : Z * image_row => mkImageRef kv.1 (pg_ts_out (im_created_at kv.2))) <$>
    merge_sort image_created_le (select (fun i => im_receipt_id i =? rid) (receipt_images (w_db w)))) in Hi.
  apply list_elem_of_fmap in Hi as ([k im] & -> & Hk). rewrite merge_sort_Permutation in Hk.
  apply select_elem in Hk as [E _]. by exists im.
Qed.
